(* ===== verification/_CoqProject ===== *)
-Q . S2P
Prelude.v
GoPrim.v
GoStrconv.v
GoBase64.v
GoCalendar.v
GoTime.v
GoTimeZone.v
GoUtf8.v
GoFloat.v
Lorawan.v
GoJson.v
GoJsonFuel.v
GoJsonValid.v
GoNumText.v
GoFloatText.v
GoFloatRound.v
GoJsonTyped.v
GoJsonLaws.v
Payload.v
PayloadLaws.v
Structs.v
GoNet.v
GoSync.v
Registry.v
Convert.v
Backend.v
BackendLaws.v
System.v
SystemLaws.v
SystemRuns.v
Waiting.v
Metrics.v
GoDuration.v
TtnTypes.v
Streams.v
Ttn.v
Downstream.v
TtnLaws.v
TtnSystem.v
TtnInvariant.v
StreamRuns.v
Typing.v
Bridge.v
BridgeLaws.v
Unlocking.v
Wired.v
BridgeRuns.v
WiredRuns.v
Shutdown.v
GwJson.v
GwPublish.v
Mqtt.v
MqttPublish.v
Gitter.v
