(* ===== verification/Prelude.v ===== *)
(** * The LoRa packet-forwarder bridge

    A verification development of the gateway bridge: a Go program that speaks
    the UDP protocol of the Semtech packet forwarder with LoRa gateways and
    relays their packets to a network, The Things Network over gRPC or, in an
    earlier form that is still in the tree, a MQTT broker.  File names below
    are relative to [src/].

    ** The program and its parts

    A gateway sends PUSH_DATA (received frames and statistics) and PULL_DATA
    (keep-alive, which also tells where downlink datagrams go).  The
    packet-forwarder backend decodes each datagram in a goroutine of its own,
    acknowledges it, keeps a registry of the gateways that pull, and hands
    frames and statistics to two channels.  [run] of the program reads these
    channels and publishes to the network backend; it reads the network
    backend's channel of packets to transmit and sends each one to its gateway
    as a PULL_RESP.  The registry calls the network backend back when a gateway
    appears and when one is forgotten.

    - [Structs], [Payload]: the packets and their JSON payloads
      ([gateway/structs.go], [gateway/packettype_string.go]);
    - [Registry]: the type [gateways] of [gateway/backend.go], and the class
      [Subscriber], the contract of its callbacks with a network backend;
    - [Convert]: the conversions of [gateway/backend.go] and [gateway/ip.go];
    - [Backend]: the handlers of [gateway/backend.go] as programs of atomic
      actions (type [prog]), with [exec] running one of them alone;
    - [GoSync]: [sync.WaitGroup], with the panic of a group that is used again
      before all who waited have returned;
    - [System]: the goroutines of the backend and the loops of [run] as a step
      relation over the state [system] (registry and its lock, handlers in flight,
      reader, sender, wait group, progress of [Close], what was received and
      written), parametric in the network backend's state, with an executable
      scheduler [run_actions].  A send on one of the unbuffered channels is a step
      only when the other side is ready; [get] and [set] of the registry are steps
      only while no clean-up holds the lock; a clean-up takes a step for each
      gateway, and one more when [onDelete] waited;
    - [Lorawan], [GwJson], [GwPublish]: the vendored data types [EUI64],
      [band.DataRate] and the packets of [api/gw], the JSON of a packet to
      transmit, and that of received packets and statistics;
    - [Metrics], [GoDuration], [TtnTypes]: the rate meter of go-metrics, the
      router's messages, buffered channels and data-rate text, the account
      server's view of a gateway;
    - [Streams], [Downstream]: the goroutines behind the streams, in the
      vendored [api/router/client_streams.go]: the monitor and the two
      goroutines of each session of a stream that sends, the subscription loop of
      a downlink stream, their wait groups and [Close];
    - [Ttn], [TtnSystem]: [backend/thethingsnetwork/backend.go] and [util.go];
      its state, operations and goroutines, and their steps;
    - [Bridge]: [cmd/lora-gateway-bridge/main.go]; options, set-up, and the
      whole program as a step relation over both backends, with the deferred
      [Close] of the packet-forwarder backend;
    - [Shutdown]: the other deferred call, [Close] of The Things Network backend,
      one call of a stream's [Close] after the other, among the goroutines that are
      still running;
    - [Wired]: the whole program with the goroutines of [Streams] behind the
      uplink and status streams of each gateway, which share their channel;
    - [Mqtt]: [backend/mqttpubsub/backend.go] over an interface [MqttClient] of
      the client library with its laws [MqttLaws];
    - [Gitter]: [docs/static/js/gitter.js], in an evaluator for the JavaScript
      it uses.

    The [Go*] files model the parts of the Go standard library these use, as of
    Go 1.8: machine integers ([GoPrim]), [strconv] ([GoStrconv]), base64,
    UTF-8, IP addresses, [time] layouts, zones and the calendar, binary64 arithmetic
    and its shortest decimal text, [encoding/json] ([GoJson], [GoJsonTyped]).

    ** What the theorems show

    - [Structs], [PayloadLaws]: every well-formed packet survives marshalling
      and unmarshalling; the fixed packets decode exactly their encodings; no
      input makes a decoder panic.
    - [Registry]: lookup after update, and, for every [Subscriber], that each
      operation keeps the registered gateways the subscribed ones.
    - [Convert]: frequencies survive the trip through floating-point megahertz,
      payloads and data rates through their text.
    - [BackendLaws]: what each handler does, on its error branches too.
    - [SystemLaws]: in every interleaving, only justified datagrams are written,
      the registered gateways are the subscribed ones, a clean-up removes what was
      stale when it looked, a handler waits only for what the sender, a loop or the
      clean-up will give it, and every panic is explained; one of them, a datagram
      sent on the channel that [Close] closed, can always be brought about.
      [SystemRuns] runs the backend on concrete datagrams.
    - [Typing]: decoders, conversions and what is published stay within the Go
      types of the fields, whatever the datagrams hold; the strings of a decoded
      text are UTF-8 ([GoJsonValid]).
    - [Streams], [Downstream]: a stream accounts for every message; it delivers
      its buffer unless a sender failed, and is blocked for good when one did at
      the wrong moment; a downlink channel is closed once; [Close] ends a session,
      but not the attempts between two sessions.  [StreamRuns] shows that these
      goroutines refine the channels of [Ttn], and that the bad runs exist, with
      an executable scheduler.
    - [TtnLaws], [TtnInvariant]: the conversions to and from router messages,
      which messages crash the consumer, the rate limit, statistics,
      credentials, and the invariant of streams and consumers.
    - [BridgeLaws]: what set-up leaves; a run of the program is a run of [System]
      over the steps of [Ttn], hence the end-to-end statements: a PULL_RESP on the
      wire goes back to a message on the gateway's own stream, a message to the
      router goes back to a frame with a good CRC the gateway sent; a gateway is
      registered exactly while its downlink stream is not closed; and what can
      crash the program, the clean-up included.  [Unlocking]: a clean-up that waits
      for the router with the registry's lock held can always give it back.
      [BridgeRuns] runs the program on concrete datagrams.
    - [Wired]: the same for what the router receives, session by session; the
      program with its streams refines the program, and leaves no step of it out.
      [WiredRuns] runs a frame from a gateway to the router.
    - [Shutdown]: closing the network backend in any reachable state can always
      return, with every stream and client closed, unless it panics; it panics when
      it is woken during another attempt of a stream, or when a publisher that is
      still running sends on a closed one.
    - [Waiting]: once the socket is closed nothing more is read or written, and
      the end of [Close] is reached, whatever the interleaving; but a goroutine
      that starts late is missed, or makes [Close] panic.
    - [Mqtt]: the broker's subscriptions follow the registry through lost
      connections, as far as the broker grants them.
    - [GwPublish], [MqttPublish]: whatever the gateways send, what the
      packet-forwarder backend hands over is published as JSON that its reader
      decodes to the same packet, or refused when its year does not fit.

    ** Fuel and bounds

    The JSON parser recurses on fuel, twice the length of the text, and the
    unquoting of strings on their length; [GoJsonFuel] proves that more never
    changes a result.  Decimal text recurses on the size of the number, and the
    search for the shortest text of a float stops at seventeen digits, which
    [GoFloatText] shows to read back exactly.  The retry loop of [onConnected]
    has as fuel the number of attempts; more of it never changes a result, and
    with none of the attempts answered the loop goes on, as in the code.
    Integers have the width of their Go types, with [int] of 64 bits; floats
    are binary64 and binary32, conversions out of range as on amd64.

    ** Choices

    - An [UnmarshalBinary] that fails leaves its receiver half written; no
      caller looks at it then, and the model discards it.
    - A nil and an empty slice of received packets are not told apart.
    - An instant is its nanoseconds since the Unix epoch, without its location:
      the JSON of the MQTT backend shows it in that location, whose offset is an
      argument of the encoders ([off]).  The zone abbreviations [time.Parse]
      knows are a parameter ([HostZone]), as is [math.Exp] ([MathExp]).
    - Log entries of the handlers are kept as events; elsewhere logging is left
      out.
    - A step of a publishing goroutine or handler is one action on shared state.
      The registry's lock is explicit, as [onDelete] is called with it held and may
      block; the critical sections of the network backends' own locks never block
      before [Close] and are single steps.
    - [Bridge] ends where [Close] of the network backend starts, and [Shutdown]
      starts in any of its states.

    ** Not modelled

    The operating system's sockets (their datagrams are the inputs and outputs
    of [System]), signals, gRPC (what its calls return is arbitrary), TLS, the
    HTTP of the account server, the passing of time (a back-off is computed in
    [Streams], and may end at any moment).  The package
    comment [doc.go], the build files, the tests, the other vendored libraries
    and the third-party scripts of the documentation theme are not program logic
    of this repository. *)

From Stdlib Require Import String Ascii.
From stdpp Require Import base gmap strings list fin_maps relations.

(** ** Go errors and results *)

(** An [error] value.  [ErrMsg] is [errors.New] (or an [fmt.Errorf] whose text
    is fully known); [ErrWrap m e] is [fmt.Errorf (m ++ "%s", e)]; the sentinel
    variables of the sources are constructors of their own; [ErrLib pkg] is an
    error made inside a package of the Go standard library, of which the
    sources only test that it is not nil; [ErrExt] is an error made by the
    network, the operating system or a remote service. *)
Inductive error : Type :=
| ErrMsg (m : string)
| ErrWrap (m : string) (e : error)
| ErrInvalidProtocolVersion
| ErrGatewayDoesNotExist
| ErrLib (pkg : string)
| ErrExt (what : string).

#[export] Instance error_eq_dec : EqDecision error.
Proof. solve_decision. Defined.

(** The outcome of running a piece of Go code that returns [(A, error)]:
    a value, a non-nil error, or a run-time panic. *)
Inductive result (A : Type) : Type :=
| Ok (a : A)
| Err (e : error)
| Panic (why : string).

Arguments Ok {A} a.
Arguments Err {A} e.
Arguments Panic {A} why.

Definition rbind {A B : Type} (r : result A) (k : A → result B) : result B :=
  match r with
  | Ok a => k a
  | Err e => Err e
  | Panic w => Panic w
  end.

(** [if err != nil { return fmt.Errorf(m + "%s", err) }] *)
Definition rwrap {A : Type} (m : string) (r : result A) : result A :=
  match r with
  | Err e => Err (ErrWrap m e)
  | _ => r
  end.

Definition no_panic {A : Type} (r : result A) : Prop :=
  match r with Panic _ => False | _ => True end.

Definition is_ok {A : Type} (r : result A) : bool :=
  match r with Ok _ => true | _ => false end.

Declare Scope go_scope.
Delimit Scope go_scope with go.
Open Scope go_scope.

Notation "'let*' p := c 'in' k" :=
  (rbind c (fun p => k))
  (at level 10, p name, c at level 100, k at level 200) : go_scope.

#[export] Instance result_eq_dec {A} `{EqDecision A} : EqDecision (result A).
Proof. solve_decision. Defined.

#[export] Instance Ok_inj A : Inj (=) (=) (@Ok A).
Proof. by intros a b [= ->]. Qed.

Lemma rbind_ok {A B} (r : result A) (k : A → result B) b :
  rbind r k = Ok b ↔ ∃ a, r = Ok a ∧ k a = Ok b.
Proof. destruct r; simpl; naive_solver. Qed.

Lemma rbind_no_panic {A B} (r : result A) (k : A → result B) :
  no_panic r → (∀ a, r = Ok a → no_panic (k a)) → no_panic (rbind r k).
Proof. destruct r; simpl; auto. Qed.

Lemma rwrap_no_panic {A} m (r : result A) : no_panic r → no_panic (rwrap m r).
Proof. by destruct r. Qed.

Lemma rwrap_ok {A} m (r : result A) a : rwrap m r = Ok a ↔ r = Ok a.
Proof. destruct r; simpl; naive_solver. Qed.

(** ** Automation *)

Create HintDb go_db.
#[export] Hint Resolve rbind_no_panic rwrap_no_panic : go_db.
#[export] Hint Constructors Forall NoDup : go_db.

(** Case analysis on the scrutinee of the first [match] or [if] of the goal. *)
Ltac case_goal :=
  match goal with
  | |- context [match ?x with _ => _ end] => destruct x eqn:?
  end.

(** Case analysis on the scrutinee of the first [match] of a hypothesis. *)
Ltac case_hyp H :=
  match type of H with
  | context [match ?x with _ => _ end] => destruct x eqn:?
  end.

(** Inverts a successful monadic computation into its successful steps. *)
Ltac inv_ok :=
  repeat match goal with
  | H : Ok _ = Ok _ |- _ => injection H as H
  | H : Err _ = Ok _ |- _ => discriminate H
  | H : Panic _ = Ok _ |- _ => discriminate H
  | H : Ok _ = Err _ |- _ => discriminate H
  | H : Ok _ = Panic _ |- _ => discriminate H
  | H : rbind ?r _ = Ok _ |- _ =>
      let a := fresh "a" in let Ha := fresh "Ha" in
      apply rbind_ok in H as (a & Ha & H)
  | H : rwrap _ _ = Ok _ |- _ => apply rwrap_ok in H
  end.

(** ** Generic lemmas on lists *)

Lemma take_app_exact {A} (l k : list A) n : n = length l → take n (l ++ k) = l.
Proof. intros ->. apply take_app_length. Qed.

Lemma drop_app_exact {A} (l k : list A) n : n = length l → drop n (l ++ k) = k.
Proof. intros ->. apply drop_app_length. Qed.

Lemma Forall_app_2 {A} (P : A → Prop) l k : Forall P l → Forall P k → Forall P (l ++ k).
Proof. intros. by apply Forall_app. Qed.

#[export] Hint Resolve Forall_app_2 : go_db.

(** ** Generic lemmas on runs *)

(** What every step preserves holds after a run. *)
Lemma rtc_preserved {A} (R : relation A) (P : A → Prop) x y :
  (∀ a b, P a → R a b → P b) → P x → rtc R x y → P y.
Proof. intros HR Hx Hr. induction Hr as [|a b c Hs _ IH]; [done|]. apply IH. by eapply HR. Qed.
