(* ===== verification/GoPrim.v ===== *)
(** * Go primitives

    Machine integers, bytes, byte slices, little-endian 16-bit access
    ([encoding/binary]) and hexadecimal text ([encoding/hex]), as far as the
    bridge uses them.  An integer of a Go type is a [Z]; a conversion [T(x)]
    is the wrap-around of the type [T] written out. *)

From Stdlib Require Import String Ascii NArith ZArith Lia.
From stdpp Require Import base list strings numbers.
From S2P Require Import Prelude.

Local Open Scope Z_scope.

(** ** Integer conversions *)

Definition wrap_u (w z : Z) : Z := z mod 2 ^ w.
Definition wrap_s (w z : Z) : Z := (z + 2 ^ (w - 1)) mod 2 ^ w - 2 ^ (w - 1).

Definition to_uint8 : Z → Z := wrap_u 8.
Definition to_uint16 : Z → Z := wrap_u 16.
Definition to_uint32 : Z → Z := wrap_u 32.
Definition to_uint64 : Z → Z := wrap_u 64.
Definition to_int8 : Z → Z := wrap_s 8.
Definition to_int16 : Z → Z := wrap_s 16.
Definition to_int32 : Z → Z := wrap_s 32.
Definition to_int64 : Z → Z := wrap_s 64.
(** [int] is 64 bits wide on the platforms the model describes. *)
Definition to_int : Z → Z := to_int64.

Definition in_u (w z : Z) : bool := (0 <=? z) && (z <? 2 ^ w).
Definition in_s (w z : Z) : bool := (- 2 ^ (w - 1) <=? z) && (z <? 2 ^ (w - 1)).

Lemma wrap_u_id w z : 0 ≤ w → in_u w z = true → wrap_u w z = z.
Proof.
  unfold in_u, wrap_u. rewrite andb_true_iff, Z.leb_le, Z.ltb_lt.
  intros ? [??]. apply Z.mod_small. lia.
Qed.

Lemma wrap_u_range w z : 0 ≤ w → in_u w (wrap_u w z) = true.
Proof.
  intros. unfold in_u, wrap_u.
  pose proof (Z.mod_pos_bound z (2 ^ w) ltac:(apply Z.pow_pos_nonneg; lia)).
  rewrite andb_true_iff, Z.leb_le, Z.ltb_lt. lia.
Qed.

Lemma wrap_s_id w z : 0 < w → in_s w z = true → wrap_s w z = z.
Proof.
  unfold in_s, wrap_s. rewrite andb_true_iff, Z.leb_le, Z.ltb_lt. intros ? [??].
  assert (2 ^ w = 2 * 2 ^ (w - 1)) as Hw.
  { rewrite <- Z.pow_succ_r by lia. f_equal; lia. }
  rewrite Z.mod_small; lia.
Qed.

(** ** Checking a decidable property on a range of integers *)

Fixpoint zrange_check (P : Z → bool) (fuel : nat) (lo : Z) : bool :=
  match fuel with
  | O => true
  | S fuel => P lo && zrange_check P fuel (lo + 1)
  end.

Lemma zrange_check_spec P fuel lo : zrange_check P fuel lo = true →
  ∀ x, lo ≤ x < lo + Z.of_nat fuel → P x = true.
Proof.
  revert lo. induction fuel as [|fuel IH]; intros lo H x Hx; [lia|].
  cbn [zrange_check] in H. apply andb_true_iff in H as [H1 H2].
  destruct (Z.eq_dec x lo) as [->|]; [done|]. eapply IH; [done|]. lia.
Qed.

(** ** Bytes and byte slices *)

Abbreviation byte := ascii.
Abbreviation bytes := (list ascii).

Definition byte_of_Z (z : Z) : byte := ascii_of_N (Z.to_N (z mod 256)).
Definition Z_of_byte (b : byte) : Z := Z.of_N (N_of_ascii b).

(** [[]byte(s)] and [string(b)] *)
Definition to_bytes : string → bytes := String.list_ascii_of_string.
Definition to_string : bytes → string := String.string_of_list_ascii.

Lemma Z_of_byte_range b : 0 ≤ Z_of_byte b < 256.
Proof.
  unfold Z_of_byte. pose proof (N_ascii_bounded b). lia.
Qed.

Lemma Z_of_byte_in_u b : in_u 8 (Z_of_byte b) = true.
Proof.
  pose proof (Z_of_byte_range b). unfold in_u.
  rewrite andb_true_iff, Z.leb_le, Z.ltb_lt. lia.
Qed.

Lemma Z_of_byte_of_Z z : Z_of_byte (byte_of_Z z) = z mod 256.
Proof.
  unfold Z_of_byte, byte_of_Z. pose proof (Z.mod_pos_bound z 256 ltac:(lia)).
  rewrite N_ascii_embedding by lia. lia.
Qed.

Lemma byte_of_Z_of_byte b : byte_of_Z (Z_of_byte b) = b.
Proof.
  unfold byte_of_Z. rewrite Z.mod_small by apply Z_of_byte_range.
  unfold Z_of_byte. rewrite N2Z.id. apply ascii_N_embedding.
Qed.

Lemma Z_of_byte_inj a b : Z_of_byte a = Z_of_byte b → a = b.
Proof. intros H. by rewrite <- (byte_of_Z_of_byte a), H, byte_of_Z_of_byte. Qed.

Lemma byte_u8 z : in_u 8 z = true → Z_of_byte (byte_of_Z z) = z.
Proof. intros H. rewrite Z_of_byte_of_Z. by apply (wrap_u_id 8). Qed.

Lemma to_string_of_bytes s : to_string (to_bytes s) = s.
Proof. apply String.string_of_list_ascii_of_string. Qed.

Lemma to_bytes_of_string b : to_bytes (to_string b) = b.
Proof. apply String.list_ascii_of_string_of_list_ascii. Qed.

Lemma to_bytes_app s t : to_bytes (s +:+ t) = to_bytes s ++ to_bytes t.
Proof. induction s as [|c s IH]; simpl; [done|]. by f_equal. Qed.

Create Rewrite HintDb go_rw.
#[export] Hint Rewrite to_string_of_bytes to_bytes_of_string to_bytes_app
  Z_of_byte_of_Z byte_of_Z_of_byte : go_rw.

(** [strings.Trim(s, c)] for a cutset of one byte *)
Fixpoint trim_left (c : byte) (s : bytes) : bytes :=
  match s with
  | b :: t => if bool_decide (b = c) then trim_left c t else s
  | [] => []
  end.

Definition trim (c : byte) (s : bytes) : bytes := rev (trim_left c (rev (trim_left c s))).

(** [l[i]]: a run-time panic when the index is out of range. *)
Definition index {A} (l : list A) (i : nat) : result A :=
  match l !! i with
  | Some a => Ok a
  | None => Panic "index out of range"
  end.

(** [l[i:]], for a slice whose capacity is its length. *)
Definition slice_from {A} (l : list A) (i : nat) : result (list A) :=
  if (i <=? length l)%nat then Ok (drop i l) else Panic "slice bounds out of range".

Lemma index_ok {A} (l : list A) i : (i < length l)%nat → ∃ a, index l i = Ok a.
Proof.
  intros H. apply lookup_lt_is_Some_2 in H as [a Ha]. exists a. unfold index. by rewrite Ha.
Qed.

Lemma index_no_panic {A} (l : list A) i : (i < length l)%nat → no_panic (index l i).
Proof. intros H. by destruct (index_ok l i H) as [a ->]. Qed.

Lemma slice_from_ok {A} (l : list A) i : (i <= length l)%nat → slice_from l i = Ok (drop i l).
Proof. intros H. unfold slice_from. by rewrite (proj2 (Nat.leb_le _ _) H). Qed.

Lemma slice_from_no_panic {A} (l : list A) i :
  (i <= length l)%nat → no_panic (slice_from l i).
Proof. intros H. by rewrite slice_from_ok. Qed.

#[export] Hint Resolve index_no_panic slice_from_no_panic : go_db.

(** ** [binary.LittleEndian] on 16-bit words *)

(** [binary.LittleEndian.PutUint16(out[off:off+2], v)] *)
Definition PutUint16 (out : bytes) (off : nat) (v : Z) : bytes :=
  <[S off := byte_of_Z (Z.shiftr v 8)]> (<[off := byte_of_Z v]> out).

(** [binary.LittleEndian.Uint16(b[off:off+2])] *)
Definition Uint16 (b : bytes) (off : nat) : result Z :=
  let* lo := index b off in
  let* hi := index b (S off) in
  Ok (Z.lor (Z_of_byte lo) (Z.shiftl (Z_of_byte hi) 8)).

Lemma Uint16_no_panic b off : (S off < length b)%nat → no_panic (Uint16 b off).
Proof.
  intros H. unfold Uint16.
  apply rbind_no_panic; [apply index_no_panic; lia|intros lo _].
  apply rbind_no_panic; [apply index_no_panic; lia|done].
Qed.

#[export] Hint Resolve Uint16_no_panic : go_db.

(** A disjunction of parts that do not overlap is a sum. *)
Lemma lor_disjoint_add hi k lo :
  0 ≤ k → 0 ≤ lo < 2 ^ k → Z.lor (Z.shiftl hi k) lo = hi * 2 ^ k + lo.
Proof.
  intros Hk Hlo.
  assert (Z.land (Z.shiftl hi k) lo = 0) as Hd.
  { apply Z.bits_inj'. intros n Hn. rewrite Z.land_spec, Z.bits_0.
    destruct (Z.ltb_spec n k).
    - by rewrite Z.shiftl_spec_low by lia.
    - rewrite <- (Z.mod_small lo (2 ^ k)) by lia.
      by rewrite Z.mod_pow2_bits_high, andb_false_r by lia. }
  rewrite <- Z.lxor_lor, <- Z.add_nocarry_lxor by done.
  by rewrite Z.shiftl_mul_pow2 by lia.
Qed.

Lemma lor_mul_add hi k lo :
  0 ≤ k → 0 ≤ lo < 2 ^ k → Z.lor (hi * 2 ^ k) lo = hi * 2 ^ k + lo.
Proof.
  intros. rewrite <- (lor_disjoint_add hi k lo) by done.
  by rewrite Z.shiftl_mul_pow2 by lia.
Qed.

Lemma lor_shiftl_bytes lo hi :
  0 ≤ lo < 256 → Z.lor lo (Z.shiftl hi 8) = lo + 256 * hi.
Proof. intros. rewrite Z.lor_comm, lor_disjoint_add by lia. lia. Qed.

(** Reading back a 16-bit word that was just written. *)
Lemma Uint16_PutUint16 out off v :
  (S off < length out)%nat → in_u 16 v = true → Uint16 (PutUint16 out off v) off = Ok v.
Proof.
  unfold in_u. rewrite andb_true_iff, Z.leb_le, Z.ltb_lt. intros Hlen Hv.
  unfold Uint16, PutUint16, index.
  rewrite list_lookup_insert_ne by lia.
  rewrite !list_lookup_insert_eq by (rewrite ?length_insert; lia). simpl.
  rewrite !Z_of_byte_of_Z, lor_shiftl_bytes by (apply Z.mod_pos_bound; lia).
  rewrite Z.shiftr_div_pow2 by lia. f_equal.
  change (2 ^ 8) with 256. change (2 ^ 16) with 65536 in *.
  rewrite (Z.mod_small (v / 256)) by (split; [apply Z.div_pos|apply Z.div_lt_upper_bound]; lia).
  pose proof (Z.div_mod v 256). lia.
Qed.

Lemma Uint16_ext b b' off :
  b !! off = b' !! off → b !! S off = b' !! S off → Uint16 b off = Uint16 b' off.
Proof. unfold Uint16, index. by intros -> ->. Qed.

Lemma Uint16_range b off v : Uint16 b off = Ok v → in_u 16 v = true.
Proof.
  unfold Uint16. intros H. inv_ok. subst.
  rewrite lor_shiftl_bytes by apply Z_of_byte_range.
  pose proof (Z_of_byte_range a). pose proof (Z_of_byte_range a0).
  unfold in_u. rewrite andb_true_iff, Z.leb_le, Z.ltb_lt. lia.
Qed.

(** ** [encoding/hex] *)

Definition hex_digit (n : Z) : byte :=
  byte_of_Z (if n <? 10 then 48 + n else 87 + n).

Definition from_hex_char (c : byte) : option Z :=
  let z := Z_of_byte c in
  if (48 <=? z) && (z <=? 57) then Some (z - 48)
  else if (97 <=? z) && (z <=? 102) then Some (z - 97 + 10)
  else if (65 <=? z) && (z <=? 70) then Some (z - 65 + 10)
  else None.

(** [hex.EncodeToString] *)
Fixpoint hex_encode (b : bytes) : bytes :=
  match b with
  | [] => []
  | c :: b =>
      let z := Z_of_byte c in
      hex_digit (Z.shiftr z 4) :: hex_digit (Z.land z 15) :: hex_encode b
  end.

(** [hex.DecodeString]: an odd length or a character that is not a
    hexadecimal digit is an error. *)
Fixpoint hex_decode (b : bytes) : result bytes :=
  match b with
  | [] => Ok []
  | [_] => Err (ErrLib "hex")
  | c1 :: c2 :: b =>
      match from_hex_char c1, from_hex_char c2 with
      | Some h, Some l =>
          let* rest := hex_decode b in
          Ok (byte_of_Z (Z.lor (Z.shiftl h 4) l) :: rest)
      | _, _ => Err (ErrLib "hex")
      end
  end.

Lemma all_bytes (P : byte → bool) :
  forallb (λ n, P (ascii_of_nat n)) (seq 0 256) = true → ∀ b, P b = true.
Proof.
  intros H b. rewrite <- (ascii_nat_embedding b).
  rewrite forallb_forall in H. apply (H (nat_of_ascii b)).
  apply in_seq. pose proof (nat_ascii_bounded b). lia.
Qed.

Definition hex_byte_ok (c : byte) : bool :=
  let z := Z_of_byte c in
  match from_hex_char (hex_digit (Z.shiftr z 4)), from_hex_char (hex_digit (Z.land z 15)) with
  | Some h, Some l => bool_decide (byte_of_Z (Z.lor (Z.shiftl h 4) l) = c)
  | _, _ => false
  end.

Lemma hex_byte_all c : hex_byte_ok c = true.
Proof. revert c. apply all_bytes. vm_compute. reflexivity. Qed.

Lemma hex_decode_encode b : hex_decode (hex_encode b) = Ok b.
Proof.
  induction b as [|c b IH]; simpl; [done|].
  pose proof (hex_byte_all c) as Hc. unfold hex_byte_ok in Hc.
  repeat case_goal; try done. rewrite IH. simpl.
  by apply bool_decide_eq_true_1 in Hc as ->.
Qed.

Lemma length_hex_encode b : length (hex_encode b) = (2 * length b)%nat.
Proof. induction b; simpl; lia. Qed.

Lemma length_hex_decode b b' : hex_decode b = Ok b' → length b = (2 * length b')%nat.
Proof.
  revert b b'. fix IH 1. intros [|c1 [|c2 b]] b' H; simpl in H; inv_ok; [by subst|].
  repeat case_hyp H; inv_ok; subst. simpl. apply IH in Ha. lia.
Qed.

(** Arithmetic guards as propositions. *)
Lemma in_u_spec w z : in_u w z = true ↔ 0 ≤ z < 2 ^ w.
Proof. unfold in_u. rewrite andb_true_iff, Z.leb_le, Z.ltb_lt. lia. Qed.

Lemma in_s_spec w z : in_s w z = true ↔ - 2 ^ (w - 1) ≤ z < 2 ^ (w - 1).
Proof. unfold in_s. rewrite andb_true_iff, Z.leb_le, Z.ltb_lt. lia. Qed.
