(* ===== verification/GoStrconv.v ===== *)
(** * Decimal text: [strconv] and the [%d] verb

    [FormatUint], [FormatInt], [ParseUint], [ParseInt] and [Atoi] in base 10,
    with the bit-size check of the parsers, and the round trips. *)

From Stdlib Require Import String Ascii NArith ZArith Lia.
From stdpp Require Import base list strings numbers.
From S2P Require Import Prelude GoPrim.

Local Open Scope Z_scope.

(** ** Printing *)

Definition digit_char (d : Z) : byte := byte_of_Z (48 + d).

Definition digit_val (c : byte) : option Z :=
  let z := Z_of_byte c in
  if (48 <=? z) && (z <=? 57) then Some (z - 48) else None.

Definition is_digit (c : byte) : bool :=
  match digit_val c with Some _ => true | None => false end.

Fixpoint dec_loop (fuel : nat) (n : Z) (acc : bytes) : bytes :=
  match fuel with
  | O => acc
  | S fuel =>
      let acc := digit_char (n mod 10) :: acc in
      if n <? 10 then acc else dec_loop fuel (n / 10) acc
  end.

(** The number of binary digits bounds the number of decimal ones. *)
Definition dec_fuel (n : Z) : nat := S (Z.to_nat (Z.log2 n)).

(** [strconv.FormatUint(n, 10)] *)
Definition FormatUint (n : Z) : bytes := dec_loop (dec_fuel n) n [].

(** [strconv.FormatInt(n, 10)], which is also what [%d] prints. *)
Definition FormatInt (n : Z) : bytes :=
  if n <? 0 then "-"%char :: FormatUint (- n) else FormatUint n.

(** ** Parsing *)

(** The value of a run of decimal digits, most significant first. *)
Fixpoint digits_val (acc : Z) (s : bytes) : option Z :=
  match s with
  | [] => Some acc
  | c :: s =>
      match digit_val c with
      | Some d => digits_val (10 * acc + d) s
      | None => None
      end
  end.

(** [strconv.ParseUint(s, 10, bits)] *)
Definition ParseUint (s : bytes) (bits : Z) : result Z :=
  match s with
  | [] => Err (ErrLib "strconv")
  | _ =>
      match digits_val 0 s with
      | Some v => if v <? 2 ^ bits then Ok v else Err (ErrLib "strconv")
      | None => Err (ErrLib "strconv")
      end
  end.

(** [strconv.ParseInt(s, 10, bits)] *)
Definition ParseInt (s : bytes) (bits : Z) : result Z :=
  match s with
  | "-"%char :: s' =>
      let* un := ParseUint s' 64 in
      if un <=? 2 ^ (bits - 1) then Ok (- un) else Err (ErrLib "strconv")
  | "+"%char :: s' =>
      let* un := ParseUint s' 64 in
      if un <? 2 ^ (bits - 1) then Ok un else Err (ErrLib "strconv")
  | _ =>
      let* un := ParseUint s 64 in
      if un <? 2 ^ (bits - 1) then Ok un else Err (ErrLib "strconv")
  end.

(** [strconv.Atoi(s)] *)
Definition Atoi (s : bytes) : result Z := ParseInt s 64.

(** ** Round trips *)

Lemma digit_val_char d : 0 ≤ d < 10 → digit_val (digit_char d) = Some d.
Proof.
  intros Hd. unfold digit_val, digit_char.
  rewrite Z_of_byte_of_Z, Z.mod_small by lia.
  rewrite (proj2 (Z.leb_le _ _)), (proj2 (Z.leb_le _ _)) by lia. simpl. f_equal. lia.
Qed.

Lemma digit_val_range c d : digit_val c = Some d → 0 ≤ d < 10.
Proof.
  unfold digit_val. case_goal; intros; simplify_eq.
  rewrite andb_true_iff, !Z.leb_le in *. lia.
Qed.

Lemma is_digit_char d : 0 ≤ d < 10 → is_digit (digit_char d) = true.
Proof. intros Hd. unfold is_digit. by rewrite digit_val_char. Qed.

Lemma digits_val_app acc s t :
  digits_val acc (s ++ t) = (v ← digits_val acc s; digits_val v t).
Proof.
  revert acc. induction s as [|c s IH]; intros acc; simpl; [done|].
  by destruct (digit_val c).
Qed.

Lemma dec_loop_acc fuel n acc : dec_loop fuel n acc = dec_loop fuel n [] ++ acc.
Proof.
  revert n acc. induction fuel as [|fuel IH]; intros n acc; simpl; [done|].
  case_goal; [done|]. rewrite IH, (IH _ [_]), <- app_assoc. done.
Qed.

Lemma dec_loop_digits fuel n :
  0 ≤ n → n < 2 ^ Z.of_nat fuel → Forall (λ c, is_digit c = true) (dec_loop fuel n []).
Proof.
  revert n. induction fuel as [|fuel IH]; intros n H0 Hn; simpl; [constructor|].
  pose proof (Z.mod_pos_bound n 10 ltac:(lia)).
  case_goal; [repeat constructor; by apply is_digit_char|].
  rewrite dec_loop_acc. apply Forall_app_2; [|repeat constructor; by apply is_digit_char].
  apply IH; [apply Z.div_pos; lia|].
  apply Z.div_lt_upper_bound; [lia|].
  rewrite Nat2Z.inj_succ, Z.pow_succ_r in Hn by lia. lia.
Qed.

Lemma dec_loop_val fuel n :
  0 ≤ n → n < 2 ^ Z.of_nat fuel → digits_val 0 (dec_loop fuel n []) = Some n.
Proof.
  revert n. induction fuel as [|fuel IH]; intros n H0 Hn.
  - simpl in *. f_equal. change (2 ^ Z.of_nat 0) with 1 in Hn. lia.
  - simpl. pose proof (Z.mod_pos_bound n 10 ltac:(lia)).
    destruct (Z.ltb_spec n 10).
    + simpl. rewrite Z.mod_small, digit_val_char by lia. f_equal; lia.
    + rewrite dec_loop_acc, digits_val_app, IH.
      * simpl. rewrite digit_val_char by lia. f_equal.
        pose proof (Z.div_mod n 10). lia.
      * apply Z.div_pos; lia.
      * apply Z.div_lt_upper_bound; [lia|].
        rewrite Nat2Z.inj_succ, Z.pow_succ_r in Hn by lia. lia.
Qed.

Lemma dec_fuel_enough n : 0 ≤ n → n < 2 ^ Z.of_nat (dec_fuel n).
Proof.
  intros Hn. unfold dec_fuel. rewrite Nat2Z.inj_succ, Z2Nat.id by apply Z.log2_nonneg.
  destruct (Z.eq_dec n 0) as [->|]; [done|]. apply Z.log2_spec. lia.
Qed.

Lemma FormatUint_digits n : 0 ≤ n → Forall (λ c, is_digit c = true) (FormatUint n).
Proof. intros. by apply dec_loop_digits, dec_fuel_enough. Qed.

Lemma FormatUint_val n : 0 ≤ n → digits_val 0 (FormatUint n) = Some n.
Proof. intros. by apply dec_loop_val, dec_fuel_enough. Qed.

Lemma FormatUint_nonempty n : FormatUint n ≠ [].
Proof.
  unfold FormatUint, dec_fuel. simpl. case_goal; [done|].
  rewrite dec_loop_acc. by destruct (dec_loop _ _ _).
Qed.

Lemma ParseUint_FormatUint n bits :
  0 ≤ n < 2 ^ bits → ParseUint (FormatUint n) bits = Ok n.
Proof.
  intros Hn. unfold ParseUint.
  pose proof (FormatUint_nonempty n). pose proof (FormatUint_val n).
  destruct (FormatUint n); [done|].
  rewrite H0 by lia. by rewrite (proj2 (Z.ltb_lt _ _)) by lia.
Qed.

Lemma digits_val_nonneg s acc v : 0 ≤ acc → digits_val acc s = Some v → 0 ≤ v.
Proof.
  revert acc. induction s as [|c s IH]; simpl; intros acc Hacc Hv; [by simplify_eq|].
  destruct (digit_val c) eqn:E; [|done]. apply digit_val_range in E.
  eapply IH; [|done]. lia.
Qed.

Lemma ParseUint_range s bits v : ParseUint s bits = Ok v → 0 ≤ v < 2 ^ bits.
Proof.
  unfold ParseUint. destruct s; [done|]. case_goal; [|done].
  case_goal; intros; inv_ok. subst. rewrite Z.ltb_lt in *.
  split; [|done]. by eapply (digits_val_nonneg _ 0).
Qed.

Lemma ParseInt_range s bits v : 0 < bits → ParseInt s bits = Ok v → in_s bits v = true.
Proof.
  intros Hb Hv. apply in_s_spec. pose proof (Z.pow_pos_nonneg 2 (bits - 1) ltac:(lia) ltac:(lia)).
  assert (∀ t, (let* un := ParseUint t 64 in
     if un <? 2 ^ (bits - 1) then Ok un else Err (ErrLib "strconv")) = Ok v →
     - 2 ^ (bits - 1) ≤ v < 2 ^ (bits - 1)) as Hpos.
  { intros t Ht. apply rbind_ok in Ht as (un & Hu & Ht). apply ParseUint_range in Hu.
    destruct (Z.ltb_spec un (2 ^ (bits - 1))); [|done]. injection Ht as <-. lia. }
  assert (∀ t, (let* un := ParseUint t 64 in
     if un <=? 2 ^ (bits - 1) then Ok (- un) else Err (ErrLib "strconv")) = Ok v →
     - 2 ^ (bits - 1) ≤ v < 2 ^ (bits - 1)) as Hneg.
  { intros t Ht. apply rbind_ok in Ht as (un & Hu & Ht). apply ParseUint_range in Hu.
    destruct (Z.leb_spec un (2 ^ (bits - 1))); [|done]. injection Ht as <-. lia. }
  unfold ParseInt in Hv. destruct s as [|[[] [] [] [] [] [] [] []] s];
    first [by apply Hpos in Hv | by apply Hneg in Hv].
Qed.

Lemma digit_not_sign c : is_digit c = true → c ≠ "-"%char ∧ c ≠ "+"%char.
Proof. intros H. split; intros ->; vm_compute in H; done. Qed.

Lemma ParseInt_digits s bits :
  Forall (λ c, is_digit c = true) s →
  ParseInt s bits =
    (let* un := ParseUint s 64 in
     if un <? 2 ^ (bits - 1) then Ok un else Err (ErrLib "strconv")).
Proof.
  intros Hs. destruct s as [|c s]; [done|].
  apply Forall_cons_1 in Hs as [Hc _]. apply digit_not_sign in Hc as [Hm Hp].
  unfold ParseInt.
  destruct c as [[] [] [] [] [] [] [] []]; done.
Qed.

Lemma Atoi_FormatUint n : 0 ≤ n < 2 ^ 63 → Atoi (FormatUint n) = Ok n.
Proof.
  intros Hn. unfold Atoi.
  rewrite ParseInt_digits by (apply FormatUint_digits; lia).
  rewrite ParseUint_FormatUint by (split; [lia|]; transitivity (2 ^ 63); [lia|done]).
  simpl. by rewrite (proj2 (Z.ltb_lt _ _)) by (simpl; lia).
Qed.

Lemma ParseUint_no_panic s bits : no_panic (ParseUint s bits).
Proof. unfold ParseUint. repeat case_goal; done. Qed.

Lemma Atoi_no_panic s : no_panic (Atoi s).
Proof.
  unfold Atoi, ParseInt.
  repeat first [ apply rbind_no_panic; [apply ParseUint_no_panic|intros] | case_goal ]; done.
Qed.

Lemma ParseInt_no_panic s bits : no_panic (ParseInt s bits).
Proof.
  unfold ParseInt.
  repeat first [ apply rbind_no_panic; [apply ParseUint_no_panic|intros] | case_goal ]; done.
Qed.

#[export] Hint Resolve ParseUint_no_panic ParseInt_no_panic Atoi_no_panic : go_db.

(** A number below [10^k] has at most [k] digits. *)
Lemma length_dec_loop fuel n k :
  0 ≤ n < 10 ^ Z.of_nat k → (1 ≤ k)%nat → (length (dec_loop fuel n []) ≤ k)%nat.
Proof.
  revert n k. induction fuel as [|fuel IH]; intros n k Hn Hk; simpl; [lia|].
  destruct (Z.ltb_spec n 10); [simpl; lia|].
  rewrite dec_loop_acc, length_app. simpl. destruct k as [|k]; [lia|].
  rewrite Nat2Z.inj_succ, Z.pow_succ_r in Hn by lia.
  destruct k as [|k]; [change (10 ^ Z.of_nat 0) with 1 in Hn; lia|].
  enough (length (dec_loop fuel (n / 10) []) ≤ S k)%nat by lia.
  apply IH; [|lia]. split; [apply Z.div_pos; lia|apply Z.div_lt_upper_bound; lia].
Qed.

Lemma length_FormatUint n k :
  0 ≤ n < 10 ^ Z.of_nat k → (1 ≤ k)%nat → (length (FormatUint n) ≤ k)%nat.
Proof. apply length_dec_loop. Qed.

(** Leading zeros do not change the value, trailing ones multiply it. *)
Lemma digits_val_leading_zeros k s : digits_val 0 (replicate k "0"%char ++ s) = digits_val 0 s.
Proof. induction k as [|k IH]; simpl; done. Qed.

Lemma digits_val_trailing_zeros acc k s v :
  digits_val acc s = Some v →
  digits_val acc (s ++ replicate k "0"%char) = Some (v * 10 ^ Z.of_nat k).
Proof.
  intros H. rewrite digits_val_app, H. simpl. clear H. revert v.
  induction k as [|k IH]; intros v; cbn [replicate digits_val]; [f_equal; lia|].
  change (digit_val "0"%char) with (Some 0). cbn iota. rewrite IH. f_equal.
  rewrite Nat2Z.inj_succ, Z.pow_succ_r by lia. lia.
Qed.

Lemma digits_val_Some acc s :
  Forall (λ c, is_digit c = true) s → is_Some (digits_val acc s).
Proof.
  intros H. revert acc. induction H as [|c s Hc _ IH]; intros acc; simpl; [eauto|].
  unfold is_digit in Hc. destruct (digit_val c); [apply IH|done].
Qed.

Lemma digits_val_bound acc s v :
  0 ≤ acc → digits_val acc s = Some v → 0 ≤ v < (acc + 1) * 10 ^ Z.of_nat (length s).
Proof.
  revert acc. induction s as [|c s IH]; intros acc Hacc H; cbn [digits_val] in H.
  - simplify_eq. cbn [length]. change (10 ^ Z.of_nat 0) with 1. lia.
  - destruct (digit_val c) as [d|] eqn:Ed; [|done].
    pose proof (digit_val_range _ _ Ed) as Hd.
    cbn [length]. rewrite Nat2Z.inj_succ, Z.pow_succ_r by lia.
    pose proof (IH (10 * acc + d) ltac:(lia) H) as Hv.
    pose proof (Z.pow_pos_nonneg 10 (Z.of_nat (length s)) ltac:(lia) ltac:(lia)). nia.
Qed.
