(* ===== verification/GoBase64.v ===== *)
(** * [encoding/base64], the standard encoding

    [StdEncoding.EncodeToString] and [StdEncoding.DecodeString]: the padded
    RFC 4648 alphabet; the decoder skips carriage returns and line feeds,
    demands the padding and does not look at the unused trailing bits. *)

From Stdlib Require Import String Ascii NArith ZArith Lia.
From stdpp Require Import base list strings numbers.
From S2P Require Import Prelude GoPrim.

Local Open Scope Z_scope.

Definition encodeStd : bytes :=
  to_bytes "ABCDEFGHIJKLMNOPQRSTUVWXYZabcdefghijklmnopqrstuvwxyz0123456789+/".

(** The character of a 6-bit value; values out of range do not occur. *)
Definition b64_char (v : Z) : byte := default "="%char (encodeStd !! Z.to_nat v).

(** The inverse table [decodeMap]. *)
Definition b64_val (c : byte) : option Z :=
  let z := Z_of_byte c in
  if (65 <=? z) && (z <=? 90) then Some (z - 65)
  else if (97 <=? z) && (z <=? 122) then Some (z - 97 + 26)
  else if (48 <=? z) && (z <=? 57) then Some (z - 48 + 52)
  else if z =? 43 then Some 62
  else if z =? 47 then Some 63
  else None.

Definition is_pad (c : byte) : bool := bool_decide (c = "="%char).

(** [base64.StdEncoding.EncodeToString] *)
Fixpoint b64_encode (b : bytes) : bytes :=
  match b with
  | [] => []
  | [x] =>
      let v := Z.shiftl (Z_of_byte x) 16 in
      [b64_char (Z.land (Z.shiftr v 18) 63); b64_char (Z.land (Z.shiftr v 12) 63);
       "="%char; "="%char]
  | [x; y] =>
      let v := Z.lor (Z.shiftl (Z_of_byte x) 16) (Z.shiftl (Z_of_byte y) 8) in
      [b64_char (Z.land (Z.shiftr v 18) 63); b64_char (Z.land (Z.shiftr v 12) 63);
       b64_char (Z.land (Z.shiftr v 6) 63); "="%char]
  | x :: y :: z :: b =>
      let v := Z.lor (Z.lor (Z.shiftl (Z_of_byte x) 16) (Z.shiftl (Z_of_byte y) 8))
                     (Z_of_byte z) in
      b64_char (Z.land (Z.shiftr v 18) 63) :: b64_char (Z.land (Z.shiftr v 12) 63) ::
      b64_char (Z.land (Z.shiftr v 6) 63) :: b64_char (Z.land v 63) :: b64_encode b
  end.

(** One quantum of the decoder: the 24-bit value of four 6-bit ones. *)
Definition quantum (a b c d : Z) : Z :=
  Z.lor (Z.lor (Z.lor (Z.shiftl a 18) (Z.shiftl b 12)) (Z.shiftl c 6)) d.

(** [Encoding.decode] on a source without line breaks. *)
Fixpoint b64_decode_raw (s : bytes) : result bytes :=
  match s with
  | [] => Ok []
  | a :: b :: c :: d :: s =>
      match b64_val a, b64_val b with
      | Some va, Some vb =>
          match b64_val c with
          | Some vc =>
              match b64_val d with
              | Some vd =>
                  let v := quantum va vb vc vd in
                  let* rest := b64_decode_raw s in
                  Ok (byte_of_Z (Z.shiftr v 16) :: byte_of_Z (Z.shiftr v 8) :: byte_of_Z v :: rest)
              | None =>
                  if is_pad d && bool_decide (s = []) then
                    let v := quantum va vb vc 0 in
                    Ok [byte_of_Z (Z.shiftr v 16); byte_of_Z (Z.shiftr v 8)]
                  else Err (ErrLib "base64")
              end
          | None =>
              if is_pad c && is_pad d && bool_decide (s = []) then
                Ok [byte_of_Z (Z.shiftr (quantum va vb 0 0) 16)]
              else Err (ErrLib "base64")
          end
      | _, _ => Err (ErrLib "base64")
      end
  | _ => Err (ErrLib "base64")
  end.

Definition is_newline (c : byte) : bool :=
  bool_decide (c = "010"%char) || bool_decide (c = "013"%char).

(** [base64.StdEncoding.DecodeString] *)
Definition b64_decode (s : bytes) : result bytes :=
  b64_decode_raw (List.filter (λ c, negb (is_newline c)) s).

(** ** The decoder inverts the encoder *)

Definition sextet_ok (n : nat) : bool :=
  bool_decide (b64_val (b64_char (Z.of_nat n)) = Some (Z.of_nat n))
  && negb (is_newline (b64_char (Z.of_nat n))).

Lemma sextet_all v : 0 ≤ v < 64 →
  b64_val (b64_char v) = Some v ∧ is_newline (b64_char v) = false.
Proof.
  intros Hv. assert (forallb sextet_ok (seq 0 64) = true) as H by (vm_compute; reflexivity).
  rewrite forallb_forall in H. specialize (H (Z.to_nat v)).
  rewrite in_seq in H. specialize (H ltac:(lia)). unfold sextet_ok in H.
  rewrite Z2Nat.id in H by lia.
  apply andb_true_iff in H as [H1 H2]. apply bool_decide_eq_true_1 in H1.
  by apply negb_true_iff in H2.
Qed.

Lemma land63_range v : 0 ≤ Z.land v 63 < 64.
Proof. change 63 with (Z.ones 6). rewrite Z.land_ones by lia. by apply Z.mod_pos_bound. Qed.

Lemma b64_val_land v : b64_val (b64_char (Z.land v 63)) = Some (Z.land v 63).
Proof. apply sextet_all, land63_range. Qed.

Lemma newline_land v : is_newline (b64_char (Z.land v 63)) = false.
Proof. apply sextet_all, land63_range. Qed.

Lemma quantum_sum a b c d :
  0 ≤ b < 64 → 0 ≤ c < 64 → 0 ≤ d < 64 →
  quantum a b c d = a * 262144 + b * 4096 + c * 64 + d.
Proof.
  intros. unfold quantum.
  rewrite (Z.shiftl_mul_pow2 b) by lia.
  rewrite (lor_disjoint_add a 18) by lia.
  replace (a * 2 ^ 18 + b * 2 ^ 12) with ((a * 64 + b) * 2 ^ 12) by lia.
  rewrite (Z.shiftl_mul_pow2 c) by lia.
  rewrite (lor_mul_add _ 12) by lia.
  replace ((a * 64 + b) * 2 ^ 12 + c * 2 ^ 6) with ((a * 4096 + b * 64 + c) * 2 ^ 6) by lia.
  rewrite (lor_mul_add _ 6) by lia. lia.
Qed.

(** The sextet that starts at bit [k]. *)
Lemma land63_shiftr v k : 0 ≤ k → Z.land (Z.shiftr v k) 63 = v / 2 ^ k mod 64.
Proof.
  intros. change 63 with (Z.ones 6). by rewrite Z.land_ones, Z.shiftr_div_pow2 by lia.
Qed.

(** The encoder's value of a group of up to three bytes. *)
Lemma group_sum x y z :
  Z.lor (Z.lor (Z.shiftl (Z_of_byte x) 16) (Z.shiftl (Z_of_byte y) 8)) (Z_of_byte z)
  = Z_of_byte x * 65536 + Z_of_byte y * 256 + Z_of_byte z.
Proof.
  pose proof (Z_of_byte_range x). pose proof (Z_of_byte_range y).
  pose proof (Z_of_byte_range z).
  rewrite (Z.shiftl_mul_pow2 (Z_of_byte y)) by lia.
  rewrite (lor_disjoint_add _ 16) by lia.
  replace (Z_of_byte x * 2 ^ 16 + Z_of_byte y * 2 ^ 8)
    with ((Z_of_byte x * 256 + Z_of_byte y) * 2 ^ 8) by lia.
  rewrite (lor_mul_add _ 8) by lia. lia.
Qed.

(** A byte is the value [byte_of_Z] gives for anything congruent to it. *)
Lemma byte_of_Z_eq z k b : z = k * 256 + Z_of_byte b → byte_of_Z z = b.
Proof.
  intros ->. rewrite <- (byte_of_Z_of_byte b) at 2. unfold byte_of_Z. do 2 f_equal.
  rewrite Z.add_comm, Z.mod_add by lia. done.
Qed.

(** The four sextets of a 24-bit value give the value back. *)
Lemma quantum_split v : 0 ≤ v < 2 ^ 24 →
  quantum (Z.land (Z.shiftr v 18) 63) (Z.land (Z.shiftr v 12) 63)
          (Z.land (Z.shiftr v 6) 63) (Z.land v 63) = v.
Proof.
  intros Hv. rewrite quantum_sum by apply land63_range.
  rewrite !land63_shiftr by lia.
  change 63 with (Z.ones 6). rewrite Z.land_ones by lia.
  change (2 ^ 18) with 262144. change (2 ^ 12) with 4096. change (2 ^ 6) with 64.
  change (2 ^ 24) with 16777216 in Hv.
  Z.to_euclidean_division_equations. lia.
Qed.

(** The three bytes of a group, recovered from the value of its sextets. *)
Lemma group_bytes v x y z :
  v = Z_of_byte x * 65536 + Z_of_byte y * 256 + Z_of_byte z →
  byte_of_Z (Z.shiftr v 16) = x ∧ byte_of_Z (Z.shiftr v 8) = y ∧ byte_of_Z v = z.
Proof.
  intros ->. pose proof (Z_of_byte_range x). pose proof (Z_of_byte_range y).
  pose proof (Z_of_byte_range z). rewrite !Z.shiftr_div_pow2 by lia.
  change (2 ^ 16) with 65536. change (2 ^ 8) with 256. split_and!.
  - apply byte_of_Z_eq with 0. Z.to_euclidean_division_equations. lia.
  - apply byte_of_Z_eq with (Z_of_byte x). Z.to_euclidean_division_equations. lia.
  - apply byte_of_Z_eq with (Z_of_byte x * 256 + Z_of_byte y). lia.
Qed.

Lemma group_range x y z :
  0 ≤ Z_of_byte x * 65536 + Z_of_byte y * 256 + Z_of_byte z < 2 ^ 24.
Proof.
  pose proof (Z_of_byte_range x). pose proof (Z_of_byte_range y).
  pose proof (Z_of_byte_range z). change (2 ^ 24) with 16777216. lia.
Qed.

(** A group of three bytes without its last one (or two) has zero low bits. *)
Lemma group_pad1 x y :
  Z.lor (Z.shiftl (Z_of_byte x) 16) (Z.shiftl (Z_of_byte y) 8)
  = Z_of_byte x * 65536 + Z_of_byte y * 256 + Z_of_byte "000"%char.
Proof. rewrite <- group_sum. change (Z_of_byte "000"%char) with 0. by rewrite Z.lor_0_r. Qed.

Lemma group_pad2 x :
  Z.shiftl (Z_of_byte x) 16
  = Z_of_byte x * 65536 + Z_of_byte "000"%char * 256 + Z_of_byte "000"%char.
Proof. rewrite Z.shiftl_mul_pow2 by lia. change (Z_of_byte "000"%char) with 0. lia. Qed.

Lemma low_sextet_0 n : Z.land (n * 64) 63 = 0.
Proof. change 63 with (Z.ones 6). rewrite Z.land_ones by lia. by rewrite Z.mod_mul. Qed.

Lemma b64_decode_raw_encode b : b64_decode_raw (b64_encode b) = Ok b.
Proof.
  revert b. fix IH 1. intros [|x [|y [|z b]]]; [done|..].
  - cbn [b64_encode b64_decode_raw]. rewrite !b64_val_land. cbn [b64_val is_pad bool_decide].
    pose proof (group_range x "000" "000") as Hr.
    pose proof (group_bytes _ x _ _ (group_pad2 x)) as (H1 & _ & _).
    rewrite group_pad2 in *. set (v := Z_of_byte x * 65536 + _ + _) in *.
    assert (Z.land (Z.shiftr v 6) 63 = 0) as E6.
    { rewrite land63_shiftr by lia. subst v. change (Z_of_byte "000") with 0.
      Z.to_euclidean_division_equations. lia. }
    assert (Z.land v 63 = 0) as E0.
    { subst v. change (Z_of_byte "000") with 0.
      etransitivity; [|apply (low_sextet_0 (Z_of_byte x * 1024))]. f_equal. lia. }
    pose proof (quantum_split v Hr) as Hq. rewrite E6, E0 in Hq. cbn -[Z.land Z.shiftr quantum].
    by rewrite Hq, H1.
  - cbn [b64_encode b64_decode_raw]. rewrite !b64_val_land. cbn [b64_val is_pad bool_decide].
    pose proof (group_range x y "000") as Hr.
    pose proof (group_bytes _ x y _ (group_pad1 x y)) as (H1 & H2 & _).
    rewrite group_pad1 in *. set (v := Z_of_byte x * 65536 + _ + _) in *.
    assert (Z.land v 63 = 0) as E0.
    { subst v. change (Z_of_byte "000") with 0.
      etransitivity; [|apply (low_sextet_0 (Z_of_byte x * 1024 + Z_of_byte y * 4))].
      f_equal. lia. }
    pose proof (quantum_split v Hr) as Hq. rewrite E0 in Hq. cbn -[Z.land Z.shiftr quantum].
    by rewrite Hq, H1, H2.
  - cbn [b64_encode b64_decode_raw]. rewrite !b64_val_land.
    pose proof (group_range x y z) as Hr.
    pose proof (group_bytes _ x y z (group_sum x y z)) as (H1 & H2 & H3).
    rewrite group_sum in *. set (v := Z_of_byte x * 65536 + _ + _) in *.
    rewrite (quantum_split v Hr), IH. cbn [rbind]. by rewrite H1, H2, H3.
Qed.

Lemma b64_encode_no_newline b :
  List.filter (λ c, negb (is_newline c)) (b64_encode b) = b64_encode b.
Proof.
  revert b. fix IH 1. intros [|x [|y [|z b]]]; [done|..];
    cbn [b64_encode List.filter]; rewrite !newline_land; cbn [negb]; [done|done|].
  by rewrite IH.
Qed.

Lemma b64_decode_encode b : b64_decode (b64_encode b) = Ok b.
Proof. unfold b64_decode. by rewrite b64_encode_no_newline, b64_decode_raw_encode. Qed.

Lemma b64_decode_raw_no_panic s : no_panic (b64_decode_raw s).
Proof.
  revert s. fix IH 1. intros [|a [|b [|c [|d s]]]]; simpl; try done.
  repeat case_goal; try done. apply rbind_no_panic; [apply IH|done].
Qed.

Lemma b64_decode_no_panic s : no_panic (b64_decode s).
Proof. apply b64_decode_raw_no_panic. Qed.

#[export] Hint Resolve b64_decode_no_panic : go_db.

Example b64_test : b64_encode (map ascii_of_nat [1; 2; 3; 4]%nat) = to_bytes "AQIDBA==".
Proof. vm_compute. reflexivity. Qed.
