(* ===== verification/GoCalendar.v ===== *)
(** * [time]: the calendar

    The proleptic Gregorian calendar of the package ([absDate] and [Date]): day
    numbers to dates and back, and the proof that the two are inverse. *)

From Stdlib Require Import String Ascii NArith ZArith Lia.
From stdpp Require Import base list strings numbers.
From S2P Require Import Prelude GoPrim.

Local Open Scope Z_scope.

(** ** The calendar *)

Definition is_leap (y : Z) : bool :=
  (y mod 4 =? 0) && (negb (y mod 100 =? 0) || (y mod 400 =? 0)).

(** [daysBefore[m-1]] *)
Definition days_before (m : Z) : Z :=
  default 0 ([0; 31; 59; 90; 120; 151; 181; 212; 243; 273; 304; 334] !! Z.to_nat (m - 1)).

Definition days_in (m y : Z) : Z :=
  if (m =? 2) && is_leap y then 29
  else default 0 ([31; 28; 31; 30; 31; 30; 31; 31; 30; 31; 30; 31] !! Z.to_nat (m - 1)).

(** Days from January 1, year 1 to the Unix epoch. *)
Definition epoch_days : Z := 719162.

(** The day number (0 is the Unix epoch) of a date, as [Date] computes it. *)
Definition days_of_date (y m d : Z) : Z :=
  let y0 := y - 1 in
  146097 * (y0 / 400) + 36524 * (y0 mod 400 / 100) + 1461 * (y0 mod 100 / 4) + 365 * (y0 mod 4)
  + days_before m + (if is_leap y && (3 <=? m) then 1 else 0) + (d - 1) - epoch_days.

(** The month and day of a day of the year, counted from 0 ([absDate]). *)
Definition month_day (leap : bool) (yday : Z) : Z * Z :=
  if leap && (yday =? 59) then (2, 29)
  else
    let day := if leap && (59 <? yday) then yday - 1 else yday in
    let month := day / 31 in
    let end_ := default 0 ([31; 59; 90; 120; 151; 181; 212; 243; 273; 304; 334; 365] !! Z.to_nat month) in
    if end_ <=? day then (month + 2, day - end_ + 1)
    else (month + 1, day - days_before (month + 1) + 1).

(** The date of a day number ([absDate]). *)
Definition date_of_days (n : Z) : Z * Z * Z :=
  let d := n + epoch_days in
  let n400 := d / 146097 in
  let d := d mod 146097 in
  let n100 := let n := d / 36524 in n - Z.shiftr n 2 in
  let d := d - 36524 * n100 in
  let n4 := d / 1461 in
  let d := d - 1461 * n4 in
  let n1 := let n := d / 365 in n - Z.shiftr n 2 in
  let yday := d - 365 * n1 in
  let y := 400 * n400 + 100 * n100 + 4 * n4 + n1 + 1 in
  let '(m, dd) := month_day (is_leap y) yday in
  (y, m, dd).

(** A day of the month that exists. *)
Definition day_ok (y m d : Z) : bool := (1 <=? d) && (d <=? days_in m y).

(** ** The calendar is a bijection between day numbers and dates *)

(** The whole 400-year cycle, day by day. *)
Definition cycle_day_ok (r : Z) : bool :=
  let '(y, m, d) := date_of_days (r - epoch_days) in
  (days_of_date y m d =? r - epoch_days) && (1 <=? m) && (m <=? 12) && day_ok y m d
  && (1 <=? y) && (y <=? 400) && Bool.eqb (y =? 400) (145731 <=? r).

(** The year and the day of the year of a day of the cycle, as [absDate] finds
    them: centuries, groups of four years, years. *)
Lemma century_of d :
  0 ≤ d < 146097 →
  let n := d / 36524 - Z.shiftr (d / 36524) 2 in
  0 ≤ n ≤ 3 ∧ 0 ≤ d - 36524 * n ≤ 36524 ∧ (d - 36524 * n = 36524 → n = 3).
Proof.
  intros Hd. rewrite Z.shiftr_div_pow2 by lia. change (2 ^ 2) with 4. cbv zeta.
  Z.to_euclidean_division_equations. lia.
Qed.

Lemma quad_of d :
  0 ≤ d ≤ 36524 →
  let n := d / 1461 in
  0 ≤ n ≤ 24 ∧ 0 ≤ d - 1461 * n ≤ 1460 ∧ (n = 24 → d - 1461 * n = 1460 → d = 36524).
Proof. intros Hd. cbv zeta. Z.to_euclidean_division_equations. lia. Qed.

Lemma year_of d :
  0 ≤ d ≤ 1460 →
  let n := d / 365 - Z.shiftr (d / 365) 2 in
  0 ≤ n ≤ 3 ∧ 0 ≤ d - 365 * n ≤ 365 ∧ (d - 365 * n = 365 → n = 3 ∧ d = 1460).
Proof.
  intros Hd. rewrite Z.shiftr_div_pow2 by lia. change (2 ^ 2) with 4. cbv zeta.
  Z.to_euclidean_division_equations. lia.
Qed.

Lemma is_leap_split c b a :
  0 ≤ c ≤ 3 → 0 ≤ b ≤ 24 → 0 ≤ a ≤ 3 →
  is_leap (100 * c + 4 * b + a + 1) = (a =? 3) && (negb (b =? 24) || (c =? 3)).
Proof.
  intros Hc Hb Ha. unfold is_leap.
  assert (((100 * c + 4 * b + a + 1) mod 4 =? 0) = (a =? 3)) as ->.
  { apply eq_iff_eq_true. rewrite !Z.eqb_eq. Z.to_euclidean_division_equations. lia. }
  destruct (Z.eqb_spec a 3) as [->|]; [|done]. cbn [andb].
  assert (((100 * c + 4 * b + 3 + 1) mod 100 =? 0) = (b =? 24)) as ->.
  { apply eq_iff_eq_true. rewrite !Z.eqb_eq. Z.to_euclidean_division_equations. lia. }
  destruct (Z.eqb_spec b 24) as [->|]; [|done]. cbn [negb orb].
  apply eq_iff_eq_true. rewrite !Z.eqb_eq. Z.to_euclidean_division_equations. lia.
Qed.

(** A day of the year, in a leap year or not: all of them are tried. *)
Definition yday_ok (leap : bool) (yday : Z) : bool :=
  let '(m, d) := month_day leap yday in
  (days_before m + (if leap && (3 <=? m) then 1 else 0) + (d - 1) =? yday)
  && (1 <=? m) && (m <=? 12) && (1 <=? d)
  && (d <=? (if (m =? 2) && leap then 29
             else default 0 ([31; 28; 31; 30; 31; 30; 31; 31; 30; 31; 30; 31] !! Z.to_nat (m - 1)))).

Lemma yday_all (leap : bool) yday : 0 ≤ yday < (if leap then 366 else 365) → yday_ok leap yday = true.
Proof.
  intros Hy.
  destruct leap; [apply (zrange_check_spec _ (Z.to_nat 366) 0)|apply (zrange_check_spec _ (Z.to_nat 365) 0)];
    [by vm_compute|lia|by vm_compute|lia].
Qed.

Lemma days_of_date_split c b a m d :
  0 ≤ c ≤ 3 → 0 ≤ b ≤ 24 → 0 ≤ a ≤ 3 →
  let y := 100 * c + 4 * b + a + 1 in
  days_of_date y m d = 36524 * c + 1461 * b + 365 * a
    + (days_before m + (if is_leap y && (3 <=? m) then 1 else 0) + (d - 1)) - epoch_days.
Proof.
  intros Hc Hb Ha y. unfold days_of_date.
  assert ((y - 1) / 400 = 0 ∧ (y - 1) mod 400 / 100 = c ∧ (y - 1) mod 100 / 4 = b ∧ (y - 1) mod 4 = a)
    as (-> & -> & -> & ->); [|lia].
  subst y. split_and!; Z.to_euclidean_division_equations; lia.
Qed.

Lemma cycle_ok r : 0 ≤ r < 146097 → cycle_day_ok r = true.
Proof.
  intros Hr. unfold cycle_day_ok, date_of_days.
  replace (r - epoch_days + epoch_days) with r by lia.
  rewrite (Z.div_small r), (Z.mod_small r) by lia. cbv zeta.
  destruct (century_of r Hr) as (Hc & Hd1 & Hc3). set (c := r / 36524 - _) in *.
  destruct (quad_of _ Hd1) as (Hb & Hd2 & Hb24). set (b := (r - 36524 * c) / 1461) in *.
  destruct (year_of _ Hd2) as (Ha & Hd3 & Ha3).
  set (a := (r - 36524 * c - 1461 * b) / 365 - _) in *.
  set (yday := r - 36524 * c - 1461 * b - 365 * a) in *.
  replace (400 * 0 + 100 * c + 4 * b + a + 1) with (100 * c + 4 * b + a + 1) by lia.
  set (y := 100 * c + 4 * b + a + 1).
  pose proof (is_leap_split c b a Hc Hb Ha) as Hleap. fold y in Hleap.
  assert (yday_ok (is_leap y) yday = true) as Hok.
  { apply yday_all. rewrite Hleap.
    destruct (Z.eqb_spec a 3), (Z.eqb_spec b 24), (Z.eqb_spec c 3); cbn; lia. }
  unfold yday_ok in Hok. destruct (month_day (is_leap y) yday) as [m d].
  pose proof (days_of_date_split c b a m d Hc Hb Ha) as Hdays. fold y in Hdays. cbv zeta in Hdays.
  rewrite !andb_true_iff, !Z.leb_le, Z.eqb_eq in Hok. destruct Hok as ((((Hy & Hm1) & Hm2) & Hd) & Hdm).
  rewrite Hy in Hdays. unfold day_ok, days_in.
  rewrite !andb_true_iff, !Z.leb_le, Z.eqb_eq, eqb_true_iff. split_and!; try done; try lia.
Qed.

Lemma is_leap_400 q y : is_leap (400 * q + y) = is_leap y.
Proof.
  unfold is_leap.
  replace ((400 * q + y) mod 4) with (y mod 4) by (Z.to_euclidean_division_equations; lia).
  replace ((400 * q + y) mod 100) with (y mod 100) by (Z.to_euclidean_division_equations; lia).
  by replace ((400 * q + y) mod 400) with (y mod 400) by (Z.to_euclidean_division_equations; lia).
Qed.

Lemma days_of_date_400 q y m d :
  days_of_date (400 * q + y) m d = 146097 * q + days_of_date y m d.
Proof.
  unfold days_of_date. rewrite is_leap_400.
  replace (400 * q + y - 1) with (y - 1 + q * 400) by lia.
  rewrite Z.div_add, Z.mod_add by lia.
  replace ((y - 1 + q * 400) mod 100) with ((y - 1) mod 100)
    by (Z.to_euclidean_division_equations; lia).
  replace ((y - 1 + q * 400) mod 4) with ((y - 1) mod 4)
    by (Z.to_euclidean_division_equations; lia).
  lia.
Qed.

Lemma date_of_days_cycle n :
  let q := (n + epoch_days) / 146097 in
  let r := (n + epoch_days) mod 146097 in
  date_of_days n =
    (let '(y, m, d) := date_of_days (r - epoch_days) in (400 * q + y, m, d)).
Proof.
  intros q r. unfold date_of_days. fold q r.
  replace (r - epoch_days + epoch_days) with r by lia.
  assert (r / 146097 = 0 ∧ r mod 146097 = r) as [-> ->].
  { subst r. split; [apply Z.div_small|apply Z.mod_small]; apply Z.mod_pos_bound; lia. }
  cbv zeta.
  match goal with
  | |- (let '(m, dd) := month_day (is_leap ?y) _ in _)
       = (let '(_, _) := (let '(_, _) := month_day (is_leap ?y') _ in _) in _) =>
      replace y with (400 * q + y') by lia; rewrite is_leap_400;
      destruct (month_day (is_leap y') _)
  end. done.
Qed.

Lemma date_of_days_spec n y m d :
  date_of_days n = (y, m, d) →
  days_of_date y m d = n ∧ 1 ≤ m ≤ 12 ∧ day_ok y m d = true ∧
  ∃ y0, y = 400 * ((n + epoch_days) / 146097) + y0 ∧ 1 ≤ y0 ≤ 400 ∧
        (y0 = 400 ↔ 145731 ≤ (n + epoch_days) mod 146097).
Proof.
  rewrite date_of_days_cycle.
  set (q := (n + epoch_days) / 146097). set (r := (n + epoch_days) mod 146097).
  pose proof (cycle_ok r ltac:(subst r; apply Z.mod_pos_bound; lia)) as Hr.
  unfold cycle_day_ok in Hr.
  destruct (date_of_days (r - epoch_days)) as [[y0 m0] d0]. intros [= <- <- <-].
  rewrite !andb_true_iff, Z.eqb_eq, !Z.leb_le, eqb_true_iff in Hr.
  destruct Hr as [[[[[[H1 H2] H3] H4] H5] H6] H7].
  rewrite days_of_date_400, H1.
  pose proof (Z.div_mod (n + epoch_days) 146097 ltac:(lia)).
  split_and!; try done; try lia.
  - revert H4. unfold day_ok, days_in. by rewrite is_leap_400.
  - exists y0. split; [done|]. split; [lia|]. by rewrite <- Z.eqb_eq, H7, Z.leb_le.
Qed.
