(* ===== verification/GoTime.v ===== *)
(** * [time]: the two layouts of the protocol

    [Time.Format] and [Parse] for the layouts ["2006-01-02T15:04:05.999999999Z07:00"]
    (with quotes) and ["2006-01-02 15:04:05 MST"] (with quotes).  An instant is
    a number of nanoseconds since the Unix epoch. *)

From Stdlib Require Import String Ascii NArith ZArith Lia.
From stdpp Require Import base list strings numbers.
From S2P Require Import Prelude GoPrim GoStrconv GoCalendar.

Local Open Scope Z_scope.

(** ** Formatting *)

(** [appendInt(b, x, width)] *)
Definition append_int (x : Z) (width : nat) : bytes :=
  let ds := FormatUint (Z.abs x) in
  let ds := replicate (width - length ds) "0"%char ++ ds in
  if x <? 0 then "-"%char :: ds else ds.

(** The nine digits of the nanoseconds without trailing zeros. *)
Fixpoint trim_zeros (s : bytes) : bytes :=
  match s with
  | [] => []
  | c :: s => match trim_zeros s with
              | [] => if bool_decide (c = "0"%char) then [] else [c]
              | t => c :: t
              end
  end.

Definition append_nano (ns : Z) : bytes :=
  match trim_zeros (append_int ns 9) with
  | [] => []
  | ds => "."%char :: ds
  end.

Definition nanos_per_day : Z := 86400 * 1000000000.

(** Date and time of day in UTC: year, month, day, hour, minute, second, ns. *)
Definition civil (t : Z) : Z * Z * Z * (Z * Z * Z * Z) :=
  let sod := t mod nanos_per_day in
  let s := sod / 1000000000 in
  (date_of_days (t / nanos_per_day),
   (s / 3600, s / 60 mod 60, s mod 60, sod mod 1000000000)).

(** [t.UTC().Format(`"2006-01-02T15:04:05.999999999Z07:00"`)] *)
Definition FormatRFC3339Nano (t : Z) : bytes :=
  let '(y, m, d, (hh, mm, ss, ns)) := civil t in
  "034"%char :: append_int y 4 ++ "-"%char :: append_int m 2 ++ "-"%char :: append_int d 2
    ++ "T"%char :: append_int hh 2 ++ ":"%char :: append_int mm 2 ++ ":"%char :: append_int ss 2
    ++ append_nano ns ++ ["Z"%char; "034"%char].

(** [t.UTC().Format(`"2006-01-02 15:04:05 MST"`)] *)
Definition FormatExpanded (t : Z) : bytes :=
  let '(y, m, d, (hh, mm, ss, _)) := civil t in
  "034"%char :: append_int y 4 ++ "-"%char :: append_int m 2 ++ "-"%char :: append_int d 2
    ++ " "%char :: append_int hh 2 ++ ":"%char :: append_int mm 2 ++ ":"%char :: append_int ss 2
    ++ to_bytes " UTC" ++ ["034"%char].

(** ** Parsing *)

Definition time_error : error := ErrLib "time".

(** The text after an expected byte. *)
Definition expect (c : byte) (s : bytes) : result bytes :=
  match s with
  | b :: t => if bool_decide (b = c) then Ok t else Err time_error
  | [] => Err time_error
  end.

Fixpoint cut_space (s : bytes) : bytes :=
  match s with
  | " "%char :: t => cut_space t
  | _ => s
  end.

(** A blank of the layout ([skip]): one or more blanks, or the end. *)
Definition skip_blank (s : bytes) : result bytes :=
  match s with
  | [] => Ok []
  | " "%char :: _ => Ok (cut_space s)
  | _ => Err time_error
  end.

(** [getnum(s, true)] and [getnum(s, false)] *)
Definition getnum (fixed : bool) (s : bytes) : result (Z * bytes) :=
  match s with
  | [] => Err time_error
  | a :: t =>
      match digit_val a with
      | None => Err time_error
      | Some x =>
          match t with
          | b :: t' =>
              match digit_val b with
              | Some y => Ok (10 * x + y, t')
              | None => if fixed then Err time_error else Ok (x, t)
              end
          | [] => if fixed then Err time_error else Ok (x, t)
          end
      end
  end.

(** The package's own [atoi]: an optional sign and possibly no digits. *)
Definition time_atoi (s : bytes) : result Z :=
  let '(neg, s) := match s with
                   | "-"%char :: t => (true, t)
                   | "+"%char :: t => (false, t)
                   | _ => (false, s)
                   end in
  match digits_val 0 s with
  | Some v => if v <? 2 ^ 63 then Ok (if neg : bool then - v else v) else Err time_error
  | None => Err time_error
  end.

Definition parse_year (s : bytes) : result (Z * bytes) :=
  match s with
  | a :: b :: c :: d :: t =>
      if is_digit a then let* y := time_atoi [a; b; c; d] in Ok (y, t) else Err time_error
  | _ => Err time_error
  end.

(** [getnum] and the check that the value is within bounds *)
Definition getnum_in (fixed : bool) (lo hi : Z) (s : bytes) : result (Z * bytes) :=
  let* r := getnum fixed s in
  if (lo <=? r.1) && (r.1 <=? hi) then Ok r else Err time_error.

(** At most [n] leading digits. *)
Fixpoint take_digits (n : nat) (s : bytes) : bytes :=
  match n, s with
  | S n, c :: s => if is_digit c then c :: take_digits n s else []
  | _, _ => []
  end.

(** [parseNanoseconds] on the digits after the point *)
Definition parse_nanos (ds : bytes) : result Z :=
  let* ns := time_atoi ds in
  if (0 <=? ns) && (ns <? 1000000000) then Ok (ns * 10 ^ (9 - Z.of_nat (length ds)))
  else Err time_error.

(** An optional fraction of at most [limit] digits. *)
Definition parse_frac (limit : nat) (s : bytes) : result (Z * bytes) :=
  match s with
  | "."%char :: t =>
      match take_digits limit t with
      | [] => Ok (0, s)
      | ds => let* ns := parse_nanos ds in Ok (ns, drop (length ds) t)
      end
  | _ => Ok (0, s)
  end.

(** The zone of the first layout, as an offset in seconds. *)
Definition parse_offset (s : bytes) : result (Z * bytes) :=
  match s with
  | "Z"%char :: t => Ok (0, t)
  | sg :: h1 :: h2 :: c :: m1 :: m2 :: t =>
      if bool_decide (c = ":"%char) then
        let* hr := time_atoi [h1; h2] in
        let* mm := time_atoi [m1; m2] in
        let off := (hr * 60 + mm) * 60 in
        if bool_decide (sg = "+"%char) then Ok (off, t)
        else if bool_decide (sg = "-"%char) then Ok (- off, t)
        else Err time_error
      else Err time_error
  | _ => Err time_error
  end.

(** [Date(y, m, d, hh, mm, ss, ns, UTC)] *)
Definition instant (y m d hh mm ss ns : Z) : Z :=
  (days_of_date y m d * 86400 + hh * 3600 + mm * 60 + ss) * 1000000000 + ns.

(** The date part and the time of day shared by the layouts; [sep] reads what
    separates them. *)
Definition parse_clock (sep : bytes → result bytes) (s : bytes)
  : result (Z * Z * Z * (Z * Z * Z) * bytes) :=
  let* s := expect "034" s in
  let* y := parse_year s in
  let* s := expect "-" y.2 in
  let* m := getnum_in true 1 12 s in
  let* s := expect "-" m.2 in
  let* d := getnum_in true 0 99 s in
  let* s := sep d.2 in
  let* hh := getnum_in false 0 23 s in
  let* s := expect ":" hh.2 in
  let* mm := getnum_in true 0 59 s in
  let* s := expect ":" mm.2 in
  let* ss := getnum_in true 0 59 s in
  Ok (y.1, m.1, d.1, (hh.1, mm.1, ss.1), ss.2).

Definition end_quote (s : bytes) : result () :=
  let* s := expect "034" s in
  match s with [] => Ok () | _ => Err time_error end.

(** [Parse(`"2006-01-02T15:04:05.999999999Z07:00"`, s)] *)
Definition ParseRFC3339Nano (s : bytes) : result Z :=
  let* c := parse_clock (expect "T") s in
  let '(y, m, d, (hh, mm, ss), s) := c in
  let* f := parse_frac 9 s in
  let* z := parse_offset f.2 in
  let* _ := end_quote z.2 in
  if day_ok y m d then Ok (instant y m d hh mm ss f.1 - z.1 * 1000000000) else Err time_error.

Definition is_upper (c : byte) : bool := (65 <=? Z_of_byte c) && (Z_of_byte c <=? 90).

Fixpoint count_upper (n : nat) (s : bytes) : nat :=
  match n, s with
  | S n, c :: s => if is_upper c then S (count_upper n s) else O
  | _, _ => O
  end.

(** [parseGMT] on the text after "GMT": the length of the zone name. *)
Definition parse_gmt (s : bytes) : nat :=
  match s with
  | (("-"%char | "+"%char) as sg) :: t =>
      let ds := take_digits (length t) t in
      match digits_val 0 ds with
      | Some x =>
          let x := if bool_decide (sg = "-"%char) then - x else x in
          if (x =? 0) || (x <? -14) || (12 <? x) then 3%nat else (3 + 1 + length ds)%nat
      | None => 3%nat
      end
  | _ => 3%nat
  end.

(** [parseTimeZone]: the length of the zone abbreviation at the head. *)
Definition parse_zone (s : bytes) : result nat :=
  if (length s <? 3)%nat then Err time_error
  else if bool_decide (take 4 s = to_bytes "ChST") || bool_decide (take 4 s = to_bytes "MeST")
  then Ok 4%nat
  else if bool_decide (take 3 s = to_bytes "GMT") then Ok (parse_gmt (drop 3 s))
  else
    match count_upper 6 s with
    | 3%nat => Ok 3%nat
    | 4%nat => if bool_decide (s !! 3%nat = Some "T"%char) then Ok 4%nat else Err time_error
    | 5%nat => if bool_decide (s !! 4%nat = Some "T"%char) then Ok 5%nat else Err time_error
    | _ => Err time_error
    end.

Section Expanded.
(** [Local.lookupName]: the offset in seconds the host's time zone gives to
    an abbreviation, if it knows it. *)
Context (lookupName : bytes → Z → option Z).

(** [Parse(`"2006-01-02 15:04:05 MST"`, s)]: an abbreviation the host does
    not know is taken as having offset zero. *)
Definition ParseExpanded (s : bytes) : result Z :=
  let* c := parse_clock skip_blank s in
  let '(y, m, d, (hh, mm, ss), s) := c in
  let* f := parse_frac (length s) s in
  let* s := skip_blank f.2 in
  let* n := if bool_decide (take 3 s = to_bytes "UTC") then Ok 3%nat else parse_zone s in
  let* _ := end_quote (drop n s) in
  let t := instant y m d hh mm ss f.1 in
  if day_ok y m d then
    if bool_decide (take 3 s = to_bytes "UTC") then Ok t
    else match lookupName (take n s) t with
         | Some off => Ok (t - off * 1000000000)
         | None => Ok t
         end
  else Err time_error.
End Expanded.

Example rfc3339_test :
  ParseRFC3339Nano (FormatRFC3339Nano 1136239445123450000) = Ok 1136239445123450000
  ∧ to_string (FormatRFC3339Nano 1136239445000000000)
    = to_string ("034"%char :: to_bytes "2006-01-02T22:04:05Z" ++ ["034"%char]).
Proof. split; vm_compute; reflexivity. Qed.

(** The instants of the years 0 to 9999, whose date has a four-digit year. *)
Definition four_digit_year (t : Z) : Prop :=
  -62167219200 * 1000000000 ≤ t < 253402300800 * 1000000000.

Lemma year_range t y m d :
  four_digit_year t → date_of_days (t / nanos_per_day) = (y, m, d) → 0 ≤ y ≤ 9999.
Proof.
  unfold four_digit_year, nanos_per_day. intros Ht Hd.
  apply date_of_days_spec in Hd as (_ & _ & _ & y0 & -> & Hy0 & H400).
  assert (-719528 ≤ t / (86400 * 1000000000) < 2932897) as Hn.
  { split; [apply Z.div_le_lower_bound|apply Z.div_lt_upper_bound]; lia. }
  set (n := t / _) in *. clearbody n. unfold epoch_days in *.
  Z.to_euclidean_division_equations. lia.
Qed.

Lemma year_range_inv t y m d :
  date_of_days (t / nanos_per_day) = (y, m, d) → 0 ≤ y ≤ 9999 → four_digit_year t.
Proof.
  unfold four_digit_year, nanos_per_day. intros Hd Hy.
  apply date_of_days_spec in Hd as (_ & _ & _ & y0 & -> & Hy0 & H400).
  assert (-719528 ≤ t / (86400 * 1000000000) < 2932897) as Hn.
  { set (n := t / _) in *. clearbody n. unfold epoch_days in *.
    Z.to_euclidean_division_equations. lia. }
  Z.to_euclidean_division_equations; lia.
Qed.

(** ** Reading back what [Format] wrote *)

(** The two-digit and four-digit fields. *)
Definition two_digits_ok (v : Z) : bool :=
  bool_decide (append_int v 2 = [digit_char (v / 10); digit_char (v mod 10)]).
Definition four_digits_ok (v : Z) : bool :=
  bool_decide (append_int v 4
               = [digit_char (v / 1000); digit_char (v / 100 mod 10);
                  digit_char (v / 10 mod 10); digit_char (v mod 10)]).

Lemma append_int_2 v : 0 ≤ v < 100 →
  append_int v 2 = [digit_char (v / 10); digit_char (v mod 10)].
Proof.
  intros Hv. apply (bool_decide_eq_true_1 _), (zrange_check_spec two_digits_ok 100 0);
    [by vm_compute|lia].
Qed.

Lemma append_int_4 v : 0 ≤ v < 10000 →
  append_int v 4 = [digit_char (v / 1000); digit_char (v / 100 mod 10);
                    digit_char (v / 10 mod 10); digit_char (v mod 10)].
Proof.
  intros Hv. apply (bool_decide_eq_true_1 _), (zrange_check_spec four_digits_ok (Z.to_nat 10000) 0);
    [by vm_compute|lia].
Qed.

Lemma getnum_append fixed v rest : 0 ≤ v < 100 →
  getnum fixed (append_int v 2 ++ rest) = Ok (v, rest).
Proof.
  intros Hv. rewrite append_int_2 by done. cbn [app getnum].
  rewrite !digit_val_char by (Z.to_euclidean_division_equations; lia).
  do 2 f_equal. Z.to_euclidean_division_equations. lia.
Qed.

Lemma getnum_in_append fixed lo hi v rest : 0 ≤ v < 100 → lo ≤ v ≤ hi →
  getnum_in fixed lo hi (append_int v 2 ++ rest) = Ok (v, rest).
Proof.
  intros Hv Hb. unfold getnum_in. rewrite getnum_append by done. cbn [rbind fst].
  by rewrite (proj2 (Z.leb_le lo v)), (proj2 (Z.leb_le v hi)) by lia.
Qed.

Lemma digit_char_no_sign d s : 0 ≤ d < 10 →
  time_atoi (digit_char d :: s) =
    match digits_val 0 (digit_char d :: s) with
    | Some v => if v <? 2 ^ 63 then Ok v else Err time_error
    | None => Err time_error
    end.
Proof.
  intros Hd. pose proof (digit_not_sign _ (is_digit_char d Hd)) as [H1 H2].
  unfold time_atoi. destruct (digit_char d) as [[] [] [] [] [] [] [] []]; done.
Qed.

Lemma parse_year_append v rest : 0 ≤ v < 10000 →
  parse_year (append_int v 4 ++ rest) = Ok (v, rest).
Proof.
  intros Hv. rewrite append_int_4 by done. cbn [app parse_year].
  assert (0 ≤ v / 1000 < 10 ∧ 0 ≤ v / 100 mod 10 < 10 ∧ 0 ≤ v / 10 mod 10 < 10 ∧ 0 ≤ v mod 10 < 10)
    as (H1 & H2 & H3 & H4) by (Z.to_euclidean_division_equations; lia).
  rewrite is_digit_char, digit_char_no_sign by done. cbn [digits_val].
  rewrite !digit_val_char by done. cbn [digits_val].
  match goal with |- context [?e <? 2 ^ 63] => replace e with v
    by (Z.to_euclidean_division_equations; lia) end.
  rewrite (proj2 (Z.ltb_lt v _)) by lia. done.
Qed.

Lemma append_int_digits v w :
  0 ≤ v < 10 ^ Z.of_nat w → (1 ≤ w)%nat →
  Forall (λ c, is_digit c = true) (append_int v w)
  ∧ length (append_int v w) = w ∧ digits_val 0 (append_int v w) = Some v.
Proof.
  intros Hv Hw. unfold append_int. rewrite (proj2 (Z.ltb_ge v 0)), Z.abs_eq by lia.
  pose proof (length_FormatUint v w Hv Hw). split_and!.
  - apply Forall_app_2; [|apply FormatUint_digits; lia].
    by apply Forall_replicate.
  - rewrite length_app, length_replicate. lia.
  - rewrite digits_val_leading_zeros. apply FormatUint_val. lia.
Qed.

Lemma trim_zeros_spec s : ∃ k, s = trim_zeros s ++ replicate k "0"%char.
Proof.
  induction s as [|c s [k Hk]]; [by exists 0%nat|]. cbn [trim_zeros].
  destruct (trim_zeros s) as [|d t].
  - case_bool_decide as Hc.
    + subst c. exists (S k). simpl. by f_equal.
    + exists k. simpl. by f_equal.
  - exists k. simpl. by f_equal.
Qed.

Lemma take_digits_stop n s c rest :
  Forall (λ c, is_digit c = true) s → (length s ≤ n)%nat → is_digit c = false →
  take_digits n (s ++ c :: rest) = s.
Proof.
  intros H Hn Hc. revert n Hn. induction H as [|d s Hd _ IH]; intros n Hn; simpl.
  - destruct n; simpl; [done|]. by rewrite Hc.
  - destruct n; [simpl in Hn; lia|]. simpl. rewrite Hd, IH; [done|simpl in Hn; lia].
Qed.

Lemma length_append_nano ns : 0 ≤ ns < 1000000000 → (length (append_nano ns) ≤ 10)%nat.
Proof.
  intros Hns. destruct (append_int_digits ns 9 ltac:(simpl; lia) ltac:(lia)) as (_ & Hl & _).
  unfold append_nano. destruct (trim_zeros_spec (append_int ns 9)) as [k Hk].
  rewrite Hk, length_app in Hl. destruct (trim_zeros _); simpl in *; lia.
Qed.

(** The fraction is read back whatever text follows it, by any limit it does
    not exceed. *)
Lemma parse_frac_append limit ns z rest :
  0 ≤ ns < 1000000000 → (length (append_nano ns) ≤ S limit)%nat → is_digit z = false → z ≠ "."%char →
  parse_frac limit (append_nano ns ++ z :: rest) = Ok (ns, z :: rest).
Proof.
  intros Hns Hlim Hz Hpt. destruct (append_int_digits ns 9 ltac:(simpl; lia) ltac:(lia)) as (Hd & Hl & Hv).
  unfold append_nano in *. destruct (trim_zeros_spec (append_int ns 9)) as [k Hk].
  set (t := trim_zeros _) in *. clearbody t. rewrite Hk in Hd, Hl, Hv. clear Hk.
  apply Forall_app in Hd as [Hd _]. rewrite length_app, length_replicate in Hl.
  destruct (digits_val_Some 0 t Hd) as [v Ht].
  pose proof (digits_val_bound 0 t v ltac:(lia) Ht) as Hb.
  rewrite (digits_val_trailing_zeros _ _ _ _ Ht) in Hv. injection Hv as Hv.
  destruct t as [|c t].
  - simpl in Ht. injection Ht as <-. simpl in Hv. subst ns. cbn [app]. unfold parse_frac.
    destruct z as [[] [] [] [] [] [] [] []]; done.
  - cbn in Hlim. set (ds := c :: t) in *. cbn [app parse_frac].
    change (parse_frac limit ("."%char :: ds ++ z :: rest))
      with (match take_digits limit (ds ++ z :: rest) with
            | [] => Ok (0, "."%char :: ds ++ z :: rest)
            | ds' => let* n := parse_nanos ds' in Ok (n, drop (length ds') (ds ++ z :: rest))
            end).
    rewrite take_digits_stop by (done || subst ds; simpl; lia). subst ds. cbn iota beta.
    rewrite drop_app_exact by done. unfold parse_nanos.
    apply Forall_cons_1 in Hd as [Hc _].
    assert (0 ≤ default 0 (digit_val c) < 10 ∧ digit_char (default 0 (digit_val c)) = c)
      as [Hr Hch].
    { unfold is_digit in Hc. destruct (digit_val c) as [x|] eqn:Ex; [|done]. simpl.
      split; [by eapply digit_val_range|]. unfold digit_val in Ex. case_hyp Ex; [|done].
      injection Ex as <-. unfold digit_char. rewrite Zplus_minus. apply byte_of_Z_of_byte. }
    rewrite <- Hch, digit_char_no_sign, Hch, Ht by done.
    assert (10 ^ Z.of_nat (length (c :: t)) ≤ 10 ^ 9) as Hp.
    { apply Z.pow_le_mono_r; lia. }
    change (10 ^ 9) with 1000000000 in Hp.
    rewrite (proj2 (Z.ltb_lt v (2 ^ 63))) by lia. cbn [rbind].
    rewrite (proj2 (Z.leb_le 0 v)), (proj2 (Z.ltb_lt v _)) by lia. cbn [andb rbind].
    do 2 f_equal. rewrite <- Hv. do 2 f_equal. lia.
Qed.

(** The date and the time of day as [Format] writes them, with the text [mid]
    between them. *)
Definition clock_text (mid : bytes) (c : Z * Z * Z * (Z * Z * Z * Z)) : bytes :=
  let '(y, m, d, (hh, mm, ss, _)) := c in
  "034"%char :: append_int y 4 ++ "-"%char :: append_int m 2 ++ "-"%char :: append_int d 2
    ++ mid ++ append_int hh 2 ++ ":"%char :: append_int mm 2 ++ ":"%char :: append_int ss 2.

(** The fields of an instant with a four-digit year: their bounds, and the
    instant they stand for. *)
Record civil_ok (t y m d hh mm ss ns : Z) : Prop := mkCivilOk {
  civil_eq : civil t = (y, m, d, (hh, mm, ss, ns));
  civil_year : 0 ≤ y ≤ 9999;
  civil_month : 1 ≤ m ≤ 12;
  civil_day : 1 ≤ d ≤ 31;
  civil_day_ok : day_ok y m d = true;
  civil_clock : 0 ≤ hh ≤ 23 ∧ 0 ≤ mm ≤ 59 ∧ 0 ≤ ss ≤ 59 ∧ 0 ≤ ns < 1000000000;
  civil_instant : instant y m d hh mm ss ns = t
}.

Lemma civil_four_digit_year t :
  four_digit_year t → ∃ y m d hh mm ss ns, civil_ok t y m d hh mm ss ns.
Proof.
  intros Ht. destruct (date_of_days (t / nanos_per_day)) as [[y m] d] eqn:Hdate.
  pose proof (year_range t y m d Ht Hdate) as Hy.
  pose proof Hdate as Hdate'. apply date_of_days_spec in Hdate' as (Hdays & Hm & Hd & _).
  set (sod := t mod nanos_per_day).
  assert (0 ≤ sod < 86400 * 1000000000) as Hsod by (apply Z.mod_pos_bound; done).
  set (s := sod / 1000000000).
  assert (0 ≤ s < 86400) as Hs by (subst s; Z.to_euclidean_division_equations; lia).
  exists y, m, d, (s / 3600), (s / 60 mod 60), (s mod 60), (sod mod 1000000000).
  assert (1 ≤ d ≤ 31) as Hd31.
  { unfold day_ok, days_in in Hd. rewrite andb_true_iff, !Z.leb_le in Hd.
    assert (m = 1 ∨ m = 2 ∨ m = 3 ∨ m = 4 ∨ m = 5 ∨ m = 6 ∨ m = 7 ∨ m = 8 ∨ m = 9 ∨ m = 10
            ∨ m = 11 ∨ m = 12) as Hc by lia.
    repeat destruct Hc as [->|Hc]; [..|subst m]; destruct (is_leap y); simpl in Hd; lia. }
  constructor; try done.
  - unfold civil. by rewrite Hdate.
  - pose proof (Z.mod_pos_bound sod 1000000000 ltac:(done)).
    Z.to_euclidean_division_equations; lia.
  - unfold instant. rewrite Hdays.
    assert (s / 3600 * 3600 + s / 60 mod 60 * 60 + s mod 60 = s) as Hhms
      by (clear; Z.to_euclidean_division_equations; lia).
    pose proof (Z.div_mod sod 1000000000 ltac:(done)) as Hs2. fold s in Hs2.
    pose proof (Z.div_mod t nanos_per_day ltac:(done)) as Hdm. fold sod in Hdm.
    unfold nanos_per_day in *. lia.
Qed.

Lemma parse_clock_text sep mid rest t y m d hh mm ss ns :
  civil_ok t y m d hh mm ss ns →
  (∀ s, sep (mid ++ append_int hh 2 ++ s) = Ok (append_int hh 2 ++ s)) →
  parse_clock sep (clock_text mid (civil t) ++ rest) = Ok (y, m, d, (hh, mm, ss), rest).
Proof.
  intros [-> Hy Hm Hd _ (Hhh & Hmm & Hss & _) _] Hsep. unfold clock_text, parse_clock.
  assert (∀ c s, expect c (c :: s) = Ok s) as He.
  { intros c s. unfold expect. by rewrite bool_decide_true. }
  repeat (rewrite <- app_comm_cons || rewrite <- app_assoc). rewrite He. cbn [rbind].
  rewrite parse_year_append by lia. cbn [rbind fst snd]. rewrite He. cbn [rbind].
  rewrite getnum_in_append by lia. cbn [rbind fst snd]. rewrite He. cbn [rbind].
  rewrite getnum_in_append by lia. cbn [rbind fst snd].
  rewrite Hsep. cbn [rbind].
  rewrite getnum_in_append by lia. cbn [rbind fst snd]. rewrite He. cbn [rbind].
  rewrite getnum_in_append by lia. cbn [rbind fst snd]. rewrite He. cbn [rbind].
  rewrite getnum_in_append by lia. done.
Qed.

Lemma FormatRFC3339Nano_eq t :
  FormatRFC3339Nano t =
    clock_text ["T"%char] (civil t) ++ append_nano (civil t).2.2 ++ ["Z"%char; "034"%char].
Proof.
  unfold FormatRFC3339Nano, clock_text. destruct (civil t) as [[[y m] d] [[[hh mm] ss] ns]].
  cbn [fst snd]. rewrite <- !app_comm_cons. by repeat (rewrite <- ?app_assoc, <- ?app_comm_cons).
Qed.

Lemma FormatExpanded_eq t :
  FormatExpanded t = clock_text [" "%char] (civil t) ++ to_bytes " UTC" ++ ["034"%char].
Proof.
  unfold FormatExpanded, clock_text. destruct (civil t) as [[[y m] d] [[[hh mm] ss] ns]].
  rewrite <- !app_comm_cons. by repeat (rewrite <- ?app_assoc, <- ?app_comm_cons).
Qed.

(** [Parse] reads back every instant [Format] writes with a four-digit year. *)
Lemma ParseRFC3339Nano_Format t :
  four_digit_year t → ParseRFC3339Nano (FormatRFC3339Nano t) = Ok t.
Proof.
  intros Ht. destruct (civil_four_digit_year t Ht) as (y & m & d & hh & mm & ss & ns & Hc).
  rewrite FormatRFC3339Nano_eq. unfold ParseRFC3339Nano.
  erewrite parse_clock_text by (done || intros; by rewrite <- app_comm_cons; cbn [expect]; rewrite bool_decide_true).
  destruct Hc as [Hcv _ _ _ Hday (_ & _ & _ & Hns) Hi]. rewrite Hcv. cbn [rbind fst snd].
  rewrite parse_frac_append by (done || (pose proof (length_append_nano ns Hns); lia)). cbn [rbind fst snd parse_offset].
  change (end_quote ["034"%char]) with (Ok ()). cbn [rbind]. rewrite Hday. f_equal. lia.
Qed.

Lemma skip_blank_digit v s : 0 ≤ v < 100 →
  skip_blank (" "%char :: append_int v 2 ++ s) = Ok (append_int v 2 ++ s).
Proof.
  intros Hv. rewrite append_int_2 by done. cbn [skip_blank cut_space app].
  assert (0 ≤ v / 10 < 10) as Hd by (Z.to_euclidean_division_equations; lia).
  assert (digit_char (v / 10) ≠ " "%char) as Hne.
  { intros He. pose proof (is_digit_char _ Hd) as H. rewrite He in H. done. }
  destruct (digit_char (v / 10)) as [[] [] [] [] [] [] [] []]; done.
Qed.

(** The second layout drops the fraction of a second. *)
Lemma ParseExpanded_Format lookup t :
  four_digit_year t → t mod 1000000000 = 0 →
  ParseExpanded lookup (FormatExpanded t) = Ok t.
Proof.
  intros Ht H0. destruct (civil_four_digit_year t Ht) as (y & m & d & hh & mm & ss & ns & Hc).
  rewrite FormatExpanded_eq. unfold ParseExpanded. pose proof Hc as [_ _ _ _ _ (Hhh & _) _].
  erewrite parse_clock_text by (done || intros; apply skip_blank_digit; lia).
  destruct Hc as [Hcv _ _ _ Hday (_ & _ & _ & Hns) Hi]. cbn [rbind fst snd].
  assert (ns = 0) as ->.
  { unfold instant in Hi. rewrite <- Hi, Z.add_comm, Z_mod_plus_full, Z.mod_small in H0 by lia. done. }
  cbn -[end_quote instant day_ok]. change (end_quote ["034"%char]) with (Ok ()). cbn [rbind].
  by rewrite Hday, Hi.
Qed.

(** ** No input makes [Parse] panic *)

Ltac np_step :=
  match goal with
  | |- no_panic (Ok _) => exact I
  | |- no_panic (Err _) => exact I
  | |- no_panic (rbind _ _) => apply rbind_no_panic; [|intros ? _]
  | |- no_panic (match ?x with _ => _ end) => destruct x
  | |- no_panic _ => solve [auto with go_db]
  end.

Lemma expect_no_panic c s : no_panic (expect c s).
Proof. unfold expect. repeat np_step. Qed.
Lemma skip_blank_no_panic s : no_panic (skip_blank s).
Proof. unfold skip_blank. repeat np_step. Qed.
Lemma getnum_no_panic fixed s : no_panic (getnum fixed s).
Proof. unfold getnum. repeat np_step. Qed.
Lemma time_atoi_no_panic s : no_panic (time_atoi s).
Proof.
  unfold time_atoi. destruct (match s with [] => _ | _ => _ end) as [neg t]. repeat np_step.
Qed.
#[export] Hint Resolve expect_no_panic skip_blank_no_panic getnum_no_panic time_atoi_no_panic : go_db.

Lemma parse_year_no_panic s : no_panic (parse_year s).
Proof. unfold parse_year. repeat np_step. Qed.
Lemma getnum_in_no_panic fixed lo hi s : no_panic (getnum_in fixed lo hi s).
Proof. unfold getnum_in. repeat np_step. Qed.
Lemma parse_frac_no_panic n s : no_panic (parse_frac n s).
Proof. unfold parse_frac, parse_nanos. repeat np_step. Qed.
Lemma parse_offset_no_panic s : no_panic (parse_offset s).
Proof. unfold parse_offset. repeat np_step. Qed.
Lemma parse_zone_no_panic s : no_panic (parse_zone s).
Proof. unfold parse_zone. repeat np_step. Qed.
Lemma end_quote_no_panic s : no_panic (end_quote s).
Proof. unfold end_quote. repeat np_step. Qed.
#[export] Hint Resolve parse_year_no_panic getnum_in_no_panic parse_frac_no_panic
  parse_offset_no_panic parse_zone_no_panic end_quote_no_panic : go_db.

Lemma parse_clock_no_panic sep s :
  (∀ t, no_panic (sep t)) → no_panic (parse_clock sep s).
Proof. intros H. unfold parse_clock. repeat (np_step || apply H). Qed.

Lemma ParseRFC3339Nano_no_panic s : no_panic (ParseRFC3339Nano s).
Proof.
  unfold ParseRFC3339Nano. apply rbind_no_panic.
  - apply parse_clock_no_panic. apply expect_no_panic.
  - intros [[[[y m] d] [[hh mm] ss]] r] _. repeat np_step.
Qed.

Lemma ParseExpanded_no_panic lookup s : no_panic (ParseExpanded lookup s).
Proof.
  unfold ParseExpanded. apply rbind_no_panic.
  - apply parse_clock_no_panic. apply skip_blank_no_panic.
  - intros [[[[y m] d] [[hh mm] ss]] r] _. repeat np_step.
Qed.
#[export] Hint Resolve ParseRFC3339Nano_no_panic ParseExpanded_no_panic : go_db.
