(* ===== verification/GoTimeZone.v ===== *)
(** * [time]: JSON of a [time.Time] in its location

    [Time.MarshalJSON] and [Time.UnmarshalJSON].  The first writes the date and
    the time of day in the location of the value, which an instant does not
    have: the offset of the location at the instant, in seconds east of UTC, is
    an argument. *)

From Stdlib Require Import String Ascii NArith ZArith Lia.
From stdpp Require Import base list strings numbers.
From S2P Require Import Prelude GoPrim GoStrconv GoCalendar GoTime.

Local Open Scope Z_scope.

(** ** Formatting *)

(** The element [Z07:00] of a layout. *)
Definition zone_text (off : Z) : bytes :=
  if off =? 0 then ["Z"%char]
  else
    let zone := Z.quot off 60 in
    (if zone <? 0 then "-"%char else "+"%char)
    :: append_int (Z.abs zone / 60) 2 ++ ":"%char :: append_int (Z.abs zone mod 60) 2.

(** The instant as if the clock of the location showed UTC. *)
Definition local_clock (off t : Z) : Z := t + off * 1000000000.

(** [t.Format(`"2006-01-02T15:04:05.999999999Z07:00"`)] *)
Definition FormatRFC3339Nano_in (off t : Z) : bytes :=
  let '(y, m, d, (hh, mm, ss, ns)) := civil (local_clock off t) in
  "034"%char :: append_int y 4 ++ "-"%char :: append_int m 2 ++ "-"%char :: append_int d 2
    ++ "T"%char :: append_int hh 2 ++ ":"%char :: append_int mm 2 ++ ":"%char :: append_int ss 2
    ++ append_nano ns ++ zone_text off ++ ["034"%char].

(** [func (t Time) MarshalJSON() ([]byte, error)] *)
Definition Time_MarshalJSON (off t : Z) : result bytes :=
  let '(y, _, _, _) := civil (local_clock off t) in
  if (y <? 0) || (10000 <=? y) then Err time_error else Ok (FormatRFC3339Nano_in off t).

(** ** Parsing *)

(** [Parse(`"2006-01-02T15:04:05Z07:00"`, s)]: a fraction of any length may
    follow the seconds. *)
Definition ParseRFC3339 (s : bytes) : result Z :=
  let* c := parse_clock (expect "T") s in
  let '(y, m, d, (hh, mm, ss), s) := c in
  let* f := parse_frac (length s) s in
  let* z := parse_offset f.2 in
  let* _ := end_quote z.2 in
  if day_ok y m d then Ok (instant y m d hh mm ss f.1 - z.1 * 1000000000) else Err time_error.

(** [func (t *Time) UnmarshalJSON(data []byte) error] *)
Definition Time_UnmarshalJSON (data : bytes) (t : Z) : result Z :=
  if bool_decide (data = to_bytes "null") then Ok t else ParseRFC3339 data.

Example Time_MarshalJSON_test :
  Time_MarshalJSON 19800 1136239445123450000
    = Ok ("034"%char :: to_bytes "2006-01-03T03:34:05.12345+05:30" ++ ["034"%char])
  ∧ Time_MarshalJSON (-12600) 1136239445000000000
    = Ok ("034"%char :: to_bytes "2006-01-02T18:34:05-03:30" ++ ["034"%char])
  ∧ (let* b := Time_MarshalJSON (-12600) 1136239445000000001 in Time_UnmarshalJSON b 0)
    = Ok 1136239445000000001.
Proof. split_and!; vm_compute; reflexivity. Qed.

(** ** Reading back what [MarshalJSON] wrote *)

(** The offsets that the text shows exactly. *)
Definition zone_ok (off : Z) : Prop := off mod 60 = 0 ∧ -360000 < off < 360000.

Lemma time_atoi_append v : 0 ≤ v < 100 → time_atoi (append_int v 2) = Ok v.
Proof.
  intros Hv. rewrite append_int_2 by done.
  assert (0 ≤ v / 10 < 10 ∧ 0 ≤ v mod 10 < 10) as [H1 H2] by (Z.to_euclidean_division_equations; lia).
  rewrite digit_char_no_sign by done. cbn [digits_val]. rewrite !digit_val_char by done.
  cbn [digits_val]. match goal with |- context [?e <? 2 ^ 63] => replace e with v
    by (Z.to_euclidean_division_equations; lia) end.
  by rewrite (proj2 (Z.ltb_lt v _)) by lia.
Qed.

Lemma parse_offset_text off rest :
  zone_ok off → parse_offset (zone_text off ++ rest) = Ok (off, rest).
Proof.
  intros [Hm Hr]. unfold zone_text. destruct (Z.eqb_spec off 0) as [->|Hne]; [done|].
  assert (0 ≤ Z.abs (off ÷ 60) / 60 < 100 ∧ 0 ≤ Z.abs (off ÷ 60) mod 60 < 100) as [Hh Hmm]
    by (Z.to_euclidean_division_equations; lia).
  pose proof (time_atoi_append _ Hh) as Eh. pose proof (time_atoi_append _ Hmm) as Em.
  rewrite !append_int_2 in * by done. cbn [app].
  assert ((Z.abs (off ÷ 60) / 60 * 60 + Z.abs (off ÷ 60) mod 60) * 60 = Z.abs off) as Hoff
    by (Z.to_euclidean_division_equations; lia).
  destruct (Z.ltb_spec (off ÷ 60) 0) as [Hneg|Hpos]; unfold parse_offset;
    rewrite bool_decide_true, Eh by done; cbn [rbind]; rewrite Em; cbn [rbind]; rewrite Hoff.
  - rewrite bool_decide_false, bool_decide_true by done. do 2 f_equal.
    Z.to_euclidean_division_equations; lia.
  - rewrite bool_decide_true by done. do 2 f_equal. Z.to_euclidean_division_equations; lia.
Qed.

(** The first byte of the zone ends the fraction. *)
Lemma zone_text_start off : ∃ c s, zone_text off = c :: s ∧ is_digit c = false ∧ c ≠ "."%char.
Proof.
  unfold zone_text. destruct (off =? 0); [by do 2 eexists|].
  destruct (off ÷ 60 <? 0); by do 2 eexists.
Qed.

Lemma FormatRFC3339Nano_in_eq off t :
  FormatRFC3339Nano_in off t =
    clock_text ["T"%char] (civil (local_clock off t))
    ++ append_nano (civil (local_clock off t)).2.2 ++ zone_text off ++ ["034"%char].
Proof.
  unfold FormatRFC3339Nano_in, clock_text.
  destruct (civil (local_clock off t)) as [[[y m] d] [[[hh mm] ss] ns]].
  cbn [fst snd]. rewrite <- !app_comm_cons. by repeat (rewrite <- ?app_assoc, <- ?app_comm_cons).
Qed.

(** In UTC it is the format of the packet forwarder's timestamps. *)
Lemma FormatRFC3339Nano_in_UTC t : FormatRFC3339Nano_in 0 t = FormatRFC3339Nano t.
Proof.
  rewrite FormatRFC3339Nano_in_eq, FormatRFC3339Nano_eq. unfold local_clock.
  by rewrite Z.mul_0_l, Z.add_0_r.
Qed.

Lemma ParseRFC3339_Format off t :
  four_digit_year (local_clock off t) → zone_ok off →
  ParseRFC3339 (FormatRFC3339Nano_in off t) = Ok t.
Proof.
  intros Ht Hz. destruct (civil_four_digit_year _ Ht) as (y & m & d & hh & mm & ss & ns & Hc).
  rewrite FormatRFC3339Nano_in_eq. unfold ParseRFC3339.
  erewrite parse_clock_text by (done || intros; by rewrite <- app_comm_cons; cbn [expect]; rewrite bool_decide_true).
  destruct Hc as [Hcv _ _ _ Hday (_ & _ & _ & Hns) Hi]. rewrite Hcv. cbn [rbind fst snd].
  destruct (zone_text_start off) as (c & z & Ez & Hcd & Hcp).
  replace (append_nano ns ++ zone_text off ++ ["034"%char])
    with (append_nano ns ++ c :: z ++ ["034"%char]) by by rewrite Ez.
  rewrite parse_frac_append by (done || (rewrite length_app; simpl; lia)). cbn [rbind fst snd].
  change (c :: z ++ ["034"%char]) with ((c :: z) ++ ["034"%char]). rewrite <- Ez.
  rewrite parse_offset_text by done. cbn [rbind fst snd].
  change (end_quote ["034"%char]) with (Ok ()). cbn [rbind]. rewrite Hday, Hi. unfold local_clock.
  f_equal. lia.
Qed.

(** [MarshalJSON] refuses the instants whose year in the location does not have
    four digits, and no other. *)
Lemma Time_MarshalJSON_spec off t :
  four_digit_year (local_clock off t) ∧ Time_MarshalJSON off t = Ok (FormatRFC3339Nano_in off t)
  ∨ ¬ four_digit_year (local_clock off t) ∧ Time_MarshalJSON off t = Err time_error.
Proof.
  destruct (civil (local_clock off t)) as [[[y m] d] [[[hh mm] ss] ns]] eqn:Ec.
  pose proof Ec as Hd. unfold civil in Hd. injection Hd as Hd _ _ _ _.
  unfold Time_MarshalJSON. rewrite Ec. destruct (Z.ltb_spec y 0), (Z.leb_spec 10000 y); cbn [orb].
  1-3: right; split; [intros Hf; pose proof (year_range _ _ _ _ Hf Hd); lia|done].
  left. split; [by eapply year_range_inv; [exact Hd|lia]|done].
Qed.

Lemma Time_UnmarshalJSON_MarshalJSON off t prior :
  four_digit_year (local_clock off t) → zone_ok off →
  Time_UnmarshalJSON (FormatRFC3339Nano_in off t) prior = Ok t.
Proof.
  intros Ht Hz. unfold Time_UnmarshalJSON. rewrite bool_decide_false.
  - by apply ParseRFC3339_Format.
  - rewrite FormatRFC3339Nano_in_eq. unfold clock_text.
    by destruct (civil _) as [[[y m] d] [[[hh mm] ss] ns]].
Qed.

Lemma Time_UnmarshalJSON_no_panic data t : no_panic (Time_UnmarshalJSON data t).
Proof.
  unfold Time_UnmarshalJSON. case_bool_decide; [done|]. unfold ParseRFC3339.
  apply rbind_no_panic; [apply parse_clock_no_panic, expect_no_panic|].
  intros [[[[y m] d] [[hh mm] ss]] s'] _. repeat np_step.
Qed.
#[export] Hint Resolve Time_UnmarshalJSON_no_panic : go_db.
