(* ===== verification/GoUtf8.v ===== *)
(** * [unicode/utf8]

    [DecodeRune] and [EncodeRune], validity of a byte string, and the lemma the
    JSON text functions need: re-encoding a decoded rune gives the bytes back. *)

From Stdlib Require Import String Ascii NArith ZArith Lia.
From stdpp Require Import base list strings numbers.
From S2P Require Import Prelude GoPrim.

Local Open Scope Z_scope.

Definition RuneError : Z := 65533.

Definition in_rng (lo hi : Z) (b : byte) : bool := (lo <=? Z_of_byte b) && (Z_of_byte b <=? hi).

(** A continuation byte. *)
Definition cont (b : byte) : bool := in_rng 128 191 b.

(** The bounds of the second byte, by the first one ([acceptRanges]). *)
Definition accept2 (b0 b1 : byte) : bool :=
  let z := Z_of_byte b0 in
  if z =? 224 then in_rng 160 191 b1
  else if z =? 237 then in_rng 128 159 b1
  else if z =? 240 then in_rng 144 191 b1
  else if z =? 244 then in_rng 128 143 b1
  else cont b1.

Definition low6 (b : byte) : Z := Z_of_byte b mod 64.

(** [utf8.DecodeRune]: the rune and its width; [(RuneError, 1)] on an invalid
    encoding and [(RuneError, 0)] on empty input. *)
Definition DecodeRune (s : bytes) : Z * nat :=
  match s with
  | [] => (RuneError, 0%nat)
  | b0 :: s =>
      let z := Z_of_byte b0 in
      if z <? 128 then (z, 1%nat)
      else if (194 <=? z) && (z <=? 223) then
        match s with
        | b1 :: _ => if cont b1 then (z mod 32 * 64 + low6 b1, 2%nat) else (RuneError, 1%nat)
        | _ => (RuneError, 1%nat)
        end
      else if (224 <=? z) && (z <=? 239) then
        match s with
        | b1 :: b2 :: _ =>
            if accept2 b0 b1 && cont b2
            then (z mod 16 * 4096 + low6 b1 * 64 + low6 b2, 3%nat) else (RuneError, 1%nat)
        | _ => (RuneError, 1%nat)
        end
      else if (240 <=? z) && (z <=? 244) then
        match s with
        | b1 :: b2 :: b3 :: _ =>
            if accept2 b0 b1 && cont b2 && cont b3
            then (z mod 8 * 262144 + low6 b1 * 4096 + low6 b2 * 64 + low6 b3, 4%nat)
            else (RuneError, 1%nat)
        | _ => (RuneError, 1%nat)
        end
      else (RuneError, 1%nat)
  end.

Definition enc3 (r : Z) : bytes :=
  [byte_of_Z (224 + r / 4096); byte_of_Z (128 + r / 64 mod 64); byte_of_Z (128 + r mod 64)].

(** [utf8.EncodeRune]: what is not a scalar value is written as [RuneError]. *)
Definition EncodeRune (r : Z) : bytes :=
  if (0 <=? r) && (r <=? 127) then [byte_of_Z r]
  else if (0 <=? r) && (r <=? 2047) then
    [byte_of_Z (192 + r / 64); byte_of_Z (128 + r mod 64)]
  else if (r <? 0) || (1114111 <? r) || ((55296 <=? r) && (r <=? 57343)) then enc3 RuneError
  else if r <=? 65535 then enc3 r
  else [byte_of_Z (240 + r / 262144); byte_of_Z (128 + r / 4096 mod 64);
        byte_of_Z (128 + r / 64 mod 64); byte_of_Z (128 + r mod 64)].

(** [DecodeRune] found a well-formed rune at the head of [s]. *)
Definition rune_ok (s : bytes) : bool :=
  match DecodeRune s with
  | (r, n) => negb ((r =? RuneError) && (n <=? 1)%nat)
  end.

Fixpoint valid_loop (fuel : nat) (s : bytes) : bool :=
  match s with
  | [] => true
  | _ => match fuel with
         | O => false
         | S fuel => rune_ok s && valid_loop fuel (drop (snd (DecodeRune s)) s)
         end
  end.

(** [utf8.Valid] *)
Definition utf8_valid (s : bytes) : bool := valid_loop (length s) s.

(** ** Properties *)

Lemma in_rng_iff lo hi b : in_rng lo hi b = true ↔ lo ≤ Z_of_byte b ≤ hi.
Proof. unfold in_rng. rewrite andb_true_iff, !Z.leb_le. done. Qed.

Lemma accept2_range b0 b1 : accept2 b0 b1 = true → 128 ≤ Z_of_byte b1 ≤ 191 ∧
  (Z_of_byte b0 = 224 → 160 ≤ Z_of_byte b1) ∧ (Z_of_byte b0 = 237 → Z_of_byte b1 ≤ 159) ∧
  (Z_of_byte b0 = 240 → 144 ≤ Z_of_byte b1) ∧ (Z_of_byte b0 = 244 → Z_of_byte b1 ≤ 143).
Proof.
  unfold accept2, cont. cbv zeta. intros H.
  destruct (Z.eqb_spec (Z_of_byte b0) 224), (Z.eqb_spec (Z_of_byte b0) 237),
    (Z.eqb_spec (Z_of_byte b0) 240), (Z.eqb_spec (Z_of_byte b0) 244);
    apply in_rng_iff in H; lia.
Qed.

Lemma byte_of_Z_is z b : z = Z_of_byte b → byte_of_Z z = b.
Proof. intros ->. apply byte_of_Z_of_byte. Qed.

Lemma low6_cont b : 128 ≤ Z_of_byte b ≤ 191 → low6 b = Z_of_byte b - 128.
Proof.
  intros H. unfold low6. Z.to_euclidean_division_equations. lia.
Qed.

Lemma DecodeRune_width s : s ≠ [] → (1 <= snd (DecodeRune s) <= length s)%nat.
Proof.
  destruct s as [|b0 s]; [done|intros _]. unfold DecodeRune.
  repeat case_goal; simpl; lia.
Qed.

(** Re-encoding the rune at the head of a string gives its bytes back. *)
Lemma EncodeRune_DecodeRune s :
  s ≠ [] → rune_ok s = true →
  EncodeRune (fst (DecodeRune s)) = take (snd (DecodeRune s)) s.
Proof.
  intros Hs. destruct s as [|b0 s]; [done|]. unfold rune_ok, DecodeRune.
  pose proof (Z_of_byte_range b0).
  destruct (Z.ltb_spec (Z_of_byte b0) 128).
  { intros _. simpl. unfold EncodeRune. rewrite (proj2 (Z.leb_le 0 _)), (proj2 (Z.leb_le _ 127)) by lia.
    simpl. by rewrite byte_of_Z_of_byte, firstn_0 || rewrite byte_of_Z_of_byte. }
  destruct ((194 <=? Z_of_byte b0) && (Z_of_byte b0 <=? 223)) eqn:E2.
  { rewrite andb_true_iff, !Z.leb_le in E2. destruct s as [|b1 s]; [done|].
    destruct (cont b1) eqn:E; [|done]. intros _. apply in_rng_iff in E.
    simpl. rewrite low6_cont by lia.
    replace (Z_of_byte b0 mod 32) with (Z_of_byte b0 - 192)
      by (Z.to_euclidean_division_equations; lia).
    unfold EncodeRune.
    rewrite (proj2 (Z.leb_gt _ 127)), andb_false_r by lia.
    rewrite (proj2 (Z.leb_le 0 _)), (proj2 (Z.leb_le _ 2047)) by lia. cbn [andb].
    f_equal; [|f_equal]; apply byte_of_Z_is; Z.to_euclidean_division_equations; lia. }
  destruct ((224 <=? Z_of_byte b0) && (Z_of_byte b0 <=? 239)) eqn:E3.
  { rewrite andb_true_iff, !Z.leb_le in E3. destruct s as [|b1 [|b2 s]]; [done..|].
    destruct (accept2 b0 b1 && cont b2) eqn:E; [|done]. intros _.
    apply andb_true_iff in E as [Ea Ec]. apply accept2_range in Ea. apply in_rng_iff in Ec.
    simpl. rewrite !low6_cont by lia.
    replace (Z_of_byte b0 mod 16) with (Z_of_byte b0 - 224)
      by (Z.to_euclidean_division_equations; lia).
    set (r := (Z_of_byte b0 - 224) * 4096 + _ + _).
    assert (2048 ≤ r ≤ 65535 ∧ ¬ (55296 ≤ r ≤ 57343)) as [Hr Hs2] by (subst r; lia).
    unfold EncodeRune.
    rewrite (proj2 (Z.leb_gt r 127)), (proj2 (Z.leb_gt r 2047)), !andb_false_r by lia.
    rewrite (proj2 (Z.ltb_ge r 0)), (proj2 (Z.ltb_ge 1114111 r)), (proj2 (Z.leb_le r 65535)) by lia.
    replace ((55296 <=? r) && (r <=? 57343)) with false
      by (symmetry; apply andb_false_iff; rewrite !Z.leb_gt; lia).
    cbn [orb]. unfold enc3.
    f_equal; [|f_equal; [|f_equal]]; apply byte_of_Z_is; subst r;
      Z.to_euclidean_division_equations; lia. }
  destruct ((240 <=? Z_of_byte b0) && (Z_of_byte b0 <=? 244)) eqn:E4; [|done].
  rewrite andb_true_iff, !Z.leb_le in E4. destruct s as [|b1 [|b2 [|b3 s]]]; [done..|].
  destruct (accept2 b0 b1 && cont b2 && cont b3) eqn:E; [|done]. intros _.
  rewrite !andb_true_iff in E. destruct E as [[Ea Ec] Ed].
  apply accept2_range in Ea. apply in_rng_iff in Ec. apply in_rng_iff in Ed.
  simpl. rewrite !low6_cont by lia.
  replace (Z_of_byte b0 mod 8) with (Z_of_byte b0 - 240)
    by (Z.to_euclidean_division_equations; lia).
  set (r := (Z_of_byte b0 - 240) * 262144 + _ + _ + _).
  assert (65536 ≤ r ≤ 1114111) as Hr by (subst r; lia).
  unfold EncodeRune.
  rewrite (proj2 (Z.leb_gt r 127)), (proj2 (Z.leb_gt r 2047)), !andb_false_r by lia.
  rewrite (proj2 (Z.ltb_ge r 0)), (proj2 (Z.ltb_ge 1114111 r)), (proj2 (Z.leb_gt r 65535)) by lia.
  rewrite (proj2 (Z.leb_gt r 57343)), andb_false_r by lia.
  cbn [orb].
  repeat (f_equal; [apply byte_of_Z_is; subst r; Z.to_euclidean_division_equations; lia|]).
  f_equal. apply byte_of_Z_is; subst r; Z.to_euclidean_division_equations; lia.
Qed.

(** An ASCII string is valid. *)
Definition is_ascii (s : bytes) : bool := forallb (λ c, Z_of_byte c <? 128) s.

Lemma ascii_valid s : is_ascii s = true → utf8_valid s = true.
Proof.
  unfold utf8_valid. induction s as [|c s IH]; simpl; [done|].
  rewrite andb_true_iff. intros [Hc Hs]. unfold rune_ok, DecodeRune. rewrite Hc. simpl.
  rewrite drop_0, IH by done. apply Z.ltb_lt in Hc.
  by rewrite (proj2 (Z.eqb_neq (Z_of_byte c) RuneError)) by (unfold RuneError; lia).
Qed.
