(* ===== verification/GoFloat.v ===== *)
(** * Floating-point numbers

    [float64] and [float32] as the IEEE 754 specification floats of the
    Standard Library ([spec_float]): round-to-nearest-even multiplication and
    division, the conversions from and to integers, [strconv.ParseFloat] on
    JSON number literals and the shortest formatting of [encoding/json]. *)

From Stdlib Require Import String Ascii NArith ZArith Lia SpecFloat.
From stdpp Require Import base list strings numbers.
From S2P Require Import Prelude GoPrim GoStrconv.

Local Open Scope Z_scope.

Abbreviation float64 := spec_float.
Abbreviation float32 := spec_float.

#[export] Instance spec_float_eq_dec : EqDecision spec_float.
Proof. solve_decision. Defined.

Definition f64_zero : float64 := S754_zero false.

(** [float64(z)] for an integer [z] *)
Definition f64_of_Z (z : Z) : float64 := binary_normalize 53 1024 z 0 false.
Definition f64_add : float64 → float64 → float64 := SFadd 53 1024.
Definition f64_sub : float64 → float64 → float64 := SFsub 53 1024.
Definition f64_mul : float64 → float64 → float64 := SFmul 53 1024.
Definition f64_div : float64 → float64 → float64 := SFdiv 53 1024.
Definition f64_eqb : float64 → float64 → bool := SFeqb.
Definition f64_ltb : float64 → float64 → bool := SFltb.
Definition f64_abs : float64 → float64 := SFabs.

Definition is_finite (f : spec_float) : bool :=
  match f with S754_zero _ | S754_finite _ _ _ => true | _ => false end.

(** The integer part of a finite float, towards zero. *)
Definition f_trunc (f : spec_float) : option Z :=
  match f with
  | S754_zero _ => Some 0
  | S754_finite s m e =>
      let a := match e with
               | Zneg _ => Z.shiftr (Zpos m) (- e)
               | _ => Z.shiftl (Zpos m) e
               end in
      Some (if s then - a else a)
  | _ => None
  end.

(** [int64(f)] on amd64 ([CVTTSD2SQ]): towards zero, and the indefinite value
    [-2^63] for what does not fit. *)
Definition f64_to_int64 (f : float64) : Z :=
  match f_trunc f with
  | Some z => if in_s 64 z then z else - 2 ^ 63
  | None => - 2 ^ 63
  end.

(** [int32(f)] on amd64: [CVTTSD2SQ] and truncation to the low 32 bits. *)
Definition f64_to_int32 (f : float64) : Z := to_int32 (f64_to_int64 f).

(** [float32(f)] *)
Definition f32_of_f64 (f : float64) : float32 :=
  match f with
  | S754_finite s m e => binary_normalize 24 128 (if s then Zneg m else Zpos m) e s
  | _ => f
  end.

Definition f32_of_Z (z : Z) : float32 := binary_normalize 24 128 z 0 false.

(** ** Decimal to binary *)

Definition ndigits (n : Z) : Z := Z.of_nat (length (FormatUint n)).

(** The double nearest to [d * 10^k] (ties to even).  Values beyond [10^310]
    or below [10^-330] are decided before the power is computed. *)
Definition f64_of_dec (neg : bool) (d k : Z) : float64 :=
  if d =? 0 then S754_zero neg
  else if 310 <? ndigits d + k then S754_infinity neg
  else if ndigits d + k <? -330 then S754_zero neg
  else
    match k with
    | Zneg p =>
        let '(q, e, l) := SFdiv_core_binary 53 1024 d 0 (10 ^ Zpos p) 0 in
        binary_round_aux 53 1024 neg q e l
    | _ => binary_normalize 53 1024 (if neg then - (d * 10 ^ k) else d * 10 ^ k) 0 neg
    end.

Fixpoint span_digits (s : bytes) : bytes * bytes :=
  match s with
  | c :: s' => if is_digit c then let '(d, r) := span_digits s' in (c :: d, r) else ([], s)
  | [] => ([], [])
  end.

(** The optional exponent of a JSON number literal, to the end of the text. *)
Definition parse_exp (s : bytes) : option Z :=
  match s with
  | [] => Some 0
  | ("e"%char | "E"%char) :: "-"%char :: t => Z.opp <$> digits_val 0 t
  | ("e"%char | "E"%char) :: "+"%char :: t => digits_val 0 t
  | ("e"%char | "E"%char) :: t => digits_val 0 t
  | _ => None
  end.

(** [[-]digits[.digits][exponent]] as sign, digits and power of ten. *)
Definition parse_decimal (s : bytes) : option (bool * Z * Z) :=
  let '(neg, s) := match s with "-"%char :: t => (true, t) | _ => (false, s) end in
  let '(ip, s) := span_digits s in
  let '(fp, s) := match s with
                  | "."%char :: t => span_digits t
                  | _ => ([], s)
                  end in
  d ← digits_val 0 (ip ++ fp);
  x ← parse_exp s;
  Some (neg, d, x - Z.of_nat (length fp)).

(** [strconv.ParseFloat(s, 64)] on a JSON number literal: an overflow is a
    range error. *)
Definition ParseFloat (s : bytes) : result float64 :=
  match parse_decimal s with
  | Some (neg, d, k) =>
      let f := f64_of_dec neg d k in
      if is_finite f then Ok f else Err (ErrLib "strconv")
  | None => Err (ErrLib "strconv")
  end.

Lemma ParseFloat_no_panic s : no_panic (ParseFloat s).
Proof. unfold ParseFloat. by repeat case_goal. Qed.
#[export] Hint Resolve ParseFloat_no_panic : go_db.

(** ** Binary to decimal *)

(** The position of the decimal point: the [p] with [10^(p-1) <= n/d < 10^p]. *)
Definition dec_point (n d : Z) : Z :=
  if d <=? n then ndigits (n / d)
  else let k := ndigits (d / n) in
       if d =? n * 10 ^ (k - 1) then 2 - k else 1 - k.

(** [n/d] rounded to an integer, ties to even. *)
Definition round_even_ratio (n d : Z) : Z :=
  let q := n / d in
  match 2 * (n mod d) ?= d with
  | Lt => q
  | Gt => q + 1
  | Eq => if Z.even q then q else q + 1
  end.

(** The nearest [nd]-digit decimal of [n/d], as digits and power of ten. *)
Definition round_digits (nd n d : Z) : Z * Z :=
  let p := dec_point n d in
  let k := p - nd in
  let q := match k with
           | Zneg j => round_even_ratio (n * 10 ^ Zpos j) d
           | _ => round_even_ratio n (d * 10 ^ k)
           end in
  if q =? 10 ^ nd then (10 ^ (nd - 1), k + 1) else (q, k).

(** The exact value of a positive float as a ratio, and as a decimal. *)
Definition f_ratio (m : positive) (e : Z) : Z * Z :=
  match e with Zneg p => (Zpos m, 2 ^ Zpos p) | _ => (Zpos m * 2 ^ e, 1) end.
Definition f_exact (m : positive) (e : Z) : Z * Z :=
  match e with Zneg p => (Zpos m * 5 ^ Zpos p, e) | _ => (Zpos m * 2 ^ e, 0) end.

(** The first precision whose decimal reads back as the same float.  Seventeen
    digits are always enough for a double, so the last case, the exact decimal
    value, is not reached. *)
Fixpoint shortest_loop (fuel : nat) (nd : Z) (m : positive) (e : Z) : Z * Z :=
  match fuel with
  | O => f_exact m e
  | S fuel =>
      let '(n, d) := f_ratio m e in
      let '(q, k) := round_digits nd n d in
      if bool_decide (f64_of_dec false q k = S754_finite false m e) then (q, k)
      else shortest_loop fuel (nd + 1) m e
  end.

Definition shortest (m : positive) (e : Z) : Z * Z := shortest_loop 17 1 m e.

Definition zeros (n : Z) : bytes := replicate (Z.to_nat n) "0"%char.

(** [%f] with the shortest precision: digits [ds], [ds * 10^k] in value *)
Definition fmt_f (ds : bytes) (k : Z) : bytes :=
  let dp := Z.of_nat (length ds) + k in
  if 0 <=? k then ds ++ zeros k
  else if 0 <? dp then
    take (Z.to_nat dp) ds ++ "."%char :: drop (Z.to_nat dp) ds
  else "0"%char :: "."%char :: zeros (- dp) ++ ds.

(** [%e] with the shortest precision, after [e-09] became [e-9] *)
Definition fmt_e (ds : bytes) (k : Z) : bytes :=
  let x := Z.of_nat (length ds) + k - 1 in
  match ds with
  | [] => []
  | c :: ds =>
      c :: match ds with [] => [] | _ => "."%char :: ds end
        ++ "e"%char ::
        (if x <? 0 then "-"%char :: FormatUint (- x)
         else "+"%char :: if x <? 10 then "0"%char :: FormatUint x else FormatUint x)
  end.

(** [encoding/json]'s rendering of a finite float64 (the ECMAScript form). *)
Definition fmt_pos (m : positive) (e : Z) : bytes :=
  let '(q, k) := shortest m e in
  let ds := FormatUint q in
  let dp := Z.of_nat (length ds) + k in
  if (dp <? -5) || (21 <? dp) then fmt_e ds k else fmt_f ds k.

Definition FormatFloatJSON (f : float64) : result bytes :=
  match f with
  | S754_zero s => Ok (if s then to_bytes "-0" else to_bytes "0")
  | S754_finite s m e => Ok (if s then "-"%char :: fmt_pos m e else fmt_pos m e)
  | _ => Err (ErrLib "json")
  end.

(** ** Tests *)

Definition fmt_str (r : result bytes) : string :=
  match r with Ok b => to_string b | _ => "error" end.

Example fmt_868_1 : fmt_str (FormatFloatJSON (f64_div (f64_of_Z 868100000) (f64_of_Z 1000000))) = "868.1"%string.
Proof. vm_compute. reflexivity. Qed.

Example parse_868_5 :
  ParseFloat (to_bytes "868.5") = Ok (S754_finite false 7639406789787648 (-43)).
Proof. vm_compute. reflexivity. Qed.

Example fmt_misc :
  map (λ s, match ParseFloat (to_bytes s) with Ok f => fmt_str (FormatFloatJSON f) | _ => "bad"%string end)
    ["33.3"; "1e21"; "1e-6"; "0.0000001"; "-5.1"; "1e309"; "100"; "-0"]%string
  = ["33.3"; "1e+21"; "0.000001"; "1e-7"; "-5.1"; "bad"; "100"; "-0"]%string.
Proof. vm_compute. reflexivity. Qed.
