(* ===== verification/Lorawan.v ===== *)
(** * Data types shared by the components

    The vendored data types the bridge passes around: [lorawan.EUI64] with its
    text form, [band.DataRate], and the packets of the [gw] package that the
    UDP side and the network backends exchange. *)

From Stdlib Require Import String Ascii NArith ZArith Lia SpecFloat.
From stdpp Require Import base gmap list strings numbers countable.
From S2P Require Import Prelude GoPrim GoFloat.

Local Open Scope Z_scope.

(** ** [lorawan.EUI64]: an array of eight bytes *)

Record EUI64 : Type := mkEUI64 {
  eui0 : byte; eui1 : byte; eui2 : byte; eui3 : byte;
  eui4 : byte; eui5 : byte; eui6 : byte; eui7 : byte
}.

(** [e[:]] *)
Definition eui_bytes (e : EUI64) : bytes :=
  [eui0 e; eui1 e; eui2 e; eui3 e; eui4 e; eui5 e; eui6 e; eui7 e].

(** The array whose elements are those of a slice of length eight. *)
Definition eui_of_bytes (b : bytes) : option EUI64 :=
  match b with
  | [b0; b1; b2; b3; b4; b5; b6; b7] => Some (mkEUI64 b0 b1 b2 b3 b4 b5 b6 b7)
  | _ => None
  end.

Lemma eui_of_bytes_bytes e : eui_of_bytes (eui_bytes e) = Some e.
Proof. by destruct e. Qed.

Lemma eui_of_bytes_Some b e : eui_of_bytes b = Some e ↔ b = eui_bytes e.
Proof.
  split; [|intros ->; apply eui_of_bytes_bytes].
  unfold eui_of_bytes. intros H. repeat case_hyp H; by simplify_eq.
Qed.

Lemma eui_of_bytes_length b : length b = 8%nat → is_Some (eui_of_bytes b).
Proof. intros H. do 9 (destruct b as [|? b]; try discriminate H). eauto. Qed.

Lemma length_eui_bytes e : length (eui_bytes e) = 8%nat.
Proof. done. Qed.

#[export] Instance EUI64_eq_dec : EqDecision EUI64.
Proof. solve_decision. Defined.

#[export] Instance EUI64_countable : Countable EUI64 :=
  inj_countable eui_bytes eui_of_bytes eui_of_bytes_bytes.

Definition eui_zero : EUI64 := mkEUI64 "000" "000" "000" "000" "000" "000" "000" "000".

(** [func (e EUI64) String() string]: hexadecimal, most significant byte first *)
Definition EUI64_String (e : EUI64) : string := to_string (hex_encode (eui_bytes e)).

(** [func (e *EUI64) UnmarshalText(text []byte) error] *)
Definition EUI64_UnmarshalText (text : bytes) : result EUI64 :=
  let* b := hex_decode text in
  if (length b =? 8)%nat then
    match eui_of_bytes b with
    | Some e => Ok e
    | None => Panic "copy"
    end
  else Err (ErrMsg "lorawan: exactly 8 bytes are expected").

Lemma EUI64_UnmarshalText_String e :
  EUI64_UnmarshalText (to_bytes (EUI64_String e)) = Ok e.
Proof.
  unfold EUI64_UnmarshalText, EUI64_String.
  rewrite to_bytes_of_string, hex_decode_encode. cbn [rbind].
  by rewrite length_eui_bytes, eui_of_bytes_bytes.
Qed.

Lemma EUI64_String_inj e e' : EUI64_String e = EUI64_String e' → e = e'.
Proof.
  intros H. pose proof (EUI64_UnmarshalText_String e) as H1.
  rewrite H, EUI64_UnmarshalText_String in H1. by inv_ok.
Qed.

Lemma hex_decode_no_panic b : no_panic (hex_decode b).
Proof.
  revert b. fix IH 1. intros [|c1 [|c2 b]]; simpl; try done.
  repeat case_goal; try done. apply rbind_no_panic; [apply IH|done].
Qed.

Lemma EUI64_UnmarshalText_no_panic t : no_panic (EUI64_UnmarshalText t).
Proof.
  apply rbind_no_panic; [apply hex_decode_no_panic|intros b _].
  destruct (Nat.eqb_spec (length b) 8) as [Hl|]; [|done].
  by destruct (eui_of_bytes_length b Hl) as [e ->].
Qed.

(** ** [band.DataRate] *)

Definition LoRaModulation : string := "LORA".
Definition FSKModulation : string := "FSK".

Record DataRate : Type := mkDataRate {
  Modulation : string;
  SpreadFactor : Z;
  Bandwidth : Z;
  BitRate : Z
}.

Definition DataRate_zero : DataRate := mkDataRate "" 0 0 0.

#[export] Instance DataRate_eq_dec : EqDecision DataRate.
Proof. solve_decision. Defined.

(** ** Instants

    A [time.Time] is its instant, in nanoseconds since the Unix epoch; the
    location of a [time.Time] only matters to formatting.  The packet forwarder's
    texts are formatted in UTC; the JSON of the MQTT backend takes the offset of
    the location as an argument. *)
Definition Time : Type := Z.

(** The zero [time.Time]: January 1, year 1, 00:00:00 UTC. *)
Definition Time_zero : Time := -62135596800 * 1000000000.

(** ** The packets of the package [gw] *)

Record RXInfo : Type := mkRXInfo {
  RXInfo_MAC : EUI64;
  RXInfo_Time : Time;
  RXInfo_Timestamp : Z;
  RXInfo_Frequency : Z;
  RXInfo_Channel : Z;
  RXInfo_RFChain : Z;
  RXInfo_CRCStatus : Z;
  RXInfo_CodeRate : string;
  RXInfo_RSSI : Z;
  RXInfo_LoRaSNR : float64;
  RXInfo_Size : Z;
  RXInfo_DataRate : DataRate
}.

Record RXPacketBytes : Type := mkRXPacketBytes {
  RXPacket_RXInfo : RXInfo;
  RXPacket_PHYPayload : bytes
}.

Record TXInfo : Type := mkTXInfo {
  TXInfo_MAC : EUI64;
  TXInfo_Immediately : bool;
  TXInfo_Timestamp : Z;
  TXInfo_Frequency : Z;
  TXInfo_Power : Z;
  TXInfo_DataRate : DataRate;
  TXInfo_CodeRate : string;
  TXInfo_IPol : option bool
}.

Record TXPacketBytes : Type := mkTXPacketBytes {
  TXPacket_TXInfo : TXInfo;
  TXPacket_PHYPayload : bytes
}.

(** A value of type [interface{}] stored in [CustomData]: the dynamic types
    the sources store or test for, and any other. *)
Inductive iface : Type :=
| IString (s : string)
| IStrings (l : list string)
| IOther.

Record GatewayStatsPacket : Type := mkGatewayStatsPacket {
  Stats_MAC : EUI64;
  Stats_Time : Time;
  Stats_Latitude : float64;
  Stats_Longitude : float64;
  Stats_Altitude : float64;
  Stats_RXPacketsReceived : Z;
  Stats_RXPacketsReceivedOK : Z;
  Stats_TXPacketsEmitted : Z;
  Stats_CustomData : gmap string iface
}.

#[export] Instance RXInfo_eq_dec : EqDecision RXInfo.
Proof. solve_decision. Defined.
#[export] Instance RXPacketBytes_eq_dec : EqDecision RXPacketBytes.
Proof. solve_decision. Defined.
#[export] Instance TXInfo_eq_dec : EqDecision TXInfo.
Proof. solve_decision. Defined.
#[export] Instance TXPacketBytes_eq_dec : EqDecision TXPacketBytes.
Proof. solve_decision. Defined.
#[export] Instance iface_eq_dec : EqDecision iface.
Proof. solve_decision. Defined.
#[export] Instance GatewayStatsPacket_eq_dec : EqDecision GatewayStatsPacket.
Proof. solve_decision. Defined.
