(* ===== verification/GoJson.v ===== *)
(** * [encoding/json]

    The JSON text the bridge reads and writes: a parser that accepts what the
    package's scanner accepts, string quoting and unquoting (with the HTML-safe
    escapes), the text of composed values, and the round trip from a value to
    its text and back.  A parsed value keeps its own source text, because
    [json.Unmarshaler] implementations receive it. *)

From Stdlib Require Import String Ascii NArith ZArith Lia.
From stdpp Require Import base list strings numbers.
From S2P Require Import Prelude GoPrim GoStrconv GoUtf8 GoFloat.

Local Open Scope Z_scope.

(** ** Values *)

(** A JSON value; [raw] is its text, quotes and brackets included. *)
Inductive json : Type :=
| JNull
| JBool (b : bool)
| JNum (lit : bytes)
| JStr (raw : bytes) (s : bytes)
| JArr (raw : bytes) (l : list json)
| JObj (raw : bytes) (l : list (bytes * json)).

Definition json_raw (j : json) : bytes :=
  match j with
  | JNull => to_bytes "null"
  | JBool b => if b then to_bytes "true" else to_bytes "false"
  | JNum lit => lit
  | JStr raw _ | JArr raw _ | JObj raw _ => raw
  end.

(** ** Strings *)

Definition dquote : byte := "034".
Definition backslash : byte := "092".

Definition hex4 (r : Z) : bytes :=
  [hex_digit (Z.shiftr r 12 mod 16); hex_digit (Z.shiftr r 8 mod 16);
   hex_digit (Z.shiftr r 4 mod 16); hex_digit (r mod 16)].

Definition u_escape (r : Z) : bytes := backslash :: "u"%char :: hex4 r.

(** One ASCII byte inside a string literal ([encodeState.string] with
    [escapeHTML]). *)
Definition esc_byte (b : byte) : bytes :=
  if bool_decide (b = dquote) || bool_decide (b = backslash) then [backslash; b]
  else if bool_decide (b = "010"%char) then [backslash; "n"%char]
  else if bool_decide (b = "013"%char) then [backslash; "r"%char]
  else if bool_decide (b = "009"%char) then [backslash; "t"%char]
  else if (Z_of_byte b <? 32) || bool_decide (b = "<"%char) || bool_decide (b = ">"%char)
          || bool_decide (b = "&"%char) then u_escape (Z_of_byte b)
  else [b].

Definition is_line_sep (r : Z) : bool := (r =? 8232) || (r =? 8233).

Fixpoint quote_loop (fuel : nat) (s : bytes) : bytes :=
  match fuel, s with
  | S fuel, b :: t =>
      if Z_of_byte b <? 128 then esc_byte b ++ quote_loop fuel t
      else
        let '(r, n) := DecodeRune s in
        if (r =? RuneError) && (n =? 1)%nat then u_escape RuneError ++ quote_loop fuel t
        else if is_line_sep r then u_escape r ++ quote_loop fuel (drop n s)
        else take n s ++ quote_loop fuel (drop n s)
  | _, _ => []
  end.

(** The literal of a string, quotes included. *)
Definition quote (s : bytes) : bytes := dquote :: quote_loop (length s) s ++ [dquote].

(** [getu4]: the value of a unicode escape at the head of the text. *)
Definition getu4 (s : bytes) : option Z :=
  match s with
  | c :: "u"%char :: a :: b :: x :: d :: _ =>
      if bool_decide (c = backslash) then
        a ← from_hex_char a; b ← from_hex_char b; x ← from_hex_char x; d ← from_hex_char d;
        Some (a * 4096 + b * 256 + x * 16 + d)
      else None
  | _ => None
  end.

Definition is_surrogate (r : Z) : bool := (55296 <=? r) && (r <=? 57343).

(** [utf16.DecodeRune] *)
Definition utf16_decode (r1 r2 : Z) : Z :=
  if (55296 <=? r1) && (r1 <? 56320) && (56320 <=? r2) && (r2 <? 57344)
  then (r1 - 55296) * 1024 + (r2 - 56320) + 65536 else RuneError.

(** The single-character escapes. *)
Definition simple_escape (c : byte) : option byte :=
  match c with
  | "b"%char => Some "008"%char
  | "f"%char => Some "012"%char
  | "n"%char => Some "010"%char
  | "r"%char => Some "013"%char
  | "t"%char => Some "009"%char
  | "/"%char => Some "/"%char
  | _ => if bool_decide (c = dquote) || bool_decide (c = backslash) then Some c else None
  end.

(** [unquote] on the text between the quotes. *)
Fixpoint unquote_loop (fuel : nat) (s : bytes) : option bytes :=
  match s with
  | [] => Some []
  | b :: t =>
      match fuel with
      | O => None
      | S fuel =>
          if bool_decide (b = backslash) then
            match t with
            | "u"%char :: _ =>
                r ← getu4 s;
                let s' := drop 6 s in
                if is_surrogate r then
                  match getu4 s' with
                  | Some r1 =>
                      let d := utf16_decode r r1 in
                      if d =? RuneError
                      then rest ← unquote_loop fuel s'; Some (EncodeRune RuneError ++ rest)
                      else rest ← unquote_loop fuel (drop 6 s'); Some (EncodeRune d ++ rest)
                  | None => rest ← unquote_loop fuel s'; Some (EncodeRune RuneError ++ rest)
                  end
                else rest ← unquote_loop fuel s'; Some (EncodeRune r ++ rest)
            | c :: t' =>
                e ← simple_escape c; rest ← unquote_loop fuel t'; Some (e :: rest)
            | [] => None
            end
          else if bool_decide (b = dquote) || (Z_of_byte b <? 32) then None
          else if Z_of_byte b <? 128 then rest ← unquote_loop fuel t; Some (b :: rest)
          else
            let '(r, n) := DecodeRune s in
            rest ← unquote_loop fuel (drop n s); Some (EncodeRune r ++ rest)
      end
  end.

Definition unquote (s : bytes) : option bytes := unquote_loop (length s) s.

(** The text of a string literal up to its closing quote, and what follows. *)
Fixpoint scan_string (s : bytes) : option (bytes * bytes) :=
  match s with
  | [] => None
  | b :: t =>
      if bool_decide (b = dquote) then Some ([], t)
      else if bool_decide (b = backslash) then
        match t with
        | c :: t' => '(body, rest) ← scan_string t'; Some (b :: c :: body, rest)
        | [] => None
        end
      else '(body, rest) ← scan_string t; Some (b :: body, rest)
  end.

(** ** Parsing *)

Definition is_space (c : byte) : bool :=
  bool_decide (c = " "%char) || bool_decide (c = "009"%char)
  || bool_decide (c = "010"%char) || bool_decide (c = "013"%char).

Fixpoint skip_ws (s : bytes) : bytes :=
  match s with
  | c :: t => if is_space c then skip_ws t else s
  | [] => []
  end.

(** The integer part of a number: [0], or digits without a leading zero. *)
Definition scan_int (s : bytes) : option (bytes * bytes) :=
  match s with
  | "0"%char :: t => Some (["0"%char], t)
  | _ => match span_digits s with ([], _) => None | r => Some r end
  end.

Definition scan_frac (s : bytes) : option (bytes * bytes) :=
  match s with
  | "."%char :: t => match span_digits t with ([], _) => None | (d, r) => Some ("."%char :: d, r) end
  | _ => Some ([], s)
  end.

Definition scan_expo (s : bytes) : option (bytes * bytes) :=
  match s with
  | (("e"%char | "E"%char) as x) :: t =>
      let '(sg, t) := match t with (("+"%char | "-"%char) as c) :: t' => ([c], t') | _ => ([], t) end in
      match span_digits t with ([], _) => None | (d, r) => Some (x :: sg ++ d, r) end
  | _ => Some ([], s)
  end.

Definition scan_number (s : bytes) : option (bytes * bytes) :=
  let '(sg, s) := match s with "-"%char :: t => (["-"%char], t) | _ => ([], s) end in
  '(i, s) ← scan_int s;
  '(f, s) ← scan_frac s;
  '(x, s) ← scan_expo s;
  Some (sg ++ i ++ f ++ x, s).

(** The part of [s] before its suffix [rest]. *)
Definition before (s rest : bytes) : bytes := take (length s - length rest) s.

Definition strip (pre s : bytes) : option bytes :=
  if bool_decide (take (length pre) s = pre) then Some (drop (length pre) s) else None.

(** One value at the head of the text (after white space), and what follows.
    The fuel bounds the depth of the recursion, which takes at most two calls
    for a byte of the text. *)
Fixpoint parse_value (fuel : nat) (s : bytes) : option (json * bytes) :=
  match fuel with
  | O => None
  | S fuel =>
      let s := skip_ws s in
      match s with
      | [] => None
      | "{"%char :: t =>
          '(l, rest) ← parse_members fuel true t;
          Some (JObj (before s rest) l, rest)
      | "["%char :: t =>
          '(l, rest) ← parse_elems fuel true t;
          Some (JArr (before s rest) l, rest)
      | c :: t =>
          if bool_decide (c = dquote) then
            '(body, rest) ← scan_string t;
            v ← unquote body;
            Some (JStr (before s rest) v, rest)
          else if bool_decide (c = "n"%char) then
            rest ← strip (to_bytes "null") s; Some (JNull, rest)
          else if bool_decide (c = "t"%char) then
            rest ← strip (to_bytes "true") s; Some (JBool true, rest)
          else if bool_decide (c = "f"%char) then
            rest ← strip (to_bytes "false") s; Some (JBool false, rest)
          else '(lit, rest) ← scan_number s; Some (JNum lit, rest)
      end
  end
(** The members of an object after the opening bracket, closing bracket
    included; [first] tells whether the list may still be empty. *)
with parse_members (fuel : nat) (first : bool) (s : bytes) : option (list (bytes * json) * bytes) :=
  match fuel with
  | O => None
  | S fuel =>
      match skip_ws s with
      | "}"%char :: rest => if first then Some ([], rest) else None
      | c :: t =>
          if bool_decide (c = dquote) then
            '(body, t) ← scan_string t;
            k ← unquote body;
            match skip_ws t with
            | ":"%char :: t =>
                '(v, t) ← parse_value fuel t;
                match skip_ws t with
                | ","%char :: t =>
                    '(l, rest) ← parse_members fuel false t; Some ((k, v) :: l, rest)
                | "}"%char :: rest => Some ([(k, v)], rest)
                | _ => None
                end
            | _ => None
            end
          else None
      | [] => None
      end
  end
with parse_elems (fuel : nat) (first : bool) (s : bytes) : option (list json * bytes) :=
  match fuel with
  | O => None
  | S fuel =>
      match skip_ws s, first with
      | "]"%char :: rest, true => Some ([], rest)
      | s', _ =>
          '(v, t) ← parse_value fuel s';
          match skip_ws t with
          | ","%char :: t =>
              '(l, rest) ← parse_elems fuel false t; Some (v :: l, rest)
          | "]"%char :: rest => Some ([v], rest)
          | _ => None
          end
      end
  end.

(** A whole text: one value and white space. *)
Definition parse_json (s : bytes) : option json :=
  match parse_value (2 * length s + 2) s with
  | Some (j, rest) => match skip_ws rest with [] => Some j | _ => None end
  | None => None
  end.

(** ** String literals: unquoting inverts quoting *)

Lemma hex_digit_inv v : 0 ≤ v < 16 → from_hex_char (hex_digit v) = Some v.
Proof.
  intros Hv.
  assert (forallb (λ n, bool_decide (from_hex_char (hex_digit (Z.of_nat n)) = Some (Z.of_nat n)))
            (seq 0 16) = true) as H by (vm_compute; reflexivity).
  rewrite forallb_forall in H. specialize (H (Z.to_nat v)). rewrite in_seq in H.
  specialize (H ltac:(lia)). apply bool_decide_eq_true_1 in H. by rewrite Z2Nat.id in H by lia.
Qed.

Lemma getu4_u_escape r q : 0 ≤ r < 65536 → getu4 (u_escape r ++ q) = Some r.
Proof.
  intros Hr. unfold u_escape, hex4. cbn -[hex_digit Z.shiftr Z.modulo from_hex_char].
  rewrite !hex_digit_inv by (apply Z.mod_pos_bound; lia). cbn -[Z.shiftr Z.modulo].
  rewrite !Z.shiftr_div_pow2 by lia. f_equal.
  change (2 ^ 12) with 4096. change (2 ^ 8) with 256. change (2 ^ 4) with 16.
  Z.to_euclidean_division_equations. lia.
Qed.

(** A decoded rune only depends on the bytes it spans. *)
Lemma DecodeRune_take s q :
  rune_ok s = true → s ≠ [] → DecodeRune (take (snd (DecodeRune s)) s ++ q) = DecodeRune s.
Proof.
  intros Hok Hs. destruct s as [|b0 s]; [done|]. unfold rune_ok in Hok. unfold DecodeRune in *.
  destruct (Z_of_byte b0 <? 128) eqn:E1; [simpl; by rewrite E1|].
  destruct ((194 <=? Z_of_byte b0) && (Z_of_byte b0 <=? 223)) eqn:E2.
  { destruct s as [|b1 s]; [done|]. destruct (cont b1) eqn:E; [|done].
    simpl. by rewrite E1, E2, E. }
  destruct ((224 <=? Z_of_byte b0) && (Z_of_byte b0 <=? 239)) eqn:E3.
  { destruct s as [|b1 [|b2 s]]; [done..|].
    destruct (accept2 b0 b1 && cont b2) eqn:E; [|done].
    cbn [take snd app]. by rewrite E1, E2, E3, E. }
  destruct ((240 <=? Z_of_byte b0) && (Z_of_byte b0 <=? 244)) eqn:E4; [|done].
  destruct s as [|b1 [|b2 [|b3 s]]]; [done..|].
  destruct (accept2 b0 b1 && cont b2 && cont b3) eqn:E; [|done].
  cbn [take snd app]. by rewrite E1, E2, E3, E4, E.
Qed.

(** Unquoting a literal piece by piece. *)
Definition unquotes_to (piece out : bytes) : Prop :=
  piece ≠ [] ∧
  ∀ fuel q, unquote_loop (S fuel) (piece ++ q) =
            (rest ← unquote_loop fuel q; Some (out ++ rest)).

Lemma unquote_u_escape r :
  0 ≤ r < 65536 → is_surrogate r = false → unquotes_to (u_escape r) (EncodeRune r).
Proof.
  intros Hr Hs. split; [done|]. intros fuel q.
  pose proof (getu4_u_escape r q Hr) as Hg.
  unfold u_escape, hex4 in *. cbn [app unquote_loop] in *.
  rewrite bool_decide_true by done. cbn [drop]. rewrite Hg. simpl. by rewrite Hs.
Qed.

Lemma esc_byte_unquotes b : Z_of_byte b < 128 → unquotes_to (esc_byte b) [b].
Proof.
  intros Hb. unfold esc_byte.
  destruct (bool_decide (b = dquote)) eqn:E1.
  { apply bool_decide_eq_true_1 in E1 as ->. by split. }
  destruct (bool_decide (b = backslash)) eqn:E2.
  { apply bool_decide_eq_true_1 in E2 as ->. by split. }
  cbn [orb].
  destruct (bool_decide (b = "010"%char)) eqn:E3.
  { apply bool_decide_eq_true_1 in E3 as ->. by split. }
  destruct (bool_decide (b = "013"%char)) eqn:E4.
  { apply bool_decide_eq_true_1 in E4 as ->. by split. }
  destruct (bool_decide (b = "009"%char)) eqn:E5.
  { apply bool_decide_eq_true_1 in E5 as ->. by split. }
  pose proof (Z_of_byte_range b) as Hr.
  case_goal.
  - assert (EncodeRune (Z_of_byte b) = [b]) as <-.
    { unfold EncodeRune. rewrite (proj2 (Z.leb_le 0 _)), (proj2 (Z.leb_le _ 127)) by lia.
      simpl. by rewrite byte_of_Z_of_byte. }
    apply unquote_u_escape; [lia|].
    unfold is_surrogate. by rewrite (proj2 (Z.leb_gt 55296 _)) by lia.
  - rewrite !orb_false_iff in *. destruct_and!.
    split; [done|]. intros fuel q. cbn [app unquote_loop].
    rewrite E1, E2. replace (Z_of_byte b <? 32) with false by done.
    by rewrite (proj2 (Z.ltb_lt _ _) Hb).
Qed.

Lemma rune_unquotes s :
  s ≠ [] → rune_ok s = true → ¬ Z_of_byte (hd "000"%char s) < 128 →
  unquotes_to (take (snd (DecodeRune s)) s) (take (snd (DecodeRune s)) s).
Proof.
  intros Hs Hok Hhd. pose proof (DecodeRune_width s Hs) as Hw.
  pose proof (EncodeRune_DecodeRune s Hs Hok) as He.
  split; [destruct s, (snd (DecodeRune _)); simpl; try done; lia|].
  intros fuel q. pose proof (DecodeRune_take s q Hok Hs) as Hd.
  destruct (DecodeRune s) as [r n] eqn:ED. simpl in *.
  destruct s as [|b t]; [done|]. destruct n as [|n]; [lia|]. simpl in Hhd.
  cbn [take app] in *. cbn [unquote_loop].
  destruct (bool_decide (b = backslash)) eqn:E1;
    [apply bool_decide_eq_true_1 in E1 as ->; by vm_compute in Hhd|].
  destruct (bool_decide (b = dquote)) eqn:E2;
    [apply bool_decide_eq_true_1 in E2 as ->; by vm_compute in Hhd|].
  rewrite (proj2 (Z.ltb_ge _ 32)), (proj2 (Z.ltb_ge _ 128)) by lia. cbn [orb].
  rewrite Hd, He. cbn [drop]. by rewrite drop_app_exact by (rewrite length_take; simpl in *; lia).
Qed.

(** The pieces the encoder emits, for the head of a valid string. *)
Lemma quote_loop_step fuel s :
  s ≠ [] → rune_ok s = true →
  ∃ piece, quote_loop (S fuel) s = piece ++ quote_loop fuel (drop (snd (DecodeRune s)) s)
    ∧ unquotes_to piece (take (snd (DecodeRune s)) s).
Proof.
  intros Hs Hok. pose proof (EncodeRune_DecodeRune s Hs Hok) as He.
  pose proof (rune_unquotes s Hs Hok) as Hr.
  destruct s as [|b t]; [done|]. cbn [quote_loop].
  destruct (Z.ltb_spec (Z_of_byte b) 128) as [Hb|Hb].
  - exists (esc_byte b). unfold DecodeRune. rewrite (proj2 (Z.ltb_lt _ _) Hb). simpl.
    rewrite drop_0. split; [done|]. by apply esc_byte_unquotes.
  - unfold rune_ok in Hok. destruct (DecodeRune (b :: t)) as [r n]. cbn [fst snd] in *.
    assert ((r =? RuneError) && (n =? 1)%nat = false) as ->.
    { destruct (r =? RuneError); [|done]. simpl in *.
      destruct (Nat.eqb_spec n 1) as [->|]; done. }
    destruct (is_line_sep r) eqn:El.
    + exists (u_escape r). split; [done|]. rewrite <- He.
      unfold is_line_sep in El. rewrite orb_true_iff, !Z.eqb_eq in El.
      by apply unquote_u_escape; [|destruct El as [->| ->]]; [lia|..].
    + eexists. split; [done|]. apply Hr. simpl. lia.
Qed.

Lemma unquote_quote_loop fuel s f2 :
  valid_loop fuel s = true → (length (quote_loop fuel s) ≤ f2)%nat →
  unquote_loop f2 (quote_loop fuel s) = Some s.
Proof.
  revert s f2. induction fuel as [|fuel IH]; intros s f2 Hv Hf.
  { destruct s; [|done]. by destruct f2. }
  destruct s as [|b t]; [by destruct f2|].
  set (s := b :: t) in *. assert (s ≠ []) as Hs by done.
  cbn [valid_loop] in Hv. subst s. cbn [valid_loop] in Hv. set (s := b :: t) in *.
  apply andb_true_iff in Hv as [Hok Hv].
  destruct (quote_loop_step fuel s Hs Hok) as (piece & Hq & Hne & Hp).
  rewrite Hq in *. rewrite length_app in Hf.
  destruct f2 as [|f2]; [destruct piece; simpl in *; [done|lia]|].
  rewrite Hp, IH by (done || (destruct piece; simpl in *; [done|lia])).
  simpl. by rewrite take_drop.
Qed.

Lemma unquote_quote s : utf8_valid s = true → unquote (quote_loop (length s) s) = Some s.
Proof. intros H. by apply unquote_quote_loop. Qed.

(** ** String literals: the scanner stops at the closing quote *)

(** Inside a literal, [piece] is passed over as a whole. *)
Definition scans_over (piece : bytes) : Prop :=
  ∀ q, scan_string (piece ++ q) = ('(body, rest) ← scan_string q; Some (piece ++ body, rest)).

Lemma scans_over_nil : scans_over [].
Proof. intros q. simpl. by destruct (scan_string q) as [[]|]. Qed.

Lemma scans_over_app p1 p2 : scans_over p1 → scans_over p2 → scans_over (p1 ++ p2).
Proof.
  intros H1 H2 q. rewrite <- app_assoc, H1, H2.
  destruct (scan_string q) as [[]|]; simpl; [|done]. by rewrite app_assoc.
Qed.

Lemma scans_over_plain b : b ≠ dquote → b ≠ backslash → scans_over [b].
Proof. intros H1 H2 q. simpl. by rewrite !bool_decide_false by done. Qed.

Lemma scans_over_escape c : scans_over [backslash; c].
Proof. intros q. simpl. by destruct (scan_string q) as [[]|]. Qed.

Lemma scans_over_Forall p :
  Forall (λ b, b ≠ dquote ∧ b ≠ backslash) p → scans_over p.
Proof.
  induction 1 as [|b p [H1 H2] _ IH]; [apply scans_over_nil|].
  apply (scans_over_app [b]); [by apply scans_over_plain|done].
Qed.

Lemma hex_digit_plain v : 0 ≤ v < 16 → hex_digit v ≠ dquote ∧ hex_digit v ≠ backslash.
Proof.
  intros Hv. pose proof (hex_digit_inv v Hv).
  split; intros Heq; rewrite Heq in *; done.
Qed.

Lemma scans_over_u_escape r : scans_over (u_escape r).
Proof.
  apply (scans_over_app [backslash; "u"%char]); [apply scans_over_escape|].
  apply scans_over_Forall. unfold hex4.
  repeat constructor; apply hex_digit_plain, Z.mod_pos_bound; lia.
Qed.

Lemma scans_over_esc_byte b : scans_over (esc_byte b).
Proof.
  unfold esc_byte.
  repeat (case_goal; [apply scans_over_escape || apply scans_over_u_escape|]).
  rewrite !orb_false_iff, !bool_decide_eq_false in *. destruct_and!.
  by apply scans_over_plain.
Qed.

(** No byte of a rune beyond ASCII is a quote or a backslash. *)
Lemma rune_bytes_high s :
  s ≠ [] → rune_ok s = true → ¬ Z_of_byte (hd "000"%char s) < 128 →
  Forall (λ b, 128 ≤ Z_of_byte b) (take (snd (DecodeRune s)) s).
Proof.
  intros Hs Hok Hhd. destruct s as [|b0 s]; [done|]. simpl in Hhd.
  unfold rune_ok in Hok. unfold DecodeRune in *.
  rewrite (proj2 (Z.ltb_ge _ 128)) in * by lia.
  destruct ((194 <=? Z_of_byte b0) && (Z_of_byte b0 <=? 223)) eqn:E2.
  { destruct s as [|b1 s]; [done|]. destruct (cont b1) eqn:E; [|done].
    apply in_rng_iff in E. repeat constructor; lia. }
  destruct ((224 <=? Z_of_byte b0) && (Z_of_byte b0 <=? 239)) eqn:E3.
  { destruct s as [|b1 [|b2 s]]; [done..|].
    destruct (accept2 b0 b1 && cont b2) eqn:E; [|done].
    apply andb_true_iff in E as [Ea Ec]. apply accept2_range in Ea. apply in_rng_iff in Ec.
    repeat constructor; lia. }
  destruct ((240 <=? Z_of_byte b0) && (Z_of_byte b0 <=? 244)) eqn:E4; [|done].
  destruct s as [|b1 [|b2 [|b3 s]]]; [done..|].
  destruct (accept2 b0 b1 && cont b2 && cont b3) eqn:E; [|done].
  rewrite !andb_true_iff in E. destruct E as [[Ea Ec] Ed].
  apply accept2_range in Ea. apply in_rng_iff in Ec. apply in_rng_iff in Ed.
  repeat constructor; lia.
Qed.

Lemma scans_over_quote_loop fuel s : valid_loop fuel s = true → scans_over (quote_loop fuel s).
Proof.
  revert s. induction fuel as [|fuel IH]; intros s Hv.
  { destruct s; [apply scans_over_nil|done]. }
  destruct s as [|b t]; [apply scans_over_nil|].
  cbn [valid_loop] in Hv. apply andb_true_iff in Hv as [Hok Hv].
  pose proof (rune_bytes_high (b :: t) ltac:(done) Hok) as Hhigh.
  cbn [quote_loop]. destruct (Z.ltb_spec (Z_of_byte b) 128) as [Hb|Hb].
  - unfold DecodeRune in Hv. rewrite (proj2 (Z.ltb_lt _ _) Hb) in Hv. simpl in Hv.
    rewrite drop_0 in Hv. apply scans_over_app; [apply scans_over_esc_byte|by apply IH].
  - unfold rune_ok in Hok. destruct (DecodeRune (b :: t)) as [r n]. cbn [fst snd] in *.
    destruct ((r =? RuneError) && (n =? 1)%nat) eqn:E.
    { rewrite andb_true_iff, Nat.eqb_eq in E. destruct E as [E ->]. by rewrite E in Hok. }
    destruct (is_line_sep r); (apply scans_over_app; [|by apply IH]).
    + apply scans_over_u_escape.
    + apply scans_over_Forall. specialize (Hhigh ltac:(simpl; lia)).
      eapply Forall_impl; [|exact Hhigh].
      intros c Hc. split; intros ->; by vm_compute in Hc.
Qed.

Lemma scan_string_quote s rest :
  utf8_valid s = true →
  scan_string (quote_loop (length s) s ++ dquote :: rest) = Some (quote_loop (length s) s, rest).
Proof.
  intros H. rewrite (scans_over_quote_loop _ _ H). simpl. by rewrite app_nil_r.
Qed.

(** ** Composed values and their text *)

Fixpoint join (l : list bytes) : bytes :=
  match l with
  | [] => []
  | [x] => x
  | x :: l => x ++ ","%char :: join l
  end.

Definition member_text (m : bytes * json) : bytes := quote m.1 ++ ":"%char :: json_raw m.2.

Definition mk_str (s : bytes) : json := JStr (quote s) s.
Definition mk_arr (l : list json) : json :=
  JArr ("["%char :: join (map json_raw l) ++ ["]"%char]) l.
Definition mk_obj (l : list (bytes * json)) : json :=
  JObj ("{"%char :: join (map member_text l) ++ ["}"%char]) l.

(** What may follow a number without being read as a part of it. *)
Definition num_end (rest : bytes) : Prop :=
  match rest with
  | [] => True
  | c :: _ => is_digit c = false ∧ c ≠ "."%char ∧ c ≠ "e"%char ∧ c ≠ "E"%char
  end.

(** The first byte of a number literal. *)
Definition num_start (s : bytes) : Prop :=
  match s with c :: _ => is_digit c = true ∨ c = "-"%char | [] => False end.

(** The values the encoder builds, with the text it writes for them. *)
Inductive printable : json → Prop :=
| printable_null : printable JNull
| printable_bool b : printable (JBool b)
| printable_num lit :
    num_start lit → (∀ rest, num_end rest → scan_number (lit ++ rest) = Some (lit, rest)) →
    printable (JNum lit)
| printable_str s : utf8_valid s = true → printable (mk_str s)
| printable_arr l : Forall printable l → printable (mk_arr l)
| printable_obj l :
    Forall (λ m, utf8_valid m.1 = true) l → Forall (λ m, printable m.2) l → printable (mk_obj l).

(** The first byte of a printed value is neither a space nor a closing bracket. *)
Definition value_start (c : byte) : Prop :=
  is_space c = false ∧ c ≠ "]"%char ∧ c ≠ "}"%char.

Lemma is_digit_iff c : is_digit c = true ↔ 48 ≤ Z_of_byte c ≤ 57.
Proof.
  unfold is_digit, digit_val.
  destruct (Z.leb_spec 48 (Z_of_byte c)), (Z.leb_spec (Z_of_byte c) 57); simpl; lia || naive_solver lia.
Qed.

Lemma num_start_value c s : num_start (c :: s) →
  value_start c ∧ c ≠ "{"%char ∧ c ≠ "["%char ∧ c ≠ dquote ∧
  c ≠ "n"%char ∧ c ≠ "t"%char ∧ c ≠ "f"%char.
Proof.
  intros [Hd| ->]; [|by repeat split].
  assert (∀ x, is_digit x = false → c ≠ x) as Hx by (intros x Hx ->; congruence).
  unfold value_start, is_space. rewrite !bool_decide_false by (by apply Hx).
  repeat split; by apply Hx.
Qed.

Lemma printable_start j : printable j → ∃ c s, json_raw j = c :: s ∧ value_start c.
Proof.
  destruct 1 as [|[]|[|c lit] Hs _| | |]; try done; try (by eexists _, _).
  apply num_start_value in Hs as [Hv _]. by eexists _, _.
Qed.

Lemma skip_ws_start c s : value_start c → skip_ws (c :: s) = c :: s.
Proof. intros [H _]. simpl. by rewrite H. Qed.

Lemma before_app s rest : before (s ++ rest) rest = s.
Proof. unfold before. rewrite length_app. apply take_app_exact. lia. Qed.

Lemma before_bracket o J c rest : before (o :: J ++ c :: rest) rest = o :: J ++ [c].
Proof.
  rewrite <- (before_app (o :: J ++ [c]) rest). simpl. by rewrite <- app_assoc.
Qed.

Lemma strip_app p s : strip p (p ++ s) = Some s.
Proof.
  unfold strip. rewrite bool_decide_true by (by apply take_app_exact).
  by rewrite drop_app_exact.
Qed.

(** ** Parsing inverts printing *)

Ltac ascii_cases c := destruct c as [[] [] [] [] [] [] [] []].

Lemma parse_value_num fuel c t :
  num_start (c :: t) →
  parse_value (S fuel) (c :: t) = ('(lit, rest) ← scan_number (c :: t); Some (JNum lit, rest)).
Proof.
  intros Hn. apply num_start_value in Hn as (Hv & H1 & H2 & H3 & H4 & H5 & H6).
  cbn [parse_value]. rewrite (skip_ws_start c t Hv).
  rewrite (bool_decide_false _ H3), (bool_decide_false _ H4), (bool_decide_false _ H5),
    (bool_decide_false _ H6).
  clear Hv H3 H4 H5 H6. ascii_cases c; done.
Qed.

Lemma parse_value_str fuel body v rest :
  (∀ r, scan_string (body ++ dquote :: r) = Some (body, r)) → unquote body = Some v →
  parse_value (S fuel) ((dquote :: body ++ [dquote]) ++ rest)
    = Some (JStr (dquote :: body ++ [dquote]) v, rest).
Proof.
  intros Hs Hu. cbn [app]. rewrite <- app_assoc. cbn [app parse_value].
  change (skip_ws (dquote :: body ++ dquote :: rest)) with (dquote :: body ++ dquote :: rest).
  unfold dquote at 1. cbn match.
  rewrite bool_decide_true by done. rewrite Hs. cbn. rewrite Hu. cbn.
  change (Some (JStr (before (dquote :: body ++ dquote :: rest) rest) v, rest)
          = Some (JStr (dquote :: body ++ [dquote]) v, rest)).
  by rewrite before_bracket.
Qed.

Lemma parse_elems_cons fuel first c t :
  value_start c →
  parse_elems (S fuel) first (c :: t) =
    ('(v, t) ← parse_value fuel (c :: t);
     match skip_ws t with
     | ","%char :: t => '(l, rest) ← parse_elems fuel false t; Some (v :: l, rest)
     | "]"%char :: rest => Some ([v], rest)
     | _ => None
     end).
Proof.
  intros Hv. cbn [parse_elems]. rewrite (skip_ws_start c t Hv).
  destruct Hv as (_ & Hc & _). ascii_cases c; done.
Qed.

Lemma parse_members_quote fuel first k t :
  utf8_valid k = true →
  parse_members (S fuel) first (quote k ++ ":"%char :: t) =
    ('(v, t) ← parse_value fuel t;
     match skip_ws t with
     | ","%char :: t => '(l, rest) ← parse_members fuel false t; Some ((k, v) :: l, rest)
     | "}"%char :: rest => Some ([(k, v)], rest)
     | _ => None
     end).
Proof.
  intros Hk. unfold quote. cbn [app]. rewrite <- app_assoc. cbn [app parse_members].
  rewrite (skip_ws_start dquote) by done.
  unfold dquote at 1. cbn match. rewrite bool_decide_true by done.
  rewrite (scan_string_quote k _ Hk). cbn.
  by rewrite (unquote_quote k Hk).
Qed.

Lemma join_cons x y l : join (x :: y :: l) = x ++ ","%char :: join (y :: l).
Proof. done. Qed.

Definition parses_value fuel := ∀ j rest,
  printable j → num_end rest → (2 * length (json_raw j) + 1 ≤ fuel)%nat →
  parse_value fuel (json_raw j ++ rest) = Some (j, rest).

Definition parses_elems fuel := ∀ l first rest,
  l ≠ [] → Forall printable l → (2 * length (join (map json_raw l)) + 2 ≤ fuel)%nat →
  parse_elems fuel first (join (map json_raw l) ++ "]"%char :: rest) = Some (l, rest).

Definition parses_members fuel := ∀ l first rest,
  l ≠ [] → Forall (λ m, utf8_valid m.1 = true) l → Forall (λ m, printable m.2) l →
  (2 * length (join (map member_text l)) + 2 ≤ fuel)%nat →
  parse_members fuel first (join (map member_text l) ++ "}"%char :: rest) = Some (l, rest).

Lemma parses_elems_step fuel :
  parses_value fuel → parses_elems fuel → parses_elems (S fuel).
Proof.
  intros IHv IHe [|j l] first rest Hne Hp Hf; [done|].
  apply Forall_cons_1 in Hp as [Hj Hl].
  destruct (printable_start j Hj) as (c & t & Hraw & Hc).
  assert (join (map json_raw (j :: l)) = json_raw j ++
    match l with [] => [] | _ => ","%char :: join (map json_raw l) end) as Hjoin.
  { destruct l; simpl; by rewrite ?app_nil_r. }
  rewrite Hjoin in *. rewrite length_app in Hf.
  rewrite <- app_assoc. rewrite Hraw at 1. cbn [app].
  rewrite (parse_elems_cons _ _ _ _ Hc). rewrite app_comm_cons, <- Hraw.
  destruct l as [|j' l].
  - cbn [app]. rewrite IHv; [done|done|by repeat split|lia].
  - cbn [app]. rewrite IHv; [|done|by repeat split|cbn [length] in Hf; lia].
    cbn -[skip_ws parse_elems join map]. rewrite (skip_ws_start ","%char) by by repeat split.
    rewrite IHe; [done|done|done|cbn [length] in Hf; lia].
Qed.

Lemma parses_members_step fuel :
  parses_value fuel → parses_members fuel → parses_members (S fuel).
Proof.
  intros IHv IHm [|[k j] l] first rest Hne Hk Hp Hf; [done|].
  apply Forall_cons_1 in Hk as [Hk Hks]. apply Forall_cons_1 in Hp as [Hj Hl]. simpl in Hk, Hj.
  assert (join (map member_text ((k, j) :: l)) = quote k ++ ":"%char :: json_raw j ++
    match l with [] => [] | _ => ","%char :: join (map member_text l) end) as Hjoin.
  { destruct l; simpl; unfold member_text; simpl; [by rewrite app_nil_r|].
    by rewrite <- app_assoc. }
  rewrite Hjoin in *. rewrite !length_app in Hf. cbn [length] in Hf. rewrite length_app in Hf.
  rewrite <- app_assoc. cbn [app]. rewrite (parse_members_quote _ _ _ _ Hk).
  rewrite <- app_assoc. destruct l as [|m l].
  - cbn [app]. rewrite IHv; [done|done|by repeat split|lia].
  - cbn [app]. rewrite IHv; [|done|by repeat split|cbn [length] in Hf; lia].
    cbn -[skip_ws parse_members join map]. rewrite (skip_ws_start ","%char) by by repeat split.
    rewrite IHm; [done|done|done|done|cbn [length] in Hf; lia].
Qed.

Lemma parses_value_step fuel :
  parses_elems fuel → parses_members fuel → parses_value (S fuel).
Proof.
  intros IHe IHm j rest Hp Hrest Hf. destruct Hp as [|b|lit Hs Hlit|s Hs|l Hl|l Hk Hl].
  - done.
  - by destruct b.
  - destruct lit as [|c lit]; [done|]. cbn [json_raw app].
    rewrite parse_value_num by done. rewrite app_comm_cons, Hlit by done. done.
  - apply (parse_value_str fuel _ s); [intros r; by apply scan_string_quote|by apply unquote_quote].
  - destruct l as [|j l].
    + destruct fuel as [|fuel]; [cbn in Hf; lia|].
      change (Some (JArr (before (["["%char; "]"%char] ++ rest) rest) [], rest) = Some (mk_arr [], rest)).
      by rewrite before_app.
    + cbn [json_raw mk_arr] in *. cbn [app parse_value].
      rewrite (skip_ws_start "["%char) by done. rewrite <- app_assoc. cbn [app].
      cbn [length] in Hf. rewrite length_app in Hf. cbn [length] in Hf.
      rewrite IHe by (done || lia). cbn -[before join map].
      by rewrite before_bracket.
  - destruct l as [|m l].
    + destruct fuel as [|fuel]; [cbn in Hf; lia|].
      change (Some (JObj (before (["{"%char; "}"%char] ++ rest) rest) [], rest) = Some (mk_obj [], rest)).
      by rewrite before_app.
    + cbn [json_raw mk_obj] in *. cbn [app parse_value].
      rewrite (skip_ws_start "{"%char) by done. rewrite <- app_assoc. cbn [app].
      cbn [length] in Hf. rewrite length_app in Hf. cbn [length] in Hf.
      rewrite IHm by (done || lia). cbn -[before join map].
      by rewrite before_bracket.
Qed.

Lemma parses_all fuel : parses_value fuel ∧ parses_elems fuel ∧ parses_members fuel.
Proof.
  induction fuel as [|fuel (IHv & IHe & IHm)].
  - split_and!; intros j *; intros; lia.
  - split_and!; [by apply parses_value_step|by apply parses_elems_step|by apply parses_members_step].
Qed.

Lemma parse_json_raw j : printable j → parse_json (json_raw j) = Some j.
Proof.
  intros Hp. unfold parse_json.
  pose proof (proj1 (parses_all (2 * length (json_raw j) + 2)) j [] Hp I ltac:(lia)) as H.
  rewrite app_nil_r in H. by rewrite H.
Qed.
