(* ===== verification/GoJsonFuel.v ===== *)
(** * [encoding/json]: the fuel of the parser is enough

    The parser of [GoJson] recurs on fuel.  A value takes at most two calls for
    each byte of its text, so twice the length of the text never runs out: more
    fuel gives the same result, and a text that is rejected is malformed. *)

From Stdlib Require Import String Ascii NArith ZArith Lia.
From stdpp Require Import base list strings numbers.
From S2P Require Import Prelude GoPrim GoStrconv GoUtf8 GoFloat GoJson.

Local Open Scope list_scope.

(** ** The scanners consume their input *)

(** Splits a hypothesis that a computation in [option] succeeds. *)
Ltac inv_some :=
  repeat match goal with
  | H : None = Some _ |- _ => discriminate H
  | H : Some _ = Some _ |- _ => apply (inj Some) in H; simplify_eq/=
  | H : mbind _ _ = Some _ |- _ => apply bind_Some in H as (? & ? & ?)
  | H : (let '(_, _) := ?p in _) = Some _ |- _ => destruct p eqn:?
  | H : (if ?c then _ else _) = Some _ |- _ => destruct c eqn:?
  end.

Lemma skip_ws_length s : length (skip_ws s) <= length s.
Proof. induction s as [|c s IH]; simpl; [done|]. destruct (is_space c); simpl; lia. Qed.

Lemma span_digits_length s d r : span_digits s = (d, r) → length r <= length s.
Proof.
  revert d r. induction s as [|c s IH]; intros d r; simpl; [by intros [= <- <-]|].
  destruct (is_digit c); [|by intros [= <- <-]].
  destruct (span_digits s) as [d' r'] eqn:E. intros [= <- <-]. pose proof (IH _ _ eq_refl). lia.
Qed.

Lemma span_digits_cons_length s c d r : span_digits s = (c :: d, r) → length r < length s.
Proof.
  destruct s as [|a s]; simpl; [done|]. destruct (is_digit a); [|done].
  destruct (span_digits s) as [d' r'] eqn:E. intros [= -> -> ->].
  pose proof (span_digits_length _ _ _ E). lia.
Qed.

Lemma scan_string_length s body rest : scan_string s = Some (body, rest) → length rest < length s.
Proof.
  assert (∀ n s body rest, length s <= n → scan_string s = Some (body, rest) → length rest < length s)
    as H; [|by eapply H].
  clear. induction n as [|n IH]; intros [|b s] body rest Hn H; simpl in Hn; try lia; try done.
  cbn [scan_string] in H. destruct (bool_decide _); [injection H as <- <-; simpl; lia|].
  destruct (bool_decide _).
  - destruct s as [|c s]; [done|]. apply bind_Some in H as ([b' r'] & Hs & H). injection H as <- <-.
    apply IH in Hs; simpl in *; lia.
  - apply bind_Some in H as ([b' r'] & Hs & H). injection H as <- <-. apply IH in Hs; simpl in *; lia.
Qed.

Lemma scan_int_length s i r : scan_int s = Some (i, r) → length r < length s.
Proof.
  intros H. assert ((∃ t, s = "0"%char :: t ∧ r = t) ∨
    (∃ c d, span_digits s = (c :: d, r))) as [(t & -> & ->)|(c & d & Hs)].
  { unfold scan_int in H. destruct (span_digits s) as [[|c d] r'] eqn:E.
    - left. destruct s as [|[[] [] [] [] [] [] [] []] t]; try done. injection H as <- <-. eauto.
    - destruct s as [|a t]; [done|].
      assert ((a = "0"%char ∧ r = t) ∨ r' = r) as [[-> ->]| ->]; [|by left; eauto|by right; eauto].
      destruct a as [[] [] [] [] [] [] [] []]; try (right; congruence). left. by injection H as <- <-. }
  - simpl. lia.
  - by eapply span_digits_cons_length.
Qed.

Lemma scan_frac_length s f r : scan_frac s = Some (f, r) → length r <= length s.
Proof.
  intros H. assert ((f = [] ∧ r = s) ∨ ∃ t, s = "."%char :: t ∧ ∃ c d, span_digits t = (c :: d, r))
    as [[-> ->]|(t & -> & c & d & Hs)]; [|done|].
  - destruct s as [|a t]; [left; by injection H as <- <-|].
    destruct (decide (a = "."%char)) as [->|Hne].
    + right. exists t. split; [done|]. cbn in H. destruct (span_digits t) as [[|c d] r'] eqn:E; [done|].
      injection H as <- <-. eauto.
    + left. destruct a as [[] [] [] [] [] [] [] []]; try done; by injection H as <- <-.
  - apply span_digits_cons_length in Hs. simpl. lia.
Qed.

Lemma sign_length s sg t :
  match s with (("+"%char | "-"%char) as c) :: t' => ([c], t') | _ => ([], s) end = (sg, t) →
  length t <= length s.
Proof.
  destruct s as [|a s]; [by intros [= <- <-]|].
  destruct a as [[] [] [] [] [] [] [] []]; intros [= <- <-]; simpl; lia.
Qed.

Lemma scan_expo_length s x r : scan_expo s = Some (x, r) → length r <= length s.
Proof.
  destruct s as [|a s]; [by intros [= <- <-]|]. unfold scan_expo.
  assert (∀ z, (let '(sg, t) := match s with (("+"%char | "-"%char) as c) :: t' => ([c], t') | _ => ([], s) end in
    match span_digits t with ([], _) => None | (d, r) => Some (z :: sg ++ d, r) end) = Some (x, r) →
    length r <= length (a :: s)) as Hexp.
  { intros z. match goal with |- (let '(_, _) := ?p in _) = _ → _ => destruct p as [sg t] eqn:E end.
    apply sign_length in E.
    destruct (span_digits t) as [[|c d] r'] eqn:Es; [done|]. intros [= <- <-].
    apply span_digits_cons_length in Es. simpl. lia. }
  destruct a as [[] [] [] [] [] [] [] []]; first [apply Hexp | by intros [= <- <-]].
Qed.

Lemma scan_number_length s lit r : scan_number s = Some (lit, r) → length r < length s.
Proof.
  unfold scan_number.
  match goal with |- (let '(_, _) := ?p in _) = _ → _ => destruct p as [sg t] eqn:E end.
  assert (length t <= length s) as Hl.
  { destruct s as [|a s]; [by injection E as <- <-|].
    destruct a as [[] [] [] [] [] [] [] []]; injection E as <- <-; simpl; lia. }
  intros H. apply bind_Some in H as ([i s1] & Hi & H). apply bind_Some in H as ([f s2] & Hf & H).
  apply bind_Some in H as ([x s3] & Hx & H). apply (inj Some) in H.
  apply (inj2 pair) in H as [_ <-].
  apply scan_int_length in Hi. apply scan_frac_length in Hf. apply scan_expo_length in Hx. lia.
Qed.

Lemma strip_length p s r : strip p s = Some r → p ≠ [] → length r < length s.
Proof.
  unfold strip. case_bool_decide as Hp; [|done]. intros [= <-] Hne. rewrite length_drop.
  destruct p as [|c p]; [done|]. destruct s as [|a s]; [done|]. simpl. lia.
Qed.

(** ** So does the parser *)

Definition value_shrinks fuel : Prop :=
  ∀ s j r, parse_value fuel s = Some (j, r) → length r < length s.
Definition members_shrink fuel : Prop :=
  ∀ first s l r, parse_members fuel first s = Some (l, r) → length r < length s.
Definition elems_shrink fuel : Prop :=
  ∀ first s l r, parse_elems fuel first s = Some (l, r) → length r < length s.

(** What [parse_value] does on a text that starts with [c]. *)
Lemma parse_value_S fuel s :
  parse_value (S fuel) s =
  match skip_ws s with
  | [] => None
  | c :: t =>
      if bool_decide (c = "{"%char) then
        '(l, rest) ← parse_members fuel true t; Some (JObj (before (c :: t) rest) l, rest)
      else if bool_decide (c = "["%char) then
        '(l, rest) ← parse_elems fuel true t; Some (JArr (before (c :: t) rest) l, rest)
      else if bool_decide (c = dquote) then
        '(body, rest) ← scan_string t; v ← unquote body; Some (JStr (before (c :: t) rest) v, rest)
      else if bool_decide (c = "n"%char) then
        rest ← strip (to_bytes "null") (c :: t); Some (JNull, rest)
      else if bool_decide (c = "t"%char) then
        rest ← strip (to_bytes "true") (c :: t); Some (JBool true, rest)
      else if bool_decide (c = "f"%char) then
        rest ← strip (to_bytes "false") (c :: t); Some (JBool false, rest)
      else '(lit, rest) ← scan_number (c :: t); Some (JNum lit, rest)
  end.
Proof.
  cbn [parse_value]. destruct (skip_ws s) as [|c t]; [done|].
  destruct c as [[] [] [] [] [] [] [] []]; reflexivity.
Qed.

(** And [parse_members] and [parse_elems], with the separator decided by a test. *)
Definition after_value {A} (close : byte) (more : bytes → option (list A * bytes)) (v : A) (t : bytes)
  : option (list A * bytes) :=
  match skip_ws t with
  | c :: t =>
      if bool_decide (c = ","%char) then '(l, rest) ← more t; Some (v :: l, rest)
      else if bool_decide (c = close) then Some ([v], t)
      else None
  | [] => None
  end.

Lemma parse_members_S fuel first s :
  parse_members (S fuel) first s =
  match skip_ws s with
  | [] => None
  | c :: t =>
      if bool_decide (c = "}"%char) then if first then Some ([], t) else None
      else if bool_decide (c = dquote) then
        '(body, t) ← scan_string t;
        k ← unquote body;
        match skip_ws t with
        | c :: t =>
            if bool_decide (c = ":"%char) then
              '(v, t) ← parse_value fuel t;
              after_value "}"%char (parse_members fuel false) (k, v) t
            else None
        | [] => None
        end
      else None
  end.
Proof.
  cbn [parse_members]. destruct (skip_ws s) as [|c t]; [done|].
  assert (∀ body t, (k ← unquote body;
    match skip_ws t with
    | ":"%char :: t =>
        '(v, t) ← parse_value fuel t;
        match skip_ws t with
        | ","%char :: t => '(l, rest) ← parse_members fuel false t; Some ((k, v) :: l, rest)
        | "}"%char :: rest => Some ([(k, v)], rest)
        | _ => None
        end
    | _ => None
    end) = (k ← unquote body;
    match skip_ws t with
    | c :: t =>
        if bool_decide (c = ":"%char) then
          '(v, t) ← parse_value fuel t; after_value "}"%char (parse_members fuel false) (k, v) t
        else None
    | [] => None
    end)) as Hm.
  { intros body u. destruct (unquote body) as [k|]; [|done]. cbn [mbind option_bind].
    destruct (skip_ws u) as [|a u']; [done|].
    assert (∀ v u, match skip_ws u with
      | ","%char :: t => '(l, rest) ← parse_members fuel false t; Some ((k, v) :: l, rest)
      | "}"%char :: rest => Some ([(k, v)], rest)
      | _ => None
      end = after_value "}"%char (parse_members fuel false) (k, v) u) as Hv.
    { intros v w. unfold after_value. destruct (skip_ws w) as [|b w']; [done|].
      destruct b as [[] [] [] [] [] [] [] []]; reflexivity. }
    transitivity (if bool_decide (a = ":"%char) then
      '(v, t) ← parse_value fuel u';
      match skip_ws t with
      | ","%char :: t => '(l, rest) ← parse_members fuel false t; Some ((k, v) :: l, rest)
      | "}"%char :: rest => Some ([(k, v)], rest)
      | _ => None
      end else None); [destruct a as [[] [] [] [] [] [] [] []]; reflexivity|].
    destruct (bool_decide _); [|done]. destruct (parse_value fuel u') as [[v w]|]; [apply Hv|done]. }
  transitivity (if bool_decide (c = "}"%char) then if first then Some ([], t) else None
    else if bool_decide (c = dquote) then
      '(body, t) ← scan_string t;
      k ← unquote body;
      match skip_ws t with
      | ":"%char :: t =>
          '(v, t) ← parse_value fuel t;
          match skip_ws t with
          | ","%char :: t => '(l, rest) ← parse_members fuel false t; Some ((k, v) :: l, rest)
          | "}"%char :: rest => Some ([(k, v)], rest)
          | _ => None
          end
      | _ => None
      end
    else None); [destruct c as [[] [] [] [] [] [] [] []]; reflexivity|].
  destruct (bool_decide _); [done|]. destruct (bool_decide _); [|done].
  destruct (scan_string t) as [[body u]|]; [apply Hm|done].
Qed.

Lemma parse_elems_S fuel first s :
  parse_elems (S fuel) first s =
  if first && match skip_ws s with c :: _ => bool_decide (c = "]"%char) | [] => false end
  then Some ([], tail (skip_ws s))
  else '(v, t) ← parse_value fuel (skip_ws s); after_value "]"%char (parse_elems fuel false) v t.
Proof.
  assert (∀ s, ('(v, t) ← parse_value fuel s;
    match skip_ws t with
    | ","%char :: t => '(l, rest) ← parse_elems fuel false t; Some (v :: l, rest)
    | "]"%char :: rest => Some ([v], rest)
    | _ => None
    end) = ('(v, t) ← parse_value fuel s; after_value "]"%char (parse_elems fuel false) v t)) as Hv.
  { intros u. destruct (parse_value fuel u) as [[v w]|]; [|done]. cbn [mbind option_bind].
    unfold after_value. destruct (skip_ws w) as [|b w']; [done|].
    destruct b as [[] [] [] [] [] [] [] []]; reflexivity. }
  cbn [parse_elems]. rewrite <- Hv. destruct (skip_ws s) as [|c t].
  { by destruct first. }
  destruct first; destruct c as [[] [] [] [] [] [] [] []]; reflexivity.
Qed.

Lemma after_value_length {A} close more (v : A) t l rest :
  (∀ t l rest, more t = Some (l, rest) → length rest < length t) →
  after_value close more v t = Some (l, rest) → length rest < length t.
Proof.
  intros Hmore. unfold after_value. pose proof (skip_ws_length t) as Hw.
  destruct (skip_ws t) as [|c u]; [done|]. simpl in Hw. destruct (bool_decide _).
  - intros H. apply bind_Some in H as ([l' r'] & Hm & H). injection H as <- <-. apply Hmore in Hm. lia.
  - destruct (bool_decide _); [|done]. intros [= <- <-]. lia.
Qed.

Lemma parse_shrinks fuel : value_shrinks fuel ∧ members_shrink fuel ∧ elems_shrink fuel.
Proof.
  induction fuel as [|fuel (IHv & IHm & IHe)]; [by split_and!|].
  split_and!.
  - intros s j r H. rewrite parse_value_S in H. pose proof (skip_ws_length s) as Hw.
    destruct (skip_ws s) as [|c t]; [done|]. simpl in Hw.
    repeat match type of H with (if ?b then _ else _) = _ => destruct b end.
    + apply bind_Some in H as ([l' r'] & Hm & H). injection H as <- <-. apply IHm in Hm. lia.
    + apply bind_Some in H as ([l' r'] & Hm & H). injection H as <- <-. apply IHe in Hm. lia.
    + apply bind_Some in H as ([b' r'] & Hm & H). apply bind_Some in H as (v & _ & H).
      injection H as <- <-. apply scan_string_length in Hm. lia.
    + apply bind_Some in H as (r' & Hm & H). injection H as <- <-. apply strip_length in Hm; [simpl in *; lia|done].
    + apply bind_Some in H as (r' & Hm & H). injection H as <- <-. apply strip_length in Hm; [simpl in *; lia|done].
    + apply bind_Some in H as (r' & Hm & H). injection H as <- <-. apply strip_length in Hm; [simpl in *; lia|done].
    + apply bind_Some in H as ([b' r'] & Hm & H). injection H as <- <-. apply scan_number_length in Hm.
      simpl in *. lia.
  - intros first s l r H. rewrite parse_members_S in H. pose proof (skip_ws_length s) as Hw.
    destruct (skip_ws s) as [|c t]; [done|]. simpl in Hw. destruct (bool_decide _).
    { destruct first; [|done]. injection H as <- <-. lia. }
    destruct (bool_decide _); [|done].
    apply bind_Some in H as ([b' t1] & Hs & H). apply bind_Some in H as (k & _ & H).
    apply scan_string_length in Hs. pose proof (skip_ws_length t1) as Hw1.
    destruct (skip_ws t1) as [|a t2]; [done|]. simpl in Hw1. destruct (bool_decide _); [|done].
    apply bind_Some in H as ([v t3] & Hv & H). apply IHv in Hv.
    apply after_value_length in H; [lia|]. intros ???. apply IHm.
  - intros first s l r H. rewrite parse_elems_S in H. pose proof (skip_ws_length s) as Hw.
    destruct (first && _) eqn:Ef.
    + apply andb_true_iff in Ef as [_ Ef]. destruct (skip_ws s) as [|c t]; [done|].
      injection H as <- <-. simpl in *. lia.
    + apply bind_Some in H as ([v t3] & Hv & H). apply IHv in Hv.
      apply after_value_length in H; [lia|]. intros ???. apply IHe.
Qed.

(** ** Enough fuel *)

Definition value_stable fuel : Prop :=
  ∀ fuel' s, 2 * length s + 1 <= fuel <= fuel' → parse_value fuel s = parse_value fuel' s.
Definition members_stable fuel : Prop :=
  ∀ fuel' first s, 2 * length s + 2 <= fuel <= fuel' →
    parse_members fuel first s = parse_members fuel' first s.
Definition elems_stable fuel : Prop :=
  ∀ fuel' first s, 2 * length s + 2 <= fuel <= fuel' →
    parse_elems fuel first s = parse_elems fuel' first s.

Lemma after_value_ext {A} close (more more' : bytes → option (list A * bytes)) v t :
  (∀ u, length u < length t → more u = more' u) →
  after_value close more v t = after_value close more' v t.
Proof.
  intros Hmore. unfold after_value. pose proof (skip_ws_length t) as Hw.
  destruct (skip_ws t) as [|c u]; [done|]. simpl in Hw. destruct (bool_decide _); [|done].
  by rewrite Hmore by lia.
Qed.

Lemma parse_stable fuel : value_stable fuel ∧ members_stable fuel ∧ elems_stable fuel.
Proof.
  induction fuel as [|fuel (IHv & IHm & IHe)].
  { split_and!; intros ? ? **; exfalso; lia. }
  split_and!.
  - intros [|fuel'] s Hf; [lia|]. rewrite !parse_value_S. pose proof (skip_ws_length s) as Hw.
    destruct (skip_ws s) as [|c t]; [done|]. simpl in Hw.
    by rewrite (IHm fuel' true t), (IHe fuel' true t) by lia.
  - intros [|fuel'] first s Hf; [lia|]. rewrite !parse_members_S. pose proof (skip_ws_length s) as Hw.
    destruct (skip_ws s) as [|c t]; [done|]. simpl in Hw. destruct (bool_decide _); [done|].
    destruct (bool_decide _); [|done]. destruct (scan_string t) as [[body t1]|] eqn:Es; [|done].
    apply scan_string_length in Es. cbn [mbind option_bind]. destruct (unquote body) as [k|]; [|done].
    cbn [mbind option_bind]. pose proof (skip_ws_length t1) as Hw1.
    destruct (skip_ws t1) as [|a t2]; [done|]. simpl in Hw1. destruct (bool_decide _); [|done].
    rewrite <- (IHv fuel' t2) by lia. destruct (parse_value fuel t2) as [[v t3]|] eqn:Ev; [|done].
    apply (proj1 (parse_shrinks fuel)) in Ev. cbn [mbind option_bind].
    apply after_value_ext. intros u Hu. apply IHm. lia.
  - intros [|fuel'] first s Hf; [lia|]. rewrite !parse_elems_S. pose proof (skip_ws_length s) as Hw.
    destruct (first && _); [done|].
    rewrite <- (IHv fuel' (skip_ws s)) by lia.
    destruct (parse_value fuel (skip_ws s)) as [[v t3]|] eqn:Ev; [|done].
    apply (proj1 (parse_shrinks fuel)) in Ev. cbn [mbind option_bind].
    apply after_value_ext. intros u Hu. apply IHe. lia.
Qed.

(** The fuel of [parse_json] never runs out: any larger one gives the same. *)
Lemma parse_json_fuel fuel s :
  2 * length s + 2 <= fuel → parse_value fuel s = parse_value (2 * length s + 2) s.
Proof. intros Hf. symmetry. apply (proj1 (parse_stable _)). lia. Qed.

(** ** String literals *)

Lemma unquote_stable fuel fuel' s :
  length s <= fuel <= fuel' → unquote_loop fuel s = unquote_loop fuel' s.
Proof.
  revert fuel' s. induction fuel as [|fuel IH]; intros fuel' s Hf; (destruct s as [|b t];
    [destruct fuel'; done|]); simpl in Hf; [lia|]. destruct fuel' as [|fuel']; [lia|].
  assert (∀ n, unquote_loop fuel (drop n t) = unquote_loop fuel' (drop n t)) as Hdrop.
  { intros n. apply IH. rewrite length_drop. lia. }
  cbn [unquote_loop].
  destruct (bool_decide (b = backslash)).
  - assert (∀ n, unquote_loop fuel (drop n (drop 6 (b :: t))) = unquote_loop fuel' (drop n (drop 6 (b :: t))))
      as Hdrop2 by (intros n; rewrite skipn_cons, drop_drop; apply Hdrop).
    pose proof (Hdrop2 0%nat) as Hdrop1. rewrite !drop_0 in Hdrop1. rewrite Hdrop1, Hdrop2.
    destruct t as [|c t]; [done|]. pose proof (Hdrop 1%nat) as H1. cbn [drop] in H1.
    rewrite drop_0 in H1. by rewrite H1.
  - destruct (bool_decide _ || _); [done|].
    pose proof (Hdrop 0%nat) as H0. rewrite drop_0 in H0. rewrite H0.
    destruct (_ <? _)%Z; [done|]. pose proof (DecodeRune_width (b :: t) ltac:(done)) as Hn.
    destruct (DecodeRune (b :: t)) as [r n]. simpl in Hn. destruct n as [|n]; [lia|].
    cbn [drop]. by rewrite Hdrop.
Qed.

Lemma unquote_fuel fuel s : length s <= fuel → unquote_loop fuel s = unquote s.
Proof. intros Hf. symmetry. apply unquote_stable. lia. Qed.
