(* ===== verification/GoJsonValid.v ===== *)
(** * [encoding/json]: the strings of a parsed text

    Whatever the bytes of a text, the strings and member names the parser makes
    of it are valid UTF-8: what is malformed is replaced while unquoting. *)

From Stdlib Require Import String Ascii NArith ZArith Lia.
From stdpp Require Import base list strings numbers.
From S2P Require Import Prelude GoPrim GoStrconv GoUtf8 GoFloat GoJson GoJsonFuel.

Local Open Scope list_scope.

(** ** Unquoting *)

Lemma valid_loop_mono f f' s : f <= f' → valid_loop f s = true → valid_loop f' s = true.
Proof.
  revert f' s. induction f as [|f IH]; intros [|f'] [|b s] Hf Hv; try done; [lia|].
  cbn [valid_loop] in *. apply andb_true_iff in Hv as [-> Hv]. cbn [andb].
  apply IH; [lia|done].
Qed.

(** A well-formed rune before a valid text. *)
Lemma utf8_valid_rune e rest :
  e ≠ [] → rune_ok (e ++ rest) = true → (DecodeRune (e ++ rest)).2 = length e →
  utf8_valid rest = true → utf8_valid (e ++ rest) = true.
Proof.
  intros Hne Hok Hn Hv. unfold utf8_valid. destruct e as [|b e]; [done|]. cbn [app length valid_loop] in *.
  rewrite Hok, Hn. cbn [andb drop]. rewrite drop_app_length.
  eapply valid_loop_mono; [|exact Hv]. rewrite length_app. lia.
Qed.

Section Rune.
Local Open Scope Z_scope.

Lemma byte_of_Z_id z : 0 ≤ z < 256 → Z_of_byte (byte_of_Z z) = z.
Proof. intros Hz. rewrite Z_of_byte_of_Z. by apply Z.mod_small. Qed.

Lemma cont_byte z : 128 ≤ z ≤ 191 → cont (byte_of_Z z) = true.
Proof. intros Hz. apply in_rng_iff. rewrite byte_of_Z_id by lia. lia. Qed.

Lemma accept2_bytes b0 b1 :
  0 ≤ b0 < 256 → 128 ≤ b1 ≤ 191 → (b0 = 224 → 160 ≤ b1) → (b0 = 237 → b1 ≤ 159) →
  (b0 = 240 → 144 ≤ b1) → (b0 = 244 → b1 ≤ 143) → accept2 (byte_of_Z b0) (byte_of_Z b1) = true.
Proof.
  intros H0 H1 ????. unfold accept2. cbv zeta. rewrite byte_of_Z_id by lia.
  destruct (Z.eqb_spec b0 224), (Z.eqb_spec b0 237), (Z.eqb_spec b0 240), (Z.eqb_spec b0 244);
    apply in_rng_iff; rewrite byte_of_Z_id; lia.
Qed.

(** Decides a comparison of [DecodeRune] or [EncodeRune]. *)
Ltac decide_bounds :=
  repeat match goal with
  | |- context [?a <? ?b] =>
      first [rewrite (proj2 (Z.ltb_lt a b)) by lia | rewrite (proj2 (Z.ltb_ge a b)) by lia]
  | |- context [?a <=? ?b] =>
      first [rewrite (proj2 (Z.leb_le a b)) by lia | rewrite (proj2 (Z.leb_gt a b)) by lia]
  end; cbn [andb orb].

Definition rune_head (e : bytes) : Prop :=
  e ≠ [] ∧ ∀ rest, rune_ok (e ++ rest) = true ∧ (DecodeRune (e ++ rest)).2 = length e.

Lemma enc3_rune r : 2048 ≤ r ≤ 65535 → ¬ (55296 ≤ r ≤ 57343) → rune_head (enc3 r).
Proof.
  intros Hr Hs. split; [done|]. intros rest. unfold rune_ok, enc3, DecodeRune. cbn [app].
  assert (224 ≤ 224 + r / 4096 ≤ 239) as Hb by (Z.to_euclidean_division_equations; lia).
  rewrite (byte_of_Z_id (224 + r / 4096)) by lia. decide_bounds.
  rewrite accept2_bytes, cont_byte by (Z.to_euclidean_division_equations; lia).
  cbn [andb length snd]. by rewrite andb_false_r.
Qed.

Lemma EncodeRune_rune r : rune_head (EncodeRune r).
Proof.
  unfold EncodeRune. destruct ((0 <=? r) && (r <=? 127)) eqn:E1.
  { rewrite andb_true_iff, !Z.leb_le in E1. split; [done|]. intros rest. unfold rune_ok, DecodeRune.
    cbn [app]. rewrite byte_of_Z_id by lia. decide_bounds.
    by rewrite (proj2 (Z.eqb_neq r RuneError)) by (unfold RuneError; lia). }
  destruct ((0 <=? r) && (r <=? 2047)) eqn:E2.
  { rewrite andb_true_iff, !Z.leb_le in E2. rewrite andb_false_iff, !Z.leb_gt in E1.
    split; [done|]. intros rest. unfold rune_ok, DecodeRune. cbn [app].
    assert (194 ≤ 192 + r / 64 ≤ 223) as Hb by (Z.to_euclidean_division_equations; lia).
    rewrite (byte_of_Z_id (192 + r / 64)) by lia. decide_bounds.
    rewrite cont_byte by (Z.to_euclidean_division_equations; lia).
    cbn [andb length snd]. by rewrite andb_false_r. }
  destruct ((r <? 0) || (1114111 <? r) || _) eqn:E3; [apply enc3_rune; unfold RuneError; lia|].
  rewrite !orb_false_iff, andb_false_iff, !Z.ltb_ge, !Z.leb_gt in E3.
  rewrite andb_false_iff, !Z.leb_gt in E2.
  destruct (Z.leb_spec r 65535); [apply enc3_rune; lia|].
  split; [done|]. intros rest. unfold rune_ok, DecodeRune. cbn [app].
  assert (240 ≤ 240 + r / 262144 ≤ 244) as Hb by (Z.to_euclidean_division_equations; lia).
  rewrite (byte_of_Z_id (240 + r / 262144)) by lia. decide_bounds.
  rewrite accept2_bytes, !cont_byte by (Z.to_euclidean_division_equations; lia).
  cbn [andb length snd]. by rewrite andb_false_r.
Qed.
End Rune.

Lemma utf8_valid_app_rune e rest : rune_head e → utf8_valid rest = true → utf8_valid (e ++ rest) = true.
Proof. intros [Hne He]. destruct (He rest). by apply utf8_valid_rune. Qed.

Lemma utf8_valid_cons_ascii b rest :
  (Z_of_byte b < 128)%Z → utf8_valid rest = true → utf8_valid (b :: rest) = true.
Proof.
  intros Hb. apply (utf8_valid_app_rune [b]). split; [done|]. intros r. unfold rune_ok, DecodeRune.
  cbn [app]. rewrite (proj2 (Z.ltb_lt _ 128)) by lia.
  by rewrite (proj2 (Z.eqb_neq _ RuneError)) by (unfold RuneError; lia).
Qed.

Definition escape_ascii (z : Z) : bool :=
  match simple_escape (byte_of_Z z) with Some e => (Z_of_byte e <? 128)%Z | None => true end.

Lemma simple_escape_ascii c e : simple_escape c = Some e → (Z_of_byte e < 128)%Z.
Proof.
  intros He. assert (escape_ascii (Z_of_byte c) = true) as Hc.
  { apply (zrange_check_spec escape_ascii 256 0); [vm_compute; reflexivity|].
    pose proof (Z_of_byte_range c). lia. }
  unfold escape_ascii in Hc. rewrite byte_of_Z_of_byte, He in Hc. by apply Z.ltb_lt.
Qed.

Lemma unquote_loop_valid fuel s v : unquote_loop fuel s = Some v → utf8_valid v = true.
Proof.
  revert s v. induction fuel as [|fuel IH]; intros [|b t] v H; try (by injection H as <-); [done|].
  assert (∀ e u w, rune_head e → (rest ← unquote_loop fuel u; Some (e ++ rest)) = Some w →
    utf8_valid w = true) as Hrune.
  { intros e u w He Hw. apply bind_Some in Hw as (rest & Hr & [= <-]).
    apply utf8_valid_app_rune; [done|by eapply IH]. }
  cbn [unquote_loop] in H. destruct (bool_decide (b = backslash)).
  - destruct t as [|c t]; [done|].
    assert (∀ e, simple_escape c = Some e → (rest ← unquote_loop fuel t; Some (e :: rest)) = Some v →
      utf8_valid v = true) as Hesc.
    { intros e He Hv. apply bind_Some in Hv as (rest & Hr & [= <-]).
      apply utf8_valid_cons_ascii; [by eapply simple_escape_ascii|by eapply IH]. }
    destruct (decide (c = "u"%char)) as [->|Hu].
    + apply bind_Some in H as (r & _ & H). destruct (is_surrogate r).
      * destruct (getu4 _); [destruct (_ =? _)%Z|]; eapply Hrune; try exact H; apply EncodeRune_rune.
      * eapply Hrune; [|exact H]. apply EncodeRune_rune.
    + assert (∃ e, simple_escape c = Some e ∧ (rest ← unquote_loop fuel t; Some (e :: rest)) = Some v)
        as (e & He & Hv); [|by eapply Hesc].
      apply bind_Some. clear -H Hu.
      destruct c as [[] [] [] [] [] [] [] []]; first [exact H|by destruct Hu].
  - destruct (_ || _); [done|]. destruct (Z.ltb_spec (Z_of_byte b) 128).
    + apply bind_Some in H as (rest & Hr & [= <-]).
      apply utf8_valid_cons_ascii; [done|by eapply IH].
    + destruct (DecodeRune (b :: t)) as [r n]. eapply Hrune; [|exact H]. apply EncodeRune_rune.
Qed.

(** ** Parsing *)

Inductive json_valid : json → Prop :=
| jv_null : json_valid JNull
| jv_bool b : json_valid (JBool b)
| jv_num lit : json_valid (JNum lit)
| jv_str raw s : utf8_valid s = true → json_valid (JStr raw s)
| jv_arr raw l : Forall json_valid l → json_valid (JArr raw l)
| jv_obj raw l :
    Forall (λ m, utf8_valid m.1 = true) l → Forall (λ m, json_valid m.2) l → json_valid (JObj raw l).

Definition member_valid (m : bytes * json) : Prop := utf8_valid m.1 = true ∧ json_valid m.2.

Lemma after_value_valid {A} (P : A → Prop) close more v t l rest :
  (∀ t l rest, more t = Some (l, rest) → Forall P l) → P v →
  after_value close more v t = Some (l, rest) → Forall P l.
Proof.
  intros Hmore Hv. unfold after_value. destruct (skip_ws t) as [|c u]; [done|].
  destruct (bool_decide _).
  - intros H. apply bind_Some in H as ([l' r'] & Hm & [= <- <-]). constructor; [done|by eapply Hmore].
  - destruct (bool_decide _); [|done]. intros [= <- <-]. by repeat constructor.
Qed.

Lemma parse_valid fuel :
  (∀ s j r, parse_value fuel s = Some (j, r) → json_valid j) ∧
  (∀ first s l r, parse_members fuel first s = Some (l, r) → Forall member_valid l) ∧
  (∀ first s l r, parse_elems fuel first s = Some (l, r) → Forall json_valid l).
Proof.
  induction fuel as [|fuel (IHv & IHm & IHe)]; [by split_and!|].
  split_and!.
  - intros s j r H. rewrite parse_value_S in H. destruct (skip_ws s) as [|c t]; [done|].
    repeat match type of H with (if ?b then _ else _) = _ => destruct b end;
      try (apply bind_Some in H as (? & _ & [= <- _]); constructor; fail).
    + apply bind_Some in H as ([l' r'] & Hm & [= <- _]). apply IHm in Hm.
      constructor; (eapply Forall_impl; [|exact Hm]); by intros m [].
    + apply bind_Some in H as ([l' r'] & Hm & [= <- _]). constructor. by eapply IHe.
    + apply bind_Some in H as ([b' r'] & _ & H). apply bind_Some in H as (v & Hv & [= <- _]).
      constructor. by eapply unquote_loop_valid.
    + apply bind_Some in H as ([lit r'] & _ & [= <- _]). constructor.
  - intros first s l r H. rewrite parse_members_S in H. destruct (skip_ws s) as [|c t]; [done|].
    destruct (bool_decide _); [destruct first; [|done]; by injection H as <- _|].
    destruct (bool_decide _); [|done].
    apply bind_Some in H as ([b' t1] & _ & H). apply bind_Some in H as (k & Hk & H).
    destruct (skip_ws t1) as [|a t2]; [done|]. destruct (bool_decide _); [|done].
    apply bind_Some in H as ([v t3] & Hv & H). eapply after_value_valid; [apply IHm| |exact H].
    split; [by eapply unquote_loop_valid|by eapply IHv].
  - intros first s l r H. rewrite parse_elems_S in H. destruct (first && _); [by injection H as <- _|].
    apply bind_Some in H as ([v t3] & Hv & H).
    eapply after_value_valid; [apply IHe|by eapply IHv|exact H].
Qed.

Lemma parse_json_valid s j : parse_json s = Some j → json_valid j.
Proof.
  unfold parse_json. destruct (parse_value _ _) as [[j' r]|] eqn:E; [|done].
  destruct (skip_ws r); [|done]. intros [= <-]. by apply (proj1 (parse_valid _)) in E.
Qed.
