(* ===== verification/GoNumText.v ===== *)
(** * The text of numbers

    JSON number literals as [encoding/json] writes them: every integer and
    every finite float the encoder formats is a literal the scanner accepts,
    and parsing the literal gives the number back. *)

From Stdlib Require Import String Ascii NArith ZArith Lia SpecFloat.
From stdpp Require Import base list strings numbers.
From S2P Require Import Prelude GoPrim GoStrconv GoUtf8 GoFloat GoJson.

Local Open Scope Z_scope.

(** ** The decimal digits of a number *)

Abbreviation digits s := (Forall (λ c, is_digit c = true) s).

Lemma dec_loop_fuel f1 f2 n :
  0 ≤ n → n < 2 ^ Z.of_nat f1 → n < 2 ^ Z.of_nat f2 → (1 ≤ f1)%nat → (1 ≤ f2)%nat →
  dec_loop f1 n [] = dec_loop f2 n [].
Proof.
  revert f2 n. induction f1 as [|f1 IH]; intros [|f2] n Hn H1 H2 Hf1 Hf2; try lia.
  simpl. destruct (Z.ltb_spec n 10); [done|].
  rewrite (dec_loop_acc f1), (dec_loop_acc f2). f_equal.
  rewrite Nat2Z.inj_succ, Z.pow_succ_r in H1, H2 by lia.
  assert (1 ≤ n / 10 ∧ n / 10 < 2 ^ Z.of_nat f1 ∧ n / 10 < 2 ^ Z.of_nat f2) as (Hd & Hd1 & Hd2)
    by (Z.to_euclidean_division_equations; lia).
  apply IH; try lia.
  - destruct f1; [|lia]. change (2 ^ Z.of_nat 0) with 1 in Hd1. lia.
  - destruct f2; [|lia]. change (2 ^ Z.of_nat 0) with 1 in Hd2. lia.
Qed.

Lemma FormatUint_small n : 0 ≤ n < 10 → FormatUint n = [digit_char n].
Proof.
  intros Hn. unfold FormatUint, dec_fuel. simpl. rewrite (proj2 (Z.ltb_lt n 10)) by lia.
  by rewrite Z.mod_small.
Qed.

Lemma FormatUint_step n :
  10 ≤ n → FormatUint n = FormatUint (n / 10) ++ [digit_char (n mod 10)].
Proof.
  intros Hn. unfold FormatUint at 1, dec_fuel. simpl.
  rewrite (proj2 (Z.ltb_ge n 10)) by lia. rewrite dec_loop_acc. f_equal.
  pose proof (dec_fuel_enough (n / 10) ltac:(Z.to_euclidean_division_equations; lia)).
  pose proof (Z.log2_spec n ltac:(lia)) as [_ Hlog].
  rewrite Z.pow_succ_r in Hlog by apply Z.log2_nonneg.
  apply dec_loop_fuel; try done; try (unfold dec_fuel; lia).
  - Z.to_euclidean_division_equations; lia.
  - rewrite Z2Nat.id by apply Z.log2_nonneg. Z.to_euclidean_division_equations; lia.
  - assert (1 ≤ Z.log2 n) by (apply (Z.log2_le_mono 2 n); lia). lia.
Qed.

Lemma FormatUint_times_pow n k :
  0 < n → FormatUint (n * 10 ^ Z.of_nat k) = FormatUint n ++ replicate k "0"%char.
Proof.
  intros Hn. induction k as [|k IH].
  - change (10 ^ Z.of_nat 0) with 1. by rewrite Z.mul_1_r, app_nil_r.
  - rewrite Nat2Z.inj_succ, Z.pow_succ_r by lia.
    replace (n * (10 * 10 ^ Z.of_nat k)) with ((n * 10 ^ Z.of_nat k) * 10) by ring.
    pose proof (Z.pow_pos_nonneg 10 (Z.of_nat k) ltac:(lia) ltac:(lia)).
    rewrite FormatUint_step, Z_div_mult, Z_mod_mult, IH by nia.
    by rewrite <- app_assoc, replicate_S_end.
Qed.

Lemma digit_char_nonzero d : 0 < d < 10 → digit_char d ≠ "0"%char.
Proof.
  intros Hd H. apply (f_equal Z_of_byte) in H. unfold digit_char in H.
  rewrite Z_of_byte_of_Z, Z.mod_small in H by lia. change (Z_of_byte "0") with 48 in H. lia.
Qed.

Lemma FormatUint_head n :
  0 < n → ∃ c t, FormatUint n = c :: t ∧ c ≠ "0"%char ∧ is_digit c = true.
Proof.
  intros Hn. assert (0 ≤ n) as H0 by lia. revert n H0 Hn.
  apply (Zlt_0_ind (λ n, 0 < n → _)). intros n IH _ Hn. destruct (Z_lt_le_dec n 10).
  - rewrite FormatUint_small by lia. exists (digit_char n), []. split; [done|].
    split; [by apply digit_char_nonzero|by apply is_digit_char; lia].
  - destruct (IH (n / 10)) as (c & t & Ht & Hc);
      [Z.to_euclidean_division_equations; lia..|].
    rewrite FormatUint_step, Ht by done. simpl. eauto.
Qed.

Lemma span_digits_app s rest :
  digits s → match rest with c :: _ => is_digit c = false | [] => True end →
  span_digits (s ++ rest) = (s, rest).
Proof.
  intros Hs Hr. induction Hs as [|c s Hc _ IH]; simpl.
  - destruct rest as [|c rest]; simpl; [done|]. by rewrite Hr.
  - by rewrite Hc, IH.
Qed.

(** ** Literals *)

(** Sign, integer part, fraction digits and exponent (sign and digits). *)
Definition num_lit (neg : bool) (ip fp : bytes) (ex : option (bool * bytes)) : bytes :=
  (if neg then ["-"%char] else []) ++ ip ++
  (match fp with [] => [] | _ => "."%char :: fp end) ++
  (match ex with
   | Some (xneg, ds) => "e"%char :: (if xneg : bool then "-"%char else "+"%char) :: ds
   | None => []
   end).

Definition num_lit_ok (ip fp : bytes) (ex : option (bool * bytes)) : Prop :=
  digits ip ∧ (ip = ["0"%char] ∨ ∃ c t, ip = c :: t ∧ c ≠ "0"%char) ∧ digits fp ∧
  match ex with Some (_, ds) => digits ds ∧ ds ≠ [] | None => True end.

Definition exp_val (ex : option (bool * bytes)) : option Z :=
  match ex with
  | Some (true, ds) => Z.opp <$> digits_val 0 ds
  | Some (false, ds) => digits_val 0 ds
  | None => Some 0
  end.

Definition exp_text (ex : option (bool * bytes)) : bytes :=
  match ex with
  | Some (xneg, ds) => "e"%char :: (if xneg : bool then "-"%char else "+"%char) :: ds
  | None => []
  end.

(** A byte that ends a run of digits. *)
Definition stops (s : bytes) : Prop :=
  match s with c :: _ => is_digit c = false | [] => True end.

Lemma num_end_stops rest : num_end rest → stops rest.
Proof. destruct rest; [done|]. by intros [? _]. Qed.

Lemma exp_text_stops ex rest : num_end rest → stops (exp_text ex ++ rest).
Proof. destruct ex as [[[] ds]|]; [done|done|]. apply num_end_stops. Qed.

Lemma scan_expo_text ip fp ex rest :
  num_lit_ok ip fp ex → num_end rest → scan_expo (exp_text ex ++ rest) = Some (exp_text ex, rest).
Proof.
  intros (_ & _ & _ & Hx) Hr. destruct ex as [[xneg ds]|]; simpl.
  - destruct Hx as [Hds Hne]. pose proof (num_end_stops _ Hr).
    destruct xneg; cbn [scan_expo]; rewrite span_digits_app by done; by destruct ds.
  - destruct rest as [|c rest]; [done|]. destruct Hr as (_ & _ & He & HE).
    unfold scan_expo. ascii_cases c; try done.
Qed.

Lemma scan_frac_text fp s :
  digits fp → stops s → match s with "."%char :: _ => False | _ => True end →
  scan_frac (match fp with [] => [] | _ => "."%char :: fp end ++ s)
  = Some (match fp with [] => [] | _ => "."%char :: fp end, s).
Proof.
  intros Hfp Hs Hdot. destruct fp as [|c fp].
  - simpl. destruct s as [|c s]; [done|]. unfold scan_frac. ascii_cases c; try done.
  - unfold scan_frac. cbn [app]. change (c :: fp ++ s) with ((c :: fp) ++ s).
    by rewrite span_digits_app.
Qed.

Lemma scan_int_text ip s :
  digits ip → (ip = ["0"%char] ∨ ∃ c t, ip = c :: t ∧ c ≠ "0"%char) → stops s →
  scan_int (ip ++ s) = Some (ip, s).
Proof.
  intros Hip [->|(c & t & -> & Hc)] Hs; [done|].
  unfold scan_int. pose proof (span_digits_app (c :: t) s Hip Hs) as H. cbn [app] in *. rewrite H.
  ascii_cases c; done.
Qed.

Lemma exp_text_nodot ex rest :
  num_end rest → match exp_text ex ++ rest with "."%char :: _ => False | _ => True end.
Proof.
  destruct ex as [[[] ds]|]; [done|done|]. destruct rest as [|c rest]; [done|].
  intros (_ & Hc & _). simpl. ascii_cases c; done.
Qed.

Lemma frac_text_stops fp s : stops s → stops (match fp with [] => [] | _ => "."%char :: fp end ++ s).
Proof. by destruct fp. Qed.

Lemma num_lit_eq neg ip fp ex :
  num_lit neg ip fp ex = (if neg then ["-"%char] else []) ++ ip ++
    (match fp with [] => [] | _ => "."%char :: fp end) ++ exp_text ex.
Proof. unfold num_lit, exp_text. by destruct ex as [[[] ?]|]. Qed.

(** The sign test at the head of a literal. *)
Lemma digit_head_not_minus {A} ip s (f : bytes → A) (g : A) :
  digits ip → ip ≠ [] →
  match ip ++ s with "-"%char :: t => f t | _ => g end = g.
Proof.
  intros Hip Hne. destruct ip as [|c ip]; [done|]. apply Forall_cons_1 in Hip as [Hc _].
  simpl. ascii_cases c; try done; vm_compute in Hc; done.
Qed.

Lemma num_lit_ok_nonempty ip fp ex : num_lit_ok ip fp ex → ip ≠ [].
Proof. intros (_ & [->|(c & t & -> & _)] & _); done. Qed.

Lemma scan_num_lit neg ip fp ex rest :
  num_lit_ok ip fp ex → num_end rest →
  scan_number (num_lit neg ip fp ex ++ rest) = Some (num_lit neg ip fp ex, rest).
Proof.
  intros Hok Hr. pose proof (num_lit_ok_nonempty _ _ _ Hok) as Hne.
  pose proof Hok as (Hip & Hlead & Hfp & _). rewrite num_lit_eq.
  assert (∀ sg, (let '(sg, s) := (sg, ip ++ (match fp with [] => [] | _ => "."%char :: fp end) ++
      exp_text ex ++ rest) in
    '(i, s) ← scan_int s; '(f, s) ← scan_frac s; '(x, s) ← scan_expo s;
    Some (sg ++ i ++ f ++ x, s)) =
    Some (sg ++ ip ++ (match fp with [] => [] | _ => "."%char :: fp end) ++ exp_text ex, rest)) as H.
  { intros sg. rewrite scan_int_text by (done || by apply frac_text_stops, exp_text_stops).
    simpl. rewrite scan_frac_text by (done || by apply exp_text_stops || by apply exp_text_nodot).
    simpl. erewrite scan_expo_text by done. done. }
  rewrite <- !app_assoc. unfold scan_number. destruct neg.
  - apply (H ["-"%char]).
  - cbn [app]. rewrite (digit_head_not_minus ip _ (λ t, (["-"%char], t))) by done. apply (H []).
Qed.

Lemma num_start_lit neg ip fp ex : num_lit_ok ip fp ex → num_start (num_lit neg ip fp ex).
Proof.
  intros Hok. pose proof (num_lit_ok_nonempty _ _ _ Hok). destruct Hok as (Hip & _).
  destruct neg; simpl; [by right|]. destruct ip as [|c ip]; [done|].
  apply Forall_cons_1 in Hip as [Hc _]. by left.
Qed.

Lemma printable_num_lit neg ip fp ex :
  num_lit_ok ip fp ex → printable (JNum (num_lit neg ip fp ex)).
Proof.
  intros Hok. constructor; [by apply num_start_lit|]. intros. by apply scan_num_lit.
Qed.

Lemma parse_exp_text ip fp ex : num_lit_ok ip fp ex → parse_exp (exp_text ex) = exp_val ex.
Proof.
  intros (_ & _ & _ & Hx). by destruct ex as [[[] ds]|].
Qed.

Lemma parse_decimal_lit neg ip fp ex :
  num_lit_ok ip fp ex →
  parse_decimal (num_lit neg ip fp ex) =
    (d ← digits_val 0 (ip ++ fp); x ← exp_val ex; Some (neg, d, x - Z.of_nat (length fp))).
Proof.
  intros Hok. pose proof (num_lit_ok_nonempty _ _ _ Hok) as Hne.
  pose proof Hok as (Hip & _ & Hfp & _). rewrite num_lit_eq.
  assert (∀ b, (let '(neg, s) := (b, ip ++ (match fp with [] => [] | _ => "."%char :: fp end) ++
      exp_text ex) in
    let '(ip, s) := span_digits s in
    let '(fp, s) := match s with "."%char :: t => span_digits t | _ => ([], s) end in
    d ← digits_val 0 (ip ++ fp); x ← parse_exp s;
    Some (neg : bool, d, x - Z.of_nat (length fp))) =
    (d ← digits_val 0 (ip ++ fp); x ← exp_val ex; Some (b, d, x - Z.of_nat (length fp)))) as H.
  { intros b. pose proof (exp_text_stops ex [] I) as Hs. rewrite app_nil_r in Hs.
    rewrite span_digits_app by (done || by apply frac_text_stops).
    destruct fp as [|c fp].
    - cbn [app]. pose proof (exp_text_nodot ex [] I) as Hd. rewrite app_nil_r in Hd.
      replace (match exp_text ex with "."%char :: t => span_digits t | _ => ([], exp_text ex) end)
        with (@nil byte, exp_text ex) by (by destruct ex as [[[] ?]|]).
      by rewrite (parse_exp_text _ _ _ Hok).
    - cbn [app]. change (c :: fp ++ exp_text ex) with ((c :: fp) ++ exp_text ex).
      rewrite span_digits_app by done. by rewrite (parse_exp_text _ _ _ Hok). }
  unfold parse_decimal. destruct neg.
  - apply (H true).
  - cbn [app]. rewrite (digit_head_not_minus ip _ (λ t, (true, t))) by done. apply (H false).
Qed.

(** *** Integers *)

Lemma num_lit_ok_uint n : 0 ≤ n → num_lit_ok (FormatUint n) [] None.
Proof.
  intros Hn. split_and!; [by apply FormatUint_digits| |constructor|done].
  destruct (Z.eq_dec n 0) as [->|]; [by left|right].
  destruct (FormatUint_head n ltac:(lia)) as (c & t & -> & Hc & _). eauto.
Qed.

Lemma printable_uint n : 0 ≤ n → printable (JNum (FormatUint n)).
Proof.
  intros Hn. pose proof (printable_num_lit false _ _ _ (num_lit_ok_uint n Hn)) as H.
  unfold num_lit in H. by rewrite !app_nil_r in H.
Qed.

Lemma printable_int n : printable (JNum (FormatInt n)).
Proof.
  unfold FormatInt. destruct (Z.ltb_spec n 0); [|by apply printable_uint].
  pose proof (printable_num_lit true _ _ _ (num_lit_ok_uint (- n) ltac:(lia))) as Hp.
  unfold num_lit in Hp. by rewrite !app_nil_r in Hp.
Qed.

Lemma ParseInt_FormatInt n : in_s 64 n = true → ParseInt (FormatInt n) 64 = Ok n.
Proof.
  intros Hn. apply in_s_spec in Hn. unfold FormatInt. destruct (Z.ltb_spec n 0).
  - simpl. rewrite ParseUint_FormatUint by lia. simpl.
    rewrite (proj2 (Z.leb_le _ _)) by lia. f_equal. lia.
  - rewrite ParseInt_digits by (apply FormatUint_digits; lia).
    rewrite ParseUint_FormatUint by lia. simpl.
    by rewrite (proj2 (Z.ltb_lt _ _)) by lia.
Qed.
