(* ===== verification/GoFloatText.v ===== *)
(** * The text of floating-point numbers

    Rounding is exact on numbers that are already representable, so a finite
    float that [FormatFloatJSON] writes is read back by [ParseFloat] as the
    same float. *)

From Stdlib Require Import String Ascii NArith ZArith Lia SpecFloat.
From stdpp Require Import base list strings numbers.
From S2P Require Import Prelude GoPrim GoStrconv GoUtf8 GoFloat GoJson GoNumText.

Local Open Scope Z_scope.

(** ** Shifting right *)

Lemma Zdigits2_log2 m : 0 < m → Zdigits2 m = Z.log2 m + 1.
Proof.
  destruct m as [|p|]; try lia. intros _. cbn [Zdigits2].
  induction p as [p IH|p IH|]; cbn [digits2_pos]; [| |done].
  - rewrite Pos2Z.inj_succ, IH, (Pos2Z.inj_xI p), Z.log2_succ_double by lia. lia.
  - rewrite Pos2Z.inj_succ, IH, (Pos2Z.inj_xO p), Z.log2_double by lia. lia.
Qed.

Lemma digits2_log2 p : Zpos (digits2_pos p) = Z.log2 (Zpos p) + 1.
Proof. by apply (Zdigits2_log2 (Zpos p)). Qed.

Lemma Zdigits2_mul_pow2 m n : 0 < m → 0 ≤ n → Zdigits2 (m * 2 ^ n) = Zdigits2 m + n.
Proof.
  intros Hm Hn. pose proof (Z.pow_pos_nonneg 2 n ltac:(lia) Hn).
  rewrite !Zdigits2_log2 by nia. rewrite Z.log2_mul_pow2 by lia. lia.
Qed.

Lemma iter_pos_nat {A} (f : A → A) n x : SpecFloat.iter_pos f n x = Nat.iter (Pos.to_nat n) f x.
Proof.
  revert x. induction n as [n IH|n IH|]; intros x; cbn [SpecFloat.iter_pos]; [| |done].
  - rewrite !IH, Pos2Nat.inj_xI, Nat.iter_succ_r, <- Nat.iter_add. f_equal. lia.
  - rewrite !IH, Pos2Nat.inj_xO, <- Nat.iter_add. f_equal. lia.
Qed.

Lemma shr_1_spec m r s : 0 ≤ m →
  shr_1 (Build_shr_record m r s) = Build_shr_record (m / 2) (Z.odd m) (orb r s).
Proof. intros Hm. destruct m as [|[p|p|]|p]; try done; simpl; f_equal; symmetry.
  - rewrite Pos2Z.inj_xI. symmetry. apply Z.div_unique with 1; lia.
  - rewrite Pos2Z.inj_xO, Z.mul_comm. by apply Z_div_mult.
Qed.

(** Shifting by [n] bits keeps the quotient, the last bit shifted out and
    whether any bit below it was set. *)
Lemma shr_iter_spec n m : 0 ≤ m →
  Nat.iter (S n) shr_1 (Build_shr_record m false false)
  = Build_shr_record (m / 2 ^ Z.of_nat (S n)) (Z.odd (m / 2 ^ Z.of_nat n))
      (negb (m mod 2 ^ Z.of_nat n =? 0)).
Proof.
  intros Hm. induction n as [|n IH].
  - cbn [Nat.iter nat_rect]. rewrite shr_1_spec by done.
    change (Z.of_nat 0) with 0. change (2 ^ 0) with 1. by rewrite Z.div_1_r, Z.mod_1_r.
  - rewrite Nat.iter_succ, IH. pose proof (Z.pow_pos_nonneg 2 (Z.of_nat n) ltac:(lia) ltac:(lia)).
    rewrite shr_1_spec by (apply Z.div_pos; rewrite ?Nat2Z.inj_succ, ?Z.pow_succ_r; lia).
    rewrite (Nat2Z.inj_succ (S n)), Z.pow_succ_r, (Z.mul_comm 2) by lia.
    rewrite <- Z.div_div by lia. f_equal.
    rewrite Nat2Z.inj_succ, Z.pow_succ_r by lia.
    set (P := 2 ^ Z.of_nat n) in *.
    rewrite (Z.mul_comm 2 P), Z.rem_mul_r by lia.
    pose proof (Z.mod_pos_bound m P ltac:(lia)).
    rewrite Zmod_odd. destruct (Z.odd (m / P)); simpl.
    + symmetry. apply negb_true_iff, Z.eqb_neq. lia.
    + by rewrite Z.mul_0_r, Z.add_0_r.
Qed.

(** Where a number lies between two multiples of [d]. *)
Definition loc_of (m d : Z) : location :=
  if m mod d =? 0 then loc_Exact else loc_Inexact (2 * (m mod d) ?= d).

Lemma shr_spec m e n : 0 ≤ m → 0 ≤ n →
  let '(mrs, e') := shr (Build_shr_record m false false) e n in
  shr_m mrs = m / 2 ^ n ∧ loc_of_shr_record mrs = loc_of m (2 ^ n) ∧ e' = e + n.
Proof.
  intros Hm Hn. destruct n as [|p|]; [|simpl|lia].
  - unfold loc_of. simpl. by rewrite Z.div_1_r, Z.mod_1_r, Z.add_0_r.
  - rewrite iter_pos_nat. destruct (Pos.to_nat p) as [|n] eqn:Ep; [lia|].
    rewrite shr_iter_spec by done.
    replace (Zpos p) with (Z.of_nat (S n)) by lia. split; [done|]. split; [|done].
    simpl loc_of_shr_record. unfold loc_of.
    rewrite Nat2Z.inj_succ, Z.pow_succ_r, (Z.mul_comm 2) by lia.
    pose proof (Z.pow_pos_nonneg 2 (Z.of_nat n) ltac:(lia) ltac:(lia)).
    set (P := 2 ^ Z.of_nat n) in *.
    rewrite Z.rem_mul_r by lia. rewrite Zmod_odd.
    pose proof (Z.mod_pos_bound m P ltac:(lia)).
    destruct (Z.odd (m / P)), (Z.eqb_spec (m mod P) 0) as [E|E]; simpl.
    + rewrite E, (proj2 (Z.eqb_neq _ _)) by lia. f_equal. symmetry. apply Z.compare_eq_iff. lia.
    + rewrite (proj2 (Z.eqb_neq _ _)) by lia. f_equal. symmetry. apply Z.compare_gt_iff. lia.
    + rewrite E, Z.mul_0_r. done.
    + rewrite (proj2 (Z.eqb_neq _ _)) by lia. f_equal. symmetry. apply Z.compare_lt_iff. lia.
Qed.

(** ** Rounding a representable number *)

Abbreviation fexp64 := (fexp 53 1024).
Abbreviation bounded64 := (bounded 53 1024).

Lemma fexp64_eq x : fexp64 x = Z.max (x - 53) (-1074).
Proof. done. Qed.

Lemma bounded64_spec m e :
  bounded64 m e = true ↔ fexp64 (Zdigits2 (Zpos m) + e) = e ∧ e ≤ 971.
Proof. unfold bounded, canonical_mantissa. by rewrite andb_true_iff, Z.eqb_eq, Z.leb_le. Qed.

Lemma shr_fexp_exact prec emax m e n :
  0 ≤ n → 0 < m → fexp prec emax (Zdigits2 m + e) = e →
  shr_fexp prec emax (m * 2 ^ n) (e - n) loc_Exact
  = (fst (shr (Build_shr_record (m * 2 ^ n) false false) (e - n) n), e) ∧
  shr_m (fst (shr (Build_shr_record (m * 2 ^ n) false false) (e - n) n)) = m ∧
  loc_of_shr_record (fst (shr (Build_shr_record (m * 2 ^ n) false false) (e - n) n)) = loc_Exact.
Proof.
  intros Hn Hm He. pose proof (Z.pow_pos_nonneg 2 n ltac:(lia) Hn).
  pose proof (shr_spec (m * 2 ^ n) (e - n) n ltac:(nia) Hn) as Hs.
  unfold shr_fexp. rewrite Zdigits2_mul_pow2 by lia.
  replace (Zdigits2 m + n + (e - n)) with (Zdigits2 m + e) by lia. rewrite He.
  replace (e - (e - n)) with n by lia. cbn [shr_record_of_loc].
  destruct (shr _ _ n) as [mrs e']. destruct Hs as (H1 & H2 & ->). cbn [fst].
  rewrite Z_div_mult in H1 by lia. split; [f_equal; lia|]. split; [done|].
  rewrite H2. unfold loc_of. by rewrite Z_mod_mult.
Qed.

(** [m * 2^e] given with [n] further zero bits rounds to itself. *)
Lemma binary_round_aux_exact sx m e n :
  bounded64 m e = true → 0 ≤ n →
  binary_round_aux 53 1024 sx (Zpos m * 2 ^ n) (e - n) loc_Exact = S754_finite sx m e.
Proof.
  rewrite bounded64_spec. intros [He Hmax] Hn. unfold binary_round_aux.
  destruct (shr_fexp_exact 53 1024 (Zpos m) e n Hn ltac:(lia) He) as (-> & H1 & H2).
  rewrite H1, H2. cbn [round_nearest_even]. unfold shr_fexp. rewrite He, Z.sub_diag.
  cbn [shr shr_record_of_loc shr_m]. by rewrite (proj2 (Z.leb_le e _)) by lia.
Qed.

Lemma binary_normalize_exact m e :
  bounded64 m e = true → 0 ≤ e →
  binary_normalize 53 1024 (Zpos m * 2 ^ e) 0 false = S754_finite false m e.
Proof.
  intros Hb He. pose proof (Z.pow_pos_nonneg 2 e ltac:(lia) He).
  rewrite <- (binary_round_aux_exact false m e e Hb He), Z.sub_diag.
  pose proof (proj1 (bounded64_spec m e) Hb) as [Hc _].
  destruct (Zpos m * 2 ^ e) as [|p|] eqn:Ep; try lia. cbn [binary_normalize].
  unfold binary_round. change (Zpos (digits2_pos p)) with (Zdigits2 (Zpos p)).
  assert (fexp64 (Zdigits2 (Zpos p) + 0) = e) as ->.
  { by rewrite <- Ep, Zdigits2_mul_pow2, Z.add_0_r by lia. }
  unfold shl_align. rewrite Z.sub_0_r. destruct e; [done|done|lia].
Qed.

(** ** The sign of a decimal *)

Lemma binary_round_aux_opp sx m e l :
  binary_round_aux 53 1024 (negb sx) m e l = SFopp (binary_round_aux 53 1024 sx m e l).
Proof.
  unfold binary_round_aux. destruct (shr_fexp _ _ _ _ _) as [mrs e'].
  destruct (shr_fexp _ _ _ _ _) as [mrs' e'']. destruct (shr_m mrs'); [done| |done].
  by destruct (e'' <=? _).
Qed.

Lemma f64_of_dec_opp d k : 0 ≤ d → f64_of_dec true d k = SFopp (f64_of_dec false d k).
Proof.
  intros Hd. unfold f64_of_dec. destruct (Z.eqb_spec d 0); [done|].
  destruct (310 <? _); [done|]. destruct (_ <? -330); [done|].
  assert (∀ P, 0 < P → binary_normalize 53 1024 (- P) 0 true
    = SFopp (binary_normalize 53 1024 P 0 false)) as Hn.
  { intros [|P|P] HP; try lia. simpl. unfold binary_round.
    destruct (shl_align _ _ _). apply (binary_round_aux_opp false). }
  destruct k as [|p|p].
  - apply Hn. change (10 ^ 0) with 1. lia.
  - apply Hn. apply Z.mul_pos_pos; [lia|]. by apply Z.pow_pos_nonneg.
  - destruct (SFdiv_core_binary _ _ _ _ _ _) as [[q e] l]. apply (binary_round_aux_opp false).
Qed.

(** ** The exact decimal value of a float *)

Lemma ndigits_spec n : 0 < n → 10 ^ (ndigits n - 1) ≤ n < 10 ^ ndigits n ∧ 1 ≤ ndigits n.
Proof.
  intros Hn. assert (0 ≤ n) as H0 by lia. revert n H0 Hn.
  apply (Zlt_0_ind (λ n, 0 < n → _)). intros n IH _ Hn. unfold ndigits in *.
  destruct (Z_lt_le_dec n 10).
  - rewrite FormatUint_small by lia. simpl. change (10 ^ (1 - 1)) with 1. lia.
  - rewrite FormatUint_step, length_app by done. cbn [length].
    destruct (IH (n / 10)) as [Hb H1]; [Z.to_euclidean_division_equations; lia..|].
    set (k := Z.of_nat (length (FormatUint (n / 10)))) in *.
    replace (Z.of_nat (length (FormatUint (n / 10)) + 1)) with (k + 1) by lia.
    replace (k + 1 - 1) with (Z.succ (k - 1)) by lia.
    rewrite (Z.pow_succ_r 10 (k - 1)) by lia.
    rewrite (Z.pow_add_r 10 k 1) by lia. change (10 ^ 1) with 10.
    Z.to_euclidean_division_equations. lia.
Qed.

Lemma ndigits_le n p : 0 < n → n < 10 ^ p → ndigits n ≤ p.
Proof.
  intros Hn Hp. destruct (ndigits_spec n Hn) as [[Hl _] _].
  destruct (Z.le_gt_cases (ndigits n) p) as [|Hc]; [done|].
  assert (10 ^ p ≤ 10 ^ (ndigits n - 1)) by (apply Z.pow_le_mono_r; lia). lia.
Qed.

Lemma ndigits_gt n p : 0 < n → 10 ^ p ≤ n → p < ndigits n.
Proof.
  intros Hn Hp. destruct (ndigits_spec n Hn) as [[_ Hl] _].
  destruct (Z.le_gt_cases (ndigits n) p) as [Hc|]; [|lia].
  assert (10 ^ ndigits n ≤ 10 ^ p) by (apply Z.pow_le_mono_r; lia). lia.
Qed.

Lemma bounded64_range m e :
  bounded64 m e = true → Zpos m < 2 ^ 53 ∧ -1074 ≤ e ≤ 971.
Proof.
  rewrite bounded64_spec, fexp64_eq, Zdigits2_log2 by lia. intros [He ?].
  split; [|lia]. apply Z.log2_lt_pow2; lia.
Qed.

Lemma pow_5_2 p : 0 ≤ p → 10 ^ p = 5 ^ p * 2 ^ p.
Proof. intros. rewrite <- Z.pow_mul_l. done. Qed.

(** Dividing the exact decimal mantissa by its power of ten. *)
Lemma div_core_exact m p :
  bounded64 m (Zneg p) = true →
  ∃ n, 0 ≤ n ∧ SFdiv_core_binary 53 1024 (Zpos m * 5 ^ Zpos p) 0 (10 ^ Zpos p) 0
    = (Zpos m * 2 ^ n, Zneg p - n, loc_Exact).
Proof.
  rewrite bounded64_spec, fexp64_eq. intros [He _].
  assert (0 < 5 ^ Zpos p ∧ 0 < 2 ^ Zpos p ∧ 0 < 10 ^ Zpos p) as (H5 & H2 & H10)
    by (repeat split; apply Z.pow_pos_nonneg; lia).
  unfold SFdiv_core_binary. rewrite !Z.add_0_r.
  set (d := Zdigits2 _ - Zdigits2 _).
  assert (d ≤ Zdigits2 (Zpos m) - Zpos p) as Hd.
  { subst d. rewrite !Zdigits2_log2 by lia. rewrite pow_5_2, Z.log2_mul_pow2 by lia.
    pose proof (Z.log2_mul_above (Zpos m) (5 ^ Zpos p) ltac:(lia) ltac:(lia)). lia. }
  clearbody d. rewrite Z.sub_0_r. set (e' := Z.min _ 0).
  assert (e' ≤ Zneg p) as He' by (subst e'; rewrite fexp64_eq; lia).
  clearbody e'. exists (Zneg p - e'). split; [lia|].
  destruct (0 - e') as [|s|] eqn:Es; try lia.
  rewrite Z.shiftl_mul_pow2 by lia.
  replace (Zpos m * 5 ^ Zpos p * 2 ^ Zpos s)
    with (Zpos m * 2 ^ (Zneg p - e') * 10 ^ Zpos p).
  2: { rewrite pow_5_2 by lia. replace (Zpos s) with ((Zneg p - e') + Zpos p) by lia.
       rewrite Z.pow_add_r by lia. ring. }
  rewrite (surjective_pairing (Z.div_eucl _ _)).
  change (Z.div_eucl ?a ?b).1 with (a / b). change (Z.div_eucl ?a ?b).2 with (a mod b).
  rewrite Z_div_mult, Z_mod_mult by lia. f_equal; [f_equal; lia|].
  unfold new_location. by destruct (Z.even _).
Qed.

(** The guards of [f64_of_dec] on a decimal of moderate size. *)
Lemma f64_of_dec_guards neg d k :
  0 < d → -330 ≤ ndigits d + k ≤ 310 →
  f64_of_dec neg d k =
    match k with
    | Zneg p =>
        let '(q, e, l) := SFdiv_core_binary 53 1024 d 0 (10 ^ Zpos p) 0 in
        binary_round_aux 53 1024 neg q e l
    | _ => binary_normalize 53 1024 (if neg then - (d * 10 ^ k) else d * 10 ^ k) 0 neg
    end.
Proof.
  intros Hd Hk. unfold f64_of_dec.
  rewrite (proj2 (Z.eqb_neq d 0)), (proj2 (Z.ltb_ge 310 _)), (proj2 (Z.ltb_ge _ (-330))) by lia.
  done.
Qed.

Lemma f_exact_int m e :
  bounded64 m e = true → 0 ≤ e →
  f64_of_dec false (Zpos m * 2 ^ e) 0 = S754_finite false m e.
Proof.
  intros Hb He. pose proof (bounded64_range m e Hb) as [Hm He'].
  pose proof (Z.pow_pos_nonneg 2 e ltac:(lia) He).
  assert (2 ^ 53 * 2 ^ 971 < 10 ^ 309) as P by (vm_compute; reflexivity).
  assert (2 ^ e ≤ 2 ^ 971) by (apply Z.pow_le_mono_r; lia).
  assert (ndigits (Zpos m * 2 ^ e) ≤ 309) by (apply ndigits_le; nia).
  pose proof (ndigits_spec (Zpos m * 2 ^ e) ltac:(nia)) as [_ Hn].
  rewrite f64_of_dec_guards by lia. rewrite Z.mul_1_r. by apply binary_normalize_exact.
Qed.

Lemma f_exact_frac m p :
  bounded64 m (Zneg p) = true →
  f64_of_dec false (Zpos m * 5 ^ Zpos p) (Zneg p) = S754_finite false m (Zneg p).
Proof.
  intros Hb. pose proof (bounded64_range m _ Hb) as [Hm He].
  assert (0 < 5 ^ Zpos p ∧ 0 < 2 ^ Zpos p ∧ 0 < 10 ^ Zpos p) as (H5 & H2 & H10)
    by (repeat split; apply Z.pow_pos_nonneg; lia).
  pose proof (pow_5_2 (Zpos p) ltac:(lia)) as H52.
  assert (2 ^ 53 < 10 ^ 16 ∧ 2 ^ 1074 < 10 ^ 324) as (P2 & P3)
    by (split; vm_compute; reflexivity).
  assert (2 ^ Zpos p ≤ 2 ^ 1074) by (apply Z.pow_le_mono_r; lia).
  assert (ndigits (Zpos m * 5 ^ Zpos p) ≤ Zpos p + 16).
  { apply ndigits_le; [nia|]. rewrite Z.pow_add_r by lia. nia. }
  assert (Zpos p - 325 < ndigits (Zpos m * 5 ^ Zpos p)).
  { destruct (Z.le_gt_cases 325 (Zpos p)) as [Hp|Hp].
    - apply ndigits_gt; [nia|]. apply (Z.mul_le_mono_pos_r _ _ (10 ^ 325)); [done|].
      rewrite <- Z.pow_add_r by lia. replace (Zpos p - 325 + 325) with (Zpos p) by lia.
      rewrite H52. assert (2 ^ Zpos p ≤ 10 ^ 325) by lia. nia.
    - pose proof (ndigits_spec (Zpos m * 5 ^ Zpos p) ltac:(nia)) as [_ ?]. lia. }
  rewrite f64_of_dec_guards by lia.
  destruct (div_core_exact m p Hb) as (n & Hn & ->). by apply binary_round_aux_exact.
Qed.

Lemma f_exact_reads_back m e :
  bounded64 m e = true →
  let '(q, k) := f_exact m e in 0 < q ∧ f64_of_dec false q k = S754_finite false m e.
Proof.
  intros Hb. unfold f_exact. destruct e as [|e|p].
  - split; [lia|]. by apply (f_exact_int m 0).
  - split; [|by apply f_exact_int]. apply Z.mul_pos_pos; [lia|]. by apply Z.pow_pos_nonneg.
  - split; [|by apply f_exact_frac]. apply Z.mul_pos_pos; [lia|]. by apply Z.pow_pos_nonneg.
Qed.

Lemma round_even_ratio_nonneg n d : 0 ≤ n → 0 < d → 0 ≤ round_even_ratio n d.
Proof.
  intros Hn Hd. unfold round_even_ratio. pose proof (Z.div_pos n d Hn Hd).
  destruct (_ ?= _); [destruct (Z.even _)|..]; lia.
Qed.

Lemma round_digits_nonneg nd n d : 0 ≤ nd → 0 < n → 0 < d → 0 ≤ (round_digits nd n d).1.
Proof.
  intros Hnd Hn Hd. unfold round_digits. destruct (_ =? _); cbn [fst]; [by apply Z.pow_nonneg|].
  destruct (_ - _) as [|p|p]; apply round_even_ratio_nonneg; try lia;
    pose proof (Z.pow_pos_nonneg 10 (Zpos p) ltac:(lia) ltac:(lia)); nia.
Qed.

Lemma f_ratio_pos m e : 0 < (f_ratio m e).1 ∧ 0 < (f_ratio m e).2.
Proof.
  destruct e as [|e|e]; simpl; split; try lia; by apply Z.pow_pos_nonneg || nia.
Qed.

Lemma shortest_loop_reads_back fuel nd m e :
  bounded64 m e = true → 0 ≤ nd →
  let '(q, k) := shortest_loop fuel nd m e in
  0 < q ∧ f64_of_dec false q k = S754_finite false m e.
Proof.
  intros Hb. revert nd. induction fuel as [|fuel IH]; intros nd Hnd; cbn [shortest_loop].
  { by apply f_exact_reads_back. }
  pose proof (f_ratio_pos m e) as [Hn Hd]. destruct (f_ratio m e) as [n d]. cbn [fst snd] in *.
  pose proof (round_digits_nonneg nd n d Hnd Hn Hd) as Hq.
  destruct (round_digits nd n d) as [q k]. cbn [fst] in Hq.
  case_bool_decide as Hf; [|apply IH; lia]. split; [|done].
  destruct (Z.eq_dec q 0) as [->|]; [done|lia].
Qed.

(** The decimal the formatter chooses denotes the float. *)
Lemma shortest_reads_back m e :
  bounded64 m e = true →
  let '(q, k) := shortest m e in 0 < q ∧ f64_of_dec false q k = S754_finite false m e.
Proof. intros. by apply shortest_loop_reads_back. Qed.

(** ** The literal *)

Lemma f64_of_dec_shift neg q k : 0 < q → 0 ≤ k →
  f64_of_dec neg (q * 10 ^ k) 0 = f64_of_dec neg q k.
Proof.
  intros Hq Hk. unfold f64_of_dec, ndigits.
  pose proof (Z.pow_pos_nonneg 10 k ltac:(lia) Hk).
  rewrite !(proj2 (Z.eqb_neq _ 0)) by nia.
  replace (q * 10 ^ k) with (q * 10 ^ Z.of_nat (Z.to_nat k)) by (by rewrite Z2Nat.id).
  rewrite FormatUint_times_pow, length_app, length_replicate, Z2Nat.id by lia.
  replace (Z.of_nat (length (FormatUint q) + Z.to_nat k) + 0)
    with (Z.of_nat (length (FormatUint q)) + k) by lia.
  destruct (310 <? _); [done|]. destruct (_ <? -330); [done|].
  rewrite Z.mul_1_r. destruct k; [by rewrite Z.mul_1_r|done|lia].
Qed.

(** A literal that denotes the decimal [q * 10^k]. *)
Definition denotes (lit : bytes) (q k : Z) : Prop :=
  ∃ ip fp ex, lit = num_lit false ip fp ex ∧ num_lit_ok ip fp ex ∧
  ∃ d x, digits_val 0 (ip ++ fp) = Some d ∧ exp_val ex = Some x ∧
  ∀ neg, f64_of_dec neg d (x - Z.of_nat (length fp)) = f64_of_dec neg q k.

Lemma zeros_digits n : digits (zeros n).
Proof. by apply Forall_replicate. Qed.

Lemma length_zeros n : Z.of_nat (length (zeros n)) = Z.max 0 n.
Proof. unfold zeros. rewrite length_replicate. lia. Qed.

Lemma digits_take n s : digits s → digits (take n s).
Proof. apply Forall_take. Qed.

Lemma fmt_f_denotes q k : 0 < q → denotes (fmt_f (FormatUint q) k) q k.
Proof.
  intros Hq. pose proof (FormatUint_digits q ltac:(lia)) as Hds.
  pose proof (FormatUint_val q ltac:(lia)) as Hval.
  destruct (FormatUint_head q Hq) as (c & t & Hct & Hc & _).
  unfold fmt_f. set (ds := FormatUint q) in *.
  destruct (Z.leb_spec 0 k) as [Hk|Hk]; [|destruct (Z.ltb_spec 0 (Z.of_nat (length ds) + k)) as [Hp|Hp]].
  - pose proof (Z.pow_pos_nonneg 10 k ltac:(lia) Hk).
    exists (FormatUint (q * 10 ^ k)), [], None. split; [|split].
    + unfold num_lit, zeros, ds. rewrite !app_nil_r. cbn [app].
      by rewrite <- FormatUint_times_pow, Z2Nat.id by lia.
    + apply num_lit_ok_uint. nia.
    + exists (q * 10 ^ k), 0. rewrite app_nil_r. split_and!; [apply FormatUint_val; nia|done|].
      intros neg. by apply f64_of_dec_shift.
  - set (n := Z.to_nat (Z.of_nat (length ds) + k)).
    assert (length (drop n ds) = Z.to_nat (- k)) as Hl by (rewrite length_drop; lia).
    exists (take n ds), (drop n ds), None. split; [|split].
    + unfold num_lit. rewrite app_nil_r. destruct (drop n ds) as [|x l]; [simpl in Hl; lia|done].
    + split_and!; [by apply digits_take| |by apply Forall_drop|done].
      right. destruct n as [|n0] eqn:En; [lia|]. rewrite Hct. simpl. eauto.
    + exists q, 0. rewrite take_drop, Hl. split_and!; [done|done|]. intros neg. f_equal. lia.
  - exists ["0"%char], (zeros (- (Z.of_nat (length ds) + k)) ++ ds), None. split; [|split].
    + unfold num_lit. rewrite app_nil_r.
      destruct (zeros _ ++ ds) as [|x l] eqn:E; [|done].
      apply app_eq_nil in E as [_ E]. by rewrite Hct in E.
    + split_and!; [by repeat constructor|by left| |done].
      apply Forall_app_2; [apply zeros_digits|done].
    + exists q, 0. split_and!; [|done|].
      * cbn [app digits_val]. change (digit_val "0") with (Some 0). cbn iota beta.
        unfold zeros. rewrite digits_val_leading_zeros. done.
      * intros neg. f_equal. rewrite length_app, Nat2Z.inj_add, length_zeros. lia.
Qed.

Lemma FormatUint_pad n : 0 ≤ n →
  digits_val 0 (if n <? 10 then "0"%char :: FormatUint n else FormatUint n) = Some n ∧
  digits (if n <? 10 then "0"%char :: FormatUint n else FormatUint n) ∧
  (if n <? 10 then "0"%char :: FormatUint n else FormatUint n) ≠ [].
Proof.
  intros Hn. pose proof (FormatUint_val n Hn). pose proof (FormatUint_digits n Hn).
  pose proof (FormatUint_nonempty n).
  destruct (n <? 10); [|done]. split_and!; [done|by constructor|done].
Qed.

Lemma fmt_e_denotes q k : 0 < q → denotes (fmt_e (FormatUint q) k) q k.
Proof.
  intros Hq. pose proof (FormatUint_digits q ltac:(lia)) as Hds.
  pose proof (FormatUint_val q ltac:(lia)) as Hval.
  destruct (FormatUint_head q Hq) as (c & t & Hct & Hc & _). rewrite Hct in *.
  unfold fmt_e. set (x := Z.of_nat (length (c :: t)) + k - 1).
  apply Forall_cons_1 in Hds as [Hcd Htd].
  exists [c], t, (Some (x <? 0, if x <? 0 then FormatUint (- x)
    else if x <? 10 then "0"%char :: FormatUint x else FormatUint x)).
  split; [|split].
  - unfold num_lit. simpl. destruct (x <? 0); done.
  - split; [by apply List.Forall_cons|]. split; [right; eauto|]. split; [done|].
    destruct (Z.ltb_spec x 0).
    + split; [apply FormatUint_digits; lia|apply FormatUint_nonempty].
    + by apply FormatUint_pad.
  - exists q, x. split_and!; [done| |].
    + unfold exp_val. destruct (Z.ltb_spec x 0).
      * rewrite FormatUint_val by lia. simpl. f_equal. lia.
      * by apply FormatUint_pad.
    + intros neg. f_equal. subst x. cbn [length]. lia.
Qed.

Lemma fmt_pos_denotes m e :
  bounded64 m e = true →
  ∃ q k, denotes (fmt_pos m e) q k ∧ 0 < q ∧ f64_of_dec false q k = S754_finite false m e.
Proof.
  intros Hb. pose proof (shortest_reads_back m e Hb) as H. unfold fmt_pos.
  destruct (shortest m e) as [q k]. destruct H as [Hq Hf]. exists q, k.
  split; [|done]. destruct (_ || _); [by apply fmt_e_denotes|by apply fmt_f_denotes].
Qed.

(** A finite float, as the arithmetic produces them. *)
Definition f64_ok (f : float64) : Prop := is_finite f = true ∧ valid_binary 53 1024 f = true.

(** The text of a finite float is a literal, and reads back as the float. *)
Lemma FormatFloatJSON_ok f :
  f64_ok f → ∃ lit, FormatFloatJSON f = Ok lit ∧ printable (JNum lit) ∧ ParseFloat lit = Ok f.
Proof.
  intros [Hfin Hval]. destruct f as [s| | |s m e]; try done.
  - exists (num_lit s ["0"%char] [] None). split; [by destruct s|]. split.
    + apply printable_num_lit. by apply (num_lit_ok_uint 0).
    + by destruct s.
  - destruct (fmt_pos_denotes m e Hval) as (q & k & Hd & Hq & Hf).
    destruct Hd as (ip & fp & ex & Hlit & Hok & d & x & Hdv & Hxv & Heq).
    exists (num_lit s ip fp ex). split; [|split].
    + unfold FormatFloatJSON. rewrite Hlit. by destruct s.
    + by apply printable_num_lit.
    + unfold ParseFloat. rewrite parse_decimal_lit, Hdv, Hxv by done. simpl.
      rewrite Heq. destruct s; [rewrite f64_of_dec_opp by lia|]; by rewrite Hf.
Qed.
