(* ===== verification/GoFloatRound.v ===== *)
(** * Rounding to nearest

    What [binary_round_aux] computes: the number handed to it with its location
    between two integers is rounded once, to the nearest multiple of the unit
    in the last place, ties to even.  From this follow the validity of every
    float the arithmetic produces, and the exactness of the conversion between
    hertz and megahertz. *)

From Stdlib Require Import String Ascii NArith ZArith Lia SpecFloat.
From stdpp Require Import base list strings numbers.
From S2P Require Import Prelude GoPrim GoStrconv GoFloat GoFloatText.

Local Open Scope Z_scope.

(** ** Shifting a quotient whose remainder is known *)

Lemma loc_of_bits N D :
  let r := shr_record_of_loc (N / D) (loc_of N D) in
  shr_m r = N / D ∧ loc_of_shr_record r = loc_of N D ∧
  orb (shr_r r) (shr_s r) = negb (N mod D =? 0).
Proof.
  unfold loc_of. destruct (N mod D =? 0); [done|]. by destruct (_ ?= _).
Qed.

Lemma shr_1_record r : 0 ≤ shr_m r →
  shr_1 r = Build_shr_record (shr_m r / 2) (Z.odd (shr_m r)) (orb (shr_r r) (shr_s r)).
Proof. destruct r as [m b s]. apply shr_1_spec. Qed.

Lemma shr_iter_loc n N D : 0 ≤ N → 0 < D →
  Nat.iter (S n) shr_1 (shr_record_of_loc (N / D) (loc_of N D))
  = Build_shr_record (N / (D * 2 ^ Z.of_nat (S n))) (Z.odd (N / (D * 2 ^ Z.of_nat n)))
      (negb (N mod (D * 2 ^ Z.of_nat n) =? 0)).
Proof.
  intros HN HD. induction n as [|n IH].
  - cbn [Nat.iter nat_rect]. destruct (loc_of_bits N D) as (Hm & _ & Hs).
    rewrite shr_1_record by (rewrite Hm; apply Z.div_pos; lia). rewrite Hm, Hs.
    change (Z.of_nat 0) with 0. change (2 ^ 0) with 1. change (2 ^ Z.of_nat 1) with 2.
    by rewrite Z.mul_1_r, Z.div_div by lia.
  - rewrite Nat.iter_succ, IH. pose proof (Z.pow_pos_nonneg 2 (Z.of_nat n) ltac:(lia) ltac:(lia)).
    rewrite shr_1_spec by (apply Z.div_pos; rewrite ?Nat2Z.inj_succ, ?Z.pow_succ_r; nia).
    rewrite (Nat2Z.inj_succ (S n)), Z.pow_succ_r by lia.
    rewrite Nat2Z.inj_succ, Z.pow_succ_r by lia.
    set (P := 2 ^ Z.of_nat n) in *.
    replace (D * (2 * (2 * P))) with (D * (2 * P) * 2) by ring.
    rewrite <- (Z.div_div N (D * (2 * P)) 2) by nia. f_equal.
    replace (D * (2 * P)) with (D * P * 2) by ring.
    rewrite (Z.rem_mul_r N (D * P) 2) by nia.
    pose proof (Z.mod_pos_bound N (D * P) ltac:(nia)).
    rewrite Zmod_odd. destruct (Z.odd (N / (D * P))); simpl.
    + symmetry. apply negb_true_iff, Z.eqb_neq. nia.
    + by rewrite Z.mul_0_r, Z.add_0_r.
Qed.

Lemma shr_loc_spec N D e n : 0 ≤ N → 0 < D → 0 ≤ n →
  let '(mrs, e') := shr (shr_record_of_loc (N / D) (loc_of N D)) e n in
  shr_m mrs = N / (D * 2 ^ n) ∧ loc_of_shr_record mrs = loc_of N (D * 2 ^ n) ∧ e' = e + n.
Proof.
  intros HN HD Hn. destruct n as [|p|]; [|simpl|lia].
  - simpl. destruct (loc_of_bits N D) as (Hm & Hl & _). by rewrite Z.mul_1_r, Z.add_0_r.
  - rewrite iter_pos_nat. destruct (Pos.to_nat p) as [|n] eqn:Ep; [lia|].
    rewrite shr_iter_loc by done.
    replace (Zpos p) with (Z.of_nat (S n)) by lia. split; [done|]. split; [|done].
    simpl loc_of_shr_record. unfold loc_of.
    rewrite Nat2Z.inj_succ, Z.pow_succ_r by lia.
    pose proof (Z.pow_pos_nonneg 2 (Z.of_nat n) ltac:(lia) ltac:(lia)).
    set (P := 2 ^ Z.of_nat n) in *. replace (D * (2 * P)) with (D * P * 2) by ring.
    assert (0 < D * P) as HDP by nia. set (Q := D * P) in *. clearbody Q.
    rewrite Z.rem_mul_r, Zmod_odd by lia.
    pose proof (Z.mod_pos_bound N Q ltac:(lia)).
    destruct (Z.odd (N / Q)), (Z.eqb_spec (N mod Q) 0) as [E|E]; simpl.
    + rewrite E, (proj2 (Z.eqb_neq _ _)) by lia. f_equal. symmetry. apply Z.compare_eq_iff. lia.
    + rewrite (proj2 (Z.eqb_neq _ _)) by lia. f_equal. symmetry. apply Z.compare_gt_iff. lia.
    + rewrite E, Z.mul_0_r. done.
    + rewrite (proj2 (Z.eqb_neq _ _)) by lia. f_equal. symmetry. apply Z.compare_lt_iff. lia.
Qed.

Lemma round_nearest_even_loc N D : 0 < D →
  round_nearest_even (N / D) (loc_of N D) = round_even_ratio N D.
Proof.
  intros HD. unfold loc_of, round_even_ratio.
  destruct (Z.eqb_spec (N mod D) 0) as [->|Hne].
  - rewrite (proj2 (Z.compare_lt_iff (2 * 0) D)) by lia. done.
  - simpl. by destruct (_ ?= _).
Qed.

(** ** The rounding step *)

(** The float with mantissa [m] at exponent [e], when the mantissa may have
    reached [2^53]. *)
Definition finish (sx : bool) (m e : Z) : float64 :=
  if m =? 0 then S754_zero sx
  else let '(m, e) := if m =? 2 ^ 53 then (2 ^ 52, e + 1) else (m, e) in
       if e <=? 971 then S754_finite sx (Z.to_pos m) e else S754_infinity sx.

Lemma fexp64_mono_small m e :
  0 < m → m < 2 ^ 53 → fexp64 (Zdigits2 m + e) ≤ Z.max e (-1074).
Proof.
  intros Hm Hb. rewrite fexp64_eq, Zdigits2_log2 by done.
  assert (Z.log2 m < 53) by (apply Z.log2_lt_pow2; lia). lia.
Qed.

Lemma round_even_ratio_bounds N D : 0 ≤ N → 0 < D →
  N / D ≤ round_even_ratio N D ≤ N / D + 1.
Proof.
  intros HN HD. unfold round_even_ratio. destruct (_ ?= _); [destruct (Z.even _)|..]; lia.
Qed.

Lemma shr_nonpos r e n : n ≤ 0 → shr r e n = (r, e).
Proof. destruct n; done || lia. Qed.

(** The second normalisation, after the rounding. *)
Lemma renormalise sx m e :
  0 ≤ m ≤ 2 ^ 53 → -1074 ≤ e →
  (let '(mrs, e') := shr_fexp 53 1024 m e loc_Exact in
   match shr_m mrs with
   | Z0 => S754_zero sx
   | Zpos p => if e' <=? 1024 - 53 then S754_finite sx p e' else S754_infinity sx
   | _ => S754_nan
   end) = finish sx m e.
Proof.
  intros Hm He. unfold finish, shr_fexp. cbn [shr_record_of_loc].
  destruct (Z.eqb_spec m 0) as [->|Hne].
  { rewrite shr_nonpos; [done|]. rewrite fexp64_eq. cbn [Zdigits2]. lia. }
  destruct (Z.eqb_spec m (2 ^ 53)) as [->|Hlt].
  - replace (fexp64 (Zdigits2 (2 ^ 53) + e) - e) with 1; [done|].
    rewrite fexp64_eq. change (Zdigits2 (2 ^ 53)) with 54. lia.
  - pose proof (fexp64_mono_small m e ltac:(lia) ltac:(lia)).
    rewrite shr_nonpos by lia. cbn [shr_m]. destruct m as [|p|p]; try lia. done.
Qed.

Lemma quotient_below N D n :
  0 ≤ N → 0 < D → 0 ≤ n → Zdigits2 (N / D) ≤ n + 53 → N / (D * 2 ^ n) < 2 ^ 53.
Proof.
  intros HN HD Hn Hd. pose proof (Z.pow_pos_nonneg 2 n ltac:(lia) Hn).
  rewrite <- Z.div_div by lia. pose proof (Z.div_pos N D HN HD).
  destruct (Z.eq_dec (N / D) 0) as [->|Hq]; [by rewrite Z.div_0_l by lia|].
  rewrite Zdigits2_log2 in Hd by lia.
  apply Z.div_lt_upper_bound; [lia|]. rewrite <- Z.pow_add_r by lia.
  apply Z.log2_lt_pow2; lia.
Qed.

(** [binary_round_aux] rounds [N / D * 2^e] to the nearest float. *)
Lemma binary_round_aux_spec sx N D e :
  let e1 := fexp64 (Zdigits2 (N / D) + e) in
  0 ≤ N → 0 < D → e ≤ e1 →
  binary_round_aux 53 1024 sx (N / D) e (loc_of N D)
  = finish sx (round_even_ratio N (D * 2 ^ (e1 - e))) e1.
Proof.
  intros e1 HN HD He. unfold binary_round_aux. unfold shr_fexp at 1. fold e1.
  pose proof (shr_loc_spec N D e (e1 - e) HN HD ltac:(lia)) as Hs.
  destruct (shr _ e (e1 - e)) as [mrs e']. destruct Hs as (-> & -> & ->).
  replace (e + (e1 - e)) with e1 by lia.
  pose proof (Z.pow_pos_nonneg 2 (e1 - e) ltac:(lia) ltac:(lia)).
  assert (0 < D * 2 ^ (e1 - e)) as HDP by nia.
  rewrite round_nearest_even_loc by done. apply renormalise.
  - pose proof (round_even_ratio_bounds N _ HN HDP).
    pose proof (Z.div_pos N _ HN HDP).
    assert (N / (D * 2 ^ (e1 - e)) < 2 ^ 53); [|lia].
    apply quotient_below; try lia. subst e1. rewrite fexp64_eq. lia.
  - subst e1. rewrite fexp64_eq. lia.
Qed.

(** ** The arithmetic produces valid floats *)

Lemma finish_valid sx m e :
  0 ≤ m ≤ 2 ^ 53 → -1074 ≤ e → (e = -1074 ∨ 2 ^ 52 ≤ m) →
  valid_binary 53 1024 (finish sx m e) = true.
Proof.
  intros Hm He Hn. unfold finish. destruct (Z.eqb_spec m 0); [done|].
  destruct (Z.eqb_spec m (2 ^ 53)) as [->|Hlt]; cbn iota beta.
  - destruct (Z.leb_spec (e + 1) 971); [|done]. apply bounded64_spec. rewrite fexp64_eq.
    split; [|lia]. change (Zdigits2 (Zpos (Z.to_pos (2 ^ 52)))) with 53. lia.
  - destruct (Z.leb_spec e 971); [|done]. apply bounded64_spec. rewrite fexp64_eq.
    rewrite Z2Pos.id, Zdigits2_log2 by lia. split; [|lia].
    assert (Z.log2 m < 53) by (apply Z.log2_lt_pow2; lia).
    destruct Hn as [->|Hn]; [lia|]. assert (52 ≤ Z.log2 m) by (apply Z.log2_le_pow2; lia). lia.
Qed.

Lemma binary_round_aux_valid sx N D e :
  0 ≤ N → 0 < D → e ≤ fexp64 (Zdigits2 (N / D) + e) →
  valid_binary 53 1024 (binary_round_aux 53 1024 sx (N / D) e (loc_of N D)) = true.
Proof.
  intros HN HD He. rewrite binary_round_aux_spec by done.
  set (e1 := fexp64 (Zdigits2 (N / D) + e)) in *.
  pose proof (Z.pow_pos_nonneg 2 (e1 - e) ltac:(lia) ltac:(lia)).
  assert (0 < D * 2 ^ (e1 - e)) as HDP by nia.
  pose proof (round_even_ratio_bounds N _ HN HDP). pose proof (Z.div_pos N _ HN HDP).
  pose proof (Z.div_pos N D HN HD).
  assert (N / (D * 2 ^ (e1 - e)) < 2 ^ 53).
  { apply quotient_below; try lia. subst e1. rewrite fexp64_eq. lia. }
  apply finish_valid; [lia|subst e1; rewrite fexp64_eq; lia|].
  destruct (Z.eq_dec e1 (-1074)) as [|Hne]; [by left|right].
  assert (e1 = Zdigits2 (N / D) + e - 53) as He1 by (subst e1; rewrite fexp64_eq in *; lia).
  destruct (Z.eq_dec (N / D) 0) as [Hz|Hq].
  { rewrite Hz in He1. cbn [Zdigits2] in He1. lia. }
  rewrite Zdigits2_log2 in He1 by lia.
  assert (2 ^ 52 ≤ N / (D * 2 ^ (e1 - e))); [|lia].
  rewrite <- Z.div_div by lia. apply Z.div_le_lower_bound; [lia|].
  rewrite <- Z.pow_add_r by lia. apply Z.log2_le_pow2; lia.
Qed.

Lemma loc_of_1 N : loc_of N 1 = loc_Exact.
Proof. unfold loc_of. by rewrite Z.mod_1_r. Qed.

(** [binary_round] first shifts the mantissa left as far as it can. *)
Lemma binary_round_eq sx p :
  let k := Z.max 0 (- fexp64 (Zdigits2 (Zpos p))) in
  binary_round 53 1024 sx p 0
  = binary_round_aux 53 1024 sx (Zpos p * 2 ^ k / 1) (- k) (loc_of (Zpos p * 2 ^ k) 1).
Proof.
  intros k. rewrite loc_of_1, Z.div_1_r. unfold binary_round, shl_align.
  rewrite Z.sub_0_r, Z.add_0_r. change (Zpos (digits2_pos p)) with (Zdigits2 (Zpos p)).
  subst k. destruct (fexp64 (Zdigits2 (Zpos p))) as [|d|d]; cbn [Z.opp].
  1, 2: rewrite Z.max_l, Z.mul_1_r by lia; done.
  rewrite Z.max_r by lia. change (Pos.iter xO p d) with (Zpower.shift_pos d p).
  by rewrite Zpower.shift_pos_correct, Z.mul_comm.
Qed.

Lemma binary_round_valid sx p : valid_binary 53 1024 (binary_round 53 1024 sx p 0) = true.
Proof.
  rewrite binary_round_eq. set (k := Z.max 0 _).
  assert (0 ≤ k) as Hk by (subst k; lia).
  pose proof (Z.pow_pos_nonneg 2 k ltac:(lia) Hk).
  apply binary_round_aux_valid; [nia|done|].
  rewrite Z.div_1_r, Zdigits2_mul_pow2 by lia.
  replace (Zdigits2 (Zpos p) + k + - k) with (Zdigits2 (Zpos p)) by lia. lia.
Qed.

Lemma f64_of_Z_valid z : valid_binary 53 1024 (f64_of_Z z) = true.
Proof. destruct z; [done|apply binary_round_valid..]. Qed.

(** The sign of a rounded number is the sign of the number. *)
Definition set_sign (sx : bool) (f : spec_float) : spec_float :=
  match f with
  | S754_zero _ => S754_zero sx
  | S754_infinity _ => S754_infinity sx
  | S754_finite _ m e => S754_finite sx m e
  | S754_nan => S754_nan
  end.

Lemma binary_round_sign sx p e :
  binary_round 53 1024 sx p e = set_sign sx (binary_round 53 1024 false p e).
Proof.
  unfold binary_round. destruct (shl_align _ _ _) as [m e']. unfold binary_round_aux.
  destruct (shr_fexp _ _ _ _ _) as [mrs e1]. destruct (shr_fexp _ _ _ _ loc_Exact) as [mrs' e2].
  destruct (shr_m mrs') as [|q|q]; try done. by destruct (e2 <=? _).
Qed.

(** The integers of at most 53 bits are floats. *)
Lemma f64_of_Z_norm z :
  0 < z → z < 2 ^ 53 →
  f64_of_Z z = S754_finite false (Z.to_pos (z * 2 ^ (52 - Z.log2 z))) (- (52 - Z.log2 z)).
Proof.
  intros Hz Hb. assert (Z.log2 z < 53) as Hl by (apply Z.log2_lt_pow2; lia).
  pose proof (Z.log2_nonneg z).
  pose proof (Z.pow_pos_nonneg 2 (52 - Z.log2 z) ltac:(lia) ltac:(lia)).
  destruct z as [|p|p]; try lia. unfold f64_of_Z. cbn [binary_normalize].
  rewrite binary_round_eq, loc_of_1, Z.div_1_r.
  assert (Z.max 0 (- fexp64 (Zdigits2 (Zpos p))) = 52 - Z.log2 (Zpos p)) as ->.
  { rewrite fexp64_eq, Zdigits2_log2 by lia. lia. }
  set (k := 52 - Z.log2 (Zpos p)) in *.
  rewrite <- (binary_round_aux_exact false (Z.to_pos (Zpos p * 2 ^ k)) (- k) 0).
  - rewrite Z2Pos.id by nia. by rewrite Z.mul_1_r, Z.sub_0_r.
  - apply bounded64_spec. rewrite Z2Pos.id, Zdigits2_mul_pow2, fexp64_eq, Zdigits2_log2 by nia. lia.
  - done.
Qed.

Lemma f64_of_Z_exact z :
  0 < z → z < 2 ^ 53 →
  ∃ k, 0 ≤ k ∧ f64_of_Z z = S754_finite false (Z.to_pos (z * 2 ^ k)) (- k).
Proof.
  intros Hz Hb. assert (Z.log2 z < 53) as Hl by (apply Z.log2_lt_pow2; lia).
  exists (52 - Z.log2 z). split; [lia|]. by apply f64_of_Z_norm.
Qed.

Lemma f64_of_Z_opp z : 0 < z → f64_of_Z (- z) = set_sign true (f64_of_Z z).
Proof. intros Hz. destruct z as [|p|p]; try lia. apply binary_round_sign. Qed.

(** ** Division *)

Lemma Zdigits2_div a b : 0 < a → 0 < b → Zdigits2 a - Zdigits2 b ≤ Zdigits2 (a / b).
Proof.
  intros Ha Hb. rewrite (Zdigits2_log2 a), (Zdigits2_log2 b) by done.
  pose proof (Z.log2_spec a Ha) as [Hla _]. pose proof (Z.log2_spec b Hb) as [_ Hlb].
  pose proof (Z.log2_nonneg a). pose proof (Z.log2_nonneg b).
  pose proof (Z.div_pos a b ltac:(lia) Hb).
  destruct (Z.le_gt_cases (Z.log2 a) (Z.log2 b)).
  { destruct (Z.eq_dec (a / b) 0) as [->|]; [cbn [Zdigits2]; lia|].
    rewrite Zdigits2_log2 by lia. pose proof (Z.log2_nonneg (a / b)). lia. }
  assert (2 ^ (Z.log2 a - Z.log2 b - 1) ≤ a / b) as Hq.
  { apply Z.div_le_lower_bound; [done|]. etrans; [|exact Hla].
    replace (Z.log2 a) with (Z.succ (Z.log2 b) + (Z.log2 a - Z.log2 b - 1)) at 2 by lia.
    rewrite Z.pow_add_r by lia.
    pose proof (Z.pow_pos_nonneg 2 (Z.log2 a - Z.log2 b - 1) ltac:(lia) ltac:(lia)). nia. }
  pose proof (Z.pow_pos_nonneg 2 (Z.log2 a - Z.log2 b - 1) ltac:(lia) ltac:(lia)).
  rewrite Zdigits2_log2 by lia.
  apply Z.log2_le_pow2 in Hq; lia.
Qed.

Lemma new_location_loc N D : 0 < D → new_location D (N mod D) = loc_of N D.
Proof.
  intros HD. unfold new_location, loc_of. pose proof (Z.mod_pos_bound N D HD).
  destruct (Z.even D) eqn:Ev.
  - unfold new_location_even. destruct (N mod D =? 0); [done|]. f_equal.
  - unfold new_location_odd. destruct (Z.eqb_spec (N mod D) 0) as [|Hne]; [done|]. f_equal.
    assert (D mod 2 = 1) as Hodd by (rewrite Zmod_odd, <- Z.negb_even, Ev; done).
    assert (2 * (N mod D) ≠ D) by (intros E; rewrite <- E, Z.mul_comm, Z_mod_mult in Hodd; done).
    destruct (Z.compare_spec (2 * (N mod D) + 1) D); symmetry.
    + apply Z.compare_lt_iff. lia.
    + apply Z.compare_lt_iff. lia.
    + apply Z.compare_gt_iff. lia.
Qed.

(** The quotient [a * 2^s / b] the division rounds, with its exponent. *)
Lemma SFdiv_core_spec a ea b eb :
  0 < a → 0 < b →
  ∃ s, 0 ≤ s ∧
    let e := ea - eb - s in
    SFdiv_core_binary 53 1024 a ea b eb = (a * 2 ^ s / b, e, loc_of (a * 2 ^ s) b) ∧
    e ≤ fexp64 (Zdigits2 (a * 2 ^ s / b) + e) ∧
    e ≤ fexp64 (Zdigits2 a + ea - (Zdigits2 b + eb)).
Proof.
  intros Ha Hb. set (e' := Z.min (fexp64 (Zdigits2 a + ea - (Zdigits2 b + eb))) (ea - eb)).
  exists (ea - eb - e'). split; [subst e'; lia|]. cbn zeta.
  replace (ea - eb - (ea - eb - e')) with e' by lia.
  pose proof (Z.pow_pos_nonneg 2 (ea - eb - e') ltac:(lia) ltac:(lia)). split_and!.
  - unfold SFdiv_core_binary. fold e'.
    assert (match ea - eb - e' with Z0 => a | Zpos _ => Z.shiftl a (ea - eb - e') | Zneg _ => 0 end
      = a * 2 ^ (ea - eb - e')) as ->.
    { destruct (ea - eb - e') as [|s|s] eqn:Es; [lia| |lia]. by rewrite Z.shiftl_mul_pow2 by lia. }
    rewrite (surjective_pairing (Z.div_eucl _ _)).
    change (Z.div_eucl ?x ?y).1 with (x / y). change (Z.div_eucl ?x ?y).2 with (x mod y).
    by rewrite new_location_loc.
  - pose proof (Zdigits2_div (a * 2 ^ (ea - eb - e')) b ltac:(nia) Hb) as Hd.
    rewrite Zdigits2_mul_pow2 in Hd by (subst e'; lia).
    subst e'. rewrite !fexp64_eq in *. lia.
  - subst e'. lia.
Qed.

Lemma f64_div_valid x y :
  valid_binary 53 1024 (f64_div x y) = true.
Proof.
  unfold f64_div. destruct x as [| | |sx mx ex], y as [| | |sy my ey]; try done. cbn [SFdiv].
  destruct (SFdiv_core_spec (Zpos mx) ex (Zpos my) ey) as (s & Hs & -> & He & _); [lia..|].
  apply binary_round_aux_valid; try done. apply Z.mul_nonneg_nonneg; [lia|].
  by apply Z.pow_nonneg.
Qed.

Lemma f64_of_dec_valid neg d k : 0 ≤ d → valid_binary 53 1024 (f64_of_dec neg d k) = true.
Proof.
  intros Hd. unfold f64_of_dec. destruct (Z.eqb_spec d 0); [done|].
  destruct (310 <? _); [done|]. destruct (_ <? -330); [done|].
  assert (∀ z, valid_binary 53 1024 (binary_normalize 53 1024 z 0 neg) = true) as Hint
    by (intros [|p|p]; [done|apply binary_round_valid..]).
  destruct k as [|p|p]; [apply Hint..|].
  destruct (SFdiv_core_spec d 0 (10 ^ Zpos p) 0) as (s & Hs & -> & He & _); [lia|by apply Z.pow_pos_nonneg|].
  apply binary_round_aux_valid; [|by apply Z.pow_pos_nonneg|done].
  apply Z.mul_nonneg_nonneg; [done|]. by apply Z.pow_nonneg.
Qed.

(** A number that [ParseFloat] accepts is a finite float. *)
Lemma ParseFloat_ok s f : ParseFloat s = Ok f → f64_ok f.
Proof.
  unfold ParseFloat. destruct (parse_decimal s) as [[[neg d] k]|] eqn:E; [|done].
  destruct (is_finite _) eqn:Ef; [|done]. intros [= <-]. split; [done|]. apply f64_of_dec_valid.
  unfold parse_decimal in E. repeat case_match; apply bind_Some in E as (d' & Hd & E);
    apply bind_Some in E as (x & _ & [= _ <- _]); by eapply digits_val_nonneg in Hd.
Qed.

Lemma round_even_ratio_scale N D c : 0 < D → 0 < c →
  round_even_ratio (N * c) (D * c) = round_even_ratio N D.
Proof.
  intros HD Hc. unfold round_even_ratio.
  rewrite Z.div_mul_cancel_r, Z.mul_mod_distr_r by lia.
  replace (2 * (N mod D * c)) with (2 * (N mod D) * c) by ring.
  by rewrite <- (Zmult_compare_compat_r (2 * (N mod D)) D c) by lia.
Qed.

(** A quotient [a * 2^c / (b * 2^d)] between two powers of two is rounded to
    53 bits. *)
Lemma SFdiv_core_binade sx a ea b eb c d p :
  0 < a → 0 < b → 1 ≤ p ≤ 53 → 0 ≤ c → 0 ≤ d → ea - eb = c - d →
  b * 2 ^ d * 2 ^ (p - 1) ≤ a * 2 ^ c < b * 2 ^ d * 2 ^ p →
  (let '(q, e, l) := SFdiv_core_binary 53 1024 a ea b eb in
   binary_round_aux 53 1024 sx q e l)
  = finish sx (round_even_ratio (a * 2 ^ c * 2 ^ (53 - p)) (b * 2 ^ d)) (p - 53).
Proof.
  intros Ha Hb Hp Hc Hd Hcd [Hlo Hhi].
  destruct (SFdiv_core_spec a ea b eb Ha Hb) as (s & Hs & -> & Hle & Hle2).
  pose proof (Z.pow_pos_nonneg 2 s ltac:(lia) Hs). pose proof (Z.pow_pos_nonneg 2 c ltac:(lia) Hc).
  pose proof (Z.pow_pos_nonneg 2 d ltac:(lia) Hd).
  set (q := a * 2 ^ s / b) in *. set (e := ea - eb - s) in *.
  assert (e ≤ p - 53) as He.
  { assert (Zdigits2 (a * 2 ^ c) ≤ Zdigits2 (b * 2 ^ (d + p))) as Hdg.
    { pose proof (Z.pow_pos_nonneg 2 (d + p) ltac:(lia) ltac:(lia)).
      rewrite !Zdigits2_log2 by nia. apply Z.add_le_mono_r, Z.log2_le_mono.
      rewrite Z.pow_add_r by lia. nia. }
    rewrite !Zdigits2_mul_pow2 in Hdg by lia. rewrite fexp64_eq in Hle2. lia. }
  assert (Zdigits2 q = p - e) as Hq.
  { pose proof (Z.pow_pos_nonneg 2 (p - e - 1) ltac:(lia) ltac:(lia)).
    assert (2 ^ (p - e - 1) ≤ q < 2 ^ (p - e)) as [H1' H2'].
    { subst q. split; [apply Z.div_le_lower_bound|apply Z.div_lt_upper_bound]; try done.
      - apply (Z.mul_le_mono_pos_r _ _ (2 ^ c)); [done|]. rewrite <- Z.mul_assoc, <- Z.pow_add_r by lia.
        replace (p - e - 1 + c) with (d + (p - 1) + s) by (subst e; lia).
        rewrite !Z.pow_add_r by lia. nia.
      - apply (Z.mul_lt_mono_pos_r (2 ^ c)); [done|]. rewrite <- (Z.mul_assoc b), <- Z.pow_add_r by lia.
        replace (p - e + c) with (d + p + s) by (subst e; lia).
        rewrite !Z.pow_add_r by lia. nia. }
    rewrite Zdigits2_log2 by lia.
    rewrite (Z.log2_unique q (p - e - 1)); [lia|lia|].
    replace (Z.succ (p - e - 1)) with (p - e) by lia. done. }
  assert (fexp64 (Zdigits2 q + e) = p - 53) as Hf by (rewrite Hq, fexp64_eq; lia).
  subst q. rewrite binary_round_aux_spec by (done || nia). cbv zeta. rewrite Hf. f_equal.
  pose proof (Z.pow_pos_nonneg 2 (53 - p) ltac:(lia) ltac:(lia)).
  pose proof (Z.pow_pos_nonneg 2 (p - 53 - e) ltac:(lia) ltac:(lia)).
  rewrite <- (round_even_ratio_scale (a * 2 ^ s) _ (2 ^ c * 2 ^ (53 - p))) by nia.
  rewrite <- (round_even_ratio_scale (a * 2 ^ c * 2 ^ (53 - p)) _ (2 ^ s)) by nia.
  f_equal; [ring|].
  rewrite <- !Z.mul_assoc, <- !Z.pow_add_r by lia. do 2 f_equal. subst e. lia.
Qed.

(** ** Megahertz and hertz *)

Definition f64_million : float64 := f64_of_Z 1000000.

Lemma f64_million_eq : f64_million = S754_finite false 8589934592000000 (-33).
Proof. vm_compute. reflexivity. Qed.

(** The megahertz of [hz] hertz, as a 53-bit mantissa at the exponent [p - 53],
    when [2^(p-1) <= hz / 10^6 < 2^p]. *)
Definition mhz (hz p : Z) : float64 :=
  finish false (round_even_ratio (hz * 2 ^ (53 - p)) 1000000) (p - 53).

Definition mhz_binade (hz p : Z) : Prop :=
  1 ≤ p ≤ 20 ∧ 1000000 * 2 ^ (p - 1) ≤ hz < 1000000 * 2 ^ p.

Lemma mhz_binade_range hz p : mhz_binade hz p → 1000000 ≤ hz < 2 ^ 53.
Proof.
  intros [Hp [Hl Hh]]. assert (2 ^ p ≤ 2 ^ 20) by (apply Z.pow_le_mono_r; lia).
  assert (1 ≤ 2 ^ (p - 1)) by (pose proof (Z.pow_pos_nonneg 2 (p - 1)); lia).
  change (2 ^ 20) with 1048576 in *. change (2 ^ 53) with 9007199254740992. lia.
Qed.

(** Dividing by a million and reading the decimal with six digits after the
    point give the same float. *)
Lemma f64_div_million hz p :
  mhz_binade hz p → f64_div (f64_of_Z hz) f64_million = mhz hz p.
Proof.
  intros Hb. pose proof (mhz_binade_range hz p Hb) as Hr. destruct Hb as [Hp [Hl Hh]].
  destruct (f64_of_Z_exact hz ltac:(lia) ltac:(lia)) as (k & Hk & ->).
  pose proof (Z.pow_pos_nonneg 2 k ltac:(lia) Hk).
  rewrite f64_million_eq. unfold f64_div. cbn [SFdiv xorb].
  rewrite Z2Pos.id by nia. change (Zpos 8589934592000000) with (1000000 * 2 ^ 33).
  assert (2 ^ p = 2 * 2 ^ (p - 1)) as Hpp by (rewrite <- Z.pow_succ_r by lia; f_equal; lia).
  pose proof (Z.pow_pos_nonneg 2 (p - 1) ltac:(lia) ltac:(lia)).
  rewrite (SFdiv_core_binade _ _ _ _ _ 33 k p) by (lia || nia).
  unfold mhz. f_equal.
  pose proof (Z.pow_pos_nonneg 2 (53 - p) ltac:(lia) ltac:(lia)).
  rewrite <- (round_even_ratio_scale (hz * 2 ^ (53 - p)) 1000000 (2 ^ 33 * 2 ^ k)) by nia.
  f_equal; ring.
Qed.

Lemma f64_of_dec_million hz p d j :
  mhz_binade hz p → 1 ≤ Zpos j ≤ 6 → hz = d * 10 ^ (6 - Zpos j) →
  f64_of_dec false d (Zneg j) = mhz hz p.
Proof.
  intros Hb Hj Hhz. pose proof (mhz_binade_range hz p Hb) as Hr. destruct Hb as [Hp [Hl Hh]].
  assert (10 ^ Zpos j * 10 ^ (6 - Zpos j) = 1000000) as H10
    by (rewrite <- Z.pow_add_r by lia; change 1000000 with (10 ^ 6); f_equal; lia).
  pose proof (Z.pow_pos_nonneg 10 (6 - Zpos j) ltac:(lia) ltac:(lia)).
  pose proof (Z.pow_pos_nonneg 10 (Zpos j) ltac:(lia) ltac:(lia)).
  assert (ndigits d ≤ 16).
  { apply ndigits_le; [nia|]. change (2 ^ 53) with 9007199254740992 in Hr.
    change (10 ^ 16) with 10000000000000000. nia. }
  pose proof (ndigits_spec d ltac:(nia)) as [_ ?].
  rewrite f64_of_dec_guards by (lia || nia).
  pose proof (Z.pow_pos_nonneg 2 (p - 1) ltac:(lia) ltac:(lia)).
  pose proof (Z.pow_pos_nonneg 2 p ltac:(lia) ltac:(lia)).
  rewrite (SFdiv_core_binade _ _ _ _ _ 0 0 p);
    [|change (2 ^ 0) with 1; nia || lia..].
  unfold mhz. f_equal. change (2 ^ 0) with 1. rewrite !Z.mul_1_r.
  rewrite <- (round_even_ratio_scale (d * 2 ^ (53 - p)) _ (10 ^ (6 - Zpos j))) by lia.
  f_equal; [rewrite Hhz; ring|done].
Qed.

Lemma round_even_ratio_near N D Q : 0 < D → 2 * Z.abs (N - Q * D) < D → round_even_ratio N D = Q.
Proof.
  intros HD Hn. unfold round_even_ratio.
  destruct (Z.le_gt_cases (Q * D) N) as [Hle|Hgt].
  - assert (N / D = Q) as Hq by (symmetry; apply Z.div_unique with (N - Q * D); lia).
    assert (N mod D = N - Q * D) as -> by (rewrite Z.mod_eq by lia; rewrite Hq; ring).
    rewrite (proj2 (Z.compare_lt_iff _ _)) by lia. done.
  - assert (N / D = Q - 1) as Hq by (symmetry; apply Z.div_unique with (N - (Q - 1) * D); lia).
    assert (N mod D = N - (Q - 1) * D) as -> by (rewrite Z.mod_eq by lia; rewrite Hq; ring).
    rewrite (proj2 (Z.compare_gt_iff _ _)) by lia. lia.
Qed.

Lemma round_even_ratio_error N D : 0 < D →
  2 * Z.abs (N - round_even_ratio N D * D) ≤ D.
Proof.
  intros HD. unfold round_even_ratio. pose proof (Z.mod_pos_bound N D HD).
  pose proof (Z.div_mod N D ltac:(lia)).
  destruct (Z.compare_spec (2 * (N mod D)) D); [destruct (Z.even _)|..]; nia.
Qed.

(** The mantissa of [mhz hz p]. *)
Lemma mhz_mantissa hz p :
  mhz_binade hz p →
  let m := round_even_ratio (hz * 2 ^ (53 - p)) 1000000 in
  mhz hz p = S754_finite false (Z.to_pos m) (p - 53) ∧ 0 < m < 2 ^ 53 ∧
  Z.abs (hz * 2 ^ (53 - p) - m * 1000000) ≤ 500000.
Proof.
  intros Hb m. pose proof (mhz_binade_range hz p Hb) as Hr. destruct Hb as [Hp [Hl Hh]].
  pose proof (round_even_ratio_error (hz * 2 ^ (53 - p)) 1000000 ltac:(lia)) as He. fold m in He.
  assert (2 ^ 33 ≤ 2 ^ (53 - p)) as H33 by (apply Z.pow_le_mono_r; lia).
  assert (2 ^ p * 2 ^ (53 - p) = 2 ^ 53) as H53 by (rewrite <- Z.pow_add_r by lia; f_equal; lia).
  change (2 ^ 33) with 8589934592 in H33. change (2 ^ 53) with 9007199254740992 in *.
  assert (0 < m < 9007199254740992) as Hm by nia.
  split; [|split; [done|lia]]. unfold mhz. fold m. unfold finish.
  rewrite (proj2 (Z.eqb_neq m 0)), (proj2 (Z.eqb_neq m _)) by lia.
  by rewrite (proj2 (Z.leb_le _ _)) by lia.
Qed.

(** Multiplying back by a million gives exactly the hertz. *)
Lemma f64_mul_million hz p :
  mhz_binade hz p → 2 ^ (p + 19) < hz →
  f64_to_int64 (f64_mul (mhz hz p) f64_million) = hz.
Proof.
  intros Hb Hlow. pose proof (mhz_binade_range hz p Hb) as Hr.
  destruct (mhz_mantissa hz p Hb) as (-> & Hm & Hd). destruct Hb as [Hp [_ Hh]].
  set (m := round_even_ratio (hz * 2 ^ (53 - p)) 1000000) in *. clearbody m.
  rewrite f64_million_eq. unfold f64_mul. cbn [SFmul xorb].
  assert (Zpos (Z.to_pos m * 8589934592000000) = m * 1000000 * 2 ^ 33) as ->
    by (rewrite Pos2Z.inj_mul, Z2Pos.id by lia; lia).
  assert (2 ^ (53 - p) = 2 ^ 20 * 2 ^ (33 - p)) as H53 by (rewrite <- Z.pow_add_r by lia; f_equal; lia).
  assert (2 ^ (p + 19) * 2 ^ (33 - p) = 2 ^ 52) as H52 by (rewrite <- Z.pow_add_r by lia; f_equal; lia).
  assert (2 ^ p * 2 ^ (33 - p) = 2 ^ 33) as H33 by (rewrite <- Z.pow_add_r by lia; f_equal; lia).
  assert (2 ^ 13 ≤ 2 ^ (33 - p)) as Hc by (apply Z.pow_le_mono_r; lia).
  set (c := 2 ^ (33 - p)) in *. set (x := m * 1000000) in *.
  change (2 ^ 20) with 1048576 in *. change (2 ^ 33) with 8589934592 in *. change (2 ^ 13) with 8192 in *.
  change (2 ^ 52) with 4503599627370496 in *. change (2 ^ 53) with 9007199254740992 in *.
  assert (4722366482869645213696 ≤ x < 9444732965739290427392) as Hx by nia.
  assert (4503599627370496 < hz * c < 9007199254740992) as Hq by nia.
  assert (Zdigits2 (x * 8589934592) = 106) as Hdig.
  { change 8589934592 with (2 ^ 33). rewrite Zdigits2_mul_pow2, Zdigits2_log2 by lia.
    rewrite (Z.log2_unique x 72); lia. }
  assert (fexp64 (Zdigits2 (x * 8589934592 / 1) + (p - 53 + -33)) = p - 33) as Hf.
  { rewrite Z.div_1_r, Hdig, fexp64_eq. lia. }
  rewrite <- (loc_of_1 (x * 8589934592)), <- (Z.div_1_r (x * 8589934592)) at 1.
  rewrite binary_round_aux_spec by (cbv zeta; rewrite ?Hf; lia). cbv zeta. rewrite Hf.
  replace (p - 33 - (p - 53 + -33)) with 53 by lia.
  assert (round_even_ratio (x * 8589934592) (1 * 2 ^ 53) = hz * c) as ->.
  { apply round_even_ratio_near; [done|]. change (1 * 2 ^ 53) with 9007199254740992. nia. }
  unfold finish. rewrite (proj2 (Z.eqb_neq (hz * c) 0)) by lia.
  change (2 ^ 53) with 9007199254740992. rewrite (proj2 (Z.eqb_neq (hz * c) _)) by lia.
  rewrite (proj2 (Z.leb_le (p - 33) 971)) by lia.
  unfold f64_to_int64, f_trunc. destruct (p - 33) as [|e|e] eqn:Ee; try lia.
  rewrite Z2Pos.id by lia. replace (- Zneg e) with (33 - p) by lia.
  rewrite Z.shiftr_div_pow2 by lia. fold c. rewrite Z_div_mult by lia.
  assert (in_s 64 hz = true) as -> by (apply in_s_spec; lia). done.
Qed.

(** Any frequency of at most 53 bits gives a finite float. *)
Lemma f64_div_million_ok hz : 0 ≤ hz < 2 ^ 53 → f64_ok (f64_div (f64_of_Z hz) f64_million).
Proof.
  intros Hr. split; [|apply f64_div_valid].
  destruct (Z.eq_dec hz 0) as [->|Hz]; [by vm_compute|].
  destruct (f64_of_Z_exact hz ltac:(lia) ltac:(lia)) as (k & Hk & ->).
  pose proof (Z.pow_pos_nonneg 2 k ltac:(lia) Hk).
  rewrite f64_million_eq. unfold f64_div. cbn [SFdiv xorb]. rewrite Z2Pos.id by nia.
  destruct (SFdiv_core_spec (hz * 2 ^ k) (- k) (Zpos 8589934592000000) (-33))
    as (s & Hs & -> & He & _); [nia|lia|].
  pose proof (Z.pow_pos_nonneg 2 s ltac:(lia) Hs).
  rewrite binary_round_aux_spec by (done || nia).
  set (q := hz * 2 ^ k * 2 ^ s / Zpos 8589934592000000) in *.
  set (e1 := fexp64 (Zdigits2 q + (- k - -33 - s))) in *.
  assert (Zdigits2 q ≤ 53 + k + s) as Hq.
  { assert (0 ≤ q ≤ hz * 2 ^ k * 2 ^ s) as [Hq0 Hq1].
    { subst q. split; [apply Z.div_pos; nia|]. apply Z.div_le_upper_bound; nia. }
    destruct (Z.eq_dec q 0) as [->|]; [cbn [Zdigits2]; lia|].
    rewrite Zdigits2_log2 by lia.
    assert (Z.log2 q < 53 + k + s); [|lia].
    apply Z.log2_lt_pow2; [lia|]. rewrite !Z.pow_add_r by lia. nia. }
  assert (e1 ≤ 33) by (subst e1; rewrite fexp64_eq; lia).
  unfold finish. destruct (_ =? 0); [done|].
  destruct (_ =? 2 ^ 53); cbn iota beta; by rewrite (proj2 (Z.leb_le _ 971)) by lia.
Qed.
