(* ===== verification/GoJsonTyped.v ===== *)
(** * [encoding/json]: typed encoding and decoding

    The reflection-driven part of the package for the kinds the sources use:
    integers of a width, floats, booleans, strings, slices, pointers, structs
    with tags and values that implement [json.Marshaler] or
    [json.Unmarshaler].  [JsonCodec] is the interface the packet codecs are
    written against; [JsonRoundTrip] is its law. *)

From Stdlib Require Import String Ascii NArith ZArith Lia.
From stdpp Require Import base list strings numbers.
From S2P Require Import Prelude GoPrim GoStrconv GoUtf8 GoFloat GoJson.

Local Open Scope Z_scope.

Definition json_error : error := ErrLib "json".

(** ** Decoding

    A decoder gets the value already stored in the destination: [null], an
    absent member and an unknown member leave it alone.  A mismatch between
    the text and the type makes [Unmarshal] fail. *)

Definition decoder (A : Type) : Type := json → A → result A.

Definition decode_uint (bits : Z) : decoder Z := λ j prior,
  match j with
  | JNull => Ok prior
  | JNum lit => let* n := ParseUint lit 64 in if n <? 2 ^ bits then Ok n else Err json_error
  | _ => Err json_error
  end.

Definition decode_int (bits : Z) : decoder Z := λ j prior,
  match j with
  | JNull => Ok prior
  | JNum lit => let* n := ParseInt lit 64 in if in_s bits n then Ok n else Err json_error
  | _ => Err json_error
  end.

Definition decode_float : decoder float64 := λ j prior,
  match j with
  | JNull => Ok prior
  | JNum lit => ParseFloat lit
  | _ => Err json_error
  end.

Definition decode_bool : decoder bool := λ j prior,
  match j with
  | JNull => Ok prior
  | JBool b => Ok b
  | _ => Err json_error
  end.

Definition decode_string : decoder string := λ j prior,
  match j with
  | JNull => Ok prior
  | JStr _ s => Ok (to_string s)
  | _ => Err json_error
  end.

(** A pointer: [null] makes it nil, anything else allocates when needed. *)
Definition decode_ptr {A} (zero : A) (d : decoder A) : decoder (option A) := λ j prior,
  match j with
  | JNull => Ok None
  | _ => let* a := d j (default zero prior) in Ok (Some a)
  end.

(** A slice: its elements are decoded over the ones already there. *)
Fixpoint decode_elems {A} (zero : A) (d : decoder A) (l : list json) (prior : list A)
  : result (list A) :=
  match l with
  | [] => Ok []
  | j :: l =>
      let* a := d j (hd zero prior) in
      let* rest := decode_elems zero d l (tl prior) in
      Ok (a :: rest)
  end.

Definition decode_slice {A} (zero : A) (d : decoder A) : decoder (list A) := λ j prior,
  match j with
  | JNull => Ok []
  | JArr _ l => decode_elems zero d l prior
  | _ => Err json_error
  end.

(** A value with an [UnmarshalJSON] method gets the text of the value. *)
Definition decode_unmarshaler {A} (f : bytes → A → result A) : decoder A := λ j prior,
  f (json_raw j) prior.

(** *** Structs *)

(** The case folding of member names ([equalFoldRight]): the Kelvin sign folds
    to [k] and the long s to [s]. *)
Fixpoint equal_fold (name key : bytes) : bool :=
  match name with
  | [] => match key with [] => true | _ => false end
  | sb :: name =>
      match key with
      | [] => false
      | tb :: key' =>
          if Z_of_byte tb <? 128 then
            if bool_decide (sb = tb) then equal_fold name key'
            else
              let up := Z.land (Z_of_byte sb) 223 in
              if (65 <=? up) && (up <=? 90) && (up =? Z.land (Z_of_byte tb) 223)
              then equal_fold name key' else false
          else
            let '(r, n) := DecodeRune key in
            if bool_decide (sb = "s"%char ∨ sb = "S"%char) && (r =? 383) then
              equal_fold name (drop n key)
            else if bool_decide (sb = "k"%char ∨ sb = "K"%char) && (r =? 8490) then
              equal_fold name (drop n key)
            else false
      end
  end.

Record field (A : Type) : Type := mkField {
  field_name : string;
  field_set : decoder A
}.
Arguments mkField {A}.
Arguments field_name {A}.
Arguments field_set {A}.

(** The exact name wins over the first one equal up to case. *)
Definition find_field {A} (fs : list (field A)) (key : bytes) : option (field A) :=
  match List.find (λ f, bool_decide (to_bytes (field_name f) = key)) fs with
  | Some f => Some f
  | None =>
      List.find (λ f, equal_fold (to_bytes (field_name f)) key) fs
  end.

Fixpoint decode_members {A} (fs : list (field A)) (l : list (bytes * json)) (prior : A)
  : result A :=
  match l with
  | [] => Ok prior
  | (k, j) :: l =>
      let* a := match find_field fs k with
                | Some f => field_set f j prior
                | None => Ok prior
                end in
      decode_members fs l a
  end.

Definition decode_struct {A} (fs : list (field A)) : decoder A := λ j prior,
  match j with
  | JNull => Ok prior
  | JObj _ l => decode_members fs l prior
  | _ => Err json_error
  end.

(** [json.Unmarshal(data, &v)] *)
Definition json_decode {A} (d : decoder A) (data : bytes) (prior : A) : result A :=
  match parse_json data with
  | Some j => d j prior
  | None => Err json_error
  end.

(** ** Encoding *)

Definition encode_uint (n : Z) : json := JNum (FormatUint n).
Definition encode_int (n : Z) : json := JNum (FormatInt n).
Definition encode_float (f : float64) : result json :=
  let* b := FormatFloatJSON f in Ok (JNum b).
Definition encode_string (s : string) : json := mk_str (to_bytes s).

(** [compact] with HTML escaping, on text that is known to be valid. *)
Fixpoint compact_loop (in_str : bool) (s : bytes) : bytes :=
  match s with
  | [] => []
  | c :: t =>
      if bool_decide (c = "<"%char) || bool_decide (c = ">"%char) || bool_decide (c = "&"%char)
      then u_escape (Z_of_byte c) ++ compact_loop in_str t
      else
        match in_str, s with
        | _, "226"%char :: "128"%char :: "168"%char :: t' => u_escape 8232 ++ compact_loop in_str t'
        | _, "226"%char :: "128"%char :: "169"%char :: t' => u_escape 8233 ++ compact_loop in_str t'
        | true, b :: x :: t' =>
            if bool_decide (b = backslash) then b :: x :: compact_loop true t'
            else b :: compact_loop (negb (bool_decide (b = dquote))) t
        | _, _ =>
            if is_space c && negb in_str then compact_loop false t
            else c :: compact_loop (xorb in_str (bool_decide (c = dquote))) t
        end
  end.

(** A value with a [MarshalJSON] method: its text must be valid JSON, and is
    compacted. *)
Definition encode_marshaler (r : result bytes) : result json :=
  let* b := r in
  match parse_json b with
  | None => Err json_error
  | Some _ =>
      match parse_json (compact_loop false b) with
      | Some j => Ok j
      | None => Err json_error
      end
  end.

Fixpoint rmap_list {A B} (f : A → result B) (l : list A) : result (list B) :=
  match l with
  | [] => Ok []
  | a :: l => let* b := f a in let* bs := rmap_list f l in Ok (b :: bs)
  end.

Definition encode_slice {A} (f : A → result json) (l : list A) : result json :=
  let* js := rmap_list f l in Ok (mk_arr js).

(** The members of a struct: name, whether [omitempty] leaves it out, value. *)
Definition member : Type := string * bool * result json.

Fixpoint encode_members (l : list member) : result (list (bytes * json)) :=
  match l with
  | [] => Ok []
  | (name, omit, r) :: l =>
      if omit : bool then encode_members l
      else
        let* j := r in
        let* rest := encode_members l in
        Ok ((to_bytes name, j) :: rest)
  end.

Definition encode_struct (l : list member) : result json :=
  let* ms := encode_members l in Ok (mk_obj ms).

(** [json.Marshal(v)] *)
Definition json_encode (r : result json) : result bytes :=
  let* j := r in Ok (json_raw j).

(** ** The interface *)

Class JsonCodec (A : Type) := {
  json_Marshal : A → result bytes;
  json_Unmarshal : bytes → A → result A
}.

(** Values that satisfy [json_wf] survive a trip through their text, whatever
    the destination [prior] that satisfies [json_fresh] held before, and the
    text is not empty. *)
Class JsonRoundTrip (A : Type) `{JsonCodec A} (json_wf : A → Prop) (json_fresh : A → Prop) := {
  json_roundtrip a prior :
    json_wf a → json_fresh prior →
    ∃ b, json_Marshal a = Ok b ∧ b ≠ [] ∧ json_Unmarshal b prior = Ok a
}.

(** Decoding any text and encoding any value is free of run-time panics. *)
Class JsonSafe (A : Type) `{JsonCodec A} := {
  json_no_panic b prior : no_panic (json_Unmarshal b prior);
  json_Marshal_no_panic a : no_panic (json_Marshal a)
}.
#[export] Hint Resolve json_no_panic json_Marshal_no_panic : go_db.

(** A decoder that does not panic, whatever the text and the destination. *)
Definition dec_safe {A} (d : decoder A) : Prop := ∀ j prior, no_panic (d j prior).

Ltac dec_step :=
  match goal with
  | |- dec_safe _ => intros ? ?
  | |- no_panic (Ok _) => exact I
  | |- no_panic (Err _) => exact I
  | |- no_panic (rbind _ _) => apply rbind_no_panic; [|intros ? _]
  | |- no_panic (match ?x with _ => _ end) => destruct x
  | H : dec_safe ?d |- no_panic (?d _ _) => apply H
  | |- no_panic _ => solve [auto with go_db]
  end.

Lemma dec_safe_uint bits : dec_safe (decode_uint bits).
Proof. unfold decode_uint. repeat dec_step. Qed.
Lemma dec_safe_int bits : dec_safe (decode_int bits).
Proof. unfold decode_int. repeat dec_step. Qed.
Lemma dec_safe_float : dec_safe decode_float.
Proof. unfold decode_float. repeat dec_step. Qed.
Lemma dec_safe_bool : dec_safe decode_bool.
Proof. unfold decode_bool. repeat dec_step. Qed.
Lemma dec_safe_string : dec_safe decode_string.
Proof. unfold decode_string. repeat dec_step. Qed.
Lemma dec_safe_ptr {A} (zero : A) d : dec_safe d → dec_safe (decode_ptr zero d).
Proof. unfold decode_ptr. intros. repeat dec_step. Qed.
Lemma dec_safe_slice {A} (zero : A) d : dec_safe d → dec_safe (decode_slice zero d).
Proof.
  intros Hd j prior. destruct j as [| | | |txt l|]; try exact I. simpl.
  revert prior. induction l as [|x l IH]; intros prior; simpl; [exact I|]. repeat (dec_step || apply IH).
Qed.
Lemma dec_safe_unmarshaler {A} (f : bytes → A → result A) :
  (∀ b a, no_panic (f b a)) → dec_safe (decode_unmarshaler f).
Proof. intros Hf j prior. apply Hf. Qed.

Lemma find_field_In {A} (fs : list (field A)) key f :
  find_field fs key = Some f → In f fs.
Proof.
  unfold find_field. destruct (find (λ f, bool_decide _) fs) as [g|] eqn:E.
  - intros [= <-]. by apply find_some in E as [E _].
  - intros E2. by apply find_some in E2 as [E2 _].
Qed.

Lemma dec_safe_struct {A} (fs : list (field A)) :
  Forall (λ f, dec_safe (field_set f)) fs → dec_safe (decode_struct fs).
Proof.
  intros Hfs j prior. destruct j as [| | | | |txt l]; try exact I. simpl.
  revert prior. induction l as [|[k x] l IH]; intros prior; simpl; [exact I|].
  apply rbind_no_panic; [|intros; apply IH].
  rewrite List.Forall_forall in Hfs.
  destruct (find_field fs k) as [f|] eqn:E; [|exact I].
  by apply find_field_In, Hfs in E.
Qed.

Lemma json_decode_no_panic {A} (d : decoder A) data prior :
  dec_safe d → no_panic (json_decode d data prior).
Proof. intros Hd. unfold json_decode. repeat dec_step. Qed.

#[export] Hint Resolve dec_safe_uint dec_safe_int dec_safe_float dec_safe_bool dec_safe_string
  dec_safe_ptr dec_safe_slice dec_safe_unmarshaler dec_safe_struct json_decode_no_panic : go_db.

(** *** Encoders *)

Lemma encode_float_no_panic f : no_panic (encode_float f).
Proof. unfold encode_float. by destruct f. Qed.

Lemma encode_marshaler_no_panic r : no_panic r → no_panic (encode_marshaler r).
Proof.
  intros Hr. apply rbind_no_panic; [done|]. intros b _. by repeat case_goal.
Qed.

Lemma encode_slice_no_panic {A} (f : A → result json) l :
  (∀ a, no_panic (f a)) → no_panic (encode_slice f l).
Proof.
  intros Hf. apply rbind_no_panic; [|done]. induction l as [|a l IH]; simpl; [done|].
  apply rbind_no_panic; [apply Hf|]. intros b _. by apply rbind_no_panic.
Qed.

Lemma encode_struct_no_panic l : Forall (λ m, no_panic m.2) l → no_panic (encode_struct l).
Proof.
  intros Hl. apply rbind_no_panic; [|done].
  induction Hl as [|[[name omit] r] l Hr _ IH]; simpl; [done|]. destruct omit; [done|].
  apply rbind_no_panic; [done|]. intros j _. by apply rbind_no_panic.
Qed.

Lemma json_encode_no_panic r : no_panic r → no_panic (json_encode r).
Proof. intros Hr. by apply rbind_no_panic. Qed.

#[export] Hint Resolve encode_float_no_panic encode_marshaler_no_panic encode_slice_no_panic
  encode_struct_no_panic json_encode_no_panic : go_db.
