(* ===== verification/GoJsonLaws.v ===== *)
(** * Laws of the typed JSON codecs

    An encoder and a decoder of the same type form a codec on the values of a
    well-formedness predicate: the encoder produces a printable value other
    than [null], and the decoder reads it back into a zero destination.  The
    laws compose along slices, pointers and structs. *)

From Stdlib Require Import String Ascii NArith ZArith Lia.
From stdpp Require Import base list strings numbers.
From S2P Require Import Prelude GoPrim GoStrconv GoUtf8 GoFloat GoJson GoNumText GoFloatText.
From S2P Require Import GoJsonTyped.

Local Open Scope Z_scope.

Record codec {A} (enc : A → result json) (dec : decoder A) (zero : A) (a : A) (j : json) : Prop :=
  mkCodec {
    codec_enc : enc a = Ok j;
    codec_printable : printable j;
    codec_not_null : j ≠ JNull;
    codec_dec : dec j zero = Ok a
  }.
Arguments codec_enc {A enc dec zero a j}.
Arguments codec_printable {A enc dec zero a j}.
Arguments codec_not_null {A enc dec zero a j}.
Arguments codec_dec {A enc dec zero a j}.

(** ** Basic types *)

Lemma codec_uint bits n :
  in_u bits n = true → bits ≤ 64 →
  codec (λ n, Ok (encode_uint n)) (decode_uint bits) 0 n (encode_uint n).
Proof.
  intros Hn Hb. apply in_u_spec in Hn. constructor; [done|apply printable_uint; lia|done|].
  unfold encode_uint. simpl. rewrite ParseUint_FormatUint.
  - simpl. by rewrite (proj2 (Z.ltb_lt _ _)) by lia.
  - split; [lia|]. assert (2 ^ bits ≤ 2 ^ 64) by (apply Z.pow_le_mono_r; lia). lia.
Qed.

Lemma codec_int bits n :
  in_s bits n = true → 1 ≤ bits ≤ 64 →
  codec (λ n, Ok (encode_int n)) (decode_int bits) 0 n (encode_int n).
Proof.
  intros Hn Hb. constructor; [done|apply printable_int|done|].
  unfold encode_int. simpl. rewrite ParseInt_FormatInt.
  - simpl. by rewrite Hn.
  - apply in_s_spec. apply in_s_spec in Hn.
    assert (2 ^ (bits - 1) ≤ 2 ^ (64 - 1)) by (apply Z.pow_le_mono_r; lia). lia.
Qed.

Lemma codec_float f :
  f64_ok f → ∃ j, codec encode_float decode_float f64_zero f j.
Proof.
  intros Hf. destruct (FormatFloatJSON_ok f Hf) as (lit & Hl & Hp & Hr).
  exists (JNum lit). constructor; [|done|done|done].
  unfold encode_float. by rewrite Hl.
Qed.

Lemma codec_bool b : codec (λ b, Ok (JBool b)) decode_bool false b (JBool b).
Proof. by constructor; [|constructor|..]. Qed.

(** A string the encoder does not have to repair. *)
Definition str_ok (s : string) : Prop := utf8_valid (to_bytes s) = true.

Lemma codec_str s :
  str_ok s → codec (λ s, Ok (encode_string s)) decode_string EmptyString s (encode_string s).
Proof.
  intros Hs. constructor; [done|by constructor|done|].
  unfold encode_string, mk_str. simpl. by rewrite to_string_of_bytes.
Qed.

(** ** Marshalers that write a plain text *)

(** The bytes that stand for themselves in a string literal. *)
Definition plain (c : byte) : bool :=
  (32 <=? Z_of_byte c) && (Z_of_byte c <? 128) && negb (bool_decide (c = dquote))
  && negb (bool_decide (c = backslash)) && negb (bool_decide (c = "<"%char))
  && negb (bool_decide (c = ">"%char)) && negb (bool_decide (c = "&"%char)).

Definition plain_text (s : bytes) : Prop := Forall (λ c, plain c = true) s.

Lemma plain_spec c : plain c = true →
  32 ≤ Z_of_byte c < 128 ∧ c ≠ dquote ∧ c ≠ backslash ∧ c ≠ "<"%char ∧ c ≠ ">"%char ∧ c ≠ "&"%char.
Proof.
  unfold plain. rewrite !andb_true_iff, !negb_true_iff, Z.leb_le, Z.ltb_lt, !bool_decide_eq_false.
  naive_solver.
Qed.

Lemma plain_esc c : plain c = true → esc_byte c = [c].
Proof.
  intros (H & H1 & H2 & H3 & H4 & H5)%plain_spec. unfold esc_byte.
  rewrite (bool_decide_false _ H1), (bool_decide_false _ H2), (bool_decide_false _ H3),
    (bool_decide_false _ H4), (bool_decide_false _ H5). cbn [orb].
  rewrite (proj2 (Z.ltb_ge _ 32)) by lia.
  rewrite !bool_decide_false; [done|..]; intros ->; vm_compute in H; destruct H as [H _]; by apply H.
Qed.

Lemma plain_quote s : plain_text s → quote s = dquote :: s ++ [dquote].
Proof.
  intros Hs. unfold quote. do 2 f_equal. induction Hs as [|c s Hc _ IH]; [done|].
  cbn [length quote_loop]. apply plain_spec in Hc as Hb.
  rewrite (proj2 (Z.ltb_lt _ 128)) by lia. rewrite plain_esc, IH by done. done.
Qed.

Lemma plain_utf8 s : plain_text s → utf8_valid s = true.
Proof.
  intros Hs. apply ascii_valid. induction Hs as [|c s Hc _ IH]; [done|].
  apply plain_spec in Hc as [Hc _]. simpl. rewrite IH.
  by rewrite (proj2 (Z.ltb_lt _ 128)) by lia.
Qed.

Lemma compact_step c x t :
  plain c = true → compact_loop true (c :: x :: t) = c :: compact_loop true (x :: t).
Proof. intros Hc. ascii_cases c; try (vm_compute in Hc; discriminate Hc); reflexivity. Qed.

Lemma compact_plain s : plain_text s → compact_loop false (dquote :: s ++ [dquote]) = dquote :: s ++ [dquote].
Proof.
  intros Hs. assert (compact_loop true (s ++ [dquote]) = s ++ [dquote]) as H.
  { induction Hs as [|c s Hc Hs IH]; [done|]. cbn [app].
    destruct (s ++ [dquote]) as [|x t] eqn:Et; [by destruct s|].
    by rewrite compact_step, IH. }
  rewrite <- H at 2. clear H Hs.
  destruct (s ++ [dquote]) as [|x t] eqn:Et; [by destruct s|]. done.
Qed.

(** A [MarshalJSON] method that writes a plain text in quotes makes a string. *)
Lemma encode_marshaler_quoted s :
  plain_text s →
  encode_marshaler (Ok (dquote :: s ++ [dquote])) = Ok (mk_str s) ∧ printable (mk_str s).
Proof.
  intros Hs. assert (printable (mk_str s)) as Hp by (constructor; by apply plain_utf8).
  pose proof (parse_json_raw _ Hp) as Hj. simpl in Hj. rewrite plain_quote in Hj by done.
  split; [|done]. unfold encode_marshaler. cbn [rbind]. by rewrite compact_plain, Hj by done.
Qed.

Lemma digits_plain s : digits s → plain_text s.
Proof.
  intros H; eapply Forall_impl; [|exact H].
  intros c Hc. cbv beta in *. ascii_cases c; try (vm_compute in Hc; discriminate Hc); reflexivity.
Qed.

Lemma compact_digits s : digits s → compact_loop false s = s.
Proof.
  intros Hs. induction Hs as [|c s Hc _ IH]; [done|].
  assert (compact_loop false (c :: s) = c :: compact_loop false s) as ->; [|by rewrite IH].
  clear IH. destruct s as [|x s]; ascii_cases c; try (vm_compute in Hc; discriminate Hc); reflexivity.
Qed.

(** A [MarshalJSON] method that writes a number. *)
Lemma encode_marshaler_uint n :
  0 ≤ n → encode_marshaler (Ok (FormatUint n)) = Ok (JNum (FormatUint n)).
Proof.
  intros Hn. pose proof (parse_json_raw _ (printable_uint n Hn)) as Hj. simpl in Hj.
  unfold encode_marshaler. cbn [rbind].
  by rewrite compact_digits, Hj by (by apply FormatUint_digits).
Qed.

(** ** Composition *)

Lemma codec_slice {A} (enc : A → result json) (dec : decoder A) (zero : A) (l : list A) :
  Forall (λ a, ∃ j, codec enc dec zero a j) l →
  ∃ j, codec (encode_slice enc) (decode_slice zero dec) [] l j.
Proof.
  intros H.
  assert (∃ js, rmap_list enc l = Ok js ∧ Forall printable js ∧
    decode_elems zero dec js [] = Ok l) as (js & He & Hp & Hd).
  { induction H as [|a l [j Hj] _ (js & He & Hp & Hd)]; [by exists []|].
    exists (j :: js). destruct Hj as [H1 H2 _ H4]. simpl.
    rewrite H1, He. simpl. rewrite H4. simpl. rewrite Hd. repeat constructor; done. }
  exists (mk_arr js). constructor; [|by constructor|done|done].
  unfold encode_slice. by rewrite He.
Qed.

Lemma codec_ptr {A} (enc : A → result json) (dec : decoder A) zero a j :
  codec enc dec zero a j → decode_ptr zero dec j None = Ok (Some a).
Proof.
  intros [_ _ Hn Hd]. unfold decode_ptr. destruct j; [done|..]; simpl; by rewrite Hd.
Qed.

Lemma decode_members_step {A} (fs : list (field A)) k j l prior f a :
  find_field fs (to_bytes k) = Some f → field_set f j prior = Ok a →
  decode_members fs ((to_bytes k, j) :: l) prior = decode_members fs l a.
Proof. intros Hf Hs. simpl. by rewrite Hf, Hs. Qed.

Lemma printable_members (l : list (string * json)) :
  Forall (λ m, str_ok m.1 ∧ printable m.2) l →
  printable (mk_obj (map (λ m, (to_bytes m.1, m.2)) l)).
Proof.
  intros H. constructor.
  - apply Forall_map. eapply Forall_impl; [|exact H]. by intros m [? _].
  - apply Forall_map. eapply Forall_impl; [|exact H]. by intros m [_ ?].
Qed.

(** *** Structs

    Each member of the encoder moves the destination one step, from [a1] to
    [a2]; a member that [omitempty] leaves out must leave it as it is. *)

Definition member_step {A} (fs : list (field A)) (m : member) (a1 a2 : A) : Prop :=
  let '(name, omit, r) := m in
  str_ok name ∧
  if omit : bool then a1 = a2
  else ∃ j f, r = Ok j ∧ printable j ∧ find_field fs (to_bytes name) = Some f ∧
       field_set f j a1 = Ok a2.

Inductive members_run {A} (fs : list (field A)) : list member → A → A → Prop :=
| run_nil a : members_run fs [] a a
| run_cons m ms a1 a2 a3 :
    member_step fs m a1 a2 → members_run fs ms a2 a3 → members_run fs (m :: ms) a1 a3.

Lemma members_run_codec {A} (fs : list (field A)) ms zero a :
  members_run fs ms zero a →
  ∃ j, encode_struct ms = Ok j ∧ printable j ∧ j ≠ JNull ∧ decode_struct fs j zero = Ok a.
Proof.
  intros H.
  assert (∃ l, encode_members ms = Ok l ∧ Forall (λ m, utf8_valid m.1 = true) l ∧
    Forall (λ m, printable m.2) l ∧ decode_members fs l zero = Ok a) as (l & He & Hu & Hp & Hd).
  { induction H as [a|[[name omit] r] ms a1 a2 a3 [Hn Hm] _ (l & He & Hu & Hp & Hd)].
    { exists []. repeat constructor. }
    destruct omit.
    - subst a2. exists l. by simpl.
    - destruct Hm as (j & f & -> & Hj & Hf & Hs). exists ((to_bytes name, j) :: l).
      split_and!; [simpl; by rewrite He|by constructor|by constructor|].
      by rewrite (decode_members_step _ _ _ _ _ _ _ Hf Hs). }
  exists (mk_obj l). split_and!; [|by constructor|done|done].
  unfold encode_struct. by rewrite He.
Qed.

Lemma struct_codec {A} (enc : A → result json) (fs : list (field A)) ms zero a :
  enc a = encode_struct ms → members_run fs ms zero a →
  ∃ j, codec enc (decode_struct fs) zero a j.
Proof.
  intros He Hr. destruct (members_run_codec _ _ _ _ Hr) as (j & Hj & Hp & Hn & Hd).
  exists j. by constructor; [rewrite He|..].
Qed.

(** The text of a value that a struct codec round-trips. *)
Lemma json_encode_decode {A} (enc : A → result json) (dec : decoder A) zero a :
  (∃ j, codec enc dec zero a j) →
  ∃ b, json_encode (enc a) = Ok b ∧ b ≠ [] ∧ json_decode dec b zero = Ok a.
Proof.
  intros (j & [He Hp _ Hd]). exists (json_raw j). split_and!.
  - unfold json_encode. by rewrite He.
  - destruct (printable_start j Hp) as (c & t & -> & _). done.
  - unfold json_decode. by rewrite parse_json_raw.
Qed.
