(* ===== verification/Payload.v ===== *)
(** * The JSON payloads of the packet_forwarder protocol

    The second half of [gateway/structs.go]: the payload structs with their
    JSON tags, and the types with their own JSON methods ([CompactTime],
    [ExpandedTime], [DatR]).  The codecs of the three payloads are instances of
    [JsonCodec]. *)

From Stdlib Require Import String Ascii NArith ZArith Lia SpecFloat.
From stdpp Require Import base gmap list strings numbers.
From S2P Require Import Prelude GoPrim GoStrconv GoTime GoUtf8 GoFloat Lorawan GoJson.
From S2P Require Import GoJsonTyped.

Local Open Scope string_scope.
Local Open Scope list_scope.
Local Open Scope Z_scope.

(** ** Types with JSON methods of their own *)

(** [type CompactTime time.Time] *)
Definition CompactTime : Type := Time.

Definition CompactTime_MarshalJSON (t : CompactTime) : result bytes := Ok (FormatRFC3339Nano t).

Definition CompactTime_UnmarshalJSON (data : bytes) (t : CompactTime) : result CompactTime :=
  let* t2 := ParseRFC3339Nano data in Ok t2.

(** [type ExpandedTime time.Time] *)
Definition ExpandedTime : Type := Time.

Definition ExpandedTime_MarshalJSON (t : ExpandedTime) : result bytes := Ok (FormatExpanded t).

(** The time zone of the host, which [time.Parse] consults for abbreviations. *)
Class HostZone := lookupName : bytes → Z → option Z.

Definition ExpandedTime_UnmarshalJSON `{HostZone} (data : bytes) (t : ExpandedTime)
  : result ExpandedTime :=
  let* t2 := ParseExpanded lookupName data in Ok t2.

(** [type DatR struct]: a LoRa identifier, or a bit rate for FSK *)
Record DatR : Type := mkDatR { DatR_LoRa : string; DatR_FSK : Z }.

Definition DatR_zero : DatR := mkDatR "" 0.

#[export] Instance DatR_eq_dec : EqDecision DatR.
Proof. solve_decision. Defined.

Definition DatR_MarshalJSON (d : DatR) : result bytes :=
  if negb (bool_decide (DatR_LoRa d = ""%string)) then
    Ok (dquote :: to_bytes (DatR_LoRa d) ++ [dquote])
  else Ok (FormatUint (DatR_FSK d)).

Definition DatR_UnmarshalJSON (data : bytes) (d : DatR) : result DatR :=
  match ParseUint data 32 with
  | Ok i => Ok (mkDatR (DatR_LoRa d) (to_uint32 i))
  | _ => Ok (mkDatR (to_string (trim dquote data)) (DatR_FSK d))
  end.

(** ** The structs *)

Record TXPKACK : Type := mkTXPKACK { TXPKACK_Error : string }.
Record TXACKPayload : Type := mkTXACKPayload { TXACKPayload_TXPKACK : TXPKACK }.

Record RXPK : Type := mkRXPK {
  RXPK_Time : CompactTime;
  RXPK_Tmst : Z;
  RXPK_Freq : float64;
  RXPK_Chan : Z;
  RXPK_RFCh : Z;
  RXPK_Stat : Z;
  RXPK_Modu : string;
  RXPK_DatR : DatR;
  RXPK_CodR : string;
  RXPK_RSSI : Z;
  RXPK_LSNR : float64;
  RXPK_Size : Z;
  RXPK_Data : string
}.

Record Stat : Type := mkStat {
  Stat_Time : ExpandedTime;
  Stat_Lati : float64;
  Stat_Long : float64;
  Stat_Alti : Z;
  Stat_RXNb : Z;
  Stat_RXOK : Z;
  Stat_RXFW : Z;
  Stat_ACKR : float64;
  Stat_DWNb : Z;
  Stat_Pfrm : string;
  Stat_Mail : string;
  Stat_Desc : string
}.

Record TXPK : Type := mkTXPK {
  TXPK_Imme : bool;
  TXPK_Tmst : Z;
  TXPK_Time : option CompactTime;
  TXPK_Freq : float64;
  TXPK_RFCh : Z;
  TXPK_Powe : Z;
  TXPK_Modu : string;
  TXPK_DatR : DatR;
  TXPK_CodR : string;
  TXPK_FDev : Z;
  TXPK_IPol : bool;
  TXPK_Prea : Z;
  TXPK_Size : Z;
  TXPK_NCRC : bool;
  TXPK_Data : string
}.

(** A nil and an empty [RXPK] slice are not distinguished: [omitempty] drops
    both and the code only ranges over the slice. *)
Record PushDataPayload : Type := mkPushDataPayload {
  PushDataPayload_RXPK : list RXPK;
  PushDataPayload_Stat : option Stat
}.

Record PullRespPayload : Type := mkPullRespPayload { PullRespPayload_TXPK : TXPK }.

#[export] Instance TXPKACK_eq_dec : EqDecision TXPKACK.
Proof. solve_decision. Defined.
#[export] Instance TXACKPayload_eq_dec : EqDecision TXACKPayload.
Proof. solve_decision. Defined.
#[export] Instance RXPK_eq_dec : EqDecision RXPK.
Proof. solve_decision. Defined.
#[export] Instance Stat_eq_dec : EqDecision Stat.
Proof. solve_decision. Defined.
#[export] Instance TXPK_eq_dec : EqDecision TXPK.
Proof. solve_decision. Defined.
#[export] Instance PushDataPayload_eq_dec : EqDecision PushDataPayload.
Proof. solve_decision. Defined.
#[export] Instance PullRespPayload_eq_dec : EqDecision PullRespPayload.
Proof. solve_decision. Defined.

(** The zero values. *)
Definition RXPK_zero : RXPK :=
  mkRXPK Time_zero 0 f64_zero 0 0 0 "" DatR_zero "" 0 f64_zero 0 "".
Definition Stat_zero : Stat :=
  mkStat Time_zero f64_zero f64_zero 0 0 0 0 f64_zero 0 "" "" "".
Definition TXPK_zero : TXPK :=
  mkTXPK false 0 None f64_zero 0 0 "" DatR_zero "" 0 false 0 0 false "".
Definition PushDataPayload_zero : PushDataPayload := mkPushDataPayload [] None.
Definition PullRespPayload_zero : PullRespPayload := mkPullRespPayload TXPK_zero.
Definition TXACKPayload_zero : TXACKPayload := mkTXACKPayload (mkTXPKACK "").

(** ** Decoding, field by field *)

Section Decoding.
Context `{HostZone}.

(** A field of a struct: how to read it, how to replace it. *)
Definition lens {A B} (name : string) (d : decoder B) (get : A → B) (upd : A → B → A) : field A :=
  mkField name (λ j a, let* b := d j (get a) in Ok (upd a b)).

Definition decode_CompactTime : decoder CompactTime := decode_unmarshaler CompactTime_UnmarshalJSON.
Definition decode_ExpandedTime : decoder ExpandedTime := decode_unmarshaler ExpandedTime_UnmarshalJSON.
Definition decode_DatR : decoder DatR := decode_unmarshaler DatR_UnmarshalJSON.

Definition TXPKACK_fields : list (field TXPKACK) :=
  [lens "error" decode_string TXPKACK_Error (λ _ e, mkTXPKACK e)].

Definition TXACKPayload_fields : list (field TXACKPayload) :=
  [lens "txpk_ack" (decode_struct TXPKACK_fields) TXACKPayload_TXPKACK (λ _ a, mkTXACKPayload a)].

Definition RXPK_fields : list (field RXPK) := [
  lens "time" decode_CompactTime RXPK_Time
    (λ '(mkRXPK _ b c d e f g h i j k l m) x, mkRXPK x b c d e f g h i j k l m);
  lens "tmst" (decode_uint 32) RXPK_Tmst
    (λ '(mkRXPK a _ c d e f g h i j k l m) x, mkRXPK a x c d e f g h i j k l m);
  lens "freq" decode_float RXPK_Freq
    (λ '(mkRXPK a b _ d e f g h i j k l m) x, mkRXPK a b x d e f g h i j k l m);
  lens "chan" (decode_uint 8) RXPK_Chan
    (λ '(mkRXPK a b c _ e f g h i j k l m) x, mkRXPK a b c x e f g h i j k l m);
  lens "rfch" (decode_uint 8) RXPK_RFCh
    (λ '(mkRXPK a b c d _ f g h i j k l m) x, mkRXPK a b c d x f g h i j k l m);
  lens "stat" (decode_int 8) RXPK_Stat
    (λ '(mkRXPK a b c d e _ g h i j k l m) x, mkRXPK a b c d e x g h i j k l m);
  lens "modu" decode_string RXPK_Modu
    (λ '(mkRXPK a b c d e f _ h i j k l m) x, mkRXPK a b c d e f x h i j k l m);
  lens "datr" decode_DatR RXPK_DatR
    (λ '(mkRXPK a b c d e f g _ i j k l m) x, mkRXPK a b c d e f g x i j k l m);
  lens "codr" decode_string RXPK_CodR
    (λ '(mkRXPK a b c d e f g h _ j k l m) x, mkRXPK a b c d e f g h x j k l m);
  lens "rssi" (decode_int 16) RXPK_RSSI
    (λ '(mkRXPK a b c d e f g h i _ k l m) x, mkRXPK a b c d e f g h i x k l m);
  lens "lsnr" decode_float RXPK_LSNR
    (λ '(mkRXPK a b c d e f g h i j _ l m) x, mkRXPK a b c d e f g h i j x l m);
  lens "size" (decode_uint 16) RXPK_Size
    (λ '(mkRXPK a b c d e f g h i j k _ m) x, mkRXPK a b c d e f g h i j k x m);
  lens "data" decode_string RXPK_Data
    (λ '(mkRXPK a b c d e f g h i j k l _) x, mkRXPK a b c d e f g h i j k l x)
].

Definition Stat_fields : list (field Stat) := [
  lens "time" decode_ExpandedTime Stat_Time
    (λ '(mkStat _ b c d e f g h i j k l) x, mkStat x b c d e f g h i j k l);
  lens "lati" decode_float Stat_Lati
    (λ '(mkStat a _ c d e f g h i j k l) x, mkStat a x c d e f g h i j k l);
  lens "long" decode_float Stat_Long
    (λ '(mkStat a b _ d e f g h i j k l) x, mkStat a b x d e f g h i j k l);
  lens "alti" (decode_int 32) Stat_Alti
    (λ '(mkStat a b c _ e f g h i j k l) x, mkStat a b c x e f g h i j k l);
  lens "rxnb" (decode_uint 32) Stat_RXNb
    (λ '(mkStat a b c d _ f g h i j k l) x, mkStat a b c d x f g h i j k l);
  lens "rxok" (decode_uint 32) Stat_RXOK
    (λ '(mkStat a b c d e _ g h i j k l) x, mkStat a b c d e x g h i j k l);
  lens "rxfw" (decode_uint 32) Stat_RXFW
    (λ '(mkStat a b c d e f _ h i j k l) x, mkStat a b c d e f x h i j k l);
  lens "ackr" decode_float Stat_ACKR
    (λ '(mkStat a b c d e f g _ i j k l) x, mkStat a b c d e f g x i j k l);
  lens "dwnb" (decode_uint 32) Stat_DWNb
    (λ '(mkStat a b c d e f g h _ j k l) x, mkStat a b c d e f g h x j k l);
  lens "pfrm" decode_string Stat_Pfrm
    (λ '(mkStat a b c d e f g h i _ k l) x, mkStat a b c d e f g h i x k l);
  lens "mail" decode_string Stat_Mail
    (λ '(mkStat a b c d e f g h i j _ l) x, mkStat a b c d e f g h i j x l);
  lens "desc" decode_string Stat_Desc
    (λ '(mkStat a b c d e f g h i j k _) x, mkStat a b c d e f g h i j k x)
].

Definition TXPK_fields : list (field TXPK) := [
  lens "imme" decode_bool TXPK_Imme
    (λ '(mkTXPK _ b c d e f g h i j k l m n o) x, mkTXPK x b c d e f g h i j k l m n o);
  lens "tmst" (decode_uint 32) TXPK_Tmst
    (λ '(mkTXPK a _ c d e f g h i j k l m n o) x, mkTXPK a x c d e f g h i j k l m n o);
  lens "time" (decode_ptr Time_zero decode_CompactTime) TXPK_Time
    (λ '(mkTXPK a b _ d e f g h i j k l m n o) x, mkTXPK a b x d e f g h i j k l m n o);
  lens "freq" decode_float TXPK_Freq
    (λ '(mkTXPK a b c _ e f g h i j k l m n o) x, mkTXPK a b c x e f g h i j k l m n o);
  lens "rfch" (decode_uint 8) TXPK_RFCh
    (λ '(mkTXPK a b c d _ f g h i j k l m n o) x, mkTXPK a b c d x f g h i j k l m n o);
  lens "powe" (decode_uint 8) TXPK_Powe
    (λ '(mkTXPK a b c d e _ g h i j k l m n o) x, mkTXPK a b c d e x g h i j k l m n o);
  lens "modu" decode_string TXPK_Modu
    (λ '(mkTXPK a b c d e f _ h i j k l m n o) x, mkTXPK a b c d e f x h i j k l m n o);
  lens "datr" decode_DatR TXPK_DatR
    (λ '(mkTXPK a b c d e f g _ i j k l m n o) x, mkTXPK a b c d e f g x i j k l m n o);
  lens "codr" decode_string TXPK_CodR
    (λ '(mkTXPK a b c d e f g h _ j k l m n o) x, mkTXPK a b c d e f g h x j k l m n o);
  lens "fdev" (decode_uint 16) TXPK_FDev
    (λ '(mkTXPK a b c d e f g h i _ k l m n o) x, mkTXPK a b c d e f g h i x k l m n o);
  lens "ipol" decode_bool TXPK_IPol
    (λ '(mkTXPK a b c d e f g h i j _ l m n o) x, mkTXPK a b c d e f g h i j x l m n o);
  lens "prea" (decode_uint 16) TXPK_Prea
    (λ '(mkTXPK a b c d e f g h i j k _ m n o) x, mkTXPK a b c d e f g h i j k x m n o);
  lens "size" (decode_uint 16) TXPK_Size
    (λ '(mkTXPK a b c d e f g h i j k l _ n o) x, mkTXPK a b c d e f g h i j k l x n o);
  lens "ncrc" decode_bool TXPK_NCRC
    (λ '(mkTXPK a b c d e f g h i j k l m _ o) x, mkTXPK a b c d e f g h i j k l m x o);
  lens "data" decode_string TXPK_Data
    (λ '(mkTXPK a b c d e f g h i j k l m n _) x, mkTXPK a b c d e f g h i j k l m n x)
].

Definition PushDataPayload_fields : list (field PushDataPayload) := [
  lens "rxpk" (decode_slice RXPK_zero (decode_struct RXPK_fields)) PushDataPayload_RXPK
    (λ '(mkPushDataPayload _ b) x, mkPushDataPayload x b);
  lens "stat" (decode_ptr Stat_zero (decode_struct Stat_fields)) PushDataPayload_Stat
    (λ '(mkPushDataPayload a _) x, mkPushDataPayload a x)
].

Definition PullRespPayload_fields : list (field PullRespPayload) :=
  [lens "txpk" (decode_struct TXPK_fields) PullRespPayload_TXPK (λ _ x, mkPullRespPayload x)].
End Decoding.

(** ** Encoding *)

Definition encode_CompactTime (t : CompactTime) : result json :=
  encode_marshaler (CompactTime_MarshalJSON t).
Definition encode_ExpandedTime (t : ExpandedTime) : result json :=
  encode_marshaler (ExpandedTime_MarshalJSON t).
Definition encode_DatR (d : DatR) : result json := encode_marshaler (DatR_MarshalJSON d).
Definition encode_str (s : string) : result json := Ok (encode_string s).
Definition is_empty_str (s : string) : bool := bool_decide (s = ""%string).

Definition encode_TXPKACK (a : TXPKACK) : result json :=
  encode_struct [("error"%string, false, encode_str (TXPKACK_Error a))].

Definition encode_TXACKPayload (p : TXACKPayload) : result json :=
  encode_struct [("txpk_ack"%string, false, encode_TXPKACK (TXACKPayload_TXPKACK p))].

Definition encode_RXPK (r : RXPK) : result json :=
  encode_struct [
    ("time", false, encode_CompactTime (RXPK_Time r));
    ("tmst", false, Ok (encode_uint (RXPK_Tmst r)));
    ("freq", false, encode_float (RXPK_Freq r));
    ("chan", false, Ok (encode_uint (RXPK_Chan r)));
    ("rfch", false, Ok (encode_uint (RXPK_RFCh r)));
    ("stat", false, Ok (encode_int (RXPK_Stat r)));
    ("modu", false, encode_str (RXPK_Modu r));
    ("datr", false, encode_DatR (RXPK_DatR r));
    ("codr", false, encode_str (RXPK_CodR r));
    ("rssi", false, Ok (encode_int (RXPK_RSSI r)));
    ("lsnr", false, encode_float (RXPK_LSNR r));
    ("size", false, Ok (encode_uint (RXPK_Size r)));
    ("data", false, encode_str (RXPK_Data r))
  ].

Definition encode_Stat (s : Stat) : result json :=
  encode_struct [
    ("time", false, encode_ExpandedTime (Stat_Time s));
    ("lati", false, encode_float (Stat_Lati s));
    ("long", false, encode_float (Stat_Long s));
    ("alti", false, Ok (encode_int (Stat_Alti s)));
    ("rxnb", false, Ok (encode_uint (Stat_RXNb s)));
    ("rxok", false, Ok (encode_uint (Stat_RXOK s)));
    ("rxfw", false, Ok (encode_uint (Stat_RXFW s)));
    ("ackr", false, encode_float (Stat_ACKR s));
    ("dwnb", false, Ok (encode_uint (Stat_DWNb s)));
    ("pfrm", false, encode_str (Stat_Pfrm s));
    ("mail", false, encode_str (Stat_Mail s));
    ("desc", false, encode_str (Stat_Desc s))
  ].

Definition encode_TXPK (x : TXPK) : result json :=
  encode_struct [
    ("imme", false, Ok (JBool (TXPK_Imme x)));
    ("tmst", TXPK_Tmst x =? 0, Ok (encode_uint (TXPK_Tmst x)));
    ("time", bool_decide (TXPK_Time x = None),
       match TXPK_Time x with Some t => encode_CompactTime t | None => Ok JNull end);
    ("freq", false, encode_float (TXPK_Freq x));
    ("rfch", false, Ok (encode_uint (TXPK_RFCh x)));
    ("powe", false, Ok (encode_uint (TXPK_Powe x)));
    ("modu", false, encode_str (TXPK_Modu x));
    ("datr", false, encode_DatR (TXPK_DatR x));
    ("codr", is_empty_str (TXPK_CodR x), encode_str (TXPK_CodR x));
    ("fdev", TXPK_FDev x =? 0, Ok (encode_uint (TXPK_FDev x)));
    ("ipol", false, Ok (JBool (TXPK_IPol x)));
    ("prea", TXPK_Prea x =? 0, Ok (encode_uint (TXPK_Prea x)));
    ("size", false, Ok (encode_uint (TXPK_Size x)));
    ("ncrc", negb (TXPK_NCRC x), Ok (JBool (TXPK_NCRC x)));
    ("data", false, encode_str (TXPK_Data x))
  ].

Definition encode_PushDataPayload (p : PushDataPayload) : result json :=
  encode_struct [
    ("rxpk", bool_decide (PushDataPayload_RXPK p = []), encode_slice encode_RXPK (PushDataPayload_RXPK p));
    ("stat", bool_decide (PushDataPayload_Stat p = None),
       match PushDataPayload_Stat p with Some s => encode_Stat s | None => Ok JNull end)
  ].

Definition encode_PullRespPayload (p : PullRespPayload) : result json :=
  encode_struct [("txpk"%string, false, encode_TXPK (PullRespPayload_TXPK p))].

(** ** The codecs *)

#[export] Instance TXACKPayload_codec : JsonCodec TXACKPayload := {
  json_Marshal p := json_encode (encode_TXACKPayload p);
  json_Unmarshal := json_decode (decode_struct TXACKPayload_fields)
}.

#[export] Instance PushDataPayload_codec `{HostZone} : JsonCodec PushDataPayload := {
  json_Marshal p := json_encode (encode_PushDataPayload p);
  json_Unmarshal := json_decode (decode_struct PushDataPayload_fields)
}.

#[export] Instance PullRespPayload_codec : JsonCodec PullRespPayload := {
  json_Marshal p := json_encode (encode_PullRespPayload p);
  json_Unmarshal := json_decode (decode_struct PullRespPayload_fields)
}.

(** A host whose time zone knows no abbreviation (it runs in UTC). *)
Definition utc_host : HostZone := λ _ _, None.

(** A PUSH_DATA payload as the packet forwarder writes it. *)
Definition quoted (s : string) : bytes :=
  map (λ c, if bool_decide (c = "'"%char) then dquote else c) (to_bytes s).

Example PushData_sample :
  let text := quoted "{'rxpk':[{'time':'2013-03-31T16:21:17.528002Z','tmst':3512348611,'chan':2,'rfch':0,'freq':866.349812,'stat':1,'modu':'LORA','datr':'SF7BW125','codr':'4/6','rssi':-35,'lsnr':5.1,'size':32,'data':'-DS4CGaDCdG+48eJNM3Vai-zDpsR71Pn9CPA9uCON84'}]}" in
  match @json_Unmarshal _ (@PushDataPayload_codec utc_host) text PushDataPayload_zero with
  | Ok (mkPushDataPayload [r] None) =>
      (RXPK_Tmst r, RXPK_Chan r, RXPK_Stat r, RXPK_RSSI r, DatR_LoRa (RXPK_DatR r),
       fmt_str (FormatFloatJSON (RXPK_Freq r)), RXPK_Time r)
      = (3512348611, 2, 1, -35, "SF7BW125"%string, "866.349812"%string, 1364746877528002000)
  | _ => False
  end.
Proof. vm_compute. reflexivity. Qed.

(** ** No text makes a codec panic *)

Section Safe.
Context `{HostZone}.

Lemma dec_safe_lens {A B} name (d : decoder B) (get : A → B) upd :
  dec_safe d → dec_safe (field_set (lens name d get upd)).
Proof. intros Hd j prior. simpl. apply rbind_no_panic; [apply Hd|done]. Qed.

Lemma dec_safe_CompactTime : dec_safe decode_CompactTime.
Proof.
  apply dec_safe_unmarshaler. intros. unfold CompactTime_UnmarshalJSON.
  apply rbind_no_panic; [auto with go_db|done].
Qed.
Lemma dec_safe_ExpandedTime : dec_safe decode_ExpandedTime.
Proof.
  apply dec_safe_unmarshaler. intros. unfold ExpandedTime_UnmarshalJSON.
  apply rbind_no_panic; [auto with go_db|done].
Qed.
Lemma dec_safe_DatR : dec_safe decode_DatR.
Proof.
  apply dec_safe_unmarshaler. intros b a. unfold DatR_UnmarshalJSON. by repeat case_goal.
Qed.

Hint Resolve dec_safe_lens dec_safe_CompactTime dec_safe_ExpandedTime dec_safe_DatR : go_db.

Ltac fields_safe := apply dec_safe_struct; repeat constructor; auto 8 with go_db.

Lemma dec_safe_RXPK : dec_safe (decode_struct RXPK_fields).
Proof. fields_safe. Qed.
Lemma dec_safe_Stat : dec_safe (decode_struct Stat_fields).
Proof. fields_safe. Qed.
Lemma dec_safe_TXPK : dec_safe (decode_struct TXPK_fields).
Proof. fields_safe. Qed.
Lemma dec_safe_TXPKACK : dec_safe (decode_struct TXPKACK_fields).
Proof. fields_safe. Qed.
Hint Resolve dec_safe_RXPK dec_safe_Stat dec_safe_TXPK dec_safe_TXPKACK : go_db.

Lemma encode_CompactTime_no_panic t : no_panic (encode_CompactTime t).
Proof. by apply encode_marshaler_no_panic. Qed.
Lemma encode_ExpandedTime_no_panic t : no_panic (encode_ExpandedTime t).
Proof. by apply encode_marshaler_no_panic. Qed.

Lemma encode_DatR_no_panic d : no_panic (encode_DatR d).
Proof. apply encode_marshaler_no_panic. unfold DatR_MarshalJSON. by case_goal. Qed.

Ltac members_safe :=
  apply encode_struct_no_panic;
  repeat (apply List.Forall_cons;
          [cbn [snd];
           lazymatch goal with
           | |- no_panic (Ok _) => exact I
           | |- no_panic (encode_str _) => exact I
           | |- no_panic (encode_CompactTime _) => apply encode_CompactTime_no_panic
           | |- no_panic (encode_ExpandedTime _) => apply encode_ExpandedTime_no_panic
           | |- no_panic (encode_DatR _) => apply encode_DatR_no_panic
           | |- no_panic (encode_float _) => apply encode_float_no_panic
           | _ => idtac
           end|]);
  try apply List.Forall_nil.

Lemma encode_RXPK_no_panic r : no_panic (encode_RXPK r).
Proof. members_safe. Qed.
Lemma encode_Stat_no_panic s : no_panic (encode_Stat s).
Proof. members_safe. Qed.
Lemma encode_TXPK_no_panic x : no_panic (encode_TXPK x).
Proof. members_safe. destruct (TXPK_Time x); [apply encode_CompactTime_no_panic|done]. Qed.

#[export] Instance PushDataPayload_safe : JsonSafe PushDataPayload.
Proof.
  constructor.
  - intros. apply json_decode_no_panic. fields_safe.
  - intros p. apply json_encode_no_panic. members_safe.
    + apply encode_slice_no_panic, encode_RXPK_no_panic.
    + destruct (PushDataPayload_Stat p); [apply encode_Stat_no_panic|done].
Qed.
#[export] Instance PullRespPayload_safe : JsonSafe PullRespPayload.
Proof.
  constructor.
  - intros. apply json_decode_no_panic. fields_safe.
  - intros p. apply json_encode_no_panic. members_safe. apply encode_TXPK_no_panic.
Qed.
#[export] Instance TXACKPayload_safe : JsonSafe TXACKPayload.
Proof.
  constructor.
  - intros. apply json_decode_no_panic. fields_safe.
  - intros p. apply json_encode_no_panic. members_safe. members_safe.
Qed.
End Safe.
