(* ===== verification/PayloadLaws.v ===== *)
(** * Round trips of the JSON payloads

    Every well-formed payload survives a trip through its JSON text: the
    instances of [JsonRoundTrip] for the three payloads, with the
    well-formedness of each field stated as the range of its Go type and, for
    the types with their own JSON methods, as what these methods can carry. *)

From Stdlib Require Import String Ascii NArith ZArith Lia SpecFloat.
From stdpp Require Import base gmap list strings numbers.
From S2P Require Import Prelude GoPrim GoStrconv GoTime GoUtf8 GoFloat Lorawan GoJson.
From S2P Require Import GoNumText GoFloatText GoJsonTyped GoJsonLaws Payload.

Local Open Scope string_scope.
Local Open Scope list_scope.
Local Open Scope Z_scope.

(** ** Well-formed payloads *)

(** A LoRa identifier without characters that need escaping, or a bit rate. *)
Definition DatR_wf (d : DatR) : Prop :=
  (DatR_LoRa d ≠ "" ∧ plain_text (to_bytes (DatR_LoRa d)) ∧ DatR_FSK d = 0) ∨
  (DatR_LoRa d = "" ∧ in_u 32 (DatR_FSK d) = true).

Record RXPK_wf (r : RXPK) : Prop := mkRXPKwf {
  RXPK_wf_time : four_digit_year (RXPK_Time r);
  RXPK_wf_tmst : in_u 32 (RXPK_Tmst r) = true;
  RXPK_wf_freq : f64_ok (RXPK_Freq r);
  RXPK_wf_chan : in_u 8 (RXPK_Chan r) = true;
  RXPK_wf_rfch : in_u 8 (RXPK_RFCh r) = true;
  RXPK_wf_stat : in_s 8 (RXPK_Stat r) = true;
  RXPK_wf_modu : str_ok (RXPK_Modu r);
  RXPK_wf_datr : DatR_wf (RXPK_DatR r);
  RXPK_wf_codr : str_ok (RXPK_CodR r);
  RXPK_wf_rssi : in_s 16 (RXPK_RSSI r) = true;
  RXPK_wf_lsnr : f64_ok (RXPK_LSNR r);
  RXPK_wf_size : in_u 16 (RXPK_Size r) = true;
  RXPK_wf_data : str_ok (RXPK_Data r)
}.

(** The layout of the [stat] time has no fraction of a second. *)
Record Stat_wf (s : Stat) : Prop := mkStatwf {
  Stat_wf_time : four_digit_year (Stat_Time s) ∧ Stat_Time s mod 1000000000 = 0;
  Stat_wf_lati : f64_ok (Stat_Lati s);
  Stat_wf_long : f64_ok (Stat_Long s);
  Stat_wf_alti : in_s 32 (Stat_Alti s) = true;
  Stat_wf_rxnb : in_u 32 (Stat_RXNb s) = true;
  Stat_wf_rxok : in_u 32 (Stat_RXOK s) = true;
  Stat_wf_rxfw : in_u 32 (Stat_RXFW s) = true;
  Stat_wf_ackr : f64_ok (Stat_ACKR s);
  Stat_wf_dwnb : in_u 32 (Stat_DWNb s) = true;
  Stat_wf_pfrm : str_ok (Stat_Pfrm s);
  Stat_wf_mail : str_ok (Stat_Mail s);
  Stat_wf_desc : str_ok (Stat_Desc s)
}.

Record TXPK_wf (x : TXPK) : Prop := mkTXPKwf {
  TXPK_wf_tmst : in_u 32 (TXPK_Tmst x) = true;
  TXPK_wf_time : match TXPK_Time x with Some t => four_digit_year t | None => True end;
  TXPK_wf_freq : f64_ok (TXPK_Freq x);
  TXPK_wf_rfch : in_u 8 (TXPK_RFCh x) = true;
  TXPK_wf_powe : in_u 8 (TXPK_Powe x) = true;
  TXPK_wf_modu : str_ok (TXPK_Modu x);
  TXPK_wf_datr : DatR_wf (TXPK_DatR x);
  TXPK_wf_codr : str_ok (TXPK_CodR x);
  TXPK_wf_fdev : in_u 16 (TXPK_FDev x) = true;
  TXPK_wf_prea : in_u 16 (TXPK_Prea x) = true;
  TXPK_wf_size : in_u 16 (TXPK_Size x) = true;
  TXPK_wf_data : str_ok (TXPK_Data x)
}.

Definition PushDataPayload_wf (p : PushDataPayload) : Prop :=
  Forall RXPK_wf (PushDataPayload_RXPK p) ∧
  match PushDataPayload_Stat p with Some s => Stat_wf s | None => True end.

Definition PullRespPayload_wf (p : PullRespPayload) : Prop := TXPK_wf (PullRespPayload_TXPK p).

Definition TXACKPayload_wf (p : TXACKPayload) : Prop :=
  str_ok (TXPKACK_Error (TXACKPayload_TXPKACK p)).

(** ** The types with JSON methods *)

Lemma append_int_plain x w : plain_text (append_int x w).
Proof.
  unfold append_int.
  assert (plain_text (replicate (w - length (FormatUint (Z.abs x))) "0"%char ++ FormatUint (Z.abs x))).
  { apply Forall_app_2; [by apply Forall_replicate|]. apply digits_plain, FormatUint_digits. lia. }
  destruct (x <? 0); [by constructor|done].
Qed.

Lemma trim_zeros_plain s : plain_text s → plain_text (trim_zeros s).
Proof.
  intros H. destruct (trim_zeros_spec s) as [k Hk]. rewrite Hk in H. by apply Forall_app in H as [H _].
Qed.

Lemma append_nano_plain ns : plain_text (append_nano ns).
Proof.
  unfold append_nano. pose proof (trim_zeros_plain _ (append_int_plain ns 9)) as H.
  destruct (trim_zeros _); [done|]. by constructor.
Qed.

Lemma FormatRFC3339Nano_quoted t :
  ∃ s, FormatRFC3339Nano t = dquote :: s ++ [dquote] ∧ plain_text s.
Proof.
  unfold FormatRFC3339Nano. destruct (civil t) as [[[y m] d] [[[hh mm] ss] ns]].
  exists (append_int y 4 ++ "-"%char :: append_int m 2 ++ "-"%char :: append_int d 2
    ++ "T"%char :: append_int hh 2 ++ ":"%char :: append_int mm 2 ++ ":"%char :: append_int ss 2
    ++ append_nano ns ++ ["Z"%char]). split.
  - f_equal. by repeat (rewrite <- app_assoc || rewrite <- app_comm_cons).
  - repeat first [ apply Forall_app_2 | apply append_int_plain | apply append_nano_plain
                 | apply List.Forall_cons; [reflexivity|] | apply List.Forall_nil ].
Qed.

Lemma FormatExpanded_quoted t :
  ∃ s, FormatExpanded t = dquote :: s ++ [dquote] ∧ plain_text s.
Proof.
  unfold FormatExpanded. destruct (civil t) as [[[y m] d] [[[hh mm] ss] ns]].
  exists (append_int y 4 ++ "-"%char :: append_int m 2 ++ "-"%char :: append_int d 2
    ++ " "%char :: append_int hh 2 ++ ":"%char :: append_int mm 2 ++ ":"%char :: append_int ss 2
    ++ to_bytes " UTC"). split.
  - f_equal. by repeat (rewrite <- app_assoc || rewrite <- app_comm_cons).
  - repeat first [ apply Forall_app_2 | apply append_int_plain
                 | apply List.Forall_cons; [reflexivity|] | apply List.Forall_nil ].
Qed.

Lemma codec_CompactTime t :
  four_digit_year t → ∃ j, codec encode_CompactTime decode_CompactTime Time_zero t j.
Proof.
  intros Ht. destruct (FormatRFC3339Nano_quoted t) as (s & Hs & Hp).
  destruct (encode_marshaler_quoted s Hp) as [He Hj]. exists (mk_str s).
  constructor; [|done|done|].
  - unfold encode_CompactTime, CompactTime_MarshalJSON. by rewrite Hs.
  - unfold decode_CompactTime, decode_unmarshaler, CompactTime_UnmarshalJSON. simpl.
    rewrite plain_quote, <- Hs, ParseRFC3339Nano_Format by done. done.
Qed.

Lemma codec_ExpandedTime `{HostZone} t :
  four_digit_year t → t mod 1000000000 = 0 →
  ∃ j, codec encode_ExpandedTime decode_ExpandedTime Time_zero t j.
Proof.
  intros Ht H0. destruct (FormatExpanded_quoted t) as (s & Hs & Hp).
  destruct (encode_marshaler_quoted s Hp) as [He Hj]. exists (mk_str s).
  constructor; [|done|done|].
  - unfold encode_ExpandedTime, ExpandedTime_MarshalJSON. by rewrite Hs.
  - unfold decode_ExpandedTime, decode_unmarshaler, ExpandedTime_UnmarshalJSON. simpl.
    rewrite plain_quote, <- Hs, ParseExpanded_Format by done. done.
Qed.

Lemma trim_left_plain s t : plain_text s → s ≠ [] → trim_left dquote (s ++ t) = s ++ t.
Proof.
  intros Hs Hne. destruct s as [|c s]; [done|]. apply Forall_cons_1 in Hs as [Hc _].
  apply plain_spec in Hc as (_ & Hq & _). simpl. by rewrite bool_decide_false.
Qed.

Lemma trim_quoted s : plain_text s → s ≠ [] → trim dquote (dquote :: s ++ [dquote]) = s.
Proof.
  intros Hs Hne. unfold trim. cbn [trim_left]. rewrite bool_decide_true by done.
  rewrite trim_left_plain by done. rewrite rev_app_distr. simpl.
  pose proof (trim_left_plain (rev s) []) as H. rewrite app_nil_r in H.
  rewrite H, rev_involutive; [done| |].
  - by apply List.Forall_rev.
  - intros E. apply Hne. by rewrite <- (rev_involutive s), E.
Qed.

Lemma codec_DatR d : DatR_wf d → ∃ j, codec encode_DatR decode_DatR DatR_zero d j.
Proof.
  destruct d as [lora fsk]. unfold DatR_wf. cbn [DatR_LoRa DatR_FSK].
  unfold encode_DatR, DatR_MarshalJSON. cbn [DatR_LoRa DatR_FSK].
  intros [(Hne & Hp & ->)|(-> & Hf)].
  - destruct (encode_marshaler_quoted _ Hp) as [He Hj]. exists (mk_str (to_bytes lora)).
    assert (to_bytes lora ≠ []) as Hne' by (by destruct lora).
    constructor; [|done|done|].
    + cbn [DatR_LoRa]. by rewrite bool_decide_false.
    + unfold decode_DatR, decode_unmarshaler, DatR_UnmarshalJSON, mk_str. cbn [json_raw].
      rewrite plain_quote by done.
      change (ParseUint (dquote :: to_bytes lora ++ [dquote]) 32) with (@Err Z (ErrLib "strconv")).
      cbn iota. by rewrite trim_quoted, to_string_of_bytes.
  - apply in_u_spec in Hf. exists (JNum (FormatUint fsk)).
    constructor; [|apply printable_uint; lia|done|].
    + cbn [DatR_LoRa DatR_FSK]. rewrite bool_decide_true by done. apply encode_marshaler_uint. lia.
    + unfold decode_DatR, decode_unmarshaler, DatR_UnmarshalJSON. cbn [json_raw].
      rewrite ParseUint_FormatUint by lia. unfold to_uint32, wrap_u. by rewrite Z.mod_small by lia.
Qed.

(** ** The structs *)

(** A member that is set through a [lens] on a zero field. *)
Lemma member_lens {A B} (fs : list (field A)) name omit r (d : decoder B) get upd a1 b :
  find_field fs (to_bytes name) = Some (lens name d get upd) → str_ok name →
  (omit = false → ∃ j, r = Ok j ∧ printable j ∧ d j (get a1) = Ok b) →
  (omit = true → upd a1 b = a1) →
  member_step fs (name, omit, r) a1 (upd a1 b).
Proof.
  intros Hf Hn Hr Ho. split; [done|]. destruct omit; [by rewrite Ho|].
  destruct Hr as (j & Hj & Hp & Hd); [done|]. exists j. eexists. split_and!; [done..|].
  simpl. by rewrite Hd.
Qed.

(** The common case: a member that is always written. *)
Lemma member_codec {A B} (fs : list (field A)) name r enc (d : decoder B) zero get upd a1 b j :
  find_field fs (to_bytes name) = Some (lens name d get upd) → str_ok name →
  codec enc d zero b j → r = enc b → get a1 = zero →
  member_step fs (name, false, r) a1 (upd a1 b).
Proof.
  intros Hf Hn Hc -> Hz. apply (member_lens fs name false _ d get upd a1 b Hf Hn); [|done].
  intros _. exists j. rewrite Hz. by destruct Hc.
Qed.

(** Runs one member of a struct, given its codec. *)
Ltac run_member H :=
  eapply run_cons;
  [eapply member_codec; [reflexivity|reflexivity|exact H|reflexivity|reflexivity]|].

Ltac run_uint H := run_member (codec_uint _ _ H ltac:(done)).
Ltac run_int H := run_member (codec_int _ _ H ltac:(done)).
Ltac run_ex H := let j := fresh "j" in let Hj := fresh "Hj" in
  destruct H as [j Hj]; run_member Hj.

Lemma RXPK_codec `{HostZone} r :
  RXPK_wf r → ∃ j, codec encode_RXPK (decode_struct RXPK_fields) RXPK_zero r j.
Proof.
  intros [H1 H2 H3 H4 H5 H6 H7 H8 H9 H10 H11 H12 H13].
  eapply struct_codec; [reflexivity|].
  run_ex (codec_CompactTime _ H1). run_uint H2. run_ex (codec_float _ H3).
  run_uint H4. run_uint H5. run_int H6. run_member (codec_str _ H7).
  run_ex (codec_DatR _ H8). run_member (codec_str _ H9). run_int H10.
  run_ex (codec_float _ H11). run_uint H12. run_member (codec_str _ H13).
  destruct r. constructor.
Qed.

Lemma Stat_codec `{HostZone} s :
  Stat_wf s → ∃ j, codec encode_Stat (decode_struct Stat_fields) Stat_zero s j.
Proof.
  intros [[H1 H1'] H2 H3 H4 H5 H6 H7 H8 H9 H10 H11 H12].
  eapply struct_codec; [reflexivity|].
  run_ex (codec_ExpandedTime _ H1 H1'). run_ex (codec_float _ H2). run_ex (codec_float _ H3).
  run_int H4. run_uint H5. run_uint H6. run_uint H7. run_ex (codec_float _ H8). run_uint H9.
  run_member (codec_str _ H10). run_member (codec_str _ H11). run_member (codec_str _ H12).
  destruct s. constructor.
Qed.

(** A member that [omitempty] leaves out when it holds its zero value. *)
Ltac run_omit H zero_tac :=
  eapply run_cons;
  [eapply member_lens; [reflexivity|reflexivity|
     intros _; eexists; split_and!; [reflexivity|exact (codec_printable H)|exact (codec_dec H)]|
     zero_tac]|].

Lemma TXPK_codec x :
  TXPK_wf x → ∃ j, codec encode_TXPK (decode_struct TXPK_fields) TXPK_zero x j.
Proof.
  intros [H1 H2 H3 H4 H5 H6 H7 H8 H9 H10 H11 H12].
  eapply struct_codec; [reflexivity|].
  run_member (codec_bool (TXPK_Imme x)).
  run_omit (codec_uint _ _ H1 ltac:(done)) ltac:(intros ->%Z.eqb_eq; reflexivity).
  eapply run_cons.
  { eapply member_lens with (b := TXPK_Time x); [reflexivity|reflexivity| |].
    - intros Hn%bool_decide_eq_false_1. destruct (TXPK_Time x) as [t|]; [|done].
      destruct (codec_CompactTime t H2) as [j Hj]. exists j.
      split_and!; [apply (codec_enc Hj)|apply (codec_printable Hj)|apply (codec_ptr _ _ _ _ _ Hj)].
    - intros ->%bool_decide_eq_true_1. reflexivity. }
  run_ex (codec_float _ H3). run_uint H4. run_uint H5. run_member (codec_str _ H6).
  run_ex (codec_DatR _ H7).
  run_omit (codec_str _ H8) ltac:(intros ->%bool_decide_eq_true_1; reflexivity).
  run_omit (codec_uint _ _ H9 ltac:(done)) ltac:(intros ->%Z.eqb_eq; reflexivity).
  run_member (codec_bool (TXPK_IPol x)).
  run_omit (codec_uint _ _ H10 ltac:(done)) ltac:(intros ->%Z.eqb_eq; reflexivity).
  run_uint H11.
  run_omit (codec_bool (TXPK_NCRC x)) ltac:(intros ->%negb_true_iff; reflexivity).
  run_member (codec_str _ H12).
  destruct x. constructor.
Qed.

Lemma TXPKACK_codec a :
  str_ok (TXPKACK_Error a) →
  ∃ j, codec encode_TXPKACK (decode_struct TXPKACK_fields) (mkTXPKACK "") a j.
Proof.
  intros H. eapply struct_codec; [reflexivity|]. run_member (codec_str _ H).
  destruct a. constructor.
Qed.

Lemma TXACKPayload_codec_ok p :
  TXACKPayload_wf p →
  ∃ j, codec encode_TXACKPayload (decode_struct TXACKPayload_fields) TXACKPayload_zero p j.
Proof.
  intros H. eapply struct_codec; [reflexivity|]. run_ex (TXPKACK_codec _ H).
  destruct p. constructor.
Qed.

Lemma PullRespPayload_codec_ok p :
  PullRespPayload_wf p →
  ∃ j, codec encode_PullRespPayload (decode_struct PullRespPayload_fields) PullRespPayload_zero p j.
Proof.
  intros H. eapply struct_codec; [reflexivity|]. run_ex (TXPK_codec _ H).
  destruct p. constructor.
Qed.

Lemma PushDataPayload_codec_ok `{HostZone} p :
  PushDataPayload_wf p →
  ∃ j, codec encode_PushDataPayload (decode_struct PushDataPayload_fields) PushDataPayload_zero p j.
Proof.
  intros [H1 H2]. eapply struct_codec; [reflexivity|].
  eapply run_cons.
  { eapply member_lens with (b := PushDataPayload_RXPK p); [reflexivity|reflexivity| |].
    - intros _. destruct (codec_slice encode_RXPK (decode_struct RXPK_fields) RXPK_zero
        (PushDataPayload_RXPK p)) as [j Hj].
      { eapply Forall_impl; [|exact H1]. intros r. apply RXPK_codec. }
      exists j. split_and!; [apply (codec_enc Hj)|apply (codec_printable Hj)|apply (codec_dec Hj)].
    - intros ->%bool_decide_eq_true_1. reflexivity. }
  eapply run_cons.
  { eapply member_lens with (b := PushDataPayload_Stat p); [reflexivity|reflexivity| |].
    - intros Hn%bool_decide_eq_false_1. destruct (PushDataPayload_Stat p) as [s|]; [|done].
      destruct (Stat_codec s H2) as [j Hj]. exists j.
      split_and!; [apply (codec_enc Hj)|apply (codec_printable Hj)|apply (codec_ptr _ _ _ _ _ Hj)].
    - intros ->%bool_decide_eq_true_1. reflexivity. }
  destruct p. constructor.
Qed.

(** ** The laws of the interface *)

#[export] Instance TXACKPayload_roundtrip :
  JsonRoundTrip TXACKPayload TXACKPayload_wf (λ p, p = TXACKPayload_zero).
Proof.
  constructor. intros p prior Hp ->. by apply json_encode_decode, TXACKPayload_codec_ok.
Qed.

#[export] Instance PullRespPayload_roundtrip :
  JsonRoundTrip PullRespPayload PullRespPayload_wf (λ p, p = PullRespPayload_zero).
Proof.
  constructor. intros p prior Hp ->. by apply json_encode_decode, PullRespPayload_codec_ok.
Qed.

#[export] Instance PushDataPayload_roundtrip `{HostZone} :
  JsonRoundTrip PushDataPayload PushDataPayload_wf (λ p, p = PushDataPayload_zero).
Proof.
  constructor. intros p prior Hp ->. by apply json_encode_decode, PushDataPayload_codec_ok.
Qed.
