(* ===== verification/Structs.v ===== *)
(** * The packets of the packet_forwarder protocol

    The first half of [gateway/structs.go] and [gateway/packettype_string.go]:
    packet types and protocol versions, and the binary form of the six
    packets.  The JSON part of a packet goes through the interface
    [JsonCodec]. *)

From Stdlib Require Import String Ascii NArith ZArith Lia.
From stdpp Require Import base list strings numbers.
From S2P Require Import Prelude GoPrim GoStrconv GoFloat Lorawan GoJson GoJsonTyped Payload.
From S2P Require Import PayloadLaws.

Local Open Scope string_scope.
Local Open Scope list_scope.
Local Open Scope Z_scope.

(** ** Packet types and protocol versions *)

(** [type PacketType byte]: any byte; the constants are the known ones. *)
Definition PacketType : Type := Z.

Definition PushData : PacketType := 0.
Definition PushACK : PacketType := 1.
Definition PullData : PacketType := 2.
Definition PullResp : PacketType := 3.
Definition PullACK : PacketType := 4.
Definition TXACK : PacketType := 5.

Definition ProtocolVersion1 : Z := 1.
Definition ProtocolVersion2 : Z := 2.

Definition protocolSupported (p : Z) : bool :=
  if (p =? ProtocolVersion1) || (p =? ProtocolVersion2) then true else false.

(** The generated [String] method: slices of one constant. *)
Definition _PacketType_name : string := "PushDataPushACKPullDataPullRespPullACKTXACK".
Definition _PacketType_index : list nat := [0; 8; 15; 23; 31; 38; 43]%nat.

Definition PacketType_String (i : PacketType) : result string :=
  if Z.of_nat (length _PacketType_index - 1) <=? i then
    Ok (to_string (to_bytes "PacketType(" ++ FormatInt i ++ to_bytes ")"))
  else
    let* lo := index _PacketType_index (Z.to_nat i) in
    let* hi := index _PacketType_index (Z.to_nat (i + 1)) in
    if ((lo <=? hi)%nat && (hi <=? String.length _PacketType_name)%nat)
    then Ok (String.substring lo (hi - lo) _PacketType_name)
    else Panic "slice bounds out of range".

(** [func GetPacketType(data []byte) (PacketType, error)] *)
Definition GetPacketType (data : bytes) : result PacketType :=
  if (length data <? 4)%nat then
    Err (ErrMsg "gateway: at least 4 bytes of data are expected")
  else
    let* v := index data 0 in
    if negb (protocolSupported (Z_of_byte v)) then Err ErrInvalidProtocolVersion
    else
      let* t := index data 3 in
      Ok (Z_of_byte t).

(** ** The packets *)

Record PushDataPacket : Type := mkPushDataPacket {
  PushDataPacket_ProtocolVersion : Z;
  PushDataPacket_RandomToken : Z;
  PushDataPacket_GatewayMAC : EUI64;
  PushDataPacket_Payload : PushDataPayload
}.

Record PushACKPacket : Type := mkPushACKPacket {
  PushACKPacket_ProtocolVersion : Z;
  PushACKPacket_RandomToken : Z
}.

Record PullDataPacket : Type := mkPullDataPacket {
  PullDataPacket_ProtocolVersion : Z;
  PullDataPacket_RandomToken : Z;
  PullDataPacket_GatewayMAC : EUI64
}.

Record PullACKPacket : Type := mkPullACKPacket {
  PullACKPacket_ProtocolVersion : Z;
  PullACKPacket_RandomToken : Z
}.

Record PullRespPacket : Type := mkPullRespPacket {
  PullRespPacket_ProtocolVersion : Z;
  PullRespPacket_RandomToken : Z;
  PullRespPacket_Payload : PullRespPayload
}.

Record TXACKPacket : Type := mkTXACKPacket {
  TXACKPacket_ProtocolVersion : Z;
  TXACKPacket_RandomToken : Z;
  TXACKPacket_GatewayMAC : EUI64;
  TXACKPacket_Payload : option TXACKPayload
}.

#[export] Instance PushDataPacket_eq_dec : EqDecision PushDataPacket.
Proof. solve_decision. Defined.
#[export] Instance PullRespPacket_eq_dec : EqDecision PullRespPacket.
Proof. solve_decision. Defined.
#[export] Instance TXACKPacket_eq_dec : EqDecision TXACKPacket.
Proof. solve_decision. Defined.

(** [out := make([]byte, 4); out[0] = v; PutUint16(out[1:3], token); out[3] = t] *)
Definition make4 : bytes := replicate 4 "000"%char.

(** The loop that reads the gateway MAC from [data[4:12]]. *)
Fixpoint read_bytes (data : bytes) (i n : nat) : result bytes :=
  match n with
  | O => Ok []
  | S n =>
      let* b := index data i in
      let* rest := read_bytes data (S i) n in
      Ok (b :: rest)
  end.

Definition read_mac (data : bytes) : result EUI64 :=
  let* b := read_bytes data 4 8 in
  match eui_of_bytes b with
  | Some e => Ok e
  | None => Panic "index out of range"
  end.

(** *** PUSH_DATA *)

Section PushData.
Context `{JsonCodec PushDataPayload}.

Definition PushDataPacket_MarshalBinary (p : PushDataPacket) : result bytes :=
  let* pb := json_Marshal (PushDataPacket_Payload p) in
  let out := make4 in
  let out := <[0%nat := byte_of_Z (PushDataPacket_ProtocolVersion p)]> out in
  let out := PutUint16 out 1 (PushDataPacket_RandomToken p) in
  let out := <[3%nat := byte_of_Z PushData]> out in
  let out := out ++ eui_bytes (PushDataPacket_GatewayMAC p) in
  Ok (out ++ pb).

(** The receiver's payload is the destination [json.Unmarshal] decodes into. *)
Definition PushDataPacket_UnmarshalBinary (data : bytes) (p : PushDataPacket)
  : result PushDataPacket :=
  if (length data <? 13)%nat then
    Err (ErrMsg "gateway: at least 13 bytes are expected")
  else
    let* t := index data 3 in
    if negb (Z_of_byte t =? PushData) then
      Err (ErrMsg "gateway: identifier mismatch (PUSH_DATA expected)")
    else
      let* v := index data 0 in
      if negb (protocolSupported (Z_of_byte v)) then Err ErrInvalidProtocolVersion
      else
        let* token := Uint16 data 1 in
        let* mac := read_mac data in
        let* text := slice_from data 12 in
        let* payload := json_Unmarshal text (PushDataPacket_Payload p) in
        Ok (mkPushDataPacket (Z_of_byte v) token mac payload).
End PushData.

(** *** PUSH_ACK *)

Definition PushACKPacket_MarshalBinary (p : PushACKPacket) : result bytes :=
  let out := make4 in
  let out := <[0%nat := byte_of_Z (PushACKPacket_ProtocolVersion p)]> out in
  let out := PutUint16 out 1 (PushACKPacket_RandomToken p) in
  let out := <[3%nat := byte_of_Z PushACK]> out in
  Ok out.

Definition PushACKPacket_UnmarshalBinary (data : bytes) (p : PushACKPacket)
  : result PushACKPacket :=
  if negb (length data =? 4)%nat then Err (ErrMsg "gateway: 4 bytes of data are expected")
  else
    let* t := index data 3 in
    if negb (Z_of_byte t =? PushACK) then
      Err (ErrMsg "gateway: identifier mismatch (PUSH_ACK expected)")
    else
      let* v := index data 0 in
      if negb (protocolSupported (Z_of_byte v)) then Err ErrInvalidProtocolVersion
      else
        let* token := Uint16 data 1 in
        Ok (mkPushACKPacket (Z_of_byte v) token).

(** *** PULL_DATA *)

Definition PullDataPacket_MarshalBinary (p : PullDataPacket) : result bytes :=
  let out := make4 in
  let out := <[0%nat := byte_of_Z (PullDataPacket_ProtocolVersion p)]> out in
  let out := PutUint16 out 1 (PullDataPacket_RandomToken p) in
  let out := <[3%nat := byte_of_Z PullData]> out in
  Ok (out ++ eui_bytes (PullDataPacket_GatewayMAC p)).

Definition PullDataPacket_UnmarshalBinary (data : bytes) (p : PullDataPacket)
  : result PullDataPacket :=
  if negb (length data =? 12)%nat then Err (ErrMsg "gateway: 12 bytes of data are expected")
  else
    let* t := index data 3 in
    if negb (Z_of_byte t =? PullData) then
      Err (ErrMsg "gateway: identifier mismatch (PULL_DATA expected)")
    else
      let* v := index data 0 in
      if negb (protocolSupported (Z_of_byte v)) then Err ErrInvalidProtocolVersion
      else
        let* token := Uint16 data 1 in
        let* mac := read_mac data in
        Ok (mkPullDataPacket (Z_of_byte v) token mac).

(** *** PULL_ACK *)

Definition PullACKPacket_MarshalBinary (p : PullACKPacket) : result bytes :=
  let out := make4 in
  let out := <[0%nat := byte_of_Z (PullACKPacket_ProtocolVersion p)]> out in
  let out := PutUint16 out 1 (PullACKPacket_RandomToken p) in
  let out := <[3%nat := byte_of_Z PullACK]> out in
  Ok out.

Definition PullACKPacket_UnmarshalBinary (data : bytes) (p : PullACKPacket)
  : result PullACKPacket :=
  if negb (length data =? 4)%nat then Err (ErrMsg "gateway: 4 bytes of data are expected")
  else
    let* t := index data 3 in
    if negb (Z_of_byte t =? PullACK) then
      Err (ErrMsg "gateway: identifier mismatch (PULL_ACK expected)")
    else
      let* v := index data 0 in
      if negb (protocolSupported (Z_of_byte v)) then Err ErrInvalidProtocolVersion
      else
        let* token := Uint16 data 1 in
        Ok (mkPullACKPacket (Z_of_byte v) token).

(** *** PULL_RESP *)

Section PullResp.
Context `{JsonCodec PullRespPayload}.

Definition PullRespPacket_MarshalBinary (p : PullRespPacket) : result bytes :=
  let* pb := json_Marshal (PullRespPacket_Payload p) in
  let out := make4 in
  let out := <[0%nat := byte_of_Z (PullRespPacket_ProtocolVersion p)]> out in
  let out :=
    if negb (PullRespPacket_ProtocolVersion p =? ProtocolVersion1)
    then PutUint16 out 1 (PullRespPacket_RandomToken p) else out in
  let out := <[3%nat := byte_of_Z PullResp]> out in
  Ok (out ++ pb).

Definition PullRespPacket_UnmarshalBinary (data : bytes) (p : PullRespPacket)
  : result PullRespPacket :=
  if (length data <? 5)%nat then
    Err (ErrMsg "gateway: at least 5 bytes of data are expected")
  else
    let* t := index data 3 in
    if negb (Z_of_byte t =? PullResp) then
      Err (ErrMsg "gateway: identifier mismatch (PULL_RESP expected)")
    else
      let* v := index data 0 in
      if negb (protocolSupported (Z_of_byte v)) then Err ErrInvalidProtocolVersion
      else
        let* token := Uint16 data 1 in
        let* text := slice_from data 4 in
        let* payload := json_Unmarshal text (PullRespPacket_Payload p) in
        Ok (mkPullRespPacket (Z_of_byte v) token payload).
End PullResp.

(** *** TX_ACK *)

Section TXACK.
Context `{JsonCodec TXACKPayload}.

Definition TXACKPacket_MarshalBinary (p : TXACKPacket) : result bytes :=
  let* pb := match TXACKPacket_Payload p with
             | Some payload => json_Marshal payload
             | None => Ok []
             end in
  let out := make4 in
  let out := <[0%nat := byte_of_Z (TXACKPacket_ProtocolVersion p)]> out in
  let out := PutUint16 out 1 (TXACKPacket_RandomToken p) in
  let out := <[3%nat := byte_of_Z TXACK]> out in
  let out := out ++ eui_bytes (TXACKPacket_GatewayMAC p) in
  Ok (out ++ pb).

Definition TXACKPacket_UnmarshalBinary (data : bytes) (p : TXACKPacket)
  : result TXACKPacket :=
  if (length data <? 12)%nat then
    Err (ErrMsg "gateway: at least 12 bytes of data are expected")
  else
    let* t := index data 3 in
    if negb (Z_of_byte t =? TXACK) then
      Err (ErrMsg "gateway: identifier mismatch (TXACK expected)")
    else
      let* v := index data 0 in
      if negb (protocolSupported (Z_of_byte v)) then Err ErrInvalidProtocolVersion
      else
        let* token := Uint16 data 1 in
        let* mac := read_mac data in
        if (12 <? length data)%nat then
          let* text := slice_from data 12 in
          let* payload := json_Unmarshal text TXACKPayload_zero in
          Ok (mkTXACKPacket (Z_of_byte v) token mac (Some payload))
        else Ok (mkTXACKPacket (Z_of_byte v) token mac (TXACKPacket_Payload p)).
End TXACK.

(** The zero values of the packets ([var p PushDataPacket]). *)
Definition PushDataPacket_zero : PushDataPacket :=
  mkPushDataPacket 0 0 eui_zero PushDataPayload_zero.
Definition PushACKPacket_zero : PushACKPacket := mkPushACKPacket 0 0.
Definition PullDataPacket_zero : PullDataPacket := mkPullDataPacket 0 0 eui_zero.
Definition PullACKPacket_zero : PullACKPacket := mkPullACKPacket 0 0.
Definition PullRespPacket_zero : PullRespPacket := mkPullRespPacket 0 0 PullRespPayload_zero.
Definition TXACKPacket_zero : TXACKPacket := mkTXACKPacket 0 0 eui_zero None.

(** ** Layout lemmas *)

(** The protocol versions and identifiers that travel in one byte. *)
Lemma protocolSupported_true v : protocolSupported v = true ↔ v = 1 ∨ v = 2.
Proof.
  unfold protocolSupported, ProtocolVersion1, ProtocolVersion2.
  destruct (Z.eqb_spec v 1), (Z.eqb_spec v 2); simpl; split; intros; try done; lia.
Qed.

(** The four bytes in front of every packet. *)
Definition header (v token t : Z) : bytes :=
  [byte_of_Z v; byte_of_Z token; byte_of_Z (Z.shiftr token 8); byte_of_Z t].

Lemma header_make4 v token t :
  <[3%nat := byte_of_Z t]> (PutUint16 (<[0%nat := byte_of_Z v]> make4) 1 token)
  = header v token t.
Proof. reflexivity. Qed.

Lemma Z_of_byte_version v : protocolSupported v = true → Z_of_byte (byte_of_Z v) = v.
Proof. rewrite protocolSupported_true. by intros [-> | ->]. Qed.

Lemma Uint16_header v token t rest :
  in_u 16 token = true → Uint16 (header v token t ++ rest) 1 = Ok token.
Proof.
  intros H. rewrite <- (Uint16_PutUint16 (header v token t ++ rest) 1 token); [|simpl; lia|done].
  by apply Uint16_ext.
Qed.

Lemma read_bytes_take data i n :
  (i + n <= length data)%nat → read_bytes data i n = Ok (take n (drop i data)).
Proof.
  revert i. induction n as [|n IH]; intros i H; simpl; [done|].
  destruct (index_ok data i ltac:(lia)) as [b Hb]. rewrite Hb. simpl.
  rewrite IH by lia. simpl. unfold index in Hb. destruct (data !! i) eqn:E; inv_ok. subst.
  by rewrite (drop_S data b i E).
Qed.

(** [data[4:12]] is the gateway MAC. *)
Lemma read_mac_app (h : bytes) (mac : EUI64) (rest : bytes) :
  length h = 4%nat → read_mac (h ++ eui_bytes mac ++ rest) = Ok mac.
Proof.
  intros Hh. unfold read_mac.
  rewrite read_bytes_take by (rewrite !length_app, length_eui_bytes; lia).
  rewrite drop_app_exact, take_app_exact by done. cbn [rbind].
  by rewrite eui_of_bytes_bytes.
Qed.

Lemma read_mac_no_panic data : (12 <= length data)%nat → no_panic (read_mac data).
Proof.
  intros H. unfold read_mac. rewrite read_bytes_take by lia. cbn [rbind].
  destruct (eui_of_bytes_length (take 8 (drop 4 data))) as [e ->]; [|done].
  rewrite length_take, length_drop. lia.
Qed.

#[export] Hint Resolve read_mac_no_panic : go_db.

(** What the decoders check of a header, when it passes. *)
Lemma header_split (data : bytes) :
  (4 <= length data)%nat →
  ∃ b0 b1 b2 b3 rest, data = b0 :: b1 :: b2 :: b3 :: rest.
Proof. destruct data as [|? [|? [|? [|? ?]]]]; simpl; try lia. eauto 10. Qed.

Lemma header_of_bytes b0 b1 b2 b3 token :
  Uint16 [b0; b1; b2; b3] 1 = Ok token →
  header (Z_of_byte b0) token (Z_of_byte b3) = [b0; b1; b2; b3].
Proof.
  unfold Uint16, index. simpl. intros H. inv_ok. subst.
  pose proof (Z_of_byte_range b1). pose proof (Z_of_byte_range b2).
  unfold header. rewrite !byte_of_Z_of_byte. do 2 f_equal.
  - apply Z_of_byte_inj. rewrite Z_of_byte_of_Z, lor_shiftl_bytes by done.
    rewrite Z.mul_comm, Z_mod_plus_full. by apply Z.mod_small.
  - f_equal. apply Z_of_byte_inj. rewrite Z_of_byte_of_Z, lor_shiftl_bytes by done.
    rewrite Z.shiftr_div_pow2 by lia. change (2 ^ 8) with 256.
    Z.to_euclidean_division_equations. lia.
Qed.

(** The version and the token of a packet fit the fields of the header. *)
Definition header_wf (v token : Z) : Prop := protocolSupported v = true ∧ in_u 16 token = true.

(** The decoding steps that every packet of type [t] shares, on a text that
    starts with a header. *)
Lemma index_header v token t rest :
  index (header v token t ++ rest) 0 = Ok (byte_of_Z v) ∧
  index (header v token t ++ rest) 3 = Ok (byte_of_Z t).
Proof. done. Qed.

Ltac packet_fields :=
  cbn [PushDataPacket_ProtocolVersion PushDataPacket_RandomToken PushDataPacket_GatewayMAC
       PushDataPacket_Payload PushACKPacket_ProtocolVersion PushACKPacket_RandomToken
       PullDataPacket_ProtocolVersion PullDataPacket_RandomToken PullDataPacket_GatewayMAC
       PullACKPacket_ProtocolVersion PullACKPacket_RandomToken
       PullRespPacket_ProtocolVersion PullRespPacket_RandomToken PullRespPacket_Payload
       TXACKPacket_ProtocolVersion TXACKPacket_RandomToken TXACKPacket_GatewayMAC
       TXACKPacket_Payload].

(** Runs the common prefix of a decoder on a header. *)
Ltac run_header Hv Ht :=
  rewrite ?(proj1 (index_header _ _ _ _)), ?(proj2 (index_header _ _ _ _)); cbn [rbind];
  repeat match goal with
  | |- context [negb (Z_of_byte (byte_of_Z ?t) =? ?t)] =>
      change (negb (Z_of_byte (byte_of_Z t) =? t)) with false; cbn iota
  end;
  rewrite ?(Z_of_byte_version _ Hv), ?Hv, ?(Uint16_header _ _ _ _ Ht); cbn [rbind negb].

(** ** Round trips *)

Section PushDataRoundTrip.
Context `{JsonRoundTrip PushDataPayload wf dst_ok}.

Lemma PushDataPacket_roundtrip_gen p prior :
  header_wf (PushDataPacket_ProtocolVersion p) (PushDataPacket_RandomToken p) →
  wf (PushDataPacket_Payload p) → dst_ok (PushDataPacket_Payload prior) →
  ∃ data, PushDataPacket_MarshalBinary p = Ok data ∧
          PushDataPacket_UnmarshalBinary data prior = Ok p.
Proof.
  destruct p as [v token mac payload]. packet_fields. intros [Hv Ht] Hp Hf.
  destruct (json_roundtrip payload (PushDataPacket_Payload prior) Hp Hf) as (b & Hm & Hne & Hu).
  unfold PushDataPacket_MarshalBinary. packet_fields. rewrite Hm. cbn [rbind].
  rewrite header_make4. eexists. split; [done|]. rewrite <- app_assoc.
  unfold PushDataPacket_UnmarshalBinary.
  destruct (Nat.ltb_spec (length (header v token PushData ++ eui_bytes mac ++ b)) 13) as [Hl|_].
  { destruct b; [done|]. rewrite !length_app in Hl. simpl in Hl. lia. }
  run_header Hv Ht. rewrite read_mac_app by done. cbn [rbind].
  rewrite slice_from_ok by (rewrite !length_app; simpl; lia). cbn [rbind].
  rewrite app_assoc, drop_app_exact by done. by rewrite Hu.
Qed.
End PushDataRoundTrip.

Section PullRespRoundTrip.
Context `{JsonRoundTrip PullRespPayload wf dst_ok}.

(** Protocol version 1 does not carry the token. *)
Definition PullRespPacket_sent (p : PullRespPacket) : PullRespPacket :=
  mkPullRespPacket (PullRespPacket_ProtocolVersion p)
    (if PullRespPacket_ProtocolVersion p =? ProtocolVersion1 then 0
     else PullRespPacket_RandomToken p)
    (PullRespPacket_Payload p).

Lemma PullRespPacket_roundtrip_gen p prior :
  header_wf (PullRespPacket_ProtocolVersion p) (PullRespPacket_RandomToken p) →
  wf (PullRespPacket_Payload p) → dst_ok (PullRespPacket_Payload prior) →
  ∃ data, PullRespPacket_MarshalBinary p = Ok data ∧
          PullRespPacket_UnmarshalBinary data prior = Ok (PullRespPacket_sent p).
Proof.
  destruct p as [v token payload]. unfold PullRespPacket_sent. packet_fields. intros [Hv Ht] Hp Hf.
  destruct (json_roundtrip payload (PullRespPacket_Payload prior) Hp Hf) as (b & Hm & Hne & Hu).
  unfold PullRespPacket_MarshalBinary. packet_fields. rewrite Hm. cbn [rbind].
  set (tok := if v =? ProtocolVersion1 then 0 else token).
  assert (in_u 16 tok = true) as Htok by (subst tok; by destruct (v =? _)).
  exists (header v tok PullResp ++ b). split.
  { subst tok. by destruct (v =? ProtocolVersion1). }
  unfold PullRespPacket_UnmarshalBinary.
  destruct (Nat.ltb_spec (length (header v tok PullResp ++ b)) 5) as [Hl|_].
  { destruct b; [done|]. rewrite !length_app in Hl. simpl in Hl. lia. }
  run_header Hv Htok.
  rewrite slice_from_ok by (rewrite !length_app; simpl; lia). cbn [rbind].
  rewrite drop_app_exact by done. by rewrite Hu.
Qed.
End PullRespRoundTrip.

Section TXACKRoundTrip.
Context `{JsonRoundTrip TXACKPayload wf dst_ok}.

Lemma TXACKPacket_roundtrip_gen p prior :
  header_wf (TXACKPacket_ProtocolVersion p) (TXACKPacket_RandomToken p) →
  match TXACKPacket_Payload p with
  | Some payload => wf payload ∧ dst_ok TXACKPayload_zero
  | None => TXACKPacket_Payload prior = None
  end →
  ∃ data, TXACKPacket_MarshalBinary p = Ok data ∧
          TXACKPacket_UnmarshalBinary data prior = Ok p.
Proof.
  destruct p as [v token mac payload]. packet_fields. intros [Hv Ht] Hp.
  assert (∃ b, match payload with Some x => json_Marshal x | None => Ok [] end = Ok b ∧
    match payload with
    | Some x => b ≠ [] ∧ json_Unmarshal b TXACKPayload_zero = Ok x
    | None => b = []
    end) as (b & Hm & Hb).
  { destruct payload as [x|]; [|by exists []]. destruct Hp as [Hx Hz].
    destruct (json_roundtrip x _ Hx Hz) as (b & ? & ? & ?). eauto. }
  unfold TXACKPacket_MarshalBinary. packet_fields. rewrite Hm. cbn [rbind].
  rewrite header_make4. eexists. split; [done|]. rewrite <- app_assoc.
  unfold TXACKPacket_UnmarshalBinary.
  destruct (Nat.ltb_spec (length (header v token TXACK ++ eui_bytes mac ++ b)) 12) as [Hl|_].
  { rewrite !length_app in Hl. simpl in Hl. lia. }
  run_header Hv Ht. rewrite read_mac_app by done. cbn [rbind].
  rewrite slice_from_ok by (rewrite !length_app; simpl; lia). cbn [rbind].
  rewrite app_assoc, drop_app_exact by done.
  destruct payload as [x|].
  - destruct Hb as [Hne Hu]. rewrite Hu. rewrite !length_app.
    by destruct b as [|c b]; [done|].
  - subst b. by rewrite Hp.
Qed.
End TXACKRoundTrip.

(** *** The packets with the payloads of the protocol *)

Definition PushDataPacket_wf (p : PushDataPacket) : Prop :=
  header_wf (PushDataPacket_ProtocolVersion p) (PushDataPacket_RandomToken p) ∧
  PushDataPayload_wf (PushDataPacket_Payload p).

Definition PullRespPacket_wf (p : PullRespPacket) : Prop :=
  header_wf (PullRespPacket_ProtocolVersion p) (PullRespPacket_RandomToken p) ∧
  PullRespPayload_wf (PullRespPacket_Payload p).

Definition TXACKPacket_wf (p : TXACKPacket) : Prop :=
  header_wf (TXACKPacket_ProtocolVersion p) (TXACKPacket_RandomToken p) ∧
  match TXACKPacket_Payload p with Some payload => TXACKPayload_wf payload | None => True end.

(** C22: Every well-formed PUSH_DATA, with any number of rxpk and an optional stat,
    marshals to bytes that unmarshal to the same packet. *)
Theorem PushDataPacket_roundtrip `{HostZone} p :
  PushDataPacket_wf p →
  ∃ data, PushDataPacket_MarshalBinary p = Ok data ∧
          PushDataPacket_UnmarshalBinary data PushDataPacket_zero = Ok p.
Proof. intros [Hh Hp]. by apply PushDataPacket_roundtrip_gen. Qed.

(** Every well-formed PULL_RESP marshals to bytes that unmarshal to the same
    packet with the random token replaced by zero, which is what is sent. *)
Theorem PullRespPacket_roundtrip p :
  PullRespPacket_wf p →
  ∃ data, PullRespPacket_MarshalBinary p = Ok data ∧
          PullRespPacket_UnmarshalBinary data PullRespPacket_zero = Ok (PullRespPacket_sent p).
Proof. intros [Hh Hp]. by apply PullRespPacket_roundtrip_gen. Qed.

(** Every well-formed TX_ACK, with or without an error payload, marshals to bytes
    that unmarshal to the same packet. *)
Theorem TXACKPacket_roundtrip p :
  TXACKPacket_wf p →
  ∃ data, TXACKPacket_MarshalBinary p = Ok data ∧
          TXACKPacket_UnmarshalBinary data TXACKPacket_zero = Ok p.
Proof.
  intros [Hh Hp]. apply TXACKPacket_roundtrip_gen; [done|]. by destruct (TXACKPacket_Payload p).
Qed.

(** *** The packets without a payload: decoding inverts encoding exactly *)

Ltac decode_guards H :=
  repeat match type of H with
  | (if ?c then _ else _) = Ok _ => destruct c eqn:?; [try discriminate H|try discriminate H]
  | rbind _ _ = Ok _ => let a := fresh "a" in apply rbind_ok in H as (a & ? & H)
  end.

Lemma header_decoded data b0 b3 token :
  (4 <= length data)%nat → index data 0 = Ok b0 → index data 3 = Ok b3 →
  Uint16 data 1 = Ok token →
  data = header (Z_of_byte b0) token (Z_of_byte b3) ++ drop 4 data.
Proof.
  intros Hl H0 H3 Ht. destruct (header_split data Hl) as (c0 & c1 & c2 & c3 & rest & ->).
  unfold index in H0, H3. simpl in H0, H3. injection H0 as ->. injection H3 as ->.
  rewrite (header_of_bytes b0 c1 c2 b3 token); [done|].
  by rewrite <- Ht.
Qed.

Lemma read_mac_decoded data mac :
  (12 <= length data)%nat → read_mac data = Ok mac →
  drop 4 data = eui_bytes mac ++ drop 12 data.
Proof.
  intros Hl H. unfold read_mac in H. rewrite read_bytes_take in H by lia. cbn [rbind] in H.
  destruct (eui_of_bytes _) as [e|] eqn:He; [|done]. injection H as <-.
  apply eui_of_bytes_Some in He. rewrite <- He.
  rewrite <- (take_drop 8 (drop 4 data)) at 1. by rewrite drop_drop.
Qed.

(** Turns the guards of a decoder that succeeded into propositions. *)
Ltac guard_props :=
  repeat match goal with
  | H : negb _ = false |- _ => apply negb_false_iff in H
  | H : (_ =? _)%nat = true |- _ => apply Nat.eqb_eq in H
  | H : (_ <? _)%nat = false |- _ => apply Nat.ltb_ge in H
  | H : (_ =? _) = true |- _ => apply Z.eqb_eq in H
  end.

Lemma length_data_drop (data : bytes) n : length data = n → drop n data = [].
Proof. intros. apply drop_ge. lia. Qed.

Lemma PullDataPacket_decode_iff data prior p :
  PullDataPacket_UnmarshalBinary data prior = Ok p ↔
  header_wf (PullDataPacket_ProtocolVersion p) (PullDataPacket_RandomToken p) ∧
  PullDataPacket_MarshalBinary p = Ok data.
Proof.
  destruct p as [v token mac]. unfold PullDataPacket_MarshalBinary. packet_fields.
  rewrite header_make4. unfold PullDataPacket_UnmarshalBinary. split.
  - intros H. decode_guards H. injection H as <- <- <-. guard_props.
    split; [split; eauto using Uint16_range|]. f_equal.
    rewrite (header_decoded data a0 a a1) by (done || lia).
    rewrite (read_mac_decoded data a2), length_data_drop, app_nil_r by (done || lia). congruence.
  - intros [[Hv Ht] <-%(inj Ok)]. run_header Hv Ht.
    rewrite <- (app_nil_r (eui_bytes mac)), read_mac_app by done. done.
Qed.

Lemma PushACKPacket_decode_iff data prior p :
  PushACKPacket_UnmarshalBinary data prior = Ok p ↔
  header_wf (PushACKPacket_ProtocolVersion p) (PushACKPacket_RandomToken p) ∧
  PushACKPacket_MarshalBinary p = Ok data.
Proof.
  destruct p as [v token]. unfold PushACKPacket_MarshalBinary. packet_fields.
  rewrite header_make4. unfold PushACKPacket_UnmarshalBinary. split.
  - intros H. decode_guards H. injection H as <- <-. guard_props.
    split; [split; eauto using Uint16_range|]. f_equal.
    rewrite (header_decoded data a0 a a1) by (done || lia).
    rewrite length_data_drop, app_nil_r by done. congruence.
  - intros [[Hv Ht] <-%(inj Ok)]. rewrite <- (app_nil_r (header _ _ _)). by run_header Hv Ht.
Qed.

Lemma PullACKPacket_decode_iff data prior p :
  PullACKPacket_UnmarshalBinary data prior = Ok p ↔
  header_wf (PullACKPacket_ProtocolVersion p) (PullACKPacket_RandomToken p) ∧
  PullACKPacket_MarshalBinary p = Ok data.
Proof.
  destruct p as [v token]. unfold PullACKPacket_MarshalBinary. packet_fields.
  rewrite header_make4. unfold PullACKPacket_UnmarshalBinary. split.
  - intros H. decode_guards H. injection H as <- <-. guard_props.
    split; [split; eauto using Uint16_range|]. f_equal.
    rewrite (header_decoded data a0 a a1) by (done || lia).
    rewrite length_data_drop, app_nil_r by done. congruence.
  - intros [[Hv Ht] <-%(inj Ok)]. rewrite <- (app_nil_r (header _ _ _)). by run_header Hv Ht.
Qed.

(** C24: PUSH_ACK, PULL_DATA and PULL_ACK decode exactly the encodings of the
    packets with a supported version and a 16-bit token: decoding accepts nothing
    else, whatever the receiver held before. *)
Theorem fixed_packets_decode_iff data :
  (∀ prior p, PushACKPacket_UnmarshalBinary data prior = Ok p ↔
    header_wf (PushACKPacket_ProtocolVersion p) (PushACKPacket_RandomToken p) ∧
    PushACKPacket_MarshalBinary p = Ok data) ∧
  (∀ prior p, PullDataPacket_UnmarshalBinary data prior = Ok p ↔
    header_wf (PullDataPacket_ProtocolVersion p) (PullDataPacket_RandomToken p) ∧
    PullDataPacket_MarshalBinary p = Ok data) ∧
  (∀ prior p, PullACKPacket_UnmarshalBinary data prior = Ok p ↔
    header_wf (PullACKPacket_ProtocolVersion p) (PullACKPacket_RandomToken p) ∧
    PullACKPacket_MarshalBinary p = Ok data).
Proof.
  split_and!; intros prior p;
    [apply PushACKPacket_decode_iff|apply PullDataPacket_decode_iff|apply PullACKPacket_decode_iff].
Qed.

(** ** Hostile input: no decoder panics *)

Ltac no_panic_steps :=
  repeat match goal with
  | |- no_panic (Ok _) => exact I
  | |- no_panic (Err _) => exact I
  | |- no_panic (if ?c then _ else _) => destruct c eqn:?; guard_props
  | |- no_panic (rbind _ _) => apply rbind_no_panic; [|intros ? _]
  | |- no_panic (index _ _) => apply index_no_panic; lia
  | |- no_panic (Uint16 _ _) => apply Uint16_no_panic; lia
  | |- no_panic (slice_from _ _) => apply slice_from_no_panic; lia
  | |- no_panic (read_mac _) => apply read_mac_no_panic; lia
  | |- no_panic (json_Unmarshal _ _) => apply json_no_panic
  end.

Lemma UnmarshalBinary_no_panic `{HostZone} data :
  no_panic (GetPacketType data) ∧
  (∀ p, no_panic (PushDataPacket_UnmarshalBinary data p)) ∧
  (∀ p, no_panic (PushACKPacket_UnmarshalBinary data p)) ∧
  (∀ p, no_panic (PullDataPacket_UnmarshalBinary data p)) ∧
  (∀ p, no_panic (PullACKPacket_UnmarshalBinary data p)) ∧
  (∀ p, no_panic (PullRespPacket_UnmarshalBinary data p)) ∧
  (∀ p, no_panic (TXACKPacket_UnmarshalBinary data p)).
Proof.
  unfold GetPacketType, PushDataPacket_UnmarshalBinary, PushACKPacket_UnmarshalBinary,
    PullDataPacket_UnmarshalBinary, PullACKPacket_UnmarshalBinary,
    PullRespPacket_UnmarshalBinary, TXACKPacket_UnmarshalBinary.
  repeat split; intros; no_panic_steps.
Qed.

Lemma PullRespPacket_MarshalBinary_no_panic p : no_panic (PullRespPacket_MarshalBinary p).
Proof. apply rbind_no_panic; [apply json_Marshal_no_panic|done]. Qed.

(** ** The type of a packet *)

Lemma GetPacketType_header v token t rest :
  protocolSupported v = true →
  GetPacketType (header v token t ++ rest) = Ok (Z_of_byte (byte_of_Z t)).
Proof.
  intros Hv. unfold GetPacketType.
  change (length (header v token t ++ rest) <? 4)%nat with false. cbn iota.
  rewrite (proj1 (index_header _ _ _ _)), (proj2 (index_header _ _ _ _)). cbn [rbind].
  by rewrite (Z_of_byte_version _ Hv), Hv.
Qed.

Lemma GetPacketType_of data v t :
  (4 <= length data)%nat → index data 0 = Ok v → index data 3 = Ok t →
  protocolSupported (Z_of_byte v) = true → GetPacketType data = Ok (Z_of_byte t).
Proof.
  intros Hl H0 H3 Hv. unfold GetPacketType.
  destruct (Nat.ltb_spec (length data) 4); [lia|].
  by rewrite H0, H3; cbn [rbind]; rewrite Hv.
Qed.

Lemma GetPacketType_sound `{HostZone} data :
  (∀ p q, PushDataPacket_UnmarshalBinary data p = Ok q → GetPacketType data = Ok PushData) ∧
  (∀ p q, PushACKPacket_UnmarshalBinary data p = Ok q → GetPacketType data = Ok PushACK) ∧
  (∀ p q, PullDataPacket_UnmarshalBinary data p = Ok q → GetPacketType data = Ok PullData) ∧
  (∀ p q, PullACKPacket_UnmarshalBinary data p = Ok q → GetPacketType data = Ok PullACK) ∧
  (∀ p q, PullRespPacket_UnmarshalBinary data p = Ok q → GetPacketType data = Ok PullResp) ∧
  (∀ p q, TXACKPacket_UnmarshalBinary data p = Ok q → GetPacketType data = Ok TXACK).
Proof.
  unfold PushDataPacket_UnmarshalBinary, PushACKPacket_UnmarshalBinary,
    PullDataPacket_UnmarshalBinary, PullACKPacket_UnmarshalBinary,
    PullRespPacket_UnmarshalBinary, TXACKPacket_UnmarshalBinary.
  repeat split; intros p q Hd; decode_guards Hd; guard_props;
    (erewrite GetPacketType_of; [by f_equal|lia|done|done|done]).
Qed.

Lemma PacketType_String_spec t :
  0 ≤ t →
  PacketType_String t = Ok
    match t with
    | 0 => "PushData" | 1 => "PushACK" | 2 => "PullData"
    | 3 => "PullResp" | 4 => "PullACK" | 5 => "TXACK"
    | _ => to_string (to_bytes "PacketType(" ++ FormatInt t ++ to_bytes ")")
    end.
Proof.
  intros Ht. unfold PacketType_String. destruct (Z.leb_spec 6 t) as [H|H].
  - replace (Z.of_nat (length _PacketType_index - 1) <=? t) with true
      by (symmetry; apply Z.leb_le; simpl; lia).
    destruct t as [|[[[]|[]|]|[[]|[]|]|]|]; try lia; done.
  - assert (t = 0 ∨ t = 1 ∨ t = 2 ∨ t = 3 ∨ t = 4 ∨ t = 5) as Hc by lia.
    by destruct Hc as [->|[->|[->|[->|[->| ->]]]]].
Qed.
