(* ===== verification/GoNet.v ===== *)
(** * [net]: addresses

    [net.UDPAddr] and the text of [net.IP], which the gateway statistics
    carry. *)

From Stdlib Require Import String Ascii NArith ZArith Lia.
From stdpp Require Import base list strings numbers.
From S2P Require Import Prelude GoPrim GoStrconv.

Local Open Scope string_scope.
Local Open Scope list_scope.
Local Open Scope Z_scope.

Definition IP : Type := bytes.

Record UDPAddr : Type := mkUDPAddr {
  UDPAddr_IP : IP;
  UDPAddr_Port : Z;
  UDPAddr_Zone : string
}.

#[export] Instance UDPAddr_eq_dec : EqDecision UDPAddr.
Proof. solve_decision. Defined.

(** [ip.To4()] *)
Definition To4 (ip : IP) : option bytes :=
  if (length ip =? 4)%nat then Some ip
  else if (length ip =? 16)%nat && bool_decide (take 10 ip = replicate 10 "000"%char)
          && bool_decide (ip !! 10%nat = Some "255"%char)
          && bool_decide (ip !! 11%nat = Some "255"%char)
  then Some (drop 12 ip) else None.

Fixpoint join_with (sep : bytes) (l : list bytes) : bytes :=
  match l with
  | [] => []
  | [x] => x
  | x :: l => x ++ sep ++ join_with sep l
  end.

(** The 16-bit groups of an IPv6 address. *)
Fixpoint groups (ip : bytes) : list Z :=
  match ip with
  | a :: b :: ip => Z.lor (Z.shiftl (Z_of_byte a) 8) (Z_of_byte b) :: groups ip
  | _ => []
  end.

(** The number of leading zero groups. *)
Fixpoint zero_run (g : list Z) : nat :=
  match g with
  | 0 :: g => S (zero_run g)
  | _ => O
  end.

(** The first longest run of zero groups: start and length. *)
Fixpoint longest_run (i : nat) (g : list Z) (best : nat * nat) : nat * nat :=
  match g with
  | [] => best
  | _ :: g' =>
      let n := zero_run g in
      longest_run (S i) g' (if (snd best <? n)%nat then (i, n) else best)
  end.

(** [appendHex]: no leading zeros, at least one digit *)
Definition append_hex (g : Z) : bytes :=
  let d k := hex_digit (Z.shiftr g k mod 16) in
  if g <? 16 then [d 0]
  else if g <? 256 then [d 4; d 0]
  else if g <? 4096 then [d 8; d 4; d 0]
  else [d 12; d 8; d 4; d 0].

(** [ip.String()] *)
Definition IP_bytes (ip : IP) : bytes :=
  match ip with
  | [] => to_bytes "<nil>"
  | _ =>
      match To4 ip with
      | Some p4 => join_with (to_bytes ".") (map (λ b, FormatUint (Z_of_byte b)) p4)
      | None =>
          if negb (length ip =? 16)%nat then "?"%char :: hex_encode ip
          else
            let g := groups ip in
            let '(e0, n) := longest_run 0 g (0%nat, 0%nat) in
            let txt := λ l, join_with (to_bytes ":") (map append_hex l) in
            if (n <? 2)%nat then txt g
            else txt (take e0 g) ++ to_bytes "::" ++ txt (drop (e0 + n) g)
      end
  end.

Definition IP_String (ip : IP) : string := to_string (IP_bytes ip).

(** [net.IPv4(a, b, c, d)] *)
Definition IPv4 (a b c d : Z) : IP :=
  replicate 10 "000"%char ++ ["255"%char; "255"%char] ++ map byte_of_Z [a; b; c; d].

Example IP_tests :
  map IP_String
    [IPv4 127 0 0 1; map byte_of_Z [10; 0; 0; 7]; [];
     map byte_of_Z [32; 1; 13; 184; 0; 0; 0; 0; 0; 0; 0; 0; 0; 0; 0; 1];
     map byte_of_Z [0; 0; 0; 0; 0; 0; 0; 0; 0; 0; 0; 0; 0; 0; 0; 1];
     map byte_of_Z [0; 1; 0; 0; 0; 2; 0; 0; 0; 0; 0; 3; 0; 0; 0; 0]]
  = ["127.0.0.1"; "10.0.0.7"; "<nil>"; "2001:db8::1"; "::1"; "1:0:2::3:0:0"].
Proof. vm_compute. reflexivity. Qed.
