(* ===== verification/GoSync.v ===== *)
(** * Waiting: [sync.WaitGroup]

    The wait group of Go's standard library, as the backend and the monitored
    streams use it: a counter, the goroutines blocked in [Wait], and those that
    were released and did not run yet.  The last ones make the difference between
    a call of [Wait] that returns and one that panics. *)

From Stdlib Require Import String NArith ZArith Lia.
From stdpp Require Import base list strings numbers.
From S2P Require Import Prelude GoPrim.

Local Open Scope string_scope.
Local Open Scope nat_scope.

Record WaitGroup : Type := mkWaitGroup {
  wg_counter : nat;
  wg_waiters : nat;
  wg_released : nat
}.

#[export] Instance WaitGroup_eq_dec : EqDecision WaitGroup.
Proof. solve_decision. Defined.

Definition wg_zero : WaitGroup := mkWaitGroup 0 0 0.

Definition reuse_panic : string := "sync: WaitGroup is reused before previous Wait has returned".

(** [Add(1)] *)
Definition wg_Add (g : WaitGroup) : WaitGroup :=
  mkWaitGroup (S (wg_counter g)) (wg_waiters g) (wg_released g).

(** [Done()]: the waiters are released when the counter reaches zero. *)
Definition wg_Done (g : WaitGroup) : result WaitGroup :=
  match wg_counter g with
  | O => Panic "sync: negative WaitGroup counter"
  | 1 => Ok (mkWaitGroup 0 0 (wg_released g + wg_waiters g))
  | S n => Ok (mkWaitGroup n (wg_waiters g) (wg_released g))
  end.

(** [Wait()]: returns at once or blocks. *)
Definition wg_Wait (g : WaitGroup) : bool * WaitGroup :=
  match wg_counter g with
  | O => (true, g)
  | _ => (false, mkWaitGroup (wg_counter g) (S (wg_waiters g)) (wg_released g))
  end.

(** A goroutine that was released returns from [Wait], and panics when the group
    is in use again. *)
Definition wg_wake (g : WaitGroup) : option (result WaitGroup) :=
  match wg_released g with
  | O => None
  | S n =>
      Some (match wg_counter g, wg_waiters g with
            | O, O => Ok (mkWaitGroup 0 0 n)
            | _, _ => Panic reuse_panic
            end)
  end.

(** ** A group with [n] goroutines in it *)

Lemma wg_Done_counted g n : wg_counter g = S n →
  ∃ g', wg_Done g = Ok g' ∧ wg_counter g' = n ∧
    wg_waiters g' + wg_released g' = wg_waiters g + wg_released g ∧
    (n = 0 → wg_waiters g' = 0) ∧ (n ≠ 0 → wg_waiters g' = wg_waiters g).
Proof.
  unfold wg_Done. intros ->. destruct n; eexists; (split; [reflexivity|]); cbn; lia.
Qed.

(** A woken goroutine panics only because somebody counts again. *)
Lemma wg_wake_spec g r : wg_wake g = Some r → (wg_counter g = 0 → wg_waiters g = 0) →
  0 < wg_released g ∧
  match r with
  | Ok g' => wg_counter g = 0 ∧ g' = mkWaitGroup 0 0 (pred (wg_released g))
  | Panic why => why = reuse_panic ∧ wg_counter g ≠ 0
  | Err _ => False
  end.
Proof.
  unfold wg_wake. destruct (wg_released g) as [|n]; [done|]. intros Hr Hw. split; [lia|].
  destruct (wg_counter g) as [|k] eqn:Ec; [rewrite (Hw eq_refl) in Hr|]; by injection Hr as <-.
Qed.

(** ** A group of one goroutine

    A goroutine that takes the group and gives it back in turns: the counter is at
    one, or at zero with nobody waiting. *)
Definition wg_turn (busy : bool) (g : WaitGroup) : Prop :=
  if busy then wg_counter g = 1 else wg_counter g = 0 ∧ wg_waiters g = 0.

Lemma wg_turn_Done g : wg_turn true g → ∃ g', wg_Done g = Ok g' ∧ wg_turn false g'.
Proof. unfold wg_turn, wg_Done. intros ->. eauto. Qed.

Lemma wg_turn_Add g : wg_turn false g → wg_turn true (wg_Add g).
Proof. unfold wg_turn, wg_Add. cbn. intros [-> _]. done. Qed.

Lemma wg_turn_Wait busy g : wg_turn busy g →
  (wg_Wait g).1 = negb busy ∧ wg_turn busy (wg_Wait g).2.
Proof. unfold wg_turn, wg_Wait. destruct busy; [intros ->|intros [E ?]; rewrite E]; done. Qed.

Lemma wg_turn_wake busy g r : wg_turn busy g → wg_wake g = Some r →
  match r with
  | Ok g' => busy = false ∧ wg_turn false g'
  | Panic p => busy = true ∧ p = reuse_panic
  | Err _ => False
  end.
Proof.
  unfold wg_turn, wg_wake. destruct (wg_released g); [done|].
  destruct busy; [intros ->|intros [-> ->]]; by intros [= <-].
Qed.
