(* ===== verification/Registry.v ===== *)
(** * The gateway registry

    The type [gateways] of [gateway/backend.go]: the map from gateway MACs to
    their address, protocol version and last contact, with the callbacks that
    announce a new gateway and a removed one.  The callbacks act on a state of
    their own (the network backend), which the operations thread through. *)

From Stdlib Require Import String Ascii NArith ZArith Lia.
From stdpp Require Import base gmap list strings numbers.
From S2P Require Import Prelude GoPrim GoFloat GoNet Lorawan.

Local Open Scope string_scope.
Local Open Scope list_scope.
Local Open Scope Z_scope.

Record gateway : Type := mkGateway {
  gateway_addr : option UDPAddr;
  gateway_lastSeen : Time;
  gateway_protocolVersion : Z
}.

#[export] Instance gateway_eq_dec : EqDecision gateway.
Proof. solve_decision. Defined.

Definition gateway_zero : gateway := mkGateway None Time_zero 0.

(** [-1 * time.Minute] *)
Definition gatewayCleanupDuration : Z := -1 * (60 * 1000000000).

Section Registry.
(** The state the callbacks act on. *)
Context {W : Type}.

(** [onNew]: a call that does not wait. *)
Definition callback : Type := EUI64 → W → option error * W.

(** What has become of a call that may wait: it returned, it is waiting, or it
    panicked. *)
Inductive answer : Type :=
| Returned (err : option error) (w : W)
| Waits (w : W)
| Panicked (why : string).

(** [onDelete]: the call up to its end or to where it waits, and the rest of it,
    [None] while it still has to wait. *)
Record waiting_callback : Type := mkWaitingCallback {
  wc_call : EUI64 → W → answer;
  wc_resume : EUI64 → W → option answer
}.

Record gateways : Type := mkGateways {
  gateways_map : gmap EUI64 gateway;
  gateways_onNew : option callback;
  gateways_onDelete : option waiting_callback
}.

Definition with_map (c : gateways) (m : gmap EUI64 gateway) : gateways :=
  mkGateways m (gateways_onNew c) (gateways_onDelete c).

(** [func (c *gateways) get(mac) (gateway, error)]: the zero gateway comes
    with the error. *)
Definition gateways_get (c : gateways) (mac : EUI64) : gateway * option error :=
  match gateways_map c !! mac with
  | Some gw => (gw, None)
  | None => (gateway_zero, Some ErrGatewayDoesNotExist)
  end.

(** [func (c *gateways) set(mac, gw) error] *)
Definition gateways_set (c : gateways) (mac : EUI64) (gw : gateway) (w : W)
  : option error * gateways * W :=
  match gateways_map c !! mac, gateways_onNew c with
  | None, Some onNew =>
      let '(err, w) := onNew mac w in
      match err with
      | Some e => (Some e, c, w)
      | None => (None, with_map c (<[mac := gw]> (gateways_map c)), w)
      end
  | _, _ => (None, with_map c (<[mac := gw]> (gateways_map c)), w)
  end.

(** [lastSeen.Before(time.Now().Add(gatewayCleanupDuration))] *)
Definition stale (now : Time) (gw : gateway) : bool :=
  gateway_lastSeen gw <? now + gatewayCleanupDuration.

(** ** Cleaning up *)

(** The goroutine that cleans up: sleeping, ranging over the map with the lock
    held (with the keys still to come), in a call of [onDelete], or back from
    [cleanup] with its error, the lock released. *)
Inductive cleaner : Type :=
| Asleep
| Ranging (rest : list EUI64)
| Deleting (mac : EUI64) (rest : list EUI64)
| Cleaned (err : option error).

(** Whether the clean-up holds the registry's lock. *)
Definition cleaning (cl : cleaner) : bool :=
  match cl with Ranging _ | Deleting _ _ => true | Asleep | Cleaned _ => false end.

(** [if err := c.onDelete(mac); err != nil { return err }], [delete(c.gateways, mac)] *)
Definition cleanup_deleted (mac : EUI64) (rest : list EUI64) (c : gateways) (a : answer)
    : result (cleaner * gateways * W) :=
  match a with
  | Returned None w => Ok (Ranging rest, with_map c (delete mac (gateways_map c)), w)
  | Returned (Some e) w => Ok (Cleaned (Some e), c, w)
  | Waits w => Ok (Deleting mac rest, c, w)
  | Panicked why => Panic why
  end.

(** [func (c *gateways) cleanup() error], from the lock on: one turn of the range,
    or the end of a call of [onDelete].  The clock is read at each key. *)
Definition cleanup_step (now : Time) (cl : cleaner) (c : gateways) (w : W)
    : option (result (cleaner * gateways * W)) :=
  match cl with
  | Asleep | Cleaned _ => None
  | Ranging [] => Some (Ok (Cleaned None, c, w))
  | Ranging (mac :: rest) =>
      match gateways_map c !! mac with
      | Some gw =>
          if stale now gw then
            Some (cleanup_deleted mac rest c
              (match gateways_onDelete c with
               | Some onDelete => wc_call onDelete mac w
               | None => Returned None w
               end))
          else Some (Ok (Ranging rest, c, w))
      | None => Some (Ok (Ranging rest, c, w))
      end
  | Deleting mac rest =>
      onDelete ← gateways_onDelete c; a ← wc_resume onDelete mac w;
      Some (cleanup_deleted mac rest c a)
  end.

(** The keys of the map in some order, each once. *)
Definition ranges (order : list EUI64) (c : gateways) : Prop :=
  NoDup order ∧ ∀ mac, mac ∈ order ↔ is_Some (gateways_map c !! mac).
End Registry.

Arguments gateways : clear implicits.
Arguments callback : clear implicits.
Arguments waiting_callback : clear implicits.
Arguments answer : clear implicits.

#[export] Instance cleaner_eq_dec : EqDecision cleaner.
Proof. solve_decision. Defined.

(** ** The contract with the network backend

    What the registry relies on: a successful [onNew] subscribes the gateway, a
    call of [onDelete] that returns without error has unsubscribed it, and calls
    that fail or wait leave the subscriptions alone.  [subs] is the set of
    subscribed gateways of a state of the backend. *)
Definition answers {W} (subs : W → gset EUI64) (mac : EUI64) (w : W) (a : answer W) : Prop :=
  match a with
  | Returned None w' => subs w' = subs w ∖ {[mac]}
  | Returned (Some _) w' | Waits w' => subs w' = subs w
  | Panicked _ => True
  end.

Class Subscriber {W : Type} (onNew : callback W) (onDelete : waiting_callback W)
    (subs : W → gset EUI64) : Prop := {
  onNew_ok mac w w' : onNew mac w = (None, w') → subs w' = {[mac]} ∪ subs w;
  onNew_err mac w e w' : onNew mac w = (Some e, w') → subs w' = subs w;
  onDelete_call mac w : answers subs mac w (wc_call onDelete mac w);
  onDelete_resume mac w a : wc_resume onDelete mac w = Some a → answers subs mac w a
}.

(** A panic of [onDelete]. *)
Definition delete_panics {W} (onDelete : waiting_callback W) (why : string) : Prop :=
  ∃ mac w, wc_call onDelete mac w = Panicked why ∨ wc_resume onDelete mac w = Some (Panicked why).

(** ** Lookup and update *)

Section Laws.
Context {W : Type}.
Implicit Types (c : gateways W) (w : W) (mac : EUI64) (gw : gateway).

(** After [set], [get] returns the new entry for its MAC and the old ones
    elsewhere; when [onNew] refuses a new gateway the registry is unchanged. *)
Theorem gateways_set_get c mac gw w err c' w' :
  gateways_set c mac gw w = (err, c', w') →
  (∀ mac', gateways_get c' mac' =
    if bool_decide (err = None ∧ mac' = mac) then (gw, None) else gateways_get c mac') ∧
  gateways_onNew c' = gateways_onNew c ∧ gateways_onDelete c' = gateways_onDelete c ∧
  (err ≠ None → c' = c ∧ gateways_map c !! mac = None).
Proof.
  unfold gateways_set, gateways_get. intros H.
  assert (∀ m, (err = None ∧ gateways_map c' = <[mac := gw]> (gateways_map c) ∨
    err ≠ None ∧ gateways_map c' = gateways_map c) →
    match gateways_map c' !! m with Some g => (g, None) | None => (gateway_zero, Some ErrGatewayDoesNotExist) end
    = if bool_decide (err = None ∧ m = mac) then (gw, None) else
      match gateways_map c !! m with Some g => (g, None) | None => (gateway_zero, Some ErrGatewayDoesNotExist) end)
    as Hlook.
  { intros m [[-> ->]|[Hne ->]].
    - destruct (decide (m = mac)) as [->|Hm].
      + by rewrite lookup_insert_eq, bool_decide_true.
      + rewrite lookup_insert_ne, bool_decide_false by naive_solver. done.
    - rewrite bool_decide_false by naive_solver. done. }
  repeat (case_match; simplify_eq/=); split_and!; try done; intros; apply Hlook; naive_solver.
Qed.

(** The callback is called exactly for a gateway that is not registered. *)
Lemma gateways_set_known c mac gw w :
  is_Some (gateways_map c !! mac) →
  gateways_set c mac gw w = (None, with_map c (<[mac := gw]> (gateways_map c)), w).
Proof. intros [g Hg]. unfold gateways_set. by rewrite Hg. Qed.

Lemma gateways_set_map c mac gw w err c' w' :
  gateways_set c mac gw w = (err, c', w') →
  gateways_map c' = gateways_map c ∨ gateways_map c' = <[mac := gw]> (gateways_map c).
Proof. unfold gateways_set. intros H. repeat (case_match; simplify_eq/=); auto. Qed.

(** ** Cleaning up *)

Lemma with_map_map c m : gateways_map (with_map c m) = m.
Proof. done. Qed.

(** What is left of a registration after the visits so far. *)
Definition survives (visit : list (EUI64 * Time)) mac gw : bool :=
  forallb (λ '(m, t), negb (bool_decide (m = mac) && stale t gw)) visit.

Lemma survives_snoc visit m t mac gw :
  survives (visit ++ [(m, t)]) mac gw
  = survives visit mac gw && negb (bool_decide (m = mac) && stale t gw).
Proof. unfold survives. rewrite forallb_app. cbn. by rewrite andb_true_r. Qed.

Lemma survives_cons visit m t mac gw :
  survives ((m, t) :: visit) mac gw
  = negb (bool_decide (m = mac) && stale t gw) && survives visit mac gw.
Proof. done. Qed.

(** Visited at no other instant. *)
Lemma survives_once visit mac t gw :
  NoDup visit.*1 → (mac, t) ∈ visit → survives visit mac gw = negb (stale t gw).
Proof.
  induction visit as [|[m u] visit IH]; [by intros _ ?%not_elem_of_nil|].
  intros [Hm Hnd]%list.NoDup_cons Hin. rewrite survives_cons.
  assert (∀ l, mac ∉ l.*1 → survives l mac gw = true) as Hout.
  { intros l Hl. unfold survives. apply forallb_forall. intros [m' t'] Hx%list_elem_of_In.
    rewrite bool_decide_false; [done|]. intros ->. apply Hl. by apply (list_elem_of_fmap_2 fst _ _ Hx). }
  apply elem_of_cons in Hin as [[= <- <-]|Hin].
  - rewrite bool_decide_true by done. rewrite (Hout visit Hm). by rewrite andb_true_r.
  - rewrite bool_decide_false; [by apply IH|]. intros ->. apply Hm.
    by apply (list_elem_of_fmap_2 fst _ _ Hin).
Qed.

(** How far a clean-up is that took the lock with the map [m0] in the order
    [order], with the instants of its visits, all of which satisfy [P]. *)
Definition cleanup_at (m0 : gmap EUI64 gateway) (P : Time → Prop) (order : list EUI64)
    (cl : cleaner) (c : gateways W) : Prop :=
  match cl with
  | Asleep => False
  | Cleaned (Some _) => True
  | Ranging rest =>
      ∃ visit, order = visit.*1 ++ rest ∧ Forall (λ v, P v.2) visit ∧
        ∀ mac, gateways_map c !! mac = (gw ← m0 !! mac; if survives visit mac gw then Some gw else None)
  | Deleting mac0 rest =>
      ∃ visit t gw0, order = visit.*1 ++ mac0 :: rest ∧ Forall (λ v, P v.2) visit ∧ P t ∧
        m0 !! mac0 = Some gw0 ∧ stale t gw0 = true ∧
        ∀ mac, gateways_map c !! mac = (gw ← m0 !! mac; if survives visit mac gw then Some gw else None)
  | Cleaned None =>
      ∃ visit, order = visit.*1 ∧ Forall (λ v, P v.2) visit ∧
        ∀ mac, gateways_map c !! mac = (gw ← m0 !! mac; if survives visit mac gw then Some gw else None)
  end.

Lemma cleanup_at_mono m0 (P P' : Time → Prop) order cl c :
  (∀ t, P t → P' t) → cleanup_at m0 P order cl c → cleanup_at m0 P' order cl c.
Proof.
  intros HP. destruct cl as [|rest|mac rest|[e|]]; cbn; try done.
  - intros (v & ? & Hv & ?). exists v. split_and!; [done| |done]. eapply Forall_impl; [|exact Hv]; auto.
  - intros (v & t & g & ? & Hv & ? & ?). exists v, t, g. split_and!; try done; auto; [|tauto..].
    eapply Forall_impl; [|exact Hv]; auto.
  - intros (v & ? & Hv & ?). exists v. split_and!; [done| |done]. eapply Forall_impl; [|exact Hv]; auto.
Qed.

(** A visit that keeps the gateway, and one that deletes it. *)
Lemma cleanup_at_keep m0 (P : Time → Prop) order mac rest c t :
  cleanup_at m0 P order (Ranging (mac :: rest)) c → P t →
  (∀ gw, gateways_map c !! mac = Some gw → stale t gw = false) →
  cleanup_at m0 P order (Ranging rest) c.
Proof.
  intros (visit & Ho & Hv & Hm) Ht Hs. exists (visit ++ [(mac, t)]). split_and!.
  - by rewrite fmap_app, <- app_assoc.
  - apply Forall_app_2; [done|]. by constructor.
  - intros m. rewrite Hm. destruct (m0 !! m) as [gw|] eqn:E; [|done]. cbn.
    rewrite survives_snoc. case_bool_decide as Hd; [subst m|by rewrite andb_true_r].
    specialize (Hm mac). rewrite E in Hm. cbn in Hm. destruct (survives visit mac gw); [|done].
    by rewrite (Hs gw Hm).
Qed.

Lemma cleanup_at_deleted m0 (P : Time → Prop) order mac rest c a t gw cl c' w' :
  cleanup_at m0 P order (Ranging (mac :: rest)) c → P t → m0 !! mac = Some gw → stale t gw = true →
  cleanup_deleted mac rest c a = Ok (cl, c', w') → cleanup_at m0 P order cl c'.
Proof.
  intros (visit & Ho & Hv & Hm) Ht Hg Hs Ha. unfold cleanup_deleted in Ha.
  destruct a as [[e|] w1|w1|why]; simplify_eq; [done| |].
  - exists (visit ++ [(mac, t)]). split_and!.
    + by rewrite fmap_app, <- app_assoc.
    + apply Forall_app_2; [done|]. by constructor.
    + intros m. rewrite with_map_map. destruct (decide (m = mac)) as [->|Hne].
      * rewrite lookup_delete_eq, Hg. cbn. rewrite survives_snoc, bool_decide_true, Hs by done.
        by rewrite andb_false_r.
      * rewrite lookup_delete_ne, Hm by done. destruct (m0 !! m) as [g|]; [|done]. cbn.
        rewrite survives_snoc, bool_decide_false by done. by rewrite andb_true_r.
  - exists visit, t, gw. done.
Qed.

Lemma cleanup_at_step m0 (P : Time → Prop) order now cl c w cl' c' w' :
  P now → cleanup_at m0 P order cl c → cleanup_step now cl c w = Some (Ok (cl', c', w')) →
  cleanup_at m0 P order cl' c'.
Proof.
  intros Hnow Hat Hs. destruct cl as [|[|mac rest]|mac rest|err]; cbn in Hs; try done.
  - simplify_eq. destruct Hat as (visit & Ho & ?). exists visit. by rewrite app_nil_r in Ho.
  - pose proof Hat as (visit & _ & _ & Hm). specialize (Hm mac).
    destruct (gateways_map c !! mac) as [gw|] eqn:Em;
      [|simplify_eq; eapply cleanup_at_keep; [done|exact Hnow|by rewrite Em]].
    destruct (stale now gw) eqn:Es;
      [|simplify_eq; eapply cleanup_at_keep; [done|exact Hnow|intros g; rewrite Em; by intros [= <-]]].
    assert (m0 !! mac = Some gw) as Hg by (destruct (m0 !! mac); cbn in Hm; [destruct (survives _ _ _); congruence|done]).
    injection Hs as Hs. eapply cleanup_at_deleted; [exact Hat|exact Hnow|exact Hg|exact Es|exact Hs].
  - apply bind_Some in Hs as (f & _ & Hs). apply bind_Some in Hs as (a & _ & Hs). injection Hs as Hs.
    destruct Hat as (visit & t & gw & Ho & Hv & Ht & Hg & Hst & Hm).
    eapply cleanup_at_deleted; [|exact Ht|exact Hg|exact Hst|exact Hs]. by exists visit.
Qed.

(** Cleaning up only removes gateways. *)
Lemma cleanup_step_sub now cl c w cl' c' w' :
  cleanup_step now cl c w = Some (Ok (cl', c', w')) →
  gateways_map c' ⊆ gateways_map c ∧
  gateways_onNew c' = gateways_onNew c ∧ gateways_onDelete c' = gateways_onDelete c.
Proof.
  assert (∀ mac rest a, cleanup_deleted mac rest c a = Ok (cl', c', w') →
    gateways_map c' ⊆ gateways_map c ∧
    gateways_onNew c' = gateways_onNew c ∧ gateways_onDelete c' = gateways_onDelete c) as Hd.
  { intros mac rest a Ha. unfold cleanup_deleted in Ha. repeat case_match; simplify_eq; try done.
    split; [|done]. apply delete_subseteq. }
  intros Hs. destruct cl as [|[|mac rest]|mac rest|err]; cbn in Hs; try done; [by simplify_eq| |].
  - destruct (gateways_map c !! mac); [|by simplify_eq]. destruct (stale now g); [|by simplify_eq].
    injection Hs as Hs. by eapply Hd.
  - apply bind_Some in Hs as (f & _ & Hs). apply bind_Some in Hs as (a & _ & Hs). injection Hs as Hs.
    by eapply Hd.
Qed.
End Laws.

(** ** Registered gateways are the subscribed ones *)

Section Consistency.
Context {W : Type} (onNew : callback W) (onDelete : waiting_callback W) (subs : W → gset EUI64).
Context `{!Subscriber onNew onDelete subs}.

Definition registry_ok (c : gateways W) (w : W) : Prop :=
  gateways_onNew c = Some onNew ∧ gateways_onDelete c = Some onDelete ∧
  dom (gateways_map c) = subs w.

Lemma gateways_set_ok c mac gw w err c' w' :
  registry_ok c w → gateways_set c mac gw w = (err, c', w') → registry_ok c' w'.
Proof.
  intros (Hn & Hd & Hdom) H. unfold gateways_set in H. rewrite Hn in H.
  destruct (gateways_map c !! mac) as [g|] eqn:Em.
  - simplify_eq. split_and!; [done..|]. rewrite with_map_map, dom_insert_L.
    assert (mac ∈ dom (gateways_map c)) by (by apply elem_of_dom_2 in Em). set_solver.
  - destruct (onNew mac w) as [[e|] w1] eqn:Ew; simplify_eq.
    + split_and!; [done..|]. by rewrite (onNew_err (subs := subs) _ _ _ _ Ew).
    + split_and!; [done..|]. by rewrite with_map_map, dom_insert_L, (onNew_ok (subs := subs) _ _ _ Ew), Hdom.
Qed.

Lemma cleanup_deleted_ok mac rest c w a cl c' w' :
  registry_ok c w → answers subs mac w a → cleanup_deleted mac rest c a = Ok (cl, c', w') →
  registry_ok c' w'.
Proof.
  intros (Hn & Hd & Hdom) Ha Hc. unfold cleanup_deleted, answers in *.
  destruct a as [[e|] w1|w1|why]; simplify_eq; split_and!; try done; [by rewrite Ha| |by rewrite Ha].
  by rewrite with_map_map, dom_delete_L, Ha, Hdom.
Qed.

Lemma cleanup_step_ok now cl c w cl' c' w' :
  registry_ok c w → cleanup_step now cl c w = Some (Ok (cl', c', w')) → registry_ok c' w'.
Proof.
  intros Hok Hs. pose proof Hok as (_ & Hd & _).
  destruct cl as [|[|mac rest]|mac rest|err]; cbn in Hs; try done; [by simplify_eq| |].
  - rewrite Hd in Hs. destruct (gateways_map c !! mac); [|by simplify_eq].
    destruct (stale now g); [|by simplify_eq]. injection Hs as Hs.
    eapply cleanup_deleted_ok; [exact Hok| |exact Hs]. apply onDelete_call.
  - apply bind_Some in Hs as (f & Hf & Hs). apply bind_Some in Hs as (a & Ha & Hs). injection Hs as Hs.
    assert (f = onDelete) as -> by congruence.
    eapply cleanup_deleted_ok; [exact Hok|by apply onDelete_resume|exact Hs].
Qed.

(** A clean-up panics only in [onDelete]. *)
Lemma cleanup_step_panics now cl c w why :
  registry_ok c w → cleanup_step now cl c w = Some (Panic why) → delete_panics onDelete why.
Proof.
  intros (_ & Hd & _) Hs.
  assert (∀ mac rest a, cleanup_deleted mac rest c a = Panic why → a = Panicked why) as Ha.
  { intros mac rest a Ha. unfold cleanup_deleted in Ha. repeat case_match; by simplify_eq. }
  destruct cl as [|[|mac rest]|mac rest|err]; cbn in Hs; try done.
  - rewrite Hd in Hs. destruct (gateways_map c !! mac); [|done]. destruct (stale now g); [|done].
    injection Hs as Hs. apply Ha in Hs. exists mac, w. by left.
  - apply bind_Some in Hs as (f & Hf & Hs). apply bind_Some in Hs as (a & Hr & Hs). injection Hs as Hs.
    apply Ha in Hs as ->. assert (f = onDelete) as -> by congruence. exists mac, w. by right.
Qed.
End Consistency.

(** ** A backend that only keeps the set of subscriptions *)

Definition set_onNew : callback (gset EUI64) := λ mac w, (None, {[mac]} ∪ w).
Definition set_onDelete : waiting_callback (gset EUI64) :=
  mkWaitingCallback (λ mac w, Returned None (w ∖ {[mac]})) (λ _ _, None).

#[export] Instance set_subscriber : Subscriber set_onNew set_onDelete id.
Proof. constructor; unfold set_onNew, set_onDelete; intros; cbn in *; by simplify_eq. Qed.

Lemma set_never_panics why : ¬ delete_panics set_onDelete why.
Proof. by intros (mac & w & [?|?]). Qed.
