(* ===== verification/Convert.v ===== *)
(** * Conversions between the UDP side and the [gw] package

    The pure functions of [gateway/backend.go] and [gateway/ip.go]: data rates,
    received packets, packets to transmit and gateway statistics. *)

From Stdlib Require Import String Ascii NArith ZArith Lia SpecFloat.
From stdpp Require Import base gmap list strings numbers.
From S2P Require Import Prelude GoPrim GoStrconv GoBase64 GoUtf8 GoFloat GoNumText GoFloatText.
From S2P Require Import GoFloatRound GoJsonLaws GoNet Lorawan Payload PayloadLaws.

Local Open Scope string_scope.
Local Open Scope list_scope.
Local Open Scope Z_scope.

(** ** Data rates *)

(** The regular expression [SF(\d+)BW(\d+)], matched at the head of the text:
    the two groups.  A digit run is maximal, since no digit can match the [B]
    that follows it. *)
Definition match_data_rate (s : bytes) : option (bytes * bytes) :=
  match s with
  | "S"%char :: "F"%char :: t =>
      match span_digits t with
      | ((_ :: _) as sf, "B"%char :: "W"%char :: t') =>
          match span_digits t' with
          | ((_ :: _) as bw, _) => Some (sf, bw)
          | _ => None
          end
      | _ => None
      end
  | _ => None
  end.

(** [loRaDataRateRegex.FindStringSubmatch]: the leftmost match anywhere. *)
Fixpoint find_data_rate (s : bytes) : option (bytes * bytes) :=
  match match_data_rate s with
  | Some m => Some m
  | None => match s with [] => None | _ :: t => find_data_rate t end
  end.

(** [func newDataRateFromDatR(d DatR) (band.DataRate, error)] *)
Definition newDataRateFromDatR (d : DatR) : result DataRate :=
  if negb (bool_decide (DatR_LoRa d = "")) then
    match find_data_rate (to_bytes (DatR_LoRa d)) with
    | None => Err (ErrMsg "gateway: could not parse LoRa data rate")
    | Some (m1, m2) =>
        let* sf := rwrap "gateway: could not convert spread factor to int: " (Atoi m1) in
        let* bw := rwrap "gateway: could not convert bandwith to int: " (Atoi m2) in
        Ok (mkDataRate LoRaModulation sf bw 0)
    end
  else if negb (DatR_FSK d =? 0) then
    Ok (mkDataRate FSKModulation 0 0 (to_int (DatR_FSK d)))
  else
    Err (ErrMsg "gateway: could not convert DatR to DataRate, DatR is empty / modulation unknown").

(** [fmt.Sprintf("SF%dBW%d", sf, bw)] *)
Definition sprintf_data_rate (sf bw : Z) : string :=
  to_string (to_bytes "SF" ++ FormatInt sf ++ to_bytes "BW" ++ FormatInt bw).

(** [func newDatRfromDataRate(d band.DataRate) DatR] *)
Definition newDatRfromDataRate (d : DataRate) : DatR :=
  if bool_decide (Modulation d = LoRaModulation) then
    mkDatR (sprintf_data_rate (SpreadFactor d) (Bandwidth d)) 0
  else mkDatR "" (to_uint32 (BitRate d)).

(** ** Received packets *)

(** The constant [1000000] of both frequency conversions. *)
Definition million : float64 := f64_million.

(** [func newRXPacketFromRXPK(mac, rxpk) (gw.RXPacketBytes, error)] *)
Definition newRXPacketFromRXPK (mac : EUI64) (rxpk : RXPK) : result RXPacketBytes :=
  let* dataRate :=
    rwrap "gateway: could not get DataRate from DatR: " (newDataRateFromDatR (RXPK_DatR rxpk)) in
  let* b :=
    rwrap "gateway: could not base64 decode data: " (b64_decode (to_bytes (RXPK_Data rxpk))) in
  Ok {|
    RXPacket_PHYPayload := b;
    RXPacket_RXInfo := {|
      RXInfo_MAC := mac;
      RXInfo_Time := RXPK_Time rxpk;
      RXInfo_Timestamp := RXPK_Tmst rxpk;
      RXInfo_Frequency := f64_to_int64 (f64_mul (RXPK_Freq rxpk) million);
      RXInfo_Channel := to_int (RXPK_Chan rxpk);
      RXInfo_RFChain := to_int (RXPK_RFCh rxpk);
      RXInfo_CRCStatus := to_int (RXPK_Stat rxpk);
      RXInfo_DataRate := dataRate;
      RXInfo_CodeRate := RXPK_CodR rxpk;
      RXInfo_RSSI := to_int (RXPK_RSSI rxpk);
      RXInfo_LoRaSNR := RXPK_LSNR rxpk;
      RXInfo_Size := to_int (RXPK_Size rxpk)
    |}
  |}.

(** ** Packets to transmit *)

(** [func newTXPKFromTXPacket(txPacket) (TXPK, error)] *)
Definition newTXPKFromTXPacket (txPacket : TXPacketBytes) : result TXPK :=
  let info := TXPacket_TXInfo txPacket in
  let modulation := Modulation (TXInfo_DataRate info) in
  Ok {|
    TXPK_Imme := TXInfo_Immediately info;
    TXPK_Tmst := TXInfo_Timestamp info;
    TXPK_Time := None;
    TXPK_Freq := f64_div (f64_of_Z (TXInfo_Frequency info)) million;
    TXPK_RFCh := 0;
    TXPK_Powe := to_uint8 (TXInfo_Power info);
    TXPK_Modu := modulation;
    TXPK_DatR := newDatRfromDataRate (TXInfo_DataRate info);
    TXPK_CodR := TXInfo_CodeRate info;
    TXPK_FDev :=
      if bool_decide (modulation = FSKModulation)
      then to_uint16 (Z.quot (BitRate (TXInfo_DataRate info)) 2) else 0;
    TXPK_IPol :=
      match TXInfo_IPol info with
      | Some b => b
      | None => bool_decide (modulation = LoRaModulation)
      end;
    TXPK_Prea := 0;
    TXPK_Size := to_uint16 (Z.of_nat (length (TXPacket_PHYPayload txPacket)));
    TXPK_NCRC := false;
    TXPK_Data := to_string (b64_encode (TXPacket_PHYPayload txPacket))
  |}.

(** ** Gateway statistics *)

(** [func newGatewayStatsPacket(mac, stat) gw.GatewayStatsPacket] *)
Definition newGatewayStatsPacket (mac : EUI64) (stat : Stat) : GatewayStatsPacket :=
  {|
    Stats_MAC := mac;
    Stats_Time := Stat_Time stat;
    Stats_Latitude := Stat_Lati stat;
    Stats_Longitude := Stat_Long stat;
    Stats_Altitude := f64_of_Z (Stat_Alti stat);
    Stats_RXPacketsReceived := to_int (Stat_RXNb stat);
    Stats_RXPacketsReceivedOK := to_int (Stat_RXOK stat);
    Stats_TXPacketsEmitted := 0;
    Stats_CustomData :=
      <["platform" := IString (Stat_Pfrm stat)]>
      (<["contactEmail" := IString (Stat_Mail stat)]>
      (<["description" := IString (Stat_Desc stat)]>
      (<["ip" := IStrings []]> ∅)))
  |}.

Definition with_CustomData (s : GatewayStatsPacket) (m : gmap string iface) : GatewayStatsPacket :=
  let '(mkGatewayStatsPacket a b c d e f g h _) := s in mkGatewayStatsPacket a b c d e f g h m.

(** [func addIPToGatewayStatsPacket(stat, ip)]: the packet's map is updated in
    place, so the new packet replaces the old one.  A missing or ill-typed
    entry is replaced by the nil slice. *)
Definition addIPToGatewayStatsPacket (stat : GatewayStatsPacket) (ip : IP) : GatewayStatsPacket :=
  match Stats_CustomData stat !! "ip" with
  | Some (IStrings existingIPs) =>
      if bool_decide (IP_String ip ∈ existingIPs) then stat
      else with_CustomData stat
             (<["ip" := IStrings (existingIPs ++ [IP_String ip])]> (Stats_CustomData stat))
  | _ => with_CustomData stat (<["ip" := IStrings []]> (Stats_CustomData stat))
  end.

(** ** No conversion panics *)

Lemma newDataRateFromDatR_no_panic d : no_panic (newDataRateFromDatR d).
Proof.
  unfold newDataRateFromDatR. repeat case_goal; try done.
  repeat (apply rbind_no_panic; [auto with go_db|intros ? _]). done.
Qed.

Lemma newRXPacketFromRXPK_no_panic mac rxpk : no_panic (newRXPacketFromRXPK mac rxpk).
Proof.
  apply rbind_no_panic; [apply rwrap_no_panic, newDataRateFromDatR_no_panic|intros ? _].
  apply rbind_no_panic; [auto with go_db|done].
Qed.
#[export] Hint Resolve newDataRateFromDatR_no_panic newRXPacketFromRXPK_no_panic : go_db.

(** ** Data rates survive the trip through their text *)

(** The data rates that a [DatR] can carry. *)
Definition DataRate_wf (d : DataRate) : Prop :=
  (Modulation d = LoRaModulation ∧ 0 ≤ SpreadFactor d < 2 ^ 63 ∧ 0 ≤ Bandwidth d < 2 ^ 63
   ∧ BitRate d = 0) ∨
  (Modulation d = FSKModulation ∧ SpreadFactor d = 0 ∧ Bandwidth d = 0
   ∧ 0 < BitRate d < 2 ^ 32).

Lemma match_data_rate_format sf bw :
  0 ≤ sf → 0 ≤ bw →
  match_data_rate (to_bytes "SF" ++ FormatUint sf ++ to_bytes "BW" ++ FormatUint bw)
  = Some (FormatUint sf, FormatUint bw).
Proof.
  intros Hsf Hbw. cbn [to_bytes list_ascii_of_string app match_data_rate].
  rewrite span_digits_app by (done || by apply FormatUint_digits).
  destruct (FormatUint sf) as [|c t] eqn:E; [by apply FormatUint_nonempty in E|].
  rewrite <- (app_nil_r (FormatUint bw)), span_digits_app by (done || by apply FormatUint_digits).
  rewrite app_nil_r.
  destruct (FormatUint bw) as [|c' t'] eqn:E'; [by apply FormatUint_nonempty in E'|]. done.
Qed.

Lemma FormatInt_nonneg n : 0 ≤ n → FormatInt n = FormatUint n.
Proof. intros. unfold FormatInt. by rewrite (proj2 (Z.ltb_ge n 0)) by lia. Qed.

Lemma sprintf_data_rate_bytes sf bw :
  to_bytes (sprintf_data_rate sf bw)
  = to_bytes "SF" ++ FormatInt sf ++ to_bytes "BW" ++ FormatInt bw.
Proof. apply to_bytes_of_string. Qed.

Lemma newDataRateFromDatR_newDatRfromDataRate d :
  DataRate_wf d → newDataRateFromDatR (newDatRfromDataRate d) = Ok d.
Proof.
  destruct d as [modu sf bw br]. unfold DataRate_wf. cbn [Modulation SpreadFactor Bandwidth BitRate].
  intros [(-> & Hsf & Hbw & ->)|(-> & -> & -> & Hbr)].
  - unfold newDatRfromDataRate. cbn [Modulation SpreadFactor Bandwidth].
    rewrite bool_decide_true by done. unfold newDataRateFromDatR. cbn [DatR_LoRa].
    rewrite bool_decide_false by (intros E; apply (f_equal to_bytes) in E;
      rewrite sprintf_data_rate_bytes in E; done).
    rewrite sprintf_data_rate_bytes, !FormatInt_nonneg by lia. cbn [negb].
    assert (find_data_rate (to_bytes "SF" ++ FormatUint sf ++ to_bytes "BW" ++ FormatUint bw)
      = Some (FormatUint sf, FormatUint bw)) as ->.
    { pose proof (match_data_rate_format sf bw ltac:(lia) ltac:(lia)) as Hm.
      cbn [to_bytes list_ascii_of_string app] in *.
      cbn [find_data_rate]. by rewrite Hm. }
    rewrite !Atoi_FormatUint by lia. done.
  - unfold newDatRfromDataRate. cbn [Modulation BitRate]. rewrite bool_decide_false by done.
    unfold newDataRateFromDatR. cbn [DatR_LoRa DatR_FSK]. rewrite bool_decide_true by done.
    cbn [negb]. unfold to_uint32, wrap_u. rewrite Z.mod_small by lia.
    rewrite (proj2 (Z.eqb_neq br 0)) by lia. cbn [negb].
    unfold to_int. rewrite (wrap_s_id 64); [done|lia|]. apply in_s_spec. lia.
Qed.

(** ** A packet to transmit becomes a payload the gateway can read *)

Lemma b64_char_plain v : plain (b64_char v) = true.
Proof.
  unfold b64_char. destruct (encodeStd !! Z.to_nat v) as [c|] eqn:E; [|done]. simpl.
  assert (plain_text encodeStd) as H by (repeat (apply List.Forall_cons; [reflexivity|]); constructor).
  unfold plain_text in H. rewrite Forall_lookup in H. by eapply H.
Qed.

Lemma b64_encode_plain b : plain_text (b64_encode b).
Proof.
  revert b. fix IH 1. intros [|x [|y [|z b]]]; simpl;
    repeat (apply List.Forall_cons; [apply b64_char_plain || reflexivity|]);
    [constructor..|apply IH].
Qed.

(** The packets the network side hands over: the ranges of the Go types, with
    the frequency and the bit rate in the ranges the payload can carry. *)
Record TXPacket_wf (p : TXPacketBytes) : Prop := mkTXPacketwf {
  TXPacket_wf_timestamp : in_u 32 (TXInfo_Timestamp (TXPacket_TXInfo p)) = true;
  TXPacket_wf_frequency : 0 ≤ TXInfo_Frequency (TXPacket_TXInfo p) < 2 ^ 53;
  TXPacket_wf_datarate : DataRate_wf (TXInfo_DataRate (TXPacket_TXInfo p));
  TXPacket_wf_coderate : str_ok (TXInfo_CodeRate (TXPacket_TXInfo p))
}.

Lemma newDatRfromDataRate_wf d : DataRate_wf d → DatR_wf (newDatRfromDataRate d).
Proof.
  destruct d as [modu sf bw br]. unfold DataRate_wf, DatR_wf.
  cbn [Modulation SpreadFactor Bandwidth BitRate].
  intros [(-> & Hsf & Hbw & ->)|(-> & -> & -> & Hbr)]; [left|right].
  - unfold newDatRfromDataRate. cbn [Modulation SpreadFactor Bandwidth].
    rewrite bool_decide_true by done. cbn [DatR_LoRa DatR_FSK].
    rewrite sprintf_data_rate_bytes, !FormatInt_nonneg by lia. split; [|split; [|done]].
    + intros E. apply (f_equal to_bytes) in E. by rewrite sprintf_data_rate_bytes in E.
    + repeat first [ apply Forall_app_2 | apply digits_plain, FormatUint_digits; lia
        | apply List.Forall_cons; [reflexivity|] | apply List.Forall_nil ].
  - unfold newDatRfromDataRate. cbn [Modulation BitRate]. rewrite bool_decide_false by done.
    cbn [DatR_LoRa DatR_FSK]. split; [done|]. by apply wrap_u_range.
Qed.

(** The payload of a well-formed packet has a JSON text (so marshalling it does
    not fail), and the text stands for the payload. *)
Lemma newTXPKFromTXPacket_wf p :
  TXPacket_wf p → ∃ txpk, newTXPKFromTXPacket p = Ok txpk ∧ TXPK_wf txpk.
Proof.
  intros [Ht Hf Hd Hc]. eexists. split; [reflexivity|].
  assert (str_ok (Modulation (TXInfo_DataRate (TXPacket_TXInfo p)))) as Hm.
  { by destruct Hd as [(-> & _)|(-> & _)]. }
  constructor; cbn; try done; try (by apply wrap_u_range).
  - by apply f64_div_million_ok.
  - by apply newDatRfromDataRate_wf.
  - case_bool_decide; [by apply wrap_u_range|done].
  - unfold str_ok. rewrite to_bytes_of_string. apply plain_utf8, b64_encode_plain.
Qed.

(** The txpk of a packet carries its payload in base64 with its length, its power,
    by default the polarisation inversion of LoRa, and a data rate from which
    newDataRateFromDatR recovers the packet's. *)
Theorem newTXPKFromTXPacket_spec p txpk :
  newTXPKFromTXPacket p = Ok txpk →
  let info := TXPacket_TXInfo p in
  b64_decode (to_bytes (TXPK_Data txpk)) = Ok (TXPacket_PHYPayload p) ∧
  (Z.of_nat (length (TXPacket_PHYPayload p)) < 2 ^ 16 →
   TXPK_Size txpk = Z.of_nat (length (TXPacket_PHYPayload p))) ∧
  (in_u 8 (TXInfo_Power info) = true → TXPK_Powe txpk = TXInfo_Power info) ∧
  (TXInfo_IPol info = None →
   TXPK_IPol txpk = bool_decide (Modulation (TXInfo_DataRate info) = LoRaModulation)) ∧
  (DataRate_wf (TXInfo_DataRate info) →
   newDataRateFromDatR (TXPK_DatR txpk) = Ok (TXInfo_DataRate info)).
Proof.
  intros [= <-]. cbn -[b64_decode b64_encode newDataRateFromDatR]. split_and!.
  - by rewrite to_bytes_of_string, b64_decode_encode.
  - intros Hl. unfold to_uint16. apply wrap_u_id; [done|]. apply in_u_spec. lia.
  - intros Hp. by apply (wrap_u_id 8).
  - by intros ->.
  - apply newDataRateFromDatR_newDatRfromDataRate.
Qed.

(** ** Frequencies survive the trip through megahertz *)

(** The frequencies, in hertz, of the bands below 1.024 GHz and above 2^28 Hz
    that end before the power of two at which precision is lost: all the LoRa
    bands of the regional parameters (433, 470-510, 779-787, 863-928 MHz). *)
Definition band_frequency (hz : Z) : Prop :=
  2 ^ 28 < hz < 512000000 ∨ 2 ^ 29 < hz < 1024000000.

Lemma band_frequency_binade hz :
  band_frequency hz → ∃ p, mhz_binade hz p ∧ 2 ^ (p + 19) < hz.
Proof.
  intros [H|H]; [exists 9|exists 10]; unfold mhz_binade; simpl; lia.
Qed.

(** A downlink frequency of the LoRa bands, converted to megahertz and read back as
    an uplink frequency, is the same number of hertz. *)
Lemma frequency_roundtrip p txpk mac rxpk rx :
  band_frequency (TXInfo_Frequency (TXPacket_TXInfo p)) →
  newTXPKFromTXPacket p = Ok txpk → RXPK_Freq rxpk = TXPK_Freq txpk →
  newRXPacketFromRXPK mac rxpk = Ok rx →
  RXInfo_Frequency (RXPacket_RXInfo rx) = TXInfo_Frequency (TXPacket_TXInfo p).
Proof.
  intros Hb [= <-] Hf Hrx. unfold newRXPacketFromRXPK in Hrx. inv_ok. subst rx.
  cbn -[f64_div f64_mul f64_of_Z f64_to_int64 f64_million f64_of_dec].
  rewrite Hf. cbn -[f64_div f64_mul f64_of_Z f64_to_int64 f64_million f64_of_dec]. unfold million.
  destruct (band_frequency_binade _ Hb) as (q & Hq & Hlow).
  rewrite (f64_div_million _ q Hq). by apply f64_mul_million.
Qed.

(** An uplink frequency written in megahertz with up to six decimals is converted to
    exactly that number of hertz. *)
Lemma uplink_frequency mac rxpk d j hz rx :
  band_frequency hz → 1 ≤ Zpos j ≤ 6 → hz = d * 10 ^ (6 - Zpos j) →
  RXPK_Freq rxpk = f64_of_dec false d (Zneg j) →
  newRXPacketFromRXPK mac rxpk = Ok rx →
  RXInfo_Frequency (RXPacket_RXInfo rx) = hz.
Proof.
  intros Hb Hj Hhz Hf Hrx. unfold newRXPacketFromRXPK in Hrx. inv_ok. subst rx.
  cbn -[f64_div f64_mul f64_of_Z f64_to_int64 f64_million f64_of_dec].
  rewrite Hf. unfold million. destruct (band_frequency_binade _ Hb) as (q & Hq & Hlow).
  rewrite (f64_of_dec_million hz q) by done. by apply f64_mul_million.
Qed.

(** C32: Frequencies of the LoRa bands survive floating point: a downlink frequency
    converted to megahertz and back is the same number of hertz, and so is an uplink
    frequency written in megahertz with up to six decimals. *)
Theorem frequencies_exact hz :
  band_frequency hz →
  (∀ p txpk mac rxpk rx,
    TXInfo_Frequency (TXPacket_TXInfo p) = hz → newTXPKFromTXPacket p = Ok txpk →
    RXPK_Freq rxpk = TXPK_Freq txpk → newRXPacketFromRXPK mac rxpk = Ok rx →
    RXInfo_Frequency (RXPacket_RXInfo rx) = hz) ∧
  (∀ mac rxpk d j rx,
    1 ≤ Zpos j ≤ 6 → hz = d * 10 ^ (6 - Zpos j) → RXPK_Freq rxpk = f64_of_dec false d (Zneg j) →
    newRXPacketFromRXPK mac rxpk = Ok rx → RXInfo_Frequency (RXPacket_RXInfo rx) = hz).
Proof.
  intros Hb. split.
  - intros p txpk mac rxpk rx <- Ht Hf Hr. by eapply frequency_roundtrip.
  - intros mac rxpk d j rx Hj Hd Hf Hr. by eapply uplink_frequency.
Qed.
