(* ===== verification/Backend.v ===== *)
(** * The packet-forwarder backend: handlers

    The handlers of [gateway/backend.go] as programs over the effects they have:
    reading the clock, the gateway registry, the three channels and the log.
    Every handler is a goroutine of its own in the code; [System] runs these
    programs concurrently, [exec] below runs one of them alone. *)

From Stdlib Require Import String Ascii NArith ZArith Lia.
From stdpp Require Import base gmap list strings numbers.
From S2P Require Import Prelude GoPrim GoStrconv GoBase64 GoFloat GoNet Lorawan GoJsonTyped.
From S2P Require Import Payload Structs Registry Convert.

Local Open Scope string_scope.
Local Open Scope list_scope.
Local Open Scope Z_scope.

(** ** Effects *)

(** [type udpPacket struct] *)
Record udpPacket : Type := mkUdpPacket {
  udpPacket_addr : option UDPAddr;
  udpPacket_data : bytes
}.

#[export] Instance udpPacket_eq_dec : EqDecision udpPacket.
Proof. solve_decision. Defined.

Inductive log_level : Type := LInfo | LWarning | LError.

Inductive log_value : Type :=
| LvAddr (a : option UDPAddr)
| LvMac (m : EUI64)
| LvStr (s : string)
| LvNum (z : Z)
| LvErr (e : error).

Record log_entry : Type := mkLog {
  log_lvl : log_level;
  log_msg : string;
  log_fields : list (string * log_value)
}.

(** A goroutine: what it does next, and how it goes on. *)
Inductive prog (A : Type) : Type :=
| PRet (a : A)
| PPanic (why : string)
| PNow (k : Time → prog A)
| PGet (mac : EUI64) (k : gateway * option error → prog A)
| PSet (mac : EUI64) (gw : gateway) (k : option error → prog A)
| PSendUDP (p : udpPacket) (k : prog A)
| PSendRX (p : RXPacketBytes) (k : prog A)
| PSendStats (s : GatewayStatsPacket) (k : prog A)
| PLog (l : log_entry) (k : prog A).

Arguments PRet {A} a.
Arguments PPanic {A} why.
Arguments PNow {A} k.
Arguments PGet {A} mac k.
Arguments PSet {A} mac gw k.
Arguments PSendUDP {A} p k.
Arguments PSendRX {A} p k.
Arguments PSendStats {A} s k.
Arguments PLog {A} l k.

Fixpoint pbind {A B} (p : prog A) (f : A → prog B) : prog B :=
  match p with
  | PRet a => f a
  | PPanic w => PPanic w
  | PNow k => PNow (λ t, pbind (k t) f)
  | PGet mac k => PGet mac (λ r, pbind (k r) f)
  | PSet mac gw k => PSet mac gw (λ r, pbind (k r) f)
  | PSendUDP p k => PSendUDP p (pbind k f)
  | PSendRX p k => PSendRX p (pbind k f)
  | PSendStats s k => PSendStats s (pbind k f)
  | PLog l k => PLog l (pbind k f)
  end.

(** A call that returns an error makes the handler return it. *)
Definition call {A} (r : result A) (k : A → prog (option error)) : prog (option error) :=
  match r with
  | Ok a => k a
  | Err e => PRet (Some e)
  | Panic w => PPanic w
  end.

(** [if err := p; err != nil { return err }] *)
Definition check (p : prog (option error)) (k : prog (option error)) : prog (option error) :=
  pbind p (λ e, match e with Some _ => PRet e | None => k end).

(** ** The handlers *)

Section Handlers.
Context `{HostZone}.

(** [func (b *Backend) handleStat(addr, mac, stat)] *)
Definition handleStat (addr : UDPAddr) (mac : EUI64) (stat : Stat) : prog () :=
  let gwStats := newGatewayStatsPacket mac stat in
  PLog (mkLog LInfo "gateway: stat packet received" [("addr", LvAddr (Some addr)); ("mac", LvMac mac)])
  (let gwStats := addIPToGatewayStatsPacket gwStats (UDPAddr_IP addr) in
   PGet mac (λ '(gtw, err),
     let gwStats :=
       match err, gateway_addr gtw with
       | Some _, Some a => addIPToGatewayStatsPacket gwStats (UDPAddr_IP a)
       | _, _ => gwStats
       end in
     PSendStats gwStats (PRet tt))).

(** [func (b *Backend) handleRXPacket(addr, mac, rxpk) error] *)
Definition handleRXPacket (addr : UDPAddr) (mac : EUI64) (rxpk : RXPK) : prog (option error) :=
  let logFields := [("addr", LvAddr (Some addr)); ("mac", LvMac mac); ("data", LvStr (RXPK_Data rxpk))] in
  PLog (mkLog LInfo "gateway: rxpk packet received" logFields)
  (call (newRXPacketFromRXPK mac rxpk) (λ rxPacket,
   let status := RXInfo_CRCStatus (RXPacket_RXInfo rxPacket) in
   if negb (status =? 1) then
     PLog (mkLog LWarning ("gateway: invalid packet CRC: " +:+ to_string (FormatInt status)) logFields)
     (PRet (Some (ErrMsg "gateway: invalid CRC")))
   else PSendRX rxPacket (PRet None))).

(** The loop over the received packets: the first error ends it. *)
Fixpoint handleRXPackets (addr : UDPAddr) (mac : EUI64) (l : list RXPK) : prog (option error) :=
  match l with
  | [] => PRet None
  | rxpk :: l => check (handleRXPacket addr mac rxpk) (handleRXPackets addr mac l)
  end.

(** [func (b *Backend) handlePushData(addr, data) error] *)
Definition handlePushData (addr : UDPAddr) (data : bytes) : prog (option error) :=
  call (PushDataPacket_UnmarshalBinary data PushDataPacket_zero) (λ p,
  let ack := mkPushACKPacket (PushDataPacket_ProtocolVersion p) (PushDataPacket_RandomToken p) in
  call (PushACKPacket_MarshalBinary ack) (λ bytes,
  PSendUDP (mkUdpPacket (Some addr) bytes)
  (pbind
    (match PushDataPayload_Stat (PushDataPacket_Payload p) with
     | Some stat => handleStat addr (PushDataPacket_GatewayMAC p) stat
     | None => PRet tt
     end) (λ _,
   handleRXPackets addr (PushDataPacket_GatewayMAC p)
     (PushDataPayload_RXPK (PushDataPacket_Payload p)))))).

(** [func (b *Backend) handlePullData(addr, data) error] *)
Definition handlePullData (addr : UDPAddr) (data : bytes) : prog (option error) :=
  call (PullDataPacket_UnmarshalBinary data PullDataPacket_zero) (λ p,
  let ack := mkPullACKPacket (PullDataPacket_ProtocolVersion p) (PullDataPacket_RandomToken p) in
  call (PullACKPacket_MarshalBinary ack) (λ bytes,
  PNow (λ now,
  PSet (PullDataPacket_GatewayMAC p)
    (mkGateway (Some addr) now (PullDataPacket_ProtocolVersion p)) (λ err,
  match err with
  | Some e => PRet (Some e)
  | None => PSendUDP (mkUdpPacket (Some addr) bytes) (PRet None)
  end)))).

(** [func (b *Backend) handleTXACK(addr, data) error] *)
Definition handleTXACK (addr : UDPAddr) (data : bytes) : prog (option error) :=
  call (TXACKPacket_UnmarshalBinary data TXACKPacket_zero) (λ p,
  let logFields :=
    [("mac", LvMac (TXACKPacket_GatewayMAC p)); ("random_token", LvNum (TXACKPacket_RandomToken p))] in
  let '(errBool, logFields) :=
    match TXACKPacket_Payload p with
    | Some payload =>
        let err := TXPKACK_Error (TXACKPayload_TXPKACK payload) in
        (negb (bool_decide (err = "NONE")), logFields ++ [("error", LvStr err)])
    | None => (false, logFields)
    end in
  PLog (mkLog (if errBool then LError else LInfo) "gateway: tx ack received" logFields) (PRet None)).

(** [func (b *Backend) handlePacket(addr, data) error] *)
Definition handlePacket (addr : UDPAddr) (data : bytes) : prog (option error) :=
  call (GetPacketType data) (λ pt,
  call (index data 0) (λ v,
  PLog (mkLog LInfo "gateway: received udp packet from gateway"
    [("addr", LvAddr (Some addr)); ("type", LvNum pt); ("protocol_version", LvNum (Z_of_byte v))])
  (if pt =? PushData then handlePushData addr data
   else if pt =? PullData then handlePullData addr data
   else if pt =? TXACK then handleTXACK addr data
   else call (PacketType_String pt) (λ s,
     PRet (Some (ErrMsg ("gateway: unknown packet type: " +:+ s))))))).

(** The goroutine [readPackets] starts for a datagram. *)
Definition handle_datagram (addr : UDPAddr) (data : bytes) : prog () :=
  pbind (handlePacket addr data) (λ e,
  match e with
  | Some e =>
      PLog (mkLog LError "gateway: could not handle packet: "
        [("data_base64", LvStr (to_string (b64_encode data))); ("addr", LvAddr (Some addr));
         ("error", LvErr e)]) (PRet tt)
  | None => PRet tt
  end).

(** [func (b *Backend) Send(txPacket) error] *)
Definition Send (txPacket : TXPacketBytes) : prog (option error) :=
  PGet (TXInfo_MAC (TXPacket_TXInfo txPacket)) (λ '(gw, err),
  match err with
  | Some e => PRet (Some e)
  | None =>
      call (newTXPKFromTXPacket txPacket) (λ txpk,
      let pullResp := mkPullRespPacket (gateway_protocolVersion gw) 0 (mkPullRespPayload txpk) in
      call (rwrap "gateway: json marshall PullRespPacket error: " (PullRespPacket_MarshalBinary pullResp))
        (λ bytes, PSendUDP (mkUdpPacket (gateway_addr gw) bytes) (PRet None)))
  end).
End Handlers.

(** [func (b *Backend) sendPackets() error], one turn of the loop: what the
    socket writes, if anything. *)
Definition sendPacket (p : udpPacket) : prog (option udpPacket) :=
  match GetPacketType (udpPacket_data p) with
  | Ok pt =>
      match index (udpPacket_data p) 0 with
      | Ok v =>
          PLog (mkLog LInfo "gateway: sending udp packet to gateway"
            [("addr", LvAddr (udpPacket_addr p)); ("type", LvNum pt);
             ("protocol_version", LvNum (Z_of_byte v))]) (PRet (Some p))
      | Err _ => PRet None
      | Panic w => PPanic w
      end
  | Err _ =>
      PLog (mkLog LError "gateway: unknown packet type"
        [("addr", LvAddr (udpPacket_addr p));
         ("data_base64", LvStr (to_string (b64_encode (udpPacket_data p))))]) (PRet None)
  | Panic w => PPanic w
  end.

(** ** Running one handler alone *)

(** What a handler shows to the rest of the program. *)
Inductive event : Type :=
| EvUDP (p : udpPacket)
| EvRX (p : RXPacketBytes)
| EvStats (s : GatewayStatsPacket)
| EvLog (l : log_entry).

Inductive outcome (A : Type) : Type :=
| Done (a : A)
| Crashed (why : string).
Arguments Done {A} a.
Arguments Crashed {A} why.

(** The handler runs at the instant [now], on the registry and the state of the
    callbacks, while every channel has a ready receiver. *)
Section Exec.
Context {W : Type}.

Fixpoint exec {A} (now : Time) (p : prog A) (c : gateways W) (w : W)
  : outcome A * gateways W * W * list event :=
  match p with
  | PRet a => (Done a, c, w, [])
  | PPanic why => (Crashed why, c, w, [])
  | PNow k => exec now (k now) c w
  | PGet mac k => exec now (k (gateways_get c mac)) c w
  | PSet mac gw k =>
      let '(err, c, w) := gateways_set c mac gw w in exec now (k err) c w
  | PSendUDP p k => let '(o, c, w, evs) := exec now k c w in (o, c, w, EvUDP p :: evs)
  | PSendRX p k => let '(o, c, w, evs) := exec now k c w in (o, c, w, EvRX p :: evs)
  | PSendStats s k => let '(o, c, w, evs) := exec now k c w in (o, c, w, EvStats s :: evs)
  | PLog l k => let '(o, c, w, evs) := exec now k c w in (o, c, w, EvLog l :: evs)
  end.
End Exec.
