(* ===== verification/BackendLaws.v ===== *)
(** * What the handlers do

    The behaviour of each handler of [Backend] on every branch, run alone:
    what it sends, what it publishes, how it changes the registry. *)

From Stdlib Require Import String Ascii NArith ZArith Lia SpecFloat.
From stdpp Require Import base gmap list strings numbers.
From S2P Require Import Prelude GoPrim GoStrconv GoBase64 GoTime GoUtf8 GoFloat GoNet Lorawan.
From S2P Require Import GoFloatText GoJsonTyped GoJsonLaws Payload PayloadLaws Structs.
From S2P Require Import Registry Convert Backend.

Local Open Scope string_scope.
Local Open Scope list_scope.
Local Open Scope Z_scope.

(** ** Running composed programs *)

Section ExecLaws.
Context {W : Type}.
Implicit Types (c : gateways W) (w : W) (now : Time).

Lemma exec_pbind {A B} now (p : prog A) (f : A → prog B) c w :
  exec now (pbind p f) c w =
    let '(o, c1, w1, e1) := exec now p c w in
    match o with
    | Done a => let '(o, c2, w2, e2) := exec now (f a) c1 w1 in (o, c2, w2, e1 ++ e2)
    | Crashed why => (Crashed why, c1, w1, e1)
    end.
Proof.
  revert c w. induction p as [a|why|k IH|mac k IH|mac gw k IH|p k IH|p k IH|s k IH|l k IH];
    intros c w; cbn [pbind exec]; try done.
  - by destruct (exec now (f a) c w) as [[[o c2] w2] e2].
  - destruct (gateways_set c mac gw w) as [[err c1] w1]. apply IH.
  - rewrite IH. destruct (exec now k c w) as [[[[a|y] c1] w1] e1]; [|done].
    by destruct (exec now (f a) c1 w1) as [[[o c2] w2] e2].
  - rewrite IH. destruct (exec now k c w) as [[[[a|y] c1] w1] e1]; [|done].
    by destruct (exec now (f a) c1 w1) as [[[o c2] w2] e2].
  - rewrite IH. destruct (exec now k c w) as [[[[a|y] c1] w1] e1]; [|done].
    by destruct (exec now (f a) c1 w1) as [[[o c2] w2] e2].
  - rewrite IH. destruct (exec now k c w) as [[[[a|y] c1] w1] e1]; [|done].
    by destruct (exec now (f a) c1 w1) as [[[o c2] w2] e2].
Qed.
End ExecLaws.

(** The events other goroutines and the network see, without the log. *)
Definition visible (e : event) : bool := match e with EvLog _ => false | _ => true end.
Definition outputs (l : list event) : list event := List.filter visible l.

Lemma outputs_app l k : outputs (l ++ k) = outputs l ++ outputs k.
Proof. apply List.filter_app. Qed.

(** The result of a run without its log. *)
Definition observed {W A} (r : outcome A * gateways W * W * list event)
  : outcome A * gateways W * W * list event :=
  let '(o, c, w, evs) := r in (o, c, w, outputs evs).

Definition emit {W A} (e : event) (r : outcome A * gateways W * W * list event)
  : outcome A * gateways W * W * list event :=
  let '(o, c, w, evs) := r in (o, c, w, e :: evs).

(** A run without its log. *)
Definition run {W A} (now : Time) (p : prog A) (c : gateways W) (w : W)
  : outcome A * gateways W * W * list event := observed (exec now p c w).

Section RunLaws.
Context {W : Type}.
Implicit Types (c : gateways W) (w : W) (now : Time).

Lemma run_ret {A} now (a : A) c w : run now (PRet a) c w = (Done a, c, w, []).
Proof. done. Qed.

Lemma run_log {A} now l (k : prog A) c w : run now (PLog l k) c w = run now k c w.
Proof. unfold run. simpl. by destruct (exec now k c w) as [[[o c1] w1] e1]. Qed.

Lemma run_udp {A} now p (k : prog A) c w :
  run now (PSendUDP p k) c w = emit (EvUDP p) (run now k c w).
Proof. unfold run. simpl. by destruct (exec now k c w) as [[[o c1] w1] e1]. Qed.

Lemma run_rx {A} now p (k : prog A) c w :
  run now (PSendRX p k) c w = emit (EvRX p) (run now k c w).
Proof. unfold run. simpl. by destruct (exec now k c w) as [[[o c1] w1] e1]. Qed.

Lemma run_stats {A} now s (k : prog A) c w :
  run now (PSendStats s k) c w = emit (EvStats s) (run now k c w).
Proof. unfold run. simpl. by destruct (exec now k c w) as [[[o c1] w1] e1]. Qed.

Lemma run_get {A} now mac (k : _ → prog A) c w :
  run now (PGet mac k) c w = run now (k (gateways_get c mac)) c w.
Proof. done. Qed.

Lemma run_now {A} now (k : _ → prog A) c w : run now (PNow k) c w = run now (k now) c w.
Proof. done. Qed.

Lemma run_set {A} now mac gw (k : _ → prog A) c w :
  run now (PSet mac gw k) c w =
    let '(err, c1, w1) := gateways_set c mac gw w in run now (k err) c1 w1.
Proof. unfold run. simpl. by destruct (gateways_set c mac gw w) as [[err c1] w1]. Qed.

Lemma run_pbind {A B} now (p : prog A) (f : A → prog B) c w :
  run now (pbind p f) c w =
    let '(o, c1, w1, e1) := run now p c w in
    match o with
    | Done a => let '(o, c2, w2, e2) := run now (f a) c1 w1 in (o, c2, w2, e1 ++ e2)
    | Crashed why => (Crashed why, c1, w1, e1)
    end.
Proof.
  unfold run. rewrite exec_pbind. destruct (exec now p c w) as [[[[a|y] c1] w1] e1]; [|done].
  simpl. destruct (exec now (f a) c1 w1) as [[[o c2] w2] e2]. simpl. by rewrite outputs_app.
Qed.
End RunLaws.

Create Rewrite HintDb run_db.
#[export] Hint Rewrite @run_ret @run_log @run_udp @run_rx @run_stats @run_get @run_now
  @run_set @run_pbind : run_db.

(** ** Dispatch *)

Lemma GetPacketType_first data pt :
  GetPacketType data = Ok pt → ∃ v, index data 0 = Ok v ∧ protocolSupported (Z_of_byte v) = true.
Proof.
  unfold GetPacketType. destruct (Nat.ltb_spec (length data) 4); [done|].
  intros (v & Hv & Hr)%rbind_ok. destruct (protocolSupported (Z_of_byte v)) eqn:E; [|done]. eauto.
Qed.

Section Dispatch.
Context `{HostZone} {W : Type}.
Implicit Types (c : gateways W) (w : W) (now : Time).

Lemma run_handlePacket now addr data pt c w :
  GetPacketType data = Ok pt →
  run now (handlePacket addr data) c w =
  run now (if pt =? PushData then handlePushData addr data
           else if pt =? PullData then handlePullData addr data
           else if pt =? TXACK then handleTXACK addr data
           else call (PacketType_String pt) (λ s,
             PRet (Some (ErrMsg ("gateway: unknown packet type: " +:+ s))))) c w.
Proof.
  intros Ht. destruct (GetPacketType_first _ _ Ht) as (v & Hv & _).
  unfold handlePacket. rewrite Ht. cbn [call]. rewrite Hv. cbn [call]. apply run_log.
Qed.

(** The goroutine of a datagram ends like its handler, and shows the same. *)
Lemma run_handle_datagram now addr data c w e c' w' evs :
  run now (handlePacket addr data) c w = (Done e, c', w', evs) →
  run now (handle_datagram addr data) c w = (Done tt, c', w', evs).
Proof.
  intros Hr. unfold handle_datagram. rewrite run_pbind, Hr.
  destruct e as [e|]; autorewrite with run_db; by rewrite app_nil_r.
Qed.
End Dispatch.

(** ** PULL_DATA: registration and acknowledgement *)

Section PullData.
Context `{HostZone} {W : Type}.
Implicit Types (c : gateways W) (w : W) (now : Time).

(** C6: A PULL_DATA registers the gateway with its address, protocol version and the
    current time, and is acknowledged with its token and version unless the network
    backend refuses the new gateway; then nothing is sent. *)
Theorem handlePullData_spec now addr p data c w :
  header_wf (PullDataPacket_ProtocolVersion p) (PullDataPacket_RandomToken p) →
  PullDataPacket_MarshalBinary p = Ok data →
  ∃ ack, PullACKPacket_UnmarshalBinary ack PullACKPacket_zero
         = Ok (mkPullACKPacket (PullDataPacket_ProtocolVersion p) (PullDataPacket_RandomToken p)) ∧
  run now (handle_datagram addr data) c w =
    match gateways_set c (PullDataPacket_GatewayMAC p)
            (mkGateway (Some addr) now (PullDataPacket_ProtocolVersion p)) w with
    | (None, c', w') => (Done tt, c', w', [EvUDP (mkUdpPacket (Some addr) ack)])
    | (Some _, c', w') => (Done tt, c', w', [])
    end.
Proof.
  intros Hh Hm.
  assert (PullDataPacket_UnmarshalBinary data PullDataPacket_zero = Ok p) as Hu
    by (by apply PullDataPacket_decode_iff).
  set (v := PullDataPacket_ProtocolVersion p) in *.
  set (tok := PullDataPacket_RandomToken p) in *.
  exists (header v tok PullACK). split; [by apply PullACKPacket_decode_iff|].
  destruct (gateways_set _ _ _ w) as [[err c'] w'] eqn:Hset.
  assert (GetPacketType data = Ok PullData) as Ht by (by eapply GetPacketType_sound).
  assert (run now (handlePacket addr data) c w = (Done err, c', w',
    match err with
    | None => [EvUDP (mkUdpPacket (Some addr) (header v tok PullACK))]
    | Some _ => []
    end)) as Hr.
  { rewrite (run_handlePacket _ _ _ _ _ _ Ht).
    change (PullData =? PushData) with false. change (PullData =? PullData) with true. cbn iota.
    unfold handlePullData. rewrite Hu. cbn [call PullACKPacket_MarshalBinary].
    rewrite run_now, run_set. fold v tok. rewrite Hset. destruct err; autorewrite with run_db; done. }
  apply run_handle_datagram in Hr. rewrite Hr. by destruct err.
Qed.
End PullData.

(** ** PUSH_DATA: acknowledgement, statistics, received packets *)

(** What [handleRXPacket] hands over, or the error it returns. *)
Definition accepted (mac : EUI64) (rxpk : RXPK) : result RXPacketBytes :=
  let* p := newRXPacketFromRXPK mac rxpk in
  if RXInfo_CRCStatus (RXPacket_RXInfo p) =? 1 then Ok p else Err (ErrMsg "gateway: invalid CRC").

(** The statistics of a [stat], with the address of the sender as the only IP. *)
Definition stats_of (addr : UDPAddr) (mac : EUI64) (stat : Stat) : GatewayStatsPacket :=
  with_CustomData (newGatewayStatsPacket mac stat)
    (<["ip" := IStrings [IP_String (UDPAddr_IP addr)]]>
       (Stats_CustomData (newGatewayStatsPacket mac stat))).

Section PushData.
Context `{HostZone} {W : Type}.
Implicit Types (c : gateways W) (w : W) (now : Time).

(** The handler asks the registry for the address the gateway pulls from, but
    uses the answer only when there is none. *)
Lemma run_handleStat now addr mac stat c w :
  run now (handleStat addr mac stat) c w = (Done tt, c, w, [EvStats (stats_of addr mac stat)]).
Proof.
  unfold handleStat. rewrite run_log, run_get.
  assert (addIPToGatewayStatsPacket (newGatewayStatsPacket mac stat) (UDPAddr_IP addr)
    = stats_of addr mac stat) as ->.
  { unfold addIPToGatewayStatsPacket. cbn [newGatewayStatsPacket Stats_CustomData].
    rewrite !lookup_insert_ne, lookup_insert_eq by done. by rewrite bool_decide_false by set_solver. }
  unfold gateways_get. destruct (gateways_map c !! mac) as [gw|]; by autorewrite with run_db.
Qed.

Lemma run_handleRXPacket now addr mac rxpk c w :
  run now (handleRXPacket addr mac rxpk) c w =
    match accepted mac rxpk with
    | Ok p => (Done None, c, w, [EvRX p])
    | Err e => (Done (Some e), c, w, [])
    | Panic why => (Crashed why, c, w, [])
    end.
Proof.
  unfold handleRXPacket, accepted. rewrite run_log.
  destruct (newRXPacketFromRXPK mac rxpk) as [p|e|why]; cbn [call rbind]; [|done..].
  destruct (_ =? 1); cbn [negb]; by autorewrite with run_db.
Qed.

(** The loop publishes the longest prefix of packets it accepts. *)
Lemma run_handleRXPackets now addr mac l c w :
  ∃ good bad ps err,
    l = good ++ bad ∧ Forall2 (λ r p, accepted mac r = Ok p) good ps ∧
    match bad with
    | [] => err = None
    | r :: _ => ∃ e, accepted mac r = Err e ∧ err = Some e
    end ∧
    run now (handleRXPackets addr mac l) c w = (Done err, c, w, map EvRX ps).
Proof.
  induction l as [|r l (good & bad & ps & err & -> & Hg & Hb & Hr)].
  { by exists [], [], [], None. }
  cbn [handleRXPackets]. unfold check. rewrite run_pbind, run_handleRXPacket.
  assert (no_panic (accepted mac r)) as Hnp.
  { apply rbind_no_panic; [apply newRXPacketFromRXPK_no_panic|]. intros p _. by case_goal. }
  destruct (accepted mac r) as [p|e|why] eqn:Ha; [| |done].
  - exists (r :: good), bad, (p :: ps), err. split_and!; [done|by constructor|done|]. by rewrite Hr.
  - exists [], (r :: good ++ bad), [], (Some e). split_and!; [done|done|by exists e|].
    by autorewrite with run_db.
Qed.

Lemma run_push_datagram now addr data p c w :
  PushDataPacket_UnmarshalBinary data PushDataPacket_zero = Ok p →
  let mac := PushDataPacket_GatewayMAC p in
  let payload := PushDataPacket_Payload p in
  ∃ ack good bad ps,
    PushACKPacket_UnmarshalBinary ack PushACKPacket_zero
    = Ok (mkPushACKPacket (PushDataPacket_ProtocolVersion p) (PushDataPacket_RandomToken p)) ∧
    PushDataPayload_RXPK payload = good ++ bad ∧
    Forall2 (λ r rx, accepted mac r = Ok rx) good ps ∧
    match bad with [] => True | r :: _ => ∃ e, accepted mac r = Err e end ∧
    run now (handle_datagram addr data) c w =
      (Done tt, c, w,
       EvUDP (mkUdpPacket (Some addr) ack)
       :: match PushDataPayload_Stat payload with
          | Some stat => [EvStats (stats_of addr mac stat)]
          | None => []
          end ++ map EvRX ps).
Proof.
  intros Hu mac payload. assert (GetPacketType data = Ok PushData) as Ht
    by (by eapply GetPacketType_sound).
  destruct (run_handleRXPackets now addr mac (PushDataPayload_RXPK payload) c w)
    as (good & bad & ps & err & Hl & Hg & Hb & Hr).
  set (v := PushDataPacket_ProtocolVersion p). set (tok := PushDataPacket_RandomToken p).
  assert (header_wf v tok) as Hh.
  { unfold PushDataPacket_UnmarshalBinary in Hu. decode_guards Hu. guard_props.
    subst v tok. injection Hu as <-. split; eauto using Uint16_range. }
  exists (header v tok PushACK), good, bad, ps.
  split; [by apply PushACKPacket_decode_iff|]. split; [done|]. split; [done|].
  split; [destruct bad; [done|]; naive_solver|].
  apply (run_handle_datagram _ _ _ _ _ err). rewrite (run_handlePacket _ _ _ _ _ _ Ht).
  change (PushData =? PushData) with true. cbn iota.
  unfold handlePushData. rewrite Hu. cbn [call PushACKPacket_MarshalBinary].
  rewrite run_udp, run_pbind. fold payload mac. destruct (PushDataPayload_Stat payload) as [stat|].
  - rewrite run_handleStat, Hr. done.
  - autorewrite with run_db. rewrite Hr. done.
Qed.

(** C5: Any datagram that decodes as a PUSH_DATA is acknowledged with its token and
    version to its sender; then the statistics are published, then the received
    packets in order up to the first one that does not convert or whose CRC status
    is not 1; nothing else changes. *)
Theorem handlePushData_spec now addr data p c w :
  PushDataPacket_UnmarshalBinary data PushDataPacket_zero = Ok p →
  let mac := PushDataPacket_GatewayMAC p in
  let payload := PushDataPacket_Payload p in
  ∃ ack good bad ps,
    PushACKPacket_UnmarshalBinary ack PushACKPacket_zero
    = Ok (mkPushACKPacket (PushDataPacket_ProtocolVersion p) (PushDataPacket_RandomToken p)) ∧
    PushDataPayload_RXPK payload = good ++ bad ∧
    Forall2 (λ r rx, newRXPacketFromRXPK mac r = Ok rx ∧ RXInfo_CRCStatus (RXPacket_RXInfo rx) = 1) good ps ∧
    match bad with
    | [] => True
    | r :: _ => match newRXPacketFromRXPK mac r with
                | Ok rx => RXInfo_CRCStatus (RXPacket_RXInfo rx) ≠ 1
                | Err _ => True
                | Panic _ => False
                end
    end ∧
    run now (handle_datagram addr data) c w =
      (Done tt, c, w,
       EvUDP (mkUdpPacket (Some addr) ack)
       :: match PushDataPayload_Stat payload with
          | Some stat => [EvStats (stats_of addr mac stat)]
          | None => []
          end ++ map EvRX ps).
Proof.
  intros Hu. cbv zeta.
  destruct (run_push_datagram now addr data p c w Hu) as (ack & good & bad & ps & Ha & Hl & Hg & Hb & Hr).
  exists ack, good, bad, ps. split_and!; [done|done| | |done].
  - eapply Forall2_impl; [|exact Hg]. intros r rx. unfold accepted. intros Hx.
    apply rbind_ok in Hx as (q & -> & Hx). destruct (Z.eqb_spec (RXInfo_CRCStatus (RXPacket_RXInfo q)) 1); [|done].
    by injection Hx as <-.
  - destruct bad as [|r bad]; [done|]. destruct Hb as [e Hb]. unfold accepted in Hb.
    destruct (newRXPacketFromRXPK _ r) as [q|e'|why]; cbn in Hb; [|done..].
    destruct (Z.eqb_spec (RXInfo_CRCStatus (RXPacket_RXInfo q)) 1); done.
Qed.

(** When the first rxpk of a PUSH_DATA does not convert or has a bad CRC, none of
    its packets is published, however many good ones follow. *)
Theorem corrupt_frame_hides_the_rest now addr data p c w bad rest :
  PushDataPacket_UnmarshalBinary data PushDataPacket_zero = Ok p →
  PushDataPayload_RXPK (PushDataPacket_Payload p) = bad :: rest →
  (∃ e, accepted (PushDataPacket_GatewayMAC p) bad = Err e) →
  ∃ evs, run now (handle_datagram addr data) c w = (Done tt, c, w, evs) ∧
         ∀ rx, EvRX rx ∉ evs.
Proof.
  intros Hu Hl [e He].
  destruct (run_push_datagram now addr data p c w Hu) as (ack & good & b & ps & _ & Hgb & Hf & _ & Hr).
  rewrite Hr. eexists. split; [done|].
  assert (ps = []) as ->.
  { destruct good as [|g good]; [by inversion Hf|].
    rewrite Hl in Hgb. injection Hgb as <- _. inversion Hf; subst. congruence. }
  intros rx. destruct (PushDataPayload_Stat _); set_solver.
Qed.
End PushData.

(** ** TX_ACK and everything else: only the log *)

Section Quiet.
Context `{HostZone} {W : Type}.
Implicit Types (c : gateways W) (w : W) (now : Time).

(** The datagrams a gateway may send that make the bridge act. *)
Definition actionable (data : bytes) : bool :=
  is_ok (PushDataPacket_UnmarshalBinary data PushDataPacket_zero)
  || is_ok (PullDataPacket_UnmarshalBinary data PullDataPacket_zero).

Lemma call_quiet {A} now (r : result A) (k : A → prog (option error)) c w :
  no_panic r →
  (∀ a, r = Ok a → ∃ e, run now (k a) c w = (Done e, c, w, [])) →
  ∃ e, run now (call r k) c w = (Done e, c, w, []).
Proof. destruct r; simpl; [eauto|eauto|done]. Qed.

(** C35: A datagram that is neither a valid PUSH_DATA nor a valid PULL_DATA
    (truncated, of another version or type, with bad JSON, or a TX_ACK) changes
    nothing and sends nothing. *)
Theorem other_datagrams_ignored now addr data c w :
  actionable data = false →
  run now (handle_datagram addr data) c w = (Done tt, c, w, []).
Proof.
  unfold actionable. rewrite orb_false_iff. intros [Hpush Hpull].
  destruct (UnmarshalBinary_no_panic data) as (Np & Npush & _ & Npull & _ & _ & Ntx).
  assert (∃ e, run now (handlePacket addr data) c w = (Done e, c, w, [])) as [e He];
    [|by apply run_handle_datagram in He].
  destruct (GetPacketType data) as [pt|e|] eqn:Ht; [| |done].
  2: { unfold handlePacket. rewrite Ht. by exists (Some e). }
  rewrite (run_handlePacket _ _ _ _ _ _ Ht).
  destruct (pt =? PushData); [|destruct (pt =? PullData); [|destruct (pt =? TXACK)]].
  - apply call_quiet; [apply Npush|]. intros p Hp. by rewrite Hp in Hpush.
  - apply call_quiet; [apply Npull|]. intros p Hp. by rewrite Hp in Hpull.
  - apply call_quiet; [apply Ntx|]. intros p _.
    cbv beta zeta. exists None. by destruct (TXACKPacket_Payload p); rewrite run_log.
  - apply call_quiet; [|intros a _; by eexists].
    assert (0 ≤ pt) as Hpt.
    { unfold GetPacketType in Ht. destruct (length data <? 4)%nat; [done|].
      apply rbind_ok in Ht as (v & _ & Ht). destruct (negb _); [done|].
      apply rbind_ok in Ht as (t & _ & Ht). injection Ht as <-. apply Z_of_byte_range. }
    by rewrite PacketType_String_spec.
Qed.

(** A TX_ACK is only logged: as information when it reports no error, else as an error. *)
Theorem handleTXACK_log now addr data p c w :
  TXACKPacket_UnmarshalBinary data TXACKPacket_zero = Ok p →
  ∃ l fields,
    exec now (handle_datagram addr data) c w =
      (Done tt, c, w, [EvLog l; EvLog (mkLog
         (match TXACKPacket_Payload p with
          | Some payload =>
              if bool_decide (TXPKACK_Error (TXACKPayload_TXPKACK payload) = "NONE") then LInfo else LError
          | None => LInfo
          end) "gateway: tx ack received" fields)]).
Proof.
  intros Hu. assert (GetPacketType data = Ok TXACK) as Ht by (by eapply GetPacketType_sound).
  destruct (GetPacketType_first _ _ Ht) as (v & Hv & _).
  unfold handle_datagram. rewrite exec_pbind. unfold handlePacket. rewrite Ht. cbn [call].
  rewrite Hv. cbn [call]. change (TXACK =? PushData) with false.
  change (TXACK =? PullData) with false. change (TXACK =? TXACK) with true. cbn iota.
  unfold handleTXACK. rewrite Hu. cbn [call]. destruct (TXACKPacket_Payload p) as [payload|].
  - destruct (bool_decide _); simpl; eauto.
  - simpl. eauto.
Qed.
End Quiet.

(** ** Downlink: what the gateway receives *)

Section SendLaws.
Context `{HostZone} {W : Type}.
Implicit Types (c : gateways W) (w : W) (now : Time).

(** Sending to a gateway that is not registered is refused, and nothing is written. *)
Theorem Send_unknown_gateway now tx c w :
  gateways_map c !! TXInfo_MAC (TXPacket_TXInfo tx) = None →
  exec now (Send tx) c w = (Done (Some ErrGatewayDoesNotExist), c, w, []).
Proof. intros Hm. unfold Send. cbn [exec]. unfold gateways_get. by rewrite Hm. Qed.

(** C7: Sending a well-formed packet to a registered gateway writes exactly one
    datagram, to the gateway's address: it decodes as a PULL_RESP of the gateway's
    version with token 0 and the converted packet. *)
Theorem Send_pull_resp now tx c w gw :
  gateways_map c !! TXInfo_MAC (TXPacket_TXInfo tx) = Some gw →
  protocolSupported (gateway_protocolVersion gw) = true → TXPacket_wf tx →
  ∃ data txpk,
    exec now (Send tx) c w = (Done None, c, w, [EvUDP (mkUdpPacket (gateway_addr gw) data)]) ∧
    newTXPKFromTXPacket tx = Ok txpk ∧
    PullRespPacket_UnmarshalBinary data PullRespPacket_zero
    = Ok (mkPullRespPacket (gateway_protocolVersion gw) 0 (mkPullRespPayload txpk)).
Proof.
  intros Hm Hv Hwf. destruct (newTXPKFromTXPacket_wf tx Hwf) as (txpk & Htx & Hwx).
  set (resp := mkPullRespPacket (gateway_protocolVersion gw) 0 (mkPullRespPayload txpk)).
  destruct (PullRespPacket_roundtrip_gen resp PullRespPacket_zero) as (data & Hd & Hu);
    [by split|done|done|].
  exists data, txpk. split_and!; [|done|].
  - unfold Send. cbn [exec]. unfold gateways_get. rewrite Hm, Htx. cbn [call]. fold resp.
    rewrite Hd. done.
  - rewrite Hu. unfold PullRespPacket_sent, resp. packet_fields. by destruct (_ =? _).
Qed.
End SendLaws.
