(* ===== verification/System.v ===== *)
(** * The packet-forwarder backend: the running system

    The goroutines of [gateway/backend.go] and of the downlink loop of
    [cmd/lora-gateway-bridge/main.go] as a transition system: the reader and the
    sender start, datagrams arrive and start handlers, the handlers interleave,
    the sender takes packets from the unbuffered channel [udpSendChan] and the
    loops of [run] what is on [rxChan] and [statsChan], the registry is cleaned up
    under its lock, [Close] closes the backend and waits. *)

From Stdlib Require Import String Ascii NArith ZArith Lia.
From stdpp Require Import base gmap list strings numbers.
From S2P Require Import Prelude GoPrim GoStrconv GoFloat GoNet Lorawan GoJsonTyped Payload.
From S2P Require Import PayloadLaws Structs GoSync Registry Convert Backend BackendLaws.

Local Open Scope string_scope.
Local Open Scope list_scope.
Local Open Scope Z_scope.

(** ** State *)

(** The goroutine that reads: before [b.wg.Add(1)], in [readPackets], returned
    from it, after [b.wg.Done()]. *)
Inductive worker : Type := WNew | WRunning | WReturned | WGone.

(** The goroutine that sends: before [b.wg.Add(1)], ranging over the channel,
    holding a packet it just received, returned from [sendPackets], after
    [b.wg.Done()]. *)
Inductive sender : Type :=
| SNew
| SIdle
| SBusy (p : udpPacket)
| SDone
| SGone.

(** [Close]: before [b.wg.Wait()], waiting, returned. *)
Inductive closer : Type := CIdle | CWaiting | CReturned (err : option error).

(** Why the process ended. *)
Inductive exit : Type :=
| ExFatal
| ExPanic (why : string).

(** [type Backend struct] with its goroutines and the loops of [run] at the other
    ends of its channels.  [sys_in] is what was received, [sys_tx] what the
    downlink loop took, [sys_out] what was written; [sys_rx] and [sys_stats] are
    what was handed over on the unbuffered channels, and [sys_rx_taken],
    [sys_stats_taken] how many turns the loops that receive them have finished. *)
Record system (W : Type) : Type := mkSystem {
  sys_registry : gateways W;
  sys_world : W;
  sys_clock : Time;
  sys_cleaner : cleaner;
  sys_handlers : list (prog ());
  sys_downlink : prog ();
  sys_reader : worker;
  sys_sender : sender;
  sys_wg : WaitGroup;
  sys_closer : closer;
  sys_closed : bool;
  sys_chan_closed : bool;
  sys_conn_closed : bool;
  sys_exit : option exit;
  sys_in : list (UDPAddr * bytes);
  sys_tx : list TXPacketBytes;
  sys_out : list udpPacket;
  sys_rx : list RXPacketBytes;
  sys_stats : list GatewayStatsPacket;
  sys_rx_taken : nat;
  sys_stats_taken : nat
}.
Arguments mkSystem {W}.
Arguments sys_registry {W}.
Arguments sys_world {W}.
Arguments sys_clock {W}.
Arguments sys_cleaner {W}.
Arguments sys_handlers {W}.
Arguments sys_downlink {W}.
Arguments sys_reader {W}.
Arguments sys_sender {W}.
Arguments sys_wg {W}.
Arguments sys_closer {W}.
Arguments sys_closed {W}.
Arguments sys_chan_closed {W}.
Arguments sys_conn_closed {W}.
Arguments sys_exit {W}.
Arguments sys_in {W}.
Arguments sys_tx {W}.
Arguments sys_out {W}.
Arguments sys_rx {W}.
Arguments sys_stats {W}.
Arguments sys_rx_taken {W}.
Arguments sys_stats_taken {W}.

Section System.
Context `{HostZone} {W : Type}.
Implicit Types (s : system W) (w : W) (p : prog ()).

(** The fields that one step may change. *)
Definition set_registry s c w : system W :=
  mkSystem c w (sys_clock s) (sys_cleaner s) (sys_handlers s) (sys_downlink s) (sys_reader s)
    (sys_sender s) (sys_wg s) (sys_closer s) (sys_closed s) (sys_chan_closed s)
    (sys_conn_closed s) (sys_exit s) (sys_in s) (sys_tx s) (sys_out s) (sys_rx s) (sys_stats s)
    (sys_rx_taken s) (sys_stats_taken s).
Definition set_clock s t : system W :=
  mkSystem (sys_registry s) (sys_world s) t (sys_cleaner s) (sys_handlers s) (sys_downlink s)
    (sys_reader s) (sys_sender s) (sys_wg s) (sys_closer s) (sys_closed s) (sys_chan_closed s)
    (sys_conn_closed s) (sys_exit s) (sys_in s) (sys_tx s) (sys_out s) (sys_rx s) (sys_stats s)
    (sys_rx_taken s) (sys_stats_taken s).
Definition set_cleaner s cl : system W :=
  mkSystem (sys_registry s) (sys_world s) (sys_clock s) cl (sys_handlers s) (sys_downlink s)
    (sys_reader s) (sys_sender s) (sys_wg s) (sys_closer s) (sys_closed s) (sys_chan_closed s)
    (sys_conn_closed s) (sys_exit s) (sys_in s) (sys_tx s) (sys_out s) (sys_rx s) (sys_stats s)
    (sys_rx_taken s) (sys_stats_taken s).
Definition set_handlers s l : system W :=
  mkSystem (sys_registry s) (sys_world s) (sys_clock s) (sys_cleaner s) l (sys_downlink s)
    (sys_reader s) (sys_sender s) (sys_wg s) (sys_closer s) (sys_closed s) (sys_chan_closed s)
    (sys_conn_closed s) (sys_exit s) (sys_in s) (sys_tx s) (sys_out s) (sys_rx s) (sys_stats s)
    (sys_rx_taken s) (sys_stats_taken s).
Definition set_downlink s p : system W :=
  mkSystem (sys_registry s) (sys_world s) (sys_clock s) (sys_cleaner s) (sys_handlers s) p
    (sys_reader s) (sys_sender s) (sys_wg s) (sys_closer s) (sys_closed s) (sys_chan_closed s)
    (sys_conn_closed s) (sys_exit s) (sys_in s) (sys_tx s) (sys_out s) (sys_rx s) (sys_stats s)
    (sys_rx_taken s) (sys_stats_taken s).
Definition set_sender s x : system W :=
  mkSystem (sys_registry s) (sys_world s) (sys_clock s) (sys_cleaner s) (sys_handlers s)
    (sys_downlink s) (sys_reader s) x (sys_wg s) (sys_closer s) (sys_closed s)
    (sys_chan_closed s) (sys_conn_closed s) (sys_exit s) (sys_in s) (sys_tx s) (sys_out s)
    (sys_rx s) (sys_stats s) (sys_rx_taken s) (sys_stats_taken s).
Definition set_workers s r x g : system W :=
  mkSystem (sys_registry s) (sys_world s) (sys_clock s) (sys_cleaner s) (sys_handlers s)
    (sys_downlink s) r x g (sys_closer s) (sys_closed s) (sys_chan_closed s) (sys_conn_closed s)
    (sys_exit s) (sys_in s) (sys_tx s) (sys_out s) (sys_rx s) (sys_stats s) (sys_rx_taken s)
    (sys_stats_taken s).
Definition set_closer s x g : system W :=
  mkSystem (sys_registry s) (sys_world s) (sys_clock s) (sys_cleaner s) (sys_handlers s)
    (sys_downlink s) (sys_reader s) (sys_sender s) g x (sys_closed s) (sys_chan_closed s)
    (sys_conn_closed s) (sys_exit s) (sys_in s) (sys_tx s) (sys_out s) (sys_rx s) (sys_stats s)
    (sys_rx_taken s) (sys_stats_taken s).
Definition set_flags s (closed chan conn : bool) : system W :=
  mkSystem (sys_registry s) (sys_world s) (sys_clock s) (sys_cleaner s) (sys_handlers s)
    (sys_downlink s) (sys_reader s) (sys_sender s) (sys_wg s) (sys_closer s) closed chan conn
    (sys_exit s) (sys_in s) (sys_tx s) (sys_out s) (sys_rx s) (sys_stats s) (sys_rx_taken s)
    (sys_stats_taken s).
Definition set_exit s e : system W :=
  mkSystem (sys_registry s) (sys_world s) (sys_clock s) (sys_cleaner s) (sys_handlers s)
    (sys_downlink s) (sys_reader s) (sys_sender s) (sys_wg s) (sys_closer s) (sys_closed s)
    (sys_chan_closed s) (sys_conn_closed s) (Some e) (sys_in s) (sys_tx s) (sys_out s)
    (sys_rx s) (sys_stats s) (sys_rx_taken s) (sys_stats_taken s).
Definition set_io s ins tx out rx stats : system W :=
  mkSystem (sys_registry s) (sys_world s) (sys_clock s) (sys_cleaner s) (sys_handlers s)
    (sys_downlink s) (sys_reader s) (sys_sender s) (sys_wg s) (sys_closer s) (sys_closed s)
    (sys_chan_closed s) (sys_conn_closed s) (sys_exit s) ins tx out rx stats (sys_rx_taken s)
    (sys_stats_taken s).
Definition set_loops s rx stats : system W :=
  mkSystem (sys_registry s) (sys_world s) (sys_clock s) (sys_cleaner s) (sys_handlers s)
    (sys_downlink s) (sys_reader s) (sys_sender s) (sys_wg s) (sys_closer s) (sys_closed s)
    (sys_chan_closed s) (sys_conn_closed s) (sys_exit s) (sys_in s) (sys_tx s) (sys_out s)
    (sys_rx s) (sys_stats s) rx stats.

(** [func NewBackend(bind, onNew, onDelete)]: resolving the
    address and opening the socket are the host's. *)
Definition NewBackend (resolved : result UDPAddr) (listen : UDPAddr → result ())
    (onNew : callback W) (onDelete : waiting_callback W) (now : Time) (w : W) : result (system W) :=
  let* addr := resolved in
  let* _ := listen addr in
  Ok (mkSystem (mkGateways ∅ (Some onNew) (Some onDelete)) w now Asleep [] (PRet tt) WNew SNew
        wg_zero CIdle false false false None [] [] [] [] [] 0 0).

(** The body of the downlink loop of [run]. *)
Definition downlink (tx : TXPacketBytes) : prog () :=
  pbind (Send tx) (λ e,
  match e with
  | Some e => PLog (mkLog LError "could not send TXPacket: " [("error", LvErr e)]) (PRet tt)
  | None => PRet tt
  end).

(** ** Steps *)

(** One step of a goroutine.  The registry's lock must be free, a channel needs its
    receiver: the sender at its receive, the loops of [run] back from their last
    turn.  Sending on [udpSendChan] when it is closed panics. *)
Inductive local : prog () → system W → prog () → system W → Prop :=
| local_now k s : local (PNow k) s (k (sys_clock s)) s
| local_get mac k s :
    cleaning (sys_cleaner s) = false →
    local (PGet mac k) s (k (gateways_get (sys_registry s) mac)) s
| local_set mac gw k s err c w :
    cleaning (sys_cleaner s) = false →
    gateways_set (sys_registry s) mac gw (sys_world s) = (err, c, w) →
    local (PSet mac gw k) s (k err) (set_registry s c w)
| local_udp q k s :
    sys_chan_closed s = false → sys_sender s = SIdle →
    local (PSendUDP q k) s k (set_sender s (SBusy q))
| local_udp_closed q k s :
    sys_chan_closed s = true →
    local (PSendUDP q k) s (PSendUDP q k) (set_exit s (ExPanic "send on closed channel"))
| local_rx q k s :
    sys_rx_taken s = length (sys_rx s) →
    local (PSendRX q k) s k
      (set_io s (sys_in s) (sys_tx s) (sys_out s) (sys_rx s ++ [q]) (sys_stats s))
| local_stats q k s :
    sys_stats_taken s = length (sys_stats s) →
    local (PSendStats q k) s k
      (set_io s (sys_in s) (sys_tx s) (sys_out s) (sys_rx s) (sys_stats s ++ [q]))
| local_log l k s : local (PLog l k) s k s
| local_panic why s : local (PPanic why) s (PPanic why) (set_exit s (ExPanic why)).

(** What the sender does with a packet: [Some] when it writes it. *)
Definition sends (q : udpPacket) : option udpPacket :=
  match exec 0 (sendPacket q) (mkGateways (W := ()) ∅ None None) tt with
  | (Done r, _, _, _) => r
  | _ => None
  end.

(** A goroutine that returns from [readPackets] or [sendPackets] ends the
    process, unless the backend is being closed. *)
Definition goroutine_failed s : system W := if sys_closed s then s else set_exit s ExFatal.

(** What an operation on the wait group leads to. *)
Definition with_wg s (r : result WaitGroup) (f : WaitGroup → system W) : system W :=
  match r with
  | Ok g => f g
  | Err _ => s
  | Panic why => set_exit s (ExPanic why)
  end.

(** What a step of the clean-up leads to. *)
Definition with_cleanup s (r : result (cleaner * gateways W * W)) : system W :=
  match r with
  | Ok (cl, c, w) => set_cleaner (set_registry s c w) cl
  | Err _ => s
  | Panic why => set_exit s (ExPanic why)
  end.

(** The other users of the network backend (publishing, its own goroutines). *)
Context (environment : W → W → Prop).

Inductive step : system W → system W → Prop :=
(* go func() { b.wg.Add(1); err := b.readPackets(); ...; b.wg.Done() }() *)
| step_start_reader s :
    sys_exit s = None → sys_reader s = WNew →
    step s (set_workers s WRunning (sys_sender s) (wg_Add (sys_wg s)))
| step_receive s addr data :
    sys_exit s = None → sys_reader s = WRunning → sys_conn_closed s = false →
    step s (set_handlers
      (set_io s (sys_in s ++ [(addr, data)]) (sys_tx s) (sys_out s) (sys_rx s) (sys_stats s))
      (sys_handlers s ++ [handle_datagram addr data]))
| step_read_error s :
    sys_exit s = None → sys_reader s = WRunning →
    step s (goroutine_failed (set_workers s WReturned (sys_sender s) (sys_wg s)))
| step_end_reader s :
    sys_exit s = None → sys_reader s = WReturned →
    step s (with_wg s (wg_Done (sys_wg s)) (set_workers s WGone (sys_sender s)))
(* the handlers *)
| step_handler s i p p' s' :
    sys_exit s = None → sys_handlers s !! i = Some p → local p s p' s' →
    step s (set_handlers s' (<[i := p']> (sys_handlers s)))
(* the loops of run: over TXPacketChan, RXPacketChan and StatsChan *)
| step_downlink_start s tx :
    sys_exit s = None → sys_downlink s = PRet tt →
    step s (set_downlink
      (set_io s (sys_in s) (sys_tx s ++ [tx]) (sys_out s) (sys_rx s) (sys_stats s)) (downlink tx))
| step_downlink s p' s' :
    sys_exit s = None → local (sys_downlink s) s p' s' →
    step s (set_downlink s' p')
| step_rx_loop s :
    sys_exit s = None → (sys_rx_taken s < length (sys_rx s))%nat →
    step s (set_loops s (S (sys_rx_taken s)) (sys_stats_taken s))
| step_stats_loop s :
    sys_exit s = None → (sys_stats_taken s < length (sys_stats s))%nat →
    step s (set_loops s (sys_rx_taken s) (S (sys_stats_taken s)))
(* go func() { b.wg.Add(1); err := b.sendPackets(); ...; b.wg.Done() }() *)
| step_start_sender s :
    sys_exit s = None → sys_sender s = SNew →
    step s (set_workers s (sys_reader s) SIdle (wg_Add (sys_wg s)))
| step_write s q q' :
    sys_exit s = None → sys_sender s = SBusy q → sends q = Some q' → sys_conn_closed s = false →
    step s (set_sender
      (set_io s (sys_in s) (sys_tx s) (sys_out s ++ [q']) (sys_rx s) (sys_stats s)) SIdle)
| step_write_error s q q' :
    sys_exit s = None → sys_sender s = SBusy q → sends q = Some q' →
    step s (goroutine_failed (set_sender s SDone))
| step_skip s q :
    sys_exit s = None → sys_sender s = SBusy q → sends q = None →
    step s (set_sender s SIdle)
| step_sender_end s :
    sys_exit s = None → sys_sender s = SIdle → sys_chan_closed s = true →
    step s (goroutine_failed (set_sender s SDone))
| step_end_sender s :
    sys_exit s = None → sys_sender s = SDone →
    step s (with_wg s (wg_Done (sys_wg s)) (set_workers s (sys_reader s) SGone))
(* for { b.gateways.cleanup(); time.Sleep(time.Minute) } *)
| step_cleanup_lock s order :
    sys_exit s = None → cleaning (sys_cleaner s) = false → ranges order (sys_registry s) →
    step s (set_cleaner s (Ranging order))
| step_cleanup s r :
    sys_exit s = None →
    cleanup_step (sys_clock s) (sys_cleaner s) (sys_registry s) (sys_world s) = Some r →
    step s (with_cleanup s r)
| step_clock s t :
    sys_exit s = None → sys_clock s ≤ t → step s (set_clock s t)
| step_environment s w :
    sys_exit s = None → environment (sys_world s) w → step s (set_registry s (sys_registry s) w)
(* Close: b.closed = true; close(b.udpSendChan); b.conn.Close(); b.wg.Wait() *)
| step_close s :
    sys_exit s = None → sys_closed s = false →
    step s (set_flags s true (sys_chan_closed s) (sys_conn_closed s))
| step_close_chan s :
    sys_exit s = None → sys_closed s = true → sys_chan_closed s = false →
    step s (set_flags s true true (sys_conn_closed s))
| step_close_conn s :
    sys_exit s = None → sys_chan_closed s = true → sys_conn_closed s = false → sys_closer s = CIdle →
    step s (set_flags s (sys_closed s) true true)
| step_close_error s e :
    sys_exit s = None → sys_chan_closed s = true → sys_conn_closed s = false → sys_closer s = CIdle →
    step s (set_closer s (CReturned (Some e)) (sys_wg s))
| step_wait s :
    sys_exit s = None → sys_conn_closed s = true → sys_closer s = CIdle →
    step s (set_closer s (if (wg_Wait (sys_wg s)).1 then CReturned None else CWaiting)
              (wg_Wait (sys_wg s)).2)
| step_wake s r :
    sys_exit s = None → sys_closer s = CWaiting → wg_wake (sys_wg s) = Some r →
    step s (with_wg s r (set_closer s (CReturned None))).

Inductive reachable (s0 : system W) : system W → Prop :=
| reachable_init : reachable s0 s0
| reachable_step s s' : reachable s0 s → step s s' → reachable s0 s'.

(** ** An executable scheduler *)

Inductive action : Type :=
| AStartReader
| AReceive (addr : UDPAddr) (data : bytes)
| AReadError
| AEndReader
| AHandler (i : nat)
| ADownlink (tx : TXPacketBytes)
| ADownlinkStep
| ARxLoop
| AStatsLoop
| AStartSender
| AWrite
| AWriteError
| AEndSender
| ACleanupLock (order : list EUI64)
| ACleanup
| AClock (t : Time)
| AClose
| ACloseChan
| ACloseConn
| AWait
| AWake.

Definition worker_eqb (x y : worker) : bool :=
  match x, y with
  | WNew, WNew | WRunning, WRunning | WReturned, WReturned | WGone, WGone => true
  | _, _ => false
  end.

Lemma worker_eqb_eq x y : worker_eqb x y = true → x = y.
Proof. by destruct x, y. Qed.

Definition run_local (p : prog ()) s : option (prog () * system W) :=
  match p with
  | PRet _ => None
  | PPanic why => Some (p, set_exit s (ExPanic why))
  | PNow k => Some (k (sys_clock s), s)
  | PGet mac k =>
      if cleaning (sys_cleaner s) then None
      else Some (k (gateways_get (sys_registry s) mac), s)
  | PSet mac gw k =>
      if cleaning (sys_cleaner s) then None
      else let '(err, c, w) := gateways_set (sys_registry s) mac gw (sys_world s) in
           Some (k err, set_registry s c w)
  | PSendUDP q k =>
      if sys_chan_closed s then Some (p, set_exit s (ExPanic "send on closed channel"))
      else match sys_sender s with SIdle => Some (k, set_sender s (SBusy q)) | _ => None end
  | PSendRX q k =>
      if (sys_rx_taken s =? length (sys_rx s))%nat then
        Some (k, set_io s (sys_in s) (sys_tx s) (sys_out s) (sys_rx s ++ [q]) (sys_stats s))
      else None
  | PSendStats q k =>
      if (sys_stats_taken s =? length (sys_stats s))%nat then
        Some (k, set_io s (sys_in s) (sys_tx s) (sys_out s) (sys_rx s) (sys_stats s ++ [q]))
      else None
  | PLog _ k => Some (k, s)
  end.

Lemma run_local_sound p s p' s' : run_local p s = Some (p', s') → local p s p' s'.
Proof.
  intros Hr. destruct p; simpl in Hr; try (simplify_eq; by constructor).
  - destruct (cleaning _) eqn:El; simplify_eq. by constructor.
  - destruct (cleaning _) eqn:El; [done|].
    destruct (gateways_set _ _ _ _) as [[err c] w] eqn:E. simplify_eq. by constructor.
  - destruct (sys_chan_closed s) eqn:Ec; [simplify_eq; by constructor|].
    destruct (sys_sender s) eqn:Es; simplify_eq. by constructor.
  - destruct (Nat.eqb_spec (sys_rx_taken s) (length (sys_rx s))); simplify_eq. by constructor.
  - destruct (Nat.eqb_spec (sys_stats_taken s) (length (sys_stats s))); simplify_eq. by constructor.
Qed.

Definition ranges_all (order : list EUI64) s : bool :=
  bool_decide (NoDup order) && bool_decide (list_to_set order = dom (gateways_map (sys_registry s))).

Definition when (b : bool) (s : system W) : option (system W) := if b then Some s else None.

Definition run_action s (a : action) : option (system W) :=
  match sys_exit s with
  | Some _ => None
  | None =>
    match a with
    | AStartReader =>
        when (worker_eqb (sys_reader s) WNew)
          (set_workers s WRunning (sys_sender s) (wg_Add (sys_wg s)))
    | AReceive addr data =>
        when (worker_eqb (sys_reader s) WRunning && negb (sys_conn_closed s))
          (set_handlers
            (set_io s (sys_in s ++ [(addr, data)]) (sys_tx s) (sys_out s) (sys_rx s) (sys_stats s))
            (sys_handlers s ++ [handle_datagram addr data]))
    | AReadError =>
        when (worker_eqb (sys_reader s) WRunning)
          (goroutine_failed (set_workers s WReturned (sys_sender s) (sys_wg s)))
    | AEndReader =>
        when (worker_eqb (sys_reader s) WReturned)
          (with_wg s (wg_Done (sys_wg s)) (set_workers s WGone (sys_sender s)))
    | AHandler i =>
        p ← sys_handlers s !! i; '(p', s') ← run_local p s;
        Some (set_handlers s' (<[i := p']> (sys_handlers s)))
    | ADownlink tx =>
        match sys_downlink s with
        | PRet tt =>
            Some (set_downlink
              (set_io s (sys_in s) (sys_tx s ++ [tx]) (sys_out s) (sys_rx s) (sys_stats s)) (downlink tx))
        | _ => None
        end
    | ADownlinkStep =>
        '(p', s') ← run_local (sys_downlink s) s; Some (set_downlink s' p')
    | ARxLoop =>
        when (sys_rx_taken s <? length (sys_rx s))%nat
          (set_loops s (S (sys_rx_taken s)) (sys_stats_taken s))
    | AStatsLoop =>
        when (sys_stats_taken s <? length (sys_stats s))%nat
          (set_loops s (sys_rx_taken s) (S (sys_stats_taken s)))
    | AStartSender =>
        match sys_sender s with
        | SNew => Some (set_workers s (sys_reader s) SIdle (wg_Add (sys_wg s)))
        | _ => None
        end
    | AWrite =>
        match sys_sender s with
        | SBusy q =>
            q' ← sends q;
            when (negb (sys_conn_closed s))
              (set_sender
                (set_io s (sys_in s) (sys_tx s) (sys_out s ++ [q']) (sys_rx s) (sys_stats s)) SIdle)
        | _ => None
        end
    | AWriteError =>
        match sys_sender s with
        | SBusy q => q' ← sends q; Some (goroutine_failed (set_sender s SDone))
        | SIdle => when (sys_chan_closed s) (goroutine_failed (set_sender s SDone))
        | _ => None
        end
    | AEndSender =>
        match sys_sender s with
        | SDone => Some (with_wg s (wg_Done (sys_wg s)) (set_workers s (sys_reader s) SGone))
        | _ => None
        end
    | ACleanupLock order =>
        when (negb (cleaning (sys_cleaner s)) && ranges_all order s) (set_cleaner s (Ranging order))
    | ACleanup =>
        r ← cleanup_step (sys_clock s) (sys_cleaner s) (sys_registry s) (sys_world s);
        Some (with_cleanup s r)
    | AClock t => when (sys_clock s <=? t) (set_clock s t)
    | AClose => when (negb (sys_closed s)) (set_flags s true (sys_chan_closed s) (sys_conn_closed s))
    | ACloseChan =>
        when (sys_closed s && negb (sys_chan_closed s)) (set_flags s true true (sys_conn_closed s))
    | ACloseConn =>
        match sys_closer s with
        | CIdle =>
            when (sys_chan_closed s && negb (sys_conn_closed s)) (set_flags s (sys_closed s) true true)
        | _ => None
        end
    | AWait =>
        match sys_closer s with
        | CIdle =>
            when (sys_conn_closed s)
              (set_closer s (if (wg_Wait (sys_wg s)).1 then CReturned None else CWaiting)
                 (wg_Wait (sys_wg s)).2)
        | _ => None
        end
    | AWake =>
        match sys_closer s with
        | CWaiting =>
            r ← wg_wake (sys_wg s); Some (with_wg s r (set_closer s (CReturned None)))
        | _ => None
        end
    end
  end.

Fixpoint run_actions s (l : list action) : option (system W) :=
  match l with
  | [] => Some s
  | a :: l => s' ← run_action s a; run_actions s' l
  end.

Lemma ranges_all_sound order s : ranges_all order s = true → ranges order (sys_registry s).
Proof.
  unfold ranges_all. rewrite andb_true_iff, !bool_decide_eq_true. intros [Hn Hd].
  split; [done|]. intros mac. rewrite <- elem_of_dom, <- Hd. by rewrite elem_of_list_to_set.
Qed.

Lemma when_Some b s s' : when b s = Some s' → b = true ∧ s' = s.
Proof. unfold when. destruct b; [|done]. by intros [= <-]. Qed.

Lemma run_action_step s a s' : run_action s a = Some s' → step s s'.
Proof.
  unfold run_action. destruct (sys_exit s) eqn:Ee; [done|]. intros Hr. destruct a;
    try (apply when_Some in Hr as [Hb ->]; rewrite ?andb_true_iff, ?negb_true_iff in Hb);
    try (repeat match goal with Hb : _ ∧ _ |- _ => destruct Hb end;
         repeat match goal with Hb : worker_eqb _ _ = true |- _ => apply worker_eqb_eq in Hb end;
         by constructor).
  - apply bind_Some in Hr as (p & Hp & Hr). apply bind_Some in Hr as ([p' s1] & Hl & Hr).
    simplify_eq. econstructor; [done..|by apply run_local_sound].
  - destruct (sys_downlink s) as [[]| | | | | | | |] eqn:Ed; simplify_eq. by constructor.
  - apply bind_Some in Hr as ([p' s1] & Hl & Hr). simplify_eq.
    constructor; [done|by apply run_local_sound].
  - apply Nat.ltb_lt in Hb. by constructor.
  - apply Nat.ltb_lt in Hb. by constructor.
  - destruct (sys_sender s) eqn:Es; simplify_eq. by constructor.
  - destruct (sys_sender s) eqn:Es; try done. apply bind_Some in Hr as (q' & Hq & Hr).
    apply when_Some in Hr as [Hb ->]. apply negb_true_iff in Hb. by econstructor.
  - destruct (sys_sender s) eqn:Es; try done.
    + apply when_Some in Hr as [Hb ->]. by constructor.
    + apply bind_Some in Hr as (q' & Hq & Hr). simplify_eq. by econstructor.
  - destruct (sys_sender s) eqn:Es; simplify_eq. by constructor.
  - destruct Hb as [Hb Ho]. apply step_cleanup_lock; [done..|by apply ranges_all_sound].
  - apply bind_Some in Hr as (r & Hc & Hr). simplify_eq. by constructor.
  - apply Z.leb_le in Hb. by constructor.
  - destruct (sys_closer s) eqn:Ec; try done. apply when_Some in Hr as [Hb ->].
    rewrite andb_true_iff, negb_true_iff in Hb. destruct Hb. by constructor.
  - destruct (sys_closer s) eqn:Ec; try done. apply when_Some in Hr as [Hb ->]. by constructor.
  - destruct (sys_closer s) eqn:Ec; try done. apply bind_Some in Hr as (r & Hc & Hr). simplify_eq.
    by constructor.
Qed.

Lemma run_actions_reachable s0 s l s' :
  reachable s0 s → run_actions s l = Some s' → reachable s0 s'.
Proof.
  revert s. induction l as [|a l IH]; intros s Hs Hr; simpl in Hr; [by simplify_eq|].
  apply bind_Some in Hr as (s1 & Ha & Hr). apply (IH s1); [|done].
  eapply reachable_step; [done|]. by apply run_action_step in Ha.
Qed.
End System.
