(* ===== verification/SystemLaws.v ===== *)
(** * Invariants of the running backend

    Every datagram the bridge writes answers a datagram it received or carries
    a packet for a gateway that registered from that very address; everything
    it publishes comes from a datagram; the registered gateways are the
    subscribed ones; the clean-up removes what was stale when it looked; and before
    [Close] is called a panic can only come from the network backend. *)

From Stdlib Require Import String Ascii NArith ZArith Lia.
From stdpp Require Import relations base gmap list strings numbers.
From S2P Require Import Prelude GoPrim GoStrconv GoFloat GoNet Lorawan GoJsonTyped Payload.
From S2P Require Import PayloadLaws Structs GoSync Registry Convert Backend BackendLaws System.

Local Open Scope string_scope.
Local Open Scope list_scope.
Local Open Scope Z_scope.

(** ** Where things come from *)

Section Origin.
Context `{HostZone}.

(** What the process has been given so far: datagrams and downlink packets. *)
Record history : Type := mkHistory {
  hist_in : list (UDPAddr * bytes);
  hist_tx : list TXPacketBytes
}.

Definition hist_le (h h' : history) : Prop :=
  hist_in h ⊆ hist_in h' ∧ hist_tx h ⊆ hist_tx h'.

#[export] Instance hist_le_preorder : PreOrder hist_le.
Proof. split; [done|]. intros a b c [??] [??]. split; etrans; eauto. Qed.

Definition pushed (h : history) (addr : UDPAddr) (q : PushDataPacket) : Prop :=
  ∃ data, (addr, data) ∈ hist_in h ∧
          PushDataPacket_UnmarshalBinary data PushDataPacket_zero = Ok q.
Definition pulled (h : history) (addr : UDPAddr) (q : PullDataPacket) : Prop :=
  ∃ data, (addr, data) ∈ hist_in h ∧
          PullDataPacket_UnmarshalBinary data PullDataPacket_zero = Ok q.

(** A PUSH_ACK answers a PUSH_DATA with its version and token. *)
Definition push_ack (h : history) (p : udpPacket) : Prop :=
  ∃ addr q, pushed h addr q ∧ udpPacket_addr p = Some addr ∧
    PushACKPacket_MarshalBinary
      (mkPushACKPacket (PushDataPacket_ProtocolVersion q) (PushDataPacket_RandomToken q))
    = Ok (udpPacket_data p).

(** A PULL_ACK answers a PULL_DATA. *)
Definition pull_ack (h : history) (p : udpPacket) : Prop :=
  ∃ addr q, pulled h addr q ∧ udpPacket_addr p = Some addr ∧
    PullACKPacket_MarshalBinary
      (mkPullACKPacket (PullDataPacket_ProtocolVersion q) (PullDataPacket_RandomToken q))
    = Ok (udpPacket_data p).

(** A PULL_RESP goes to the address the gateway of the packet pulled from, in
    the protocol version it pulled with. *)
Definition pull_resp (h : history) (p : udpPacket) : Prop :=
  ∃ addr q tx txpk, pulled h addr q ∧ tx ∈ hist_tx h ∧
    PullDataPacket_GatewayMAC q = TXInfo_MAC (TXPacket_TXInfo tx) ∧
    udpPacket_addr p = Some addr ∧ newTXPKFromTXPacket tx = Ok txpk ∧
    PullRespPacket_MarshalBinary
      (mkPullRespPacket (PullDataPacket_ProtocolVersion q) 0 (mkPullRespPayload txpk))
    = Ok (udpPacket_data p).

Definition justified (h : history) (p : udpPacket) : Prop :=
  push_ack h p ∨ pull_ack h p ∨ pull_resp h p.

(** A registration is what some PULL_DATA of the gateway said. *)
Definition entry_ok (h : history) (mac : EUI64) (gw : gateway) : Prop :=
  ∃ addr q, pulled h addr q ∧ PullDataPacket_GatewayMAC q = mac ∧
    gateway_addr gw = Some addr ∧
    gateway_protocolVersion gw = PullDataPacket_ProtocolVersion q.

(** A published packet is an accepted [rxpk] of some PUSH_DATA. *)
Definition rx_ok (h : history) (rx : RXPacketBytes) : Prop :=
  ∃ addr q r, pushed h addr q ∧ r ∈ PushDataPayload_RXPK (PushDataPacket_Payload q) ∧
    accepted (PushDataPacket_GatewayMAC q) r = Ok rx.

Definition stats_ok (h : history) (st : GatewayStatsPacket) : Prop :=
  ∃ addr q stat, pushed h addr q ∧ PushDataPayload_Stat (PushDataPacket_Payload q) = Some stat ∧
    st = stats_of addr (PushDataPacket_GatewayMAC q) stat.

Lemma pushed_mono h h' addr q : hist_le h h' → pushed h addr q → pushed h' addr q.
Proof. intros [Hi _] (d & Hd & Hu). exists d. split; [by apply Hi|done]. Qed.
Lemma pulled_mono h h' addr q : hist_le h h' → pulled h addr q → pulled h' addr q.
Proof. intros [Hi _] (d & Hd & Hu). exists d. split; [by apply Hi|done]. Qed.

Lemma justified_mono h h' p : hist_le h h' → justified h p → justified h' p.
Proof.
  intros Hle [(a & q & Hp & ?)|[(a & q & Hp & ?)|(a & q & tx & x & Hp & Htx & ?)]].
  - left. exists a, q. eauto using pushed_mono.
  - right. left. exists a, q. eauto using pulled_mono.
  - right. right. exists a, q, tx, x. split; [by eapply pulled_mono|].
    split; [by apply Hle|done].
Qed.

Lemma entry_ok_mono h h' mac gw : hist_le h h' → entry_ok h mac gw → entry_ok h' mac gw.
Proof. intros Hle (a & q & Hp & ?). exists a, q. eauto using pulled_mono. Qed.
Lemma rx_ok_mono h h' rx : hist_le h h' → rx_ok h rx → rx_ok h' rx.
Proof. intros Hle (a & q & r & Hp & ?). exists a, q, r. eauto using pushed_mono. Qed.
Lemma stats_ok_mono h h' st : hist_le h h' → stats_ok h st → stats_ok h' st.
Proof. intros Hle (a & q & r & Hp & ?). exists a, q, r. eauto using pushed_mono. Qed.

(** ** Programs that only do justified things *)

Definition reply_ok (h : history) (mac : EUI64) (r : gateway * option error) : Prop :=
  match r.2 with Some _ => r.1 = gateway_zero | None => entry_ok h mac r.1 end.

(** The registry may have changed by the time [get] answers, so its
    continuation is safe for every later history. *)
Fixpoint safe {A} (h : history) (p : prog A) : Prop :=
  match p with
  | PRet _ => True
  | PPanic _ => False
  | PNow k => ∀ t, safe h (k t)
  | PGet mac k => ∀ h' r, hist_le h h' → reply_ok h' mac r → safe h' (k r)
  | PSet mac gw k => entry_ok h mac gw ∧ ∀ e, safe h (k e)
  | PSendUDP q k => justified h q ∧ safe h k
  | PSendRX q k => rx_ok h q ∧ safe h k
  | PSendStats q k => stats_ok h q ∧ safe h k
  | PLog _ k => safe h k
  end.

Lemma safe_mono {A} (p : prog A) h h' : hist_le h h' → safe h p → safe h' p.
Proof.
  revert h h'. induction p as [a|why|k IH|mac k IH|mac gw k IH|q k IH|q k IH|q k IH|l k IH];
    intros h h' Hle Hs; simpl in *; try done.
  - eauto.
  - intros h2 r Hle2 Hr. apply (Hs h2 r); [by etrans|done].
  - destruct Hs. eauto using entry_ok_mono.
  - destruct Hs. eauto using justified_mono.
  - destruct Hs. eauto using rx_ok_mono.
  - destruct Hs. eauto using stats_ok_mono.
  - eauto.
Qed.

Lemma safe_pbind {A B} (p : prog A) (f : A → prog B) h :
  safe h p → (∀ a h', hist_le h h' → safe h' (f a)) → safe h (pbind p f).
Proof.
  revert h. induction p as [a|why|k IH|mac k IH|mac gw k IH|q k IH|q k IH|q k IH|l k IH];
    intros h Hs Hf; simpl in *; try naive_solver.
  intros h' r Hle Hr. apply IH; [by apply Hs|]. intros a h2 Hle2. apply Hf. by etrans.
Qed.

Lemma safe_call {A} (r : result A) (k : A → prog (option error)) h :
  no_panic r → (∀ a, r = Ok a → safe h (k a)) → safe h (call r k).
Proof. destruct r; simpl; auto. Qed.

(** ** The handlers are safe *)

Lemma safe_handleStat h addr q stat :
  pushed h addr q → PushDataPayload_Stat (PushDataPacket_Payload q) = Some stat →
  safe h (handleStat addr (PushDataPacket_GatewayMAC q) stat).
Proof.
  intros Hp Hs. unfold handleStat. cbn [safe]. intros h' [gw err] Hle Hr. cbn [safe].
  split; [|done]. apply (stats_ok_mono h); [done|]. exists addr, q, stat. split_and!; [done..|].
  unfold reply_ok in Hr. simpl in Hr. destruct err as [e|]; [rewrite Hr|]; simpl;
    unfold addIPToGatewayStatsPacket; cbn [newGatewayStatsPacket Stats_CustomData];
    rewrite !lookup_insert_ne, lookup_insert_eq by done; by rewrite bool_decide_false by set_solver.
Qed.

Lemma accepted_no_panic mac r : no_panic (accepted mac r).
Proof.
  apply rbind_no_panic; [apply newRXPacketFromRXPK_no_panic|]. intros p _. by case_goal.
Qed.

Lemma safe_handleRXPacket h addr q r :
  pushed h addr q → r ∈ PushDataPayload_RXPK (PushDataPacket_Payload q) →
  safe h (handleRXPacket addr (PushDataPacket_GatewayMAC q) r).
Proof.
  intros Hp Hr. unfold handleRXPacket. cbn [safe].
  apply safe_call; [apply newRXPacketFromRXPK_no_panic|]. intros rx Hrx.
  destruct (RXInfo_CRCStatus (RXPacket_RXInfo rx) =? 1) eqn:Hc; cbn [negb safe]; [|done].
  split; [|done]. exists addr, q, r. split_and!; [done..|]. unfold accepted. rewrite Hrx. simpl.
  by rewrite Hc.
Qed.

Lemma safe_handleRXPackets h addr q l :
  pushed h addr q → (∀ r, r ∈ l → r ∈ PushDataPayload_RXPK (PushDataPacket_Payload q)) →
  safe h (handleRXPackets addr (PushDataPacket_GatewayMAC q) l).
Proof.
  revert h. induction l as [|r l IH]; intros h Hp Hl; simpl; [done|]. unfold check.
  apply safe_pbind; [apply safe_handleRXPacket; [done|apply Hl; by left]|].
  intros [e|] h' Hle; [done|]. apply IH; [by eapply pushed_mono|]. intros r' Hr'. apply Hl. by right.
Qed.

Lemma safe_handlePacket h addr data :
  (addr, data) ∈ hist_in h → safe h (handlePacket addr data).
Proof.
  intros Hin. destruct (UnmarshalBinary_no_panic data) as (Np & Npush & _ & Npull & _ & _ & Ntx).
  unfold handlePacket. apply safe_call; [done|]. intros pt Ht.
  destruct (GetPacketType_first _ _ Ht) as (v & Hv & _).
  apply safe_call; [by rewrite Hv|]. intros v' _. cbn [safe].
  destruct (pt =? PushData); [|destruct (pt =? PullData); [|destruct (pt =? TXACK)]].
  - unfold handlePushData. apply safe_call; [apply Npush|]. intros q Hq. cbn [call PushACKPacket_MarshalBinary].
    assert (pushed h addr q) as Hp by (by exists data).
    split; [left; by exists addr, q|]. apply safe_pbind.
    + destruct (PushDataPayload_Stat _) as [st|] eqn:Hst; [by apply safe_handleStat|done].
    + intros _ h' Hle. apply safe_handleRXPackets; [by eapply pushed_mono|done].
  - unfold handlePullData. apply safe_call; [apply Npull|]. intros q Hq.
    cbn [call PullACKPacket_MarshalBinary safe]. assert (pulled h addr q) as Hp by (by exists data).
    intros t. split; [by exists addr, q|]. intros [e|]; [done|]. split; [|done].
    right. left. by exists addr, q.
  - unfold handleTXACK. apply safe_call; [apply Ntx|]. intros q _. cbv beta zeta.
    by destruct (TXACKPacket_Payload q).
  - apply safe_call; [|done].
    assert (0 ≤ pt) as Hpt.
    { unfold GetPacketType in Ht. destruct (length data <? 4)%nat; [done|].
      apply rbind_ok in Ht as (b & _ & Ht). destruct (negb _); [done|].
      apply rbind_ok in Ht as (t & _ & Ht). injection Ht as <-. apply Z_of_byte_range. }
    by rewrite PacketType_String_spec.
Qed.

(** *** The downlink loop *)

Lemma safe_downlink h tx : tx ∈ hist_tx h → safe h (downlink tx).
Proof.
  intros Htx. unfold downlink. apply safe_pbind; [|by intros [e|] h' _].
  unfold Send. cbn [safe]. intros h' [gw err] Hle Hr. destruct err as [e|]; [done|].
  unfold reply_ok in Hr. simpl in Hr. destruct Hr as (addr & q & Hp & Hmac & Haddr & Hv).
  apply safe_call; [done|]. intros x Hx.
  apply safe_call; [apply rwrap_no_panic, PullRespPacket_MarshalBinary_no_panic|].
  intros b Hb%rwrap_ok. split; [|done]. right. right. exists addr, q, tx, x.
  split_and!; [done|by apply Hle|done|done|done|]. by rewrite <- Hv.
Qed.

Lemma safe_handle_datagram h addr data :
  (addr, data) ∈ hist_in h → safe h (handle_datagram addr data).
Proof.
  intros Hin. apply safe_pbind; [by apply safe_handlePacket|]. by intros [e|] h' _.
Qed.
End Origin.

(** ** What the sender does with justified packets *)

Section Sender.
Context `{HostZone}.

Lemma pulled_version h addr q :
  pulled h addr q → protocolSupported (PullDataPacket_ProtocolVersion q) = true.
Proof. intros (d & _ & Hu). by apply PullDataPacket_decode_iff in Hu as [[Hv _] _]. Qed.

Lemma pushed_version h addr q :
  pushed h addr q → protocolSupported (PushDataPacket_ProtocolVersion q) = true.
Proof.
  intros (d & _ & Hu). unfold PushDataPacket_UnmarshalBinary in Hu. decode_guards Hu. guard_props.
  by injection Hu as <-.
Qed.

(** The sender knows the type of every packet the bridge makes. *)
Lemma justified_type h p :
  justified h p → ∃ t, GetPacketType (udpPacket_data p) = Ok t.
Proof.
  intros [(a & q & Hp & _ & Hm)|[(a & q & Hp & _ & Hm)|(a & q & tx & x & Hp & _ & _ & _ & _ & Hm)]].
  - apply pushed_version in Hp. unfold PushACKPacket_MarshalBinary in Hm. packet_fields.
    apply (inj Ok) in Hm as <-. rewrite header_make4, <- (app_nil_r (header _ _ _)).
    eexists. by apply GetPacketType_header.
  - apply pulled_version in Hp. unfold PullACKPacket_MarshalBinary in Hm. packet_fields.
    apply (inj Ok) in Hm as <-. rewrite header_make4, <- (app_nil_r (header _ _ _)).
    eexists. by apply GetPacketType_header.
  - apply pulled_version in Hp. unfold PullRespPacket_MarshalBinary in Hm. packet_fields.
    apply rbind_ok in Hm as (b & _ & Hm). apply (inj Ok) in Hm as <-.
    packet_fields. set (v := PullDataPacket_ProtocolVersion q) in *. exists PullResp.
    destruct (negb (v =? ProtocolVersion1)); by apply (GetPacketType_header v 0 PullResp b).
Qed.

Lemma sends_typed p t : GetPacketType (udpPacket_data p) = Ok t → sends p = Some p.
Proof.
  intros Ht. destruct (GetPacketType_first _ _ Ht) as (v & Hv & _).
  unfold sends, sendPacket. by rewrite Ht, Hv.
Qed.
End Sender.

(** ** The life of the two goroutines of [NewBackend] *)

Section Life.
Context `{HostZone} {W : Type} (environment : W → W → Prop).
Implicit Types (s : system W).

(** Between [b.wg.Add(1)] and [b.wg.Done()]. *)
Definition reader_counted (v : worker) : nat :=
  match v with WRunning | WReturned => 1 | WNew | WGone => 0 end.
Definition sender_counted (x : sender) : nat :=
  match x with SIdle | SBusy _ | SDone => 1 | SNew | SGone => 0 end.

Definition reader_over (v : worker) : bool :=
  match v with WReturned | WGone => true | WNew | WRunning => false end.
Definition sender_over (x : sender) : bool :=
  match x with SDone | SGone => true | SNew | SIdle | SBusy _ => false end.

Record life_ok s : Prop := mkLifeOk {
  lok_counter : wg_counter (sys_wg s) = (reader_counted (sys_reader s) + sender_counted (sys_sender s))%nat;
  lok_waiting : (wg_waiters (sys_wg s) + wg_released (sys_wg s))%nat
    = match sys_closer s with CWaiting => 1%nat | _ => 0%nat end;
  lok_waiters : wg_counter (sys_wg s) = 0%nat → wg_waiters (sys_wg s) = 0%nat;
  lok_conn : sys_conn_closed s = true → sys_chan_closed s = true ∧ ∀ e, sys_closer s ≠ CReturned (Some e);
  lok_chan : sys_chan_closed s = true → sys_closed s = true;
  lok_closer : sys_closer s ≠ CIdle → sys_chan_closed s = true;
  lok_wait : sys_closer s = CWaiting ∨ sys_closer s = CReturned None → sys_conn_closed s = true;
  lok_over : reader_over (sys_reader s) = true ∨ sender_over (sys_sender s) = true →
    sys_closed s = true ∨ sys_exit s ≠ None
}.

Lemma life_ok_init resolved listen onNew onDelete now w s :
  NewBackend resolved listen onNew onDelete now w = Ok s → life_ok s.
Proof.
  intros Hs. unfold NewBackend in Hs. inv_ok. subst s. by constructor; cbn; auto; intros [].
Qed.

(** What a step of a goroutine with the registry, the channels or the clock leaves
    alone. *)
Record same_life s s' : Prop := mkSameLife {
  sl_reader : sys_reader s' = sys_reader s;
  sl_wg : sys_wg s' = sys_wg s;
  sl_closer : sys_closer s' = sys_closer s;
  sl_closed : sys_closed s' = sys_closed s;
  sl_chan : sys_chan_closed s' = sys_chan_closed s;
  sl_conn : sys_conn_closed s' = sys_conn_closed s;
  sl_exit : sys_exit s' = None → sys_exit s = None;
  sl_sender : sender_counted (sys_sender s') = sender_counted (sys_sender s) ∧
    sender_over (sys_sender s') = sender_over (sys_sender s)
}.

Lemma same_life_ok s s' : same_life s s' → life_ok s → life_ok s'.
Proof.
  intros [E1 E2 E3 E4 E5 E6 E7 [E8 E9]] []. constructor; rewrite ?E1, ?E2, ?E3, ?E4, ?E5, ?E6, ?E8, ?E9; try done.
  intros Ho. destruct (lok_over0 Ho); [by left|right; auto].
Qed.

Lemma local_same p s p' s' : local p s p' s' → same_life s s'.
Proof.
  intros Hl. destruct Hl as [| | |q k s Hc Hi| | | | |]; constructor; try done; cbn; by rewrite Hi.
Qed.

Lemma goroutine_failed_life s :
  life_ok (set_exit s ExFatal) → (sys_closed s = true → life_ok s) → life_ok (goroutine_failed s).
Proof. unfold goroutine_failed. destruct (sys_closed s); auto. Qed.

Lemma with_wg_done s n (f : WaitGroup → system W) :
  wg_counter (sys_wg s) = S n →
  (∀ g, wg_counter g = n → (wg_waiters g + wg_released g = wg_waiters (sys_wg s) + wg_released (sys_wg s))%nat →
    (n = 0%nat → wg_waiters g = 0%nat) → life_ok (f g)) →
  life_ok (with_wg s (wg_Done (sys_wg s)) f).
Proof.
  intros Hc Hf. destruct (wg_Done_counted _ _ Hc) as (g & -> & Hg & Hw & Hz & _). cbn. by apply Hf.
Qed.

Lemma set_exit_life s e : life_ok s → life_ok (set_exit s e).
Proof. intros []. constructor; try done. intros _. by right. Qed.

Lemma life_step s s' : life_ok s → step environment s s' → life_ok s'.
Proof.
  intros Hok Hs. destruct Hs as [s He Hr|s addr data He Hr Hc|s He Hr|s He Hr|s i p p' s' He Hi Hl
    |s tx He Hd|s p' s' He Hl|s He Hx|s He Hx|s He Hx|s q q' He Hx Hq Hc|s q q' He Hx Hq|s q He Hx Hq
    |s He Hx Hc|s He Hx|s order He Hcl Ho|s r He Hr|s t He Ht|s w He Hw|s He Hc|s He Hc Hch|s He Hch Hcn Hcl
    |s e He Hch Hcn Hcl|s He Hcn Hcl|s r He Hcl Hr].
  - destruct Hok as [H1 H2 H3 H4 H5 H6 H7 H8]. rewrite Hr in *. constructor; try done; cbn in *; lia.
  - eapply same_life_ok; [|exact Hok]. by constructor.
  - destruct Hok as [H1 H2 H3 H4 H5 H6 H7 H8]. rewrite Hr in *.
    apply goroutine_failed_life; [constructor; try done; intros _; by right|].
    intros Hcl. constructor; try done. intros _. by left.
  - pose proof Hok as [H1 H2 H3 H4 H5 H6 H7 H8]. rewrite Hr in *.
    eapply with_wg_done; [exact H1|]. intros g Hg Hw Hz. constructor; try done; cbn in *; [congruence|by rewrite Hg].
  - eapply same_life_ok; [|exact Hok]. apply local_same in Hl as []. by constructor.
  - eapply same_life_ok; [|exact Hok]. by constructor.
  - eapply same_life_ok; [|exact Hok]. apply local_same in Hl as []. by constructor.
  - eapply same_life_ok; [|exact Hok]. by constructor.
  - eapply same_life_ok; [|exact Hok]. by constructor.
  - destruct Hok as [H1 H2 H3 H4 H5 H6 H7 H8]. rewrite Hx in *. constructor; try done; cbn in *; lia.
  - eapply same_life_ok; [|exact Hok]. constructor; try done. cbn. by rewrite Hx.
  - destruct Hok as [H1 H2 H3 H4 H5 H6 H7 H8]. rewrite Hx in *.
    apply goroutine_failed_life; [constructor; try done; intros _; by right|].
    intros Hcl. constructor; try done. intros _. by left.
  - eapply same_life_ok; [|exact Hok]. constructor; try done. cbn. by rewrite Hx.
  - destruct Hok as [H1 H2 H3 H4 H5 H6 H7 H8]. rewrite Hx in *.
    apply goroutine_failed_life; [constructor; try done; intros _; by right|].
    intros Hcl. constructor; try done. intros _. by left.
  - pose proof Hok as [H1 H2 H3 H4 H5 H6 H7 H8]. rewrite Hx in *.
    eapply with_wg_done; [rewrite H1; cbn; rewrite Nat.add_comm; reflexivity|].
    intros g Hg Hw Hz. constructor; try done; cbn in *;
      first [lia|congruence|intros Hg0; apply Hz; lia|auto].
  - eapply same_life_ok; [|exact Hok]. by constructor.
  - destruct r as [[[cl c] w]|e|why]; cbn; [|done|by apply set_exit_life].
    eapply same_life_ok; [|exact Hok]. by constructor.
  - eapply same_life_ok; [|exact Hok]. by constructor.
  - eapply same_life_ok; [|exact Hok]. by constructor.
  - destruct Hok. constructor; try done. intros _. by left.
  - destruct Hok as [H1 H2 H3 H4 H5 H6 H7 H8]. constructor; try done; cbn.
    + intros Hcn. split; [done|]. by apply H4.
    + intros _. by left.
  - destruct Hok as [H1 H2 H3 H4 H5 H6 H7 H8]. constructor; try done; cbn; try (by auto).
    intros _. split; [done|]. rewrite Hcl. done.
  - destruct Hok as [H1 H2 H3 H4 H5 H6 H7 H8]. rewrite Hcl in *. constructor; try done; cbn.
    + congruence.
    + by intros [|].
  - destruct Hok as [H1 H2 H3 H4 H5 H6 H7 H8]. rewrite Hcl in *. destruct (H4 Hcn) as [Hch _].
    unfold wg_Wait. destruct (wg_counter (sys_wg s)) eqn:Ec; constructor; try done; cbn; rewrite ?Ec; try done; lia.
  - pose proof Hok as [H1 H2 H3 H4 H5 H6 H7 H8]. rewrite Hcl in *.
    apply wg_wake_spec in Hr as [Hrel Hr]; [|done].
    destruct r as [g|e|why]; cbn; [|done|by apply set_exit_life]. destruct Hr as [Hz ->].
    assert (sys_conn_closed s = true) as Hcn by auto.
    constructor; try done; cbn; [by rewrite <- H1|lia| |auto].
    intros _. split; [by apply H4|done].
Qed.

Lemma life_reachable s0 s : life_ok s0 → reachable environment s0 s → life_ok s.
Proof. intros H0 Hr. induction Hr; [done|]. by eapply life_step. Qed.
End Life.

(** ** The invariant *)

Section Invariant.
Context `{HostZone} {W : Type}.
Context (onNew : callback W) (onDelete : waiting_callback W) (subs : W → gset EUI64).
Context `{!Subscriber onNew onDelete subs}.
Context (environment : W → W → Prop).
Hypothesis environment_subs : ∀ w w', environment w w' → subs w' = subs w.
Implicit Types (s : system W).

Definition hist s : history := mkHistory (sys_in s) (sys_tx s).

(** How the process can panic: a goroutine sends on the channel [Close] closed;
    [Close] is woken while a goroutine counts itself; [onDelete] panics. *)
Definition panics s (why : string) : Prop :=
  (why = "send on closed channel" ∧ sys_chan_closed s = true) ∨
  (why = reuse_panic ∧ sys_closer s = CWaiting) ∨
  cleanup_step (sys_clock s) (sys_cleaner s) (sys_registry s) (sys_world s) = Some (Panic why).

Record sys_ok s : Prop := mkSysOk {
  ok_handlers : Forall (safe (hist s)) (sys_handlers s);
  ok_downlink : safe (hist s) (sys_downlink s);
  ok_sender : match sys_sender s with SBusy q => justified (hist s) q | _ => True end;
  ok_out : Forall (justified (hist s)) (sys_out s);
  ok_rx : Forall (rx_ok (hist s)) (sys_rx s);
  ok_stats : Forall (stats_ok (hist s)) (sys_stats s);
  ok_entries : ∀ mac gw, gateways_map (sys_registry s) !! mac = Some gw → entry_ok (hist s) mac gw;
  ok_registry : registry_ok onNew onDelete subs (sys_registry s) (sys_world s);
  ok_panic : ∀ why, sys_exit s = Some (ExPanic why) → panics s why
}.

Lemma sys_ok_init resolved listen now w s :
  subs w = ∅ → NewBackend resolved listen onNew onDelete now w = Ok s → sys_ok s.
Proof.
  intros Hw Hs. unfold NewBackend in Hs. inv_ok. subst s.
  by constructor.
Qed.

(** A step of a safe goroutine keeps it safe and does a justified thing. *)
Lemma local_ok s p p' s' :
  sys_ok s → sys_exit s = None → safe (hist s) p → local p s p' s' →
  sys_ok s' ∧ safe (hist s') p' ∧ hist s' = hist s ∧
  sys_handlers s' = sys_handlers s ∧ sys_downlink s' = sys_downlink s.
Proof.
  intros [Hh Hd Hs Ho Hrx Hst He Hr Hp] Hrun Hsafe Hl.
  destruct Hl as [k s|mac k s Hlk|mac gw k s err c w Hlk Hset|q k s Hch Hidle|q k s Hch|q k s Hlp|q k s Hlp
    |l k s|why s]; simpl in Hsafe.
  - done.
  - split_and!; try done. apply (Hsafe (hist s)); [done|].
    unfold reply_ok, gateways_get. destruct (gateways_map _ !! mac) as [gw|] eqn:E; [by apply He|done].
  - destruct Hsafe as [Hgw Hk]. split; [|done]. constructor; try done; simpl.
    + intros m g Hm. destruct (gateways_set_map _ _ _ _ _ _ _ Hset) as [Hm'|Hm']; rewrite Hm' in Hm.
      * by apply He.
      * apply lookup_insert_Some in Hm as [[<- <-]|[_ Hm]]; [done|by apply He].
    + by eapply gateways_set_ok.
    + by rewrite Hrun.
  - destruct Hsafe as [Hq Hk]. split; [|done]. constructor; try done.
  - split; [|done]. constructor; try done; simpl. intros why [= <-]. by left.
  - destruct Hsafe as [Hq Hk]. split; [|done]. constructor; try done; simpl.
    apply Forall_app_2; [done|]. by constructor.
  - destruct Hsafe as [Hq Hk]. split; [|done]. constructor; try done; simpl.
    apply Forall_app_2; [done|]. by constructor.
  - done.
  - done.
Qed.

(** Receiving a datagram or a downlink packet only adds to the history. *)
Lemma sys_ok_receive s ins tx :
  sys_ok s → sys_in s ⊆ ins → sys_tx s ⊆ tx →
  sys_ok (set_io s ins tx (sys_out s) (sys_rx s) (sys_stats s)).
Proof.
  intros [Hh Hd Hs Ho Hrx Hst He Hr Hp] Hi Ht.
  assert (hist_le (hist s) (mkHistory ins tx)) as Hle by done.
  constructor; try done; simpl.
  - eapply Forall_impl; [|exact Hh]. intros p. by apply safe_mono.
  - by eapply safe_mono.
  - destruct (sys_sender s); try done. by eapply justified_mono.
  - eapply Forall_impl; [|exact Ho]. intros p. by apply justified_mono.
  - eapply Forall_impl; [|exact Hrx]. intros p. by apply rx_ok_mono.
  - eapply Forall_impl; [|exact Hst]. intros p. by apply stats_ok_mono.
  - intros mac gw Hm. eapply entry_ok_mono; [exact Hle|]. by apply He.
Qed.

(** What the invariant does not speak of. *)
Record same_data s s' : Prop := mkSameData {
  sd_handlers : sys_handlers s' = sys_handlers s;
  sd_downlink : sys_downlink s' = sys_downlink s;
  sd_sender : sys_sender s' = sys_sender s ∨ ∀ q, sys_sender s' ≠ SBusy q;
  sd_out : sys_out s' = sys_out s;
  sd_rx : sys_rx s' = sys_rx s;
  sd_stats : sys_stats s' = sys_stats s;
  sd_registry : sys_registry s' = sys_registry s;
  sd_world : sys_world s' = sys_world s;
  sd_hist : hist s' = hist s;
  sd_exit : ∀ why, sys_exit s' = Some (ExPanic why) → panics s' why
}.

Lemma sys_ok_same s s' : sys_ok s → same_data s s' → sys_ok s'.
Proof.
  intros [Hh Hd Hs Ho Hrx Hst He Hr Hp] [E1 E2 E3 E4 E5 E6 E7 E8 E9 E10].
  constructor; rewrite ?E1, ?E2, ?E4, ?E5, ?E6, ?E7, ?E8, ?E9; try done.
  destruct E3 as [->|Hq]; [done|]. destruct (sys_sender s') as [| |q| |]; try done. by destruct (Hq q).
Qed.

Lemma same_failed s s' :
  sys_exit s' = None → same_data s s' → same_data s (goroutine_failed s').
Proof. intros He []. unfold goroutine_failed. destruct (sys_closed s'); by constructor. Qed.

Lemma same_with_wg s r f :
  (∀ g, r = Ok g → same_data s (f g)) → sys_exit s = None →
  (∀ why, r = Panic why → panics s why) → same_data s (with_wg s r f).
Proof.
  intros Hf He Hp. destruct r as [g|e|why]; cbn; [by apply Hf| |].
  - constructor; try done; [by left|]. by rewrite He.
  - constructor; try done; [by left|]. cbn. intros why' [= <-].
    destruct (Hp why eq_refl) as [[? ?]|[[? ?]|?]]; [by left|by right; left|by right; right].
Qed.

Ltac same_data_tac := constructor; try done; try (by left); try (right; intros ?; done); cbn; congruence.

Lemma cleanup_ok s r :
  sys_ok s → sys_exit s = None →
  cleanup_step (sys_clock s) (sys_cleaner s) (sys_registry s) (sys_world s) = Some r →
  sys_ok (with_cleanup s r).
Proof.
  intros Hok Hx Hc. destruct r as [[[cl c] w]|e|why]; cbn; [|done|].
  - destruct Hok as [Hh Hd Hs Ho Hrx Hst He Hr Hp]. constructor; try done; simpl.
    + intros mac gw Hm. apply He. apply cleanup_step_sub in Hc as (Hsub & _). by eapply lookup_weaken.
    + by eapply cleanup_step_ok.
    + by rewrite Hx.
  - eapply sys_ok_same; [exact Hok|]. constructor; try done; [by left|].
    intros why' [= <-]. by right; right.
Qed.

Lemma step_ok s s' : life_ok s → sys_ok s → step environment s s' → sys_ok s'.
Proof.
  intros Hlife Hok Hs. destruct Hs as [s Hx Hr|s addr data Hx Hr Hc|s Hx Hr|s Hx Hr|s i p p' s' Hx Hi Hl
    |s tx Hx Hd|s p' s' Hx Hl|s Hx Hn|s Hx Hn|s Hx Hn|s q q' Hx Hn Hq Hc|s q q' Hx Hn Hq|s q Hx Hn Hq
    |s Hx Hn Hc|s Hx Hn|s order Hx Hcl Ho|s r Hx Hr|s t Hx Ht|s w Hx Hw|s Hx Hc|s Hx Hc Hch|s Hx Hch Hcn Hcl
    |s e Hx Hch Hcn Hcl|s Hx Hcn Hcl|s r Hx Hcl Hr];
    try (eapply sys_ok_same; [exact Hok|]; same_data_tac);
    try (eapply sys_ok_same; [exact Hok|]; apply same_failed; [done|]; same_data_tac).
  - apply sys_ok_receive with (ins := sys_in s ++ [(addr, data)]) (tx := sys_tx s) in Hok;
      [|set_solver..].
    destruct Hok as [Hh Hd Hs Ho Hrx Hst He Hrg Hp]. constructor; try done. simpl.
    apply Forall_app_2; [done|]. constructor; [|done]. apply safe_handle_datagram. simpl. set_solver.
  - eapply sys_ok_same; [exact Hok|]. apply same_with_wg; [|done|].
    + intros g _. same_data_tac.
    + intros why Hw. pose proof (lok_counter _ Hlife) as Hc. rewrite Hr in Hc.
      destruct (wg_Done_counted _ _ Hc) as (g & Hg & _). congruence.
  - destruct (local_ok s p p' s') as (Hok' & Hp' & Hh & Hhs & Hd); try done.
    { destruct Hok as [Hall _ _ _ _ _ _ _ _]. rewrite Forall_lookup in Hall. by eapply Hall. }
    destruct Hok' as [Hall ? ? ? ? ? ? ? ?]. constructor; try done. simpl.
    apply Forall_insert; [|done]. by rewrite <- Hhs.
  - apply sys_ok_receive with (ins := sys_in s) (tx := sys_tx s ++ [tx]) in Hok; [|set_solver..].
    destruct Hok as [Hh Hdd Hs Ho Hrx Hst He Hrg Hp]. constructor; try done.
    apply safe_downlink. simpl. set_solver.
  - destruct (local_ok s (sys_downlink s) p' s') as (Hok' & Hp' & Hh & Hhs & Hd); try done.
    { by destruct Hok. }
    destruct Hok'. by constructor.
  - destruct Hok as [Hh Hd Hs Ho Hrx Hst He Hrg Hp]. rewrite Hn in Hs.
    destruct (justified_type _ _ Hs) as [t Ht]. rewrite (sends_typed _ _ Ht) in Hq. injection Hq as <-.
    constructor; try done; simpl. apply Forall_app_2; [done|]. by constructor.
  - eapply sys_ok_same; [exact Hok|]. apply same_with_wg; [|done|].
    + intros g _. same_data_tac.
    + intros why Hw. pose proof (lok_counter _ Hlife) as Hc. rewrite Hn in Hc. cbn in Hc.
      rewrite Nat.add_comm in Hc. destruct (wg_Done_counted _ _ Hc) as (g & Hg & _). congruence.
  - by apply cleanup_ok.
  - destruct Hok as [Hh Hd Hs Ho Hrx Hst He Hr Hp]. constructor; try done; simpl; [|by rewrite Hx].
    destruct Hr as (? & ? & Hdom). split_and!; try done. simpl.
    by rewrite (environment_subs _ _ ltac:(eassumption)).
  - eapply sys_ok_same; [exact Hok|]. apply same_with_wg; [|done|].
    + intros g _. same_data_tac.
    + intros why ->. right; left. split; [|done].
      apply wg_wake_spec in Hr as [_ [-> _]]; [done|]. apply (lok_waiters _ Hlife).
Qed.

Lemma reachable_ok s0 s : life_ok s0 → sys_ok s0 → reachable environment s0 s → sys_ok s.
Proof.
  intros Hl H0 Hr. induction Hr as [|s s' Hr IH Hs]; [done|].
  eapply step_ok; [by eapply life_reachable|exact IH|exact Hs].
Qed.

Lemma reachable_init_ok resolved listen now w s0 s :
  subs w = ∅ → NewBackend resolved listen onNew onDelete now w = Ok s0 →
  reachable environment s0 s → sys_ok s ∧ life_ok s.
Proof.
  intros Hw Hn Hr. pose proof (life_ok_init _ _ _ _ _ _ _ Hn) as Hl.
  split; [eapply reachable_ok; [exact Hl| |exact Hr]; by eapply sys_ok_init|by eapply life_reachable].
Qed.

(** *** The loops of [run] *)

(** A loop is back from its last turn, or in it. *)
Definition loops_ok s : Prop :=
  (sys_rx_taken s = length (sys_rx s) ∨ S (sys_rx_taken s) = length (sys_rx s)) ∧
  (sys_stats_taken s = length (sys_stats s) ∨ S (sys_stats_taken s) = length (sys_stats s)).

Lemma loops_same s s' :
  sys_rx s' = sys_rx s → sys_stats s' = sys_stats s → sys_rx_taken s' = sys_rx_taken s →
  sys_stats_taken s' = sys_stats_taken s → loops_ok s → loops_ok s'.
Proof. unfold loops_ok. by intros -> -> -> ->. Qed.

Lemma loops_local p s p' s' : local p s p' s' → loops_ok s → loops_ok s'.
Proof.
  intros Hl [Hx Hs]. destruct Hl as [| | | | |q k s Hr|q k s Hr| |]; try done; split; cbn;
    rewrite ?length_app; cbn; auto; right; lia.
Qed.

Lemma loops_step s s' : step environment s s' → loops_ok s → loops_ok s'.
Proof.
  intros Hs Hok. destruct Hs as [| |s Hx Hr|s Hx Hr| | | |s Hx Hn|s Hx Hn| | |s q q' Hx Hn Hq|s q Hx Hn Hq
    |s Hx Hn Hc|s Hx Hn| |s r Hx Hr| | | | | | | |s r Hx Hcl Hr]; try exact Hok;
    try (by match goal with Hl : local _ _ _ _ |- _ => apply (loops_local _ _ _ _ Hl) in Hok end);
    try (unfold goroutine_failed; by destruct (sys_closed _));
    try (by destruct (wg_Done _)).
  - destruct Hok as [Hl Hs]. split; [|done]. cbn. left. lia.
  - destruct Hok as [Hl Hs]. split; [done|]. cbn. left. lia.
  - by destruct r as [[[cl c] w]| |].
  - by destruct r.
Qed.

(** *** A clean-up from its lock to its end *)

(** A step while the registry is being cleaned up. *)
Definition during s s' : Prop := cleaning (sys_cleaner s) = true ∧ step environment s s'.

Lemma local_locked p s p' s' :
  cleaning (sys_cleaner s) = true → local p s p' s' →
  sys_registry s' = sys_registry s ∧ sys_cleaner s' = sys_cleaner s ∧ sys_clock s' = sys_clock s ∧
  sys_world s' = sys_world s.
Proof. intros Hc Hl. destruct Hl; try done. congruence. Qed.

Lemma step_locked s s' :
  during s s' →
  sys_clock s ≤ sys_clock s' ∧
  (sys_registry s' = sys_registry s ∧ sys_cleaner s' = sys_cleaner s ∧
     (sys_world s' = sys_world s ∨ environment (sys_world s) (sys_world s')) ∨
   ∃ cl c w, sys_registry s' = c ∧ sys_cleaner s' = cl ∧ sys_world s' = w ∧
     cleanup_step (sys_clock s) (sys_cleaner s) (sys_registry s) (sys_world s) = Some (Ok (cl, c, w))).
Proof.
  intros [Hlk Hs]. destruct Hs as [| |s Hx Hr|s Hx Hr|s i p p' s' Hx Hi Hl| |s p' s' Hx Hl|s Hx Hn|s Hx Hn| | |
    s q q' Hx Hn Hq|s q Hx Hn Hq|s Hx Hn Hc|s Hx Hn|s order Hx Hcl Ho|s r Hx Hr|s t Hx Ht| | | | | | |
    s r Hx Hcl Hr]; try (split; [cbn; lia|left; cbn; auto]).
  - unfold goroutine_failed. destruct (sys_closed _); (split; [cbn; lia|left; cbn; auto]).
  - destruct (wg_Done _); (split; [cbn; lia|left; cbn; auto]).
  - destruct (local_locked _ _ _ _ Hlk Hl) as (E1 & E2 & E3 & E4). cbn. rewrite E1, E2, E3, E4.
    split; [lia|auto].
  - destruct (local_locked _ _ _ _ Hlk Hl) as (E1 & E2 & E3 & E4). cbn. rewrite E1, E2, E3, E4.
    split; [lia|auto].
  - unfold goroutine_failed. destruct (sys_closed _); (split; [cbn; lia|left; cbn; auto]).
  - unfold goroutine_failed. destruct (sys_closed _); (split; [cbn; lia|left; cbn; auto]).
  - destruct (wg_Done _); (split; [cbn; lia|left; cbn; auto]).
  - congruence.
  - destruct r as [[[cl c] w]|e|why]; cbn; (split; [lia|]); [right; eauto 8|left; auto..].
  - destruct r; (split; [cbn; lia|left; cbn; auto]).
Qed.

Lemma cleanup_during s1 order s2 :
  sys_cleaner s1 = Ranging order → rtc during s1 s2 →
  sys_clock s1 ≤ sys_clock s2 ∧
  cleanup_at (gateways_map (sys_registry s1)) (λ t, sys_clock s1 ≤ t ≤ sys_clock s2) order
    (sys_cleaner s2) (sys_registry s2).
Proof.
  intros Hc Hr. revert Hr. apply (rtc_preserved during (λ s, sys_clock s1 ≤ sys_clock s ∧
    cleanup_at (gateways_map (sys_registry s1)) (λ t, sys_clock s1 ≤ t ≤ sys_clock s) order
      (sys_cleaner s) (sys_registry s))).
  - intros s s' [Hle Hat] Hs. destruct (step_locked _ _ Hs) as [Hck Hcase]. split; [lia|].
    assert (cleanup_at (gateways_map (sys_registry s1)) (λ t, sys_clock s1 ≤ t ≤ sys_clock s') order
      (sys_cleaner s) (sys_registry s)) as Hat' by (eapply cleanup_at_mono; [|exact Hat]; cbn; lia).
    destruct Hcase as [(-> & -> & _)|(cl & c & w & -> & -> & _ & Hst)]; [done|].
    eapply cleanup_at_step; [|exact Hat'|exact Hst]. cbn. lia.
  - split; [lia|]. rewrite Hc. exists []. split_and!; [done|constructor|].
    intros mac. by destruct (gateways_map (sys_registry s1) !! mac).
Qed.

(** C31: A clean-up that ends without error has visited every registered gateway
    once, at an instant between its start and its end, and removed exactly those not
    heard of for more than a minute by then, whatever other goroutines did. *)
Theorem cleanup_removes_stale s1 s2 order :
  sys_cleaner s1 = Ranging order → ranges order (sys_registry s1) → rtc during s1 s2 →
  sys_cleaner s2 = Cleaned None →
  ∃ visit : list (EUI64 * Time),
    visit.*1 = order ∧ (∀ mac t, (mac, t) ∈ visit → sys_clock s1 ≤ t ≤ sys_clock s2) ∧
    ∀ mac, match gateways_map (sys_registry s1) !! mac with
           | Some gw => ∃ t, (mac, t) ∈ visit ∧
               gateways_map (sys_registry s2) !! mac =
                 (if gateway_lastSeen gw <? t - 60 * 1000000000 then None else Some gw)
           | None => gateways_map (sys_registry s2) !! mac = None
           end.
Proof.
  intros Hc [Hnd Hall] Hr Hend. destruct (cleanup_during _ _ _ Hc Hr) as [_ Hat]. rewrite Hend in Hat.
  destruct Hat as (visit & -> & Ht & Hm). exists visit. split; [done|]. split.
  - intros mac t Hin. rewrite Forall_forall in Ht. apply list_elem_of_In in Hin. by apply Ht in Hin.
  - intros mac. specialize (Hm mac). destruct (gateways_map (sys_registry s1) !! mac) as [gw|] eqn:Eg; [|done].
    assert (mac ∈ visit.*1) as Hin by (apply Hall; eauto).
    apply list_elem_of_fmap in Hin as ([m t] & -> & Hin). exists t. split; [done|].
    rewrite Hm. cbn. rewrite (survives_once _ _ _ _ Hnd Hin). unfold stale.
    replace (t + gatewayCleanupDuration) with (t - 60 * 1000000000) by (unfold gatewayCleanupDuration; lia).
    by destruct (_ <? _).
Qed.

(** *** [Close] against the senders *)

Lemma close_steps s :
  sys_exit s = None →
  ∃ s', rtc (step environment) s s' ∧ sys_chan_closed s' = true ∧ sys_exit s' = None ∧
    sys_handlers s' = sys_handlers s ∧ sys_downlink s' = sys_downlink s ∧ sys_out s' = sys_out s.
Proof.
  intros He. destruct (sys_chan_closed s) eqn:Ech; [by exists s|].
  destruct (sys_closed s) eqn:Ec.
  - eexists. split; [apply rtc_once; by apply step_close_chan|done].
  - eexists. split; [|split_and!].
    { eapply rtc_l; [by apply step_close|]. apply rtc_once. by apply step_close_chan. }
    all: done.
Qed.

(** C36: Whenever a handler or the downlink loop is about to send a datagram, Close
    can overtake it: the process then panics on the closed channel with nothing more
    written. *)
Theorem close_overtakes_senders s q k :
  sys_exit s = None →
  (∃ i, sys_handlers s !! i = Some (PSendUDP q k)) ∨ sys_downlink s = PSendUDP q k →
  ∃ s', rtc (step environment) s s' ∧ sys_exit s' = Some (ExPanic "send on closed channel") ∧ sys_out s' = sys_out s.
Proof.
  intros He Hq. destruct (close_steps s He) as (s1 & Hr & Hch & He1 & Hh & Hd & Ho).
  destruct Hq as [[i Hi]|Hi].
  - eexists. split; [eapply rtc_r; [exact Hr|]; eapply step_handler; [done|by rewrite Hh|by apply local_udp_closed]|].
    done.
  - eexists. split; [eapply rtc_r; [exact Hr|]; eapply step_downlink; [done|rewrite Hd, Hi; by apply local_udp_closed]|].
    done.
Qed.

(** ** What holds in every state *)

Section Reachable.
Context (resolved : result UDPAddr) (listen : UDPAddr → result ()) (now : Time) (w0 : W).
Context (s0 : system W).
Hypothesis subs_init : subs w0 = ∅.
Hypothesis started : NewBackend resolved listen onNew onDelete now w0 = Ok s0.

Lemma loops_reachable s : reachable environment s0 s → loops_ok s.
Proof.
  intros Hr. induction Hr as [|s s' _ IH Hs]; [|by eapply loops_step; [exact Hs|]].
  unfold NewBackend in started. inv_ok. subst s0. by split; left.
Qed.

(** C3: In every reachable state of the packet-forwarder backend, over any network
    backend that keeps the callback contract, each written datagram is the PUSH_ACK
    or PULL_ACK of a received datagram, or the PULL_RESP of a requested packet to
    the address of a PULL_DATA of its gateway. *)
Theorem written_datagrams_justified s :
  reachable environment s0 s → Forall (justified (hist s)) (sys_out s).
Proof.
  intros Hr. destruct (reachable_init_ok _ _ _ _ _ _ subs_init started Hr) as [Hok _].
  apply (ok_out _ Hok).
Qed.

(** Every packet and every statistic the backend hands to the network side comes
    from a PUSH_DATA that was received, and every such packet has CRC status 1. *)
Theorem published_packets_genuine s :
  reachable environment s0 s →
  Forall (λ rx, rx_ok (hist s) rx ∧ RXInfo_CRCStatus (RXPacket_RXInfo rx) = 1) (sys_rx s) ∧
  Forall (stats_ok (hist s)) (sys_stats s).
Proof.
  intros Hr. destruct (reachable_init_ok _ _ _ _ _ _ subs_init started Hr) as [Hok _].
  split; [|apply (ok_stats _ Hok)]. eapply Forall_impl; [|apply (ok_rx _ Hok)].
  intros rx Hrx. split; [done|]. destruct Hrx as (a & q & r & _ & _ & Ha).
  unfold accepted in Ha. inv_ok. destruct (Z.eqb_spec (RXInfo_CRCStatus (RXPacket_RXInfo a0)) 1); [|done].
  by injection Ha as <-.
Qed.

(** C8: In every reachable state the gateways in the registry are exactly those with
    a subscription at the network backend, and each entry's address and version are
    those of a PULL_DATA it sent. *)
Theorem registered_gateways_subscribed s :
  reachable environment s0 s →
  dom (gateways_map (sys_registry s)) = subs (sys_world s) ∧
  ∀ mac gw, gateways_map (sys_registry s) !! mac = Some gw → entry_ok (hist s) mac gw.
Proof.
  intros Hr. destruct (reachable_init_ok _ _ _ _ _ _ subs_init started Hr) as [Hok _].
  split; [apply (ok_registry _ Hok)|apply (ok_entries _ Hok)].
Qed.

(** C19: The packet-forwarder backend panics only once Close was called, by sending
    on the closed channel or by Close being woken while a goroutine still counts
    itself, unless the network backend's own onDelete panics. *)
Theorem panics_explained s why :
  reachable environment s0 s → sys_exit s = Some (ExPanic why) →
  sys_closed s = true ∧
    (why = "send on closed channel" ∧ sys_chan_closed s = true ∨
     why = reuse_panic ∧ sys_closer s = CWaiting ∧ sys_conn_closed s = true) ∨
  delete_panics onDelete why.
Proof.
  intros Hr He. destruct (reachable_init_ok _ _ _ _ _ _ subs_init started Hr) as [Hok Hlife].
  destruct (ok_panic _ Hok why He) as [[-> Hc]|[[-> Hc]|Hc]].
  - left. split; [by apply (lok_chan _ Hlife)|]. by left.
  - assert (sys_conn_closed s = true) as Hcn by (apply (lok_wait _ Hlife); by left).
    left. split; [|by right]. apply (lok_chan _ Hlife). by apply (lok_conn _ Hlife).
  - right. eapply cleanup_step_panics; [apply (ok_registry _ Hok)|exact Hc].
Qed.

(** What a goroutine waits for that cannot step: the sender, which can get ready
    for it; a loop of [run], which can come back; the registry's lock, whose holder
    can go on or waits in [onDelete]. *)
Definition needs_lock (p : prog ()) : bool := match p with PGet _ _ | PSet _ _ _ => true | _ => false end.

Inductive awaits s : prog () → Prop :=
| aw_sender q k s' :
    step environment s s' → sys_exit s' = None → sys_sender s' = SIdle →
    sys_handlers s' = sys_handlers s → awaits s (PSendUDP q k)
| aw_rx q k s' :
    step environment s s' → sys_exit s' = None → sys_rx_taken s' = length (sys_rx s') →
    sys_handlers s' = sys_handlers s → awaits s (PSendRX q k)
| aw_stats q k s' :
    step environment s s' → sys_exit s' = None → sys_stats_taken s' = length (sys_stats s') →
    sys_handlers s' = sys_handlers s → awaits s (PSendStats q k)
| aw_lock p :
    needs_lock p = true → cleaning (sys_cleaner s) = true →
    (∃ r, cleanup_step (sys_clock s) (sys_cleaner s) (sys_registry s) (sys_world s) = Some r) ∨
    (∃ mac rest, sys_cleaner s = Deleting mac rest ∧ wc_resume onDelete mac (sys_world s) = None) →
    awaits s p.

Lemma lock_held c w cl t :
  registry_ok onNew onDelete subs c w → cleaning cl = true →
  (∃ r, cleanup_step t cl c w = Some r) ∨
  (∃ mac rest, cl = Deleting mac rest ∧ wc_resume onDelete mac w = None).
Proof.
  intros (_ & Hd & _) Hc. destruct cl as [|[|mac rest]|mac rest|err]; try done; cbn.
  - left. by eexists.
  - left. destruct (gateways_map c !! mac) as [gw|]; [destruct (stale t gw)|]; by eexists.
  - rewrite Hd. cbn. destruct (wc_resume onDelete mac w) as [a|] eqn:E; [left; by eexists|].
    right. by exists mac, rest.
Qed.

(** C21: While the backend is open, every handler that has not ended can step, or
    what it waits for can: the sender and the loops of run get ready in one step,
    and the registry's lock is held by a clean-up that goes on unless it waits for
    the network backend. *)
Theorem handlers_progress s i p :
  reachable environment s0 s → sys_exit s = None → sys_closed s = false →
  sys_handlers s !! i = Some p → p ≠ PRet tt →
  (∃ p' s', local p s p' s' ∧ sys_exit s' = None) ∨ awaits s p.
Proof.
  intros Hr He Hc Hi Hp.
  destruct (reachable_init_ok _ _ _ _ _ _ subs_init started Hr) as [Hok Hlife].
  pose proof (loops_reachable _ Hr) as [Hlx Hls].
  assert (safe (hist s) p) as Hsafe.
  { pose proof (ok_handlers _ Hok) as Hall. rewrite Forall_lookup in Hall. by eapply Hall. }
  assert (sys_chan_closed s = false) as Hch.
  { destruct (sys_chan_closed s) eqn:E; [|done]. rewrite (lok_chan _ Hlife E) in Hc. done. }
  assert (sys_conn_closed s = false) as Hcn.
  { destruct (sys_conn_closed s) eqn:E; [|done]. destruct (lok_conn _ Hlife E). congruence. }
  destruct p as [[]|why|k|mac k|mac gw k|q k|q k|q k|l k]; [done|done|left| | | | | |left];
    try (do 2 eexists; split; [by constructor|done]).
  - destruct (cleaning (sys_cleaner s)) eqn:El; [right|left; do 2 eexists; by (split; [by constructor|])].
    apply aw_lock; [done..|]. by eapply lock_held; [apply (ok_registry _ Hok)|].
  - destruct (cleaning (sys_cleaner s)) eqn:El.
    + right. apply aw_lock; [done..|]. by eapply lock_held; [apply (ok_registry _ Hok)|].
    + left. destruct (gateways_set (sys_registry s) mac gw (sys_world s)) as [[err c] w] eqn:Es.
      do 2 eexists. by split; [by constructor|].
  - destruct (sys_sender s) as [| |q'| |] eqn:Es.
    + right. eapply aw_sender; [by apply step_start_sender|done..].
    + left. do 2 eexists. by split; [by constructor|].
    + right. pose proof (ok_sender _ Hok) as Hq. rewrite Es in Hq.
      destruct (justified_type _ _ Hq) as [t Ht].
      eapply aw_sender; [eapply step_write; [done|done|by eapply sends_typed|done]|done..].
    + exfalso. destruct (lok_over _ Hlife) as [?|?]; [right; by rewrite Es|congruence..].
    + exfalso. destruct (lok_over _ Hlife) as [?|?]; [right; by rewrite Es|congruence..].
  - destruct Hlx as [Hl|Hl]; [left; do 2 eexists; by (split; [by constructor|])|right].
    eapply aw_rx; [apply step_rx_loop; [done|lia]|done|cbn; lia|done].
  - destruct Hls as [Hl|Hl]; [left; do 2 eexists; by (split; [by constructor|])|right].
    eapply aw_stats; [apply step_stats_loop; [done|lia]|done|cbn; lia|done].
Qed.
End Reachable.
End Invariant.
