(* ===== verification/SystemRuns.v ===== *)
(** * Concrete runs of the backend

    Executions of the scheduler of [System] on concrete datagrams: the
    registration and downlink of a gateway, the clean-up of a silent one, and
    the race between a handler and [Close].  They also show that the hypotheses
    of the theorems of [SystemLaws] are met. *)

From Stdlib Require Import String Ascii NArith ZArith Lia SpecFloat.
From stdpp Require Import relations base gmap list strings numbers.
From S2P Require Import Prelude GoPrim GoStrconv GoTime GoFloat GoFloatText GoFloatRound GoNet.
From S2P Require Import Lorawan GoJsonTyped GoJsonLaws Payload PayloadLaws Structs GoSync Registry.
From S2P Require Import Convert Backend BackendLaws System SystemLaws.

Local Open Scope string_scope.
Local Open Scope list_scope.
Local Open Scope Z_scope.

#[local] Existing Instance utc_host.

Definition demo_mac : EUI64 := mkEUI64 "001" "002" "003" "004" "005" "006" "007" "008".
Definition demo_addr : UDPAddr := mkUDPAddr (IPv4 10 0 0 7) 40000 EmptyString.

Definition demo_world := gset EUI64.

(** The backend as it starts, over the set of subscriptions. *)
Definition demo_start : system demo_world :=
  match NewBackend (Ok demo_addr) (λ _, Ok tt) set_onNew set_onDelete 0 ∅ with
  | Ok s => s
  | _ => mkSystem (mkGateways ∅ None None) ∅ 0 Asleep [] (PRet tt) WGone SGone wg_zero CIdle true true true
           None [] [] [] [] [] 0 0
  end.

(** No other user of the network backend. *)
Definition quiet (w w' : demo_world) : Prop := w' = w.

Lemma demo_started :
  NewBackend (Ok demo_addr) (λ _, Ok tt) set_onNew set_onDelete 0 ∅ = Ok demo_start.
Proof. reflexivity. Qed.

(** PULL_DATA of the gateway, protocol version 2, token 0x1234. *)
Definition demo_pull : bytes := header 2 4660 PullData ++ eui_bytes demo_mac.

Definition demo_tx : TXPacketBytes :=
  mkTXPacketBytes
    (mkTXInfo demo_mac true 0 868100000 14 (mkDataRate LoRaModulation 7 125 0) "4/5" None)
    (map byte_of_Z [1; 2; 3; 4]).

Definition demo_state (l : list action) : system demo_world :=
  default demo_start (run_actions demo_start l).

Definition steps (n : nat) (a : action) : list action := replicate n a.

(** The reader and the sender start; the handler registers the gateway and
    acknowledges; then a packet goes down. *)
Definition demo_run : list action :=
  [AStartReader; AStartSender; AReceive demo_addr demo_pull] ++ steps 4 (AHandler 0) ++ [AWrite; ADownlink demo_tx]
  ++ steps 2 ADownlinkStep ++ [AWrite].

Lemma demo_reachable l s :
  run_actions demo_start l = Some s → reachable quiet demo_start s.
Proof. intros Hr. eapply run_actions_reachable; [apply reachable_init|exact Hr]. Qed.

Definition out_types (s : system demo_world) : list (option UDPAddr * result PacketType) :=
  map (λ p, (udpPacket_addr p, GetPacketType (udpPacket_data p))) (sys_out s).

(** A boolean property of the state a list of actions leads to. *)
Definition demo_check (l : list action) (f : system demo_world → bool) : bool :=
  match run_actions demo_start l with Some s => f s | None => false end.

Lemma demo_check_reachable l f :
  demo_check l f = true → ∃ s, reachable quiet demo_start s ∧ f s = true.
Proof.
  unfold demo_check. destruct (run_actions demo_start l) as [s|] eqn:E; [|done].
  intros Hf. exists s. split; [by eapply demo_reachable|done].
Qed.

Example demo_run_out :
  demo_check demo_run (λ s,
    bool_decide (out_types s = [(Some demo_addr, Ok PullACK); (Some demo_addr, Ok PullResp)])
    && bool_decide (sys_world s = {[demo_mac]})) = true.
Proof. vm_compute. reflexivity. Qed.

(** A gateway that stays silent for more than a minute is forgotten; a datagram
    arrives meanwhile. *)
Definition demo_silent : list action :=
  demo_run ++ [AClock 61000000000; ACleanupLock [demo_mac]].
Definition demo_cleaning : list action :=
  [AReceive demo_addr demo_pull; AClock 62000000000; ACleanup; ACleanup].

Example demo_cleanup :
  demo_check (demo_silent ++ demo_cleaning) (λ s,
    bool_decide (gateways_map (sys_registry s) = ∅) && bool_decide (sys_world s = ∅)
    && bool_decide (sys_cleaner s = Cleaned None)) = true.
Proof. vm_compute. reflexivity. Qed.

(** The handler that arrives has to wait for the lock. *)
Example demo_locked :
  run_actions demo_start (demo_silent ++ [AReceive demo_addr demo_pull] ++ steps 4 (AHandler 1)) = None.
Proof. vm_compute. reflexivity. Qed.

(** [Close] while a handler is about to acknowledge: the channel is closed
    before the handler sends on it. *)
Definition demo_acking : list action :=
  [AStartReader; AStartSender; AReceive demo_addr demo_pull] ++ steps 3 (AHandler 0).
Definition demo_race : list action := demo_acking ++ [AClose; ACloseChan; AHandler 0].

(** ** Packets as the packet forwarder writes them *)

(** Decimal literals of the samples. *)
Definition dec (d k : Z) : float64 := f64_of_dec false d k.

Definition sample_rxpk (stat : Z) : RXPK :=
  mkRXPK 1364746877528002000 3512348611 (dec 8681 (-1)) 2 0 stat "LORA" (mkDatR "SF7BW125" 0)
    "4/6" (-35) (dec 51 (-1)) 4 "AQIDBA==".

Definition sample_stat : Stat :=
  mkStat 1389514350000000000 (dec 4624 (-2)) (dec 3253 (-3)) 145 2 2 2 (dec 1 0) 2
    "IMST" "a@b.c" "test".

Definition sample_push (rxpk : list RXPK) : PushDataPacket :=
  mkPushDataPacket 2 4660 demo_mac (mkPushDataPayload rxpk (Some sample_stat)).

Definition sample_resp : PullRespPacket :=
  match newTXPKFromTXPacket demo_tx with
  | Ok txpk => mkPullRespPacket 2 0 (mkPullRespPayload txpk)
  | _ => PullRespPacket_zero
  end.

Definition sample_ack : TXACKPacket :=
  mkTXACKPacket 2 4660 demo_mac (Some (mkTXACKPayload (mkTXPKACK "TOO_LATE"))).

Ltac plain_chars := repeat (apply List.Forall_cons; [reflexivity|]); apply List.Forall_nil.
Ltac sample_wf :=
  repeat match goal with
  | |- _ ∧ _ => split
  | |- Forall RXPK_wf _ => repeat (apply List.Forall_cons; [|]); [..|apply List.Forall_nil]
  | |- DatR_wf _ => left; split_and!; [discriminate|plain_chars|reflexivity]
  | |- RXPK_wf _ => constructor
  | |- Stat_wf _ => constructor
  | |- TXPK_wf _ => constructor
  | |- f64_ok _ => split; vm_compute; reflexivity
  | |- four_digit_year _ => split; vm_compute; congruence
  | |- str_ok _ => vm_compute; reflexivity
  | |- _ = true => vm_compute; reflexivity
  | |- _ = 0 => vm_compute; reflexivity
  end.

Lemma sample_push_wf : PushDataPacket_wf (sample_push [sample_rxpk 1; sample_rxpk (-1)]).
Proof. unfold sample_push. split; [by split|]. split; cbn; sample_wf. Qed.

Lemma demo_tx_wf : TXPacket_wf demo_tx.
Proof. constructor; cbn; [done|lia| |vm_compute; reflexivity]. left. cbn. split_and!; done || lia. Qed.

(** ** The theorems on these packets *)

Lemma PushDataPacket_roundtrip_witness :
  ∃ data, PushDataPacket_MarshalBinary (sample_push [sample_rxpk 1; sample_rxpk (-1)]) = Ok data ∧
    PushDataPacket_UnmarshalBinary data PushDataPacket_zero
    = Ok (sample_push [sample_rxpk 1; sample_rxpk (-1)]).
Proof. exact (PushDataPacket_roundtrip _ sample_push_wf). Defined.

Lemma PullRespPacket_roundtrip_witness :
  ∃ data, PullRespPacket_MarshalBinary sample_resp = Ok data ∧
    PullRespPacket_UnmarshalBinary data PullRespPacket_zero = Ok (PullRespPacket_sent sample_resp).
Proof.
  apply PullRespPacket_roundtrip. split; [by split|].
  unfold PullRespPayload_wf. cbn -[f64_div f64_of_Z f64_of_dec]. constructor; cbn -[f64_div f64_of_Z f64_of_dec]; [done|exact I|sample_wf..].
Defined.

Lemma TXACKPacket_roundtrip_witness :
  ∃ data, TXACKPacket_MarshalBinary sample_ack = Ok data ∧
    TXACKPacket_UnmarshalBinary data TXACKPacket_zero = Ok sample_ack.
Proof. apply TXACKPacket_roundtrip. split; [by split|]. vm_compute. reflexivity. Defined.

Definition demo_gateway : gateway := mkGateway (Some demo_addr) 1000 2.
Definition demo_registry : gateways demo_world :=
  mkGateways {[demo_mac := demo_gateway]} (Some set_onNew) (Some set_onDelete).

Lemma gateways_set_get_witness :
  ∃ c' w', gateways_set (mkGateways ∅ (Some set_onNew) (Some set_onDelete)) demo_mac demo_gateway ∅
             = (None, c', w') ∧
    gateways_get c' demo_mac = (demo_gateway, None).
Proof.
  destruct (gateways_set (mkGateways ∅ (Some set_onNew) (Some set_onDelete)) demo_mac demo_gateway ∅)
    as [[err c'] w'] eqn:E.
  pose proof (gateways_set_get _ _ _ _ _ _ _ E) as [Hget _].
  unfold gateways_set in E. simpl in E. rewrite lookup_empty in E. injection E as <- <- <-.
  do 2 eexists. split; [reflexivity|]. rewrite Hget. by rewrite bool_decide_true.
Defined.

Lemma newTXPKFromTXPacket_spec_witness :
  ∃ txpk, newTXPKFromTXPacket demo_tx = Ok txpk ∧ TXPK_Size txpk = 4 ∧ TXPK_IPol txpk = true ∧
    newDataRateFromDatR (TXPK_DatR txpk) = Ok (mkDataRate LoRaModulation 7 125 0).
Proof.
  eexists. split; [reflexivity|].
  destruct (newTXPKFromTXPacket_spec demo_tx _ eq_refl) as (_ & Hs & _ & Hi & Hd).
  split; [apply Hs; done|]. split; [rewrite Hi; done|]. apply Hd. apply demo_tx_wf.
Defined.

Lemma frequencies_exact_witness :
  (∃ txpk rx, newTXPKFromTXPacket demo_tx = Ok txpk ∧
    newRXPacketFromRXPK demo_mac
      (mkRXPK 0 0 (TXPK_Freq txpk) 0 0 1 "LORA" (mkDatR "SF7BW125" 0) "4/5" 0 f64_zero 0 "") = Ok rx ∧
    RXInfo_Frequency (RXPacket_RXInfo rx) = 868100000) ∧
  (∃ rx, newRXPacketFromRXPK demo_mac (sample_rxpk 1) = Ok rx ∧
    RXInfo_Frequency (RXPacket_RXInfo rx) = 868100000).
Proof.
  assert (band_frequency 868100000) as Hb by (right; lia). split.
  - do 2 eexists. split; [reflexivity|]. split; [reflexivity|].
    eapply (proj1 (frequencies_exact 868100000 Hb) demo_tx _ demo_mac
      (mkRXPK 0 0 (f64_div (f64_of_Z 868100000) million) 0 0 1 "LORA" (mkDatR "SF7BW125" 0) "4/5" 0 f64_zero 0 ""));
      reflexivity.
  - eexists. split; [reflexivity|].
    apply (proj2 (frequencies_exact 868100000 Hb) demo_mac (sample_rxpk 1) 8681 1%positive); [lia|reflexivity..].
Defined.

(** ** The theorems on the handlers *)

Definition bytes_of {A} (marshal : A → result bytes) (p : A) : bytes :=
  match marshal p with Ok b => b | _ => [] end.

Definition sample_push_data : bytes :=
  bytes_of PushDataPacket_MarshalBinary (sample_push [sample_rxpk 1; sample_rxpk (-1)]).

Lemma sample_push_data_ok :
  PushDataPacket_MarshalBinary (sample_push [sample_rxpk 1; sample_rxpk (-1)]) = Ok sample_push_data.
Proof. vm_compute. reflexivity. Qed.

Lemma handlePullData_spec_witness :
  ∃ ack, run 5000 (handle_datagram demo_addr demo_pull) demo_registry ∅
  = (Done tt, with_map demo_registry
       (<[demo_mac := mkGateway (Some demo_addr) 5000 2]> (gateways_map demo_registry)),
     ∅, [EvUDP (mkUdpPacket (Some demo_addr) ack)]).
Proof.
  destruct (handlePullData_spec 5000 demo_addr (mkPullDataPacket 2 4660 demo_mac) demo_pull
    demo_registry ∅) as (ack & _ & Hrun); [by split|reflexivity|].
  exists ack. rewrite Hrun, gateways_set_known by (eexists; apply lookup_singleton_eq). reflexivity.
Defined.

(** What a forwarder may send: members in any order, some left out, others unknown,
    and blanks. *)
Definition forwarder_json : bytes :=
  quoted "{ 'rxpk' : [ {'data':'AQIDBA==', 'size':4, 'datr':'SF7BW125', 'codr':'4/6', 'foff':[1,{}], 'modu':'LORA', 'stat':1, 'freq':868.1, 'tmst':3512348611} ],'jver':1 }".
Definition forwarder_push : bytes :=
  map byte_of_Z [2; 18; 52; 0; 1; 2; 3; 4; 5; 6; 7; 8] ++ forwarder_json.

Lemma handlePushData_spec_witness :
  ∃ ack rx, run 5000 (handle_datagram demo_addr forwarder_push) demo_registry ∅
  = (Done tt, demo_registry, ∅, [EvUDP (mkUdpPacket (Some demo_addr) ack); EvRX rx]).
Proof.
  destruct (PushDataPacket_UnmarshalBinary forwarder_push PushDataPacket_zero) as [p|e|why] eqn:E;
    [|exfalso; vm_compute in E; discriminate E..].
  destruct (handlePushData_spec 5000 demo_addr forwarder_push p demo_registry ∅ E)
    as (ack & good & bad & ps & _ & Hl & Hg & Hb & Hrun).
  assert (PushDataPayload_Stat (PushDataPacket_Payload p) = None ∧
    length (PushDataPayload_RXPK (PushDataPacket_Payload p)) = 1%nat ∧
    match PushDataPayload_RXPK (PushDataPacket_Payload p) with
    | r :: _ => is_ok (accepted (PushDataPacket_GatewayMAC p) r)
    | [] => false
    end = true) as (Hst & Hlen & Hacc).
  { vm_compute in E. injection E as <-. split; [reflexivity|]. split; [reflexivity|]. vm_compute. reflexivity. }
  rewrite Hst in Hrun. rewrite Hl in Hlen, Hacc.
  destruct good as [|r [|r' good]]; cbn in Hlen.
  - exfalso. destruct bad as [|r bad]; [discriminate Hlen|]. cbn in Hacc. unfold accepted in Hacc.
    destruct (newRXPacketFromRXPK _ r) as [q| |]; cbn in Hacc; [|discriminate Hacc..].
    destruct (Z.eqb_spec (RXInfo_CRCStatus (RXPacket_RXInfo q)) 1); [contradiction|discriminate Hacc].
  - inversion Hg as [|? rx ? ps' _ Hnil]; subst. inversion Hnil; subst. exists ack, rx. exact Hrun.
  - exfalso. lia.
Defined.

(** The bad frame first: the good one behind it is lost. *)
Definition corrupt_push : PushDataPacket := sample_push [sample_rxpk (-1); sample_rxpk 1].

Lemma corrupt_push_wf : PushDataPacket_wf corrupt_push.
Proof. unfold corrupt_push, sample_push. split; [by split|]. split; cbn; sample_wf. Qed.

Lemma corrupt_push_parsed :
  PushDataPacket_UnmarshalBinary (bytes_of PushDataPacket_MarshalBinary corrupt_push) PushDataPacket_zero
  = Ok corrupt_push.
Proof. vm_compute. reflexivity. Qed.

Lemma corrupt_frame_hides_the_rest_witness :
  is_ok (accepted demo_mac (sample_rxpk 1)) = true ∧
  ∃ evs, run 5000 (handle_datagram demo_addr (bytes_of PushDataPacket_MarshalBinary corrupt_push))
           demo_registry ∅ = (Done tt, demo_registry, ∅, evs) ∧ ∀ rx, EvRX rx ∉ evs.
Proof.
  split; [vm_compute; reflexivity|].
  apply (corrupt_frame_hides_the_rest 5000 demo_addr _ _ demo_registry ∅ (sample_rxpk (-1))
    [sample_rxpk 1] corrupt_push_parsed); [reflexivity|].
  eexists. vm_compute. reflexivity.
Defined.

Lemma other_datagrams_ignored_witness :
  run 5000 (handle_datagram demo_addr [byte_of_Z 3; byte_of_Z 0; byte_of_Z 0; byte_of_Z 2])
    demo_registry ∅ = (Done tt, demo_registry, ∅, []).
Proof. apply other_datagrams_ignored. vm_compute. reflexivity. Defined.

Lemma handleTXACK_log_witness :
  ∃ l fields,
    exec 5000 (handle_datagram demo_addr (bytes_of TXACKPacket_MarshalBinary sample_ack)) demo_registry ∅
    = (Done tt, demo_registry, ∅, [EvLog l; EvLog (mkLog LError "gateway: tx ack received" fields)]).
Proof.
  destruct (handleTXACK_log 5000 demo_addr (bytes_of TXACKPacket_MarshalBinary sample_ack) sample_ack
    demo_registry ∅) as (l & fields & Hrun); [vm_compute; reflexivity|].
  exists l, fields. exact Hrun.
Defined.

Lemma Send_unknown_gateway_witness :
  exec 5000 (Send demo_tx) (mkGateways ∅ (Some set_onNew) (Some set_onDelete)) ∅
  = (Done (Some ErrGatewayDoesNotExist), mkGateways ∅ (Some set_onNew) (Some set_onDelete), ∅, []).
Proof. apply Send_unknown_gateway. apply lookup_empty. Defined.

Lemma Send_pull_resp_witness :
  ∃ data txpk,
    exec 5000 (Send demo_tx) demo_registry ∅
    = (Done None, demo_registry, ∅, [EvUDP (mkUdpPacket (Some demo_addr) data)]) ∧
    PullRespPacket_UnmarshalBinary data PullRespPacket_zero
    = Ok (mkPullRespPacket 2 0 (mkPullRespPayload txpk)).
Proof.
  destruct (Send_pull_resp 5000 demo_tx demo_registry ∅ demo_gateway) as (data & txpk & Hs & _ & Hd);
    [apply lookup_singleton_eq|reflexivity|exact demo_tx_wf|].
  exists data, txpk. split; [exact Hs|exact Hd].
Defined.

(** ** The theorems on the running backend *)

Lemma quiet_subs w w' : quiet w w' → id w' = id w.
Proof. by intros ->. Qed.

(** A gateway that pulls and then pushes statistics and a frame. *)
Definition demo_uplink : list action :=
  demo_run ++ [AReceive demo_addr sample_push_data] ++ steps 10 (AHandler 1) ++ [AWrite; ARxLoop; AStatsLoop].

Lemma written_datagrams_justified_witness :
  ∃ s, reachable quiet demo_start s ∧ length (sys_out s) = 2%nat ∧
    Forall (justified (hist s)) (sys_out s).
Proof.
  destruct (demo_check_reachable demo_run (λ s, bool_decide (length (sys_out s) = 2%nat)))
    as (s & Hs & Hl); [vm_compute; reflexivity|]. apply bool_decide_eq_true_1 in Hl.
  exists s. split; [done|]. split; [done|].
  apply (written_datagrams_justified set_onNew set_onDelete id quiet quiet_subs _ _ _ _ _
    eq_refl demo_started). exact Hs.
Defined.

Lemma published_packets_genuine_witness :
  ∃ s, reachable quiet demo_start s ∧ length (sys_rx s) = 1%nat ∧ length (sys_stats s) = 1%nat ∧
    Forall (λ rx, rx_ok (hist s) rx ∧ RXInfo_CRCStatus (RXPacket_RXInfo rx) = 1) (sys_rx s) ∧
    Forall (stats_ok (hist s)) (sys_stats s).
Proof.
  destruct (demo_check_reachable demo_uplink (λ s, bool_decide (length (sys_rx s) = 1%nat) &&
    bool_decide (length (sys_stats s) = 1%nat))) as (s & Hs & Hl); [vm_compute; reflexivity|].
  apply andb_true_iff in Hl as [H1%bool_decide_eq_true_1 H2%bool_decide_eq_true_1].
  exists s. split; [done|]. split; [done|]. split; [done|].
  apply (published_packets_genuine set_onNew set_onDelete id quiet quiet_subs _ _ _ _ _
    eq_refl demo_started). exact Hs.
Defined.

Lemma registered_gateways_subscribed_witness :
  ∃ s, reachable quiet demo_start s ∧ bool_decide (demo_mac ∈ sys_world s) = true ∧
    dom (gateways_map (sys_registry s)) = sys_world s.
Proof.
  destruct (demo_check_reachable demo_run (λ s, bool_decide (demo_mac ∈ sys_world s)))
    as (s & Hs & Hl); [vm_compute; reflexivity|].
  exists s. split; [done|]. split; [done|].
  apply (registered_gateways_subscribed set_onNew set_onDelete id quiet quiet_subs _ _ _ _ _
    eq_refl demo_started). exact Hs.
Defined.

Lemma panics_explained_witness :
  ∃ s, reachable quiet demo_start s ∧ sys_chan_closed s = true ∧ sys_closed s = true.
Proof.
  destruct (demo_check_reachable demo_race (λ s,
    match sys_exit s with Some (ExPanic _) => true | _ => false end && sys_chan_closed s))
    as (s & Hs & Hl); [vm_compute; reflexivity|]. apply andb_true_iff in Hl as [Hl Hc].
  destruct (sys_exit s) as [[|why]|] eqn:E; try discriminate.
  exists s. split; [done|]. split; [exact Hc|].
  destruct (panics_explained set_onNew set_onDelete id quiet quiet_subs _ _ _ _ _
    eq_refl demo_started s why Hs E) as [[H1 _]|H2]; [exact H1|].
  by apply set_never_panics in H2.
Defined.

(** A handler that waits for the sender to start, and one that waits for the lock. *)
Lemma handlers_progress_witness :
  ∃ s p, reachable quiet demo_start s ∧ sys_handlers s !! 1%nat = Some p ∧
    cleaning (sys_cleaner s) = true ∧
    ((∃ p' s', local p s p' s' ∧ sys_exit s' = None) ∨ awaits set_onDelete quiet s p).
Proof.
  destruct (demo_check_reachable (demo_silent ++ [AReceive demo_addr demo_pull] ++ steps 2 (AHandler 1)) (λ s,
    match sys_handlers s !! 1%nat with Some (PRet _) => false | Some _ => true | None => false end &&
    match sys_exit s with None => true | _ => false end && negb (sys_closed s) && cleaning (sys_cleaner s)))
    as (s & Hs & Hl); [vm_compute; reflexivity|].
  apply andb_true_iff in Hl as [[[Hp He]%andb_true_iff Hc]%andb_true_iff Hlk]. apply negb_true_iff in Hc.
  destruct (sys_handlers s !! 1%nat) as [p|] eqn:Ep; [|discriminate].
  destruct (sys_exit s) eqn:Ex; [discriminate|].
  exists s, p. split; [done|]. split; [done|]. split; [exact Hlk|].
  apply (handlers_progress set_onNew set_onDelete id quiet quiet_subs _ _ _ _ _ eq_refl demo_started
    s 1%nat p Hs Ex Hc Ep). by intros ->.
Defined.

(** The acknowledgement of a PULL_DATA is overtaken. *)
Lemma close_overtakes_senders_witness :
  ∃ s s', reachable quiet demo_start s ∧ sys_in s = [(demo_addr, demo_pull)] ∧
    rtc (step quiet) s s' ∧ sys_exit s' = Some (ExPanic "send on closed channel") ∧ sys_out s' = [].
Proof.
  destruct (demo_check_reachable demo_acking (λ s,
    match sys_handlers s !! 0%nat with Some (PSendUDP _ _) => true | _ => false end &&
    match sys_exit s with None => true | _ => false end &&
    bool_decide (sys_in s = [(demo_addr, demo_pull)]) && bool_decide (sys_out s = [])))
    as (s & Hs & Hl); [vm_compute; reflexivity|].
  apply andb_true_iff in Hl as [[[Hp He]%andb_true_iff Hi%bool_decide_eq_true_1]%andb_true_iff
    Ho%bool_decide_eq_true_1].
  destruct (sys_handlers s !! 0%nat) as [[| | | | |q k| | |]|] eqn:Ep; try discriminate.
  destruct (sys_exit s) eqn:Ex; [discriminate|].
  destruct (close_overtakes_senders quiet s q k Ex (or_introl (ex_intro _ 0%nat Ep)))
    as (s' & Hr & Hx & Hout).
  exists s, s'. split; [exact Hs|]. split; [exact Hi|]. split; [exact Hr|]. split; [exact Hx|].
  by rewrite Hout.
Defined.

(** A run under the registry's lock. *)
Fixpoint run_locked (s : system demo_world) (l : list action) : option (system demo_world) :=
  match l with
  | [] => Some s
  | a :: l => if cleaning (sys_cleaner s) then s' ← run_action s a; run_locked s' l else None
  end.

Lemma run_locked_during s l s' : run_locked s l = Some s' → rtc (during quiet) s s'.
Proof.
  revert s. induction l as [|a l IH]; intros s Hr; cbn in Hr; [by simplify_eq|].
  destruct (cleaning _) eqn:Ec; [|done]. apply bind_Some in Hr as (s1 & Ha & Hr).
  eapply rtc_l; [split; [done|by eapply run_action_step]|by apply IH].
Qed.

Lemma cleanup_removes_stale_witness :
  ∃ s1 s2, reachable quiet demo_start s1 ∧ rtc (during quiet) s1 s2 ∧
    is_Some (gateways_map (sys_registry s1) !! demo_mac) ∧
    gateways_map (sys_registry s2) !! demo_mac = None.
Proof.
  destruct (demo_check_reachable demo_silent (λ s1,
    bool_decide (sys_cleaner s1 = Ranging [demo_mac]) && ranges_all [demo_mac] s1 &&
    bool_decide (sys_clock s1 = 61000000000) &&
    match gateways_map (sys_registry s1) !! demo_mac with
    | Some gw => gateway_lastSeen gw <? 1000000000 | None => false end &&
    match run_locked s1 demo_cleaning with
    | Some s2 => bool_decide (sys_cleaner s2 = Cleaned None) | None => false end))
    as (s1 & Hs1 & Hf); [vm_compute; reflexivity|].
  apply andb_true_iff in Hf as [[[[Hc%bool_decide_eq_true_1 Ho%ranges_all_sound]%andb_true_iff
    Ht%bool_decide_eq_true_1]%andb_true_iff Hg]%andb_true_iff Hr].
  destruct (run_locked s1 demo_cleaning) as [s2|] eqn:E2; [|discriminate].
  apply bool_decide_eq_true_1 in Hr.
  destruct (gateways_map (sys_registry s1) !! demo_mac) as [gw|] eqn:Eg; [|discriminate].
  destruct (cleanup_removes_stale quiet s1 s2 _ Hc Ho (run_locked_during _ _ _ E2) Hr)
    as (visit & _ & Hvt & Hm).
  exists s1, s2. split; [exact Hs1|]. split; [by apply (run_locked_during _ demo_cleaning)|].
  split; [eauto|]. specialize (Hm demo_mac). rewrite Eg in Hm. destruct Hm as (t & Hin & Hm).
  rewrite Hm. apply Hvt in Hin. rewrite Ht in Hin. apply Z.ltb_lt in Hg.
  destruct (Z.ltb_spec (gateway_lastSeen gw) (t - 60 * 1000000000)); [reflexivity|lia].
Defined.
