(* ===== verification/Waiting.v ===== *)
(** * Closing the packet-forwarder backend

    [Close] of [gateway/backend.go] closes the channel and the socket and waits for
    the reader and the sender.  Every interleaving of the three ends; but as each
    goroutine counts itself only once it runs, [Close] may return before they
    start, and panics when one starts late. *)

From Stdlib Require Import String Ascii NArith ZArith Lia.
From stdpp Require Import relations base gmap list strings numbers well_founded.
From S2P Require Import Prelude GoPrim GoTime GoFloat GoFloatRound GoNet Lorawan Payload Structs.
From S2P Require Import GoSync Registry Convert Backend BackendLaws System SystemLaws SystemRuns.

Local Open Scope string_scope.
Local Open Scope list_scope.
Local Open Scope nat_scope.

Section Closing.
Context `{HostZone} {W : Type} (environment : W → W → Prop).
Implicit Types (s : system W) (v : worker) (x : sender).

Local Abbreviation step := (step environment).

(** A step of one of the two goroutines or of [Close]. *)
Definition moving s s' : Prop :=
  step s s' ∧
  (sys_reader s', sys_sender s', sys_closer s') ≠ (sys_reader s, sys_sender s, sys_closer s).

(** The two goroutines and [Close] have ended. *)
Definition ended s : Prop :=
  sys_reader s = WGone ∧ sys_sender s = SGone ∧ sys_closer s = CReturned None.

(** ** Termination *)

(** How many steps they have left once the socket is closed. *)
Definition reader_left v : nat :=
  match v with WNew => 3 | WRunning => 2 | WReturned => 1 | WGone => 0 end.
Definition sender_left x : nat :=
  match x with SNew => 4 | SBusy _ => 3 | SIdle => 2 | SDone => 1 | SGone => 0 end.
Definition closer_left (c : closer) : nat :=
  match c with CIdle => 2 | CWaiting => 1 | CReturned _ => 0 end.

Definition left_of s : nat :=
  reader_left (sys_reader s) + sender_left (sys_sender s) + closer_left (sys_closer s).

(** What a step does to them. *)
Record quiet_step s s' : Prop := mkQuietStep {
  qs_in : sys_in s' = sys_in s;
  qs_out : sys_out s' = sys_out s;
  qs_conn : sys_conn_closed s' = sys_conn_closed s;
  qs_left : left_of s' < left_of s ∨
    (sys_reader s', sys_sender s', sys_closer s') = (sys_reader s, sys_sender s, sys_closer s)
}.

Lemma quiet_local p s p' s' : sys_chan_closed s = true → local p s p' s' → quiet_step s s'.
Proof. intros Hc Hl. destruct Hl; constructor; try done; try (by right); congruence. Qed.

Lemma quiet_failed s s' : quiet_step s s' → quiet_step s (goroutine_failed s').
Proof. intros []. unfold goroutine_failed. by destruct (sys_closed s'). Qed.

Lemma quiet_with_wg s r f : (∀ g, quiet_step s (f g)) → quiet_step s (with_wg s r f).
Proof. intros Hf. destruct r; [apply Hf|by constructor; try right..]. Qed.

Lemma step_quiet s s' : life_ok s → sys_conn_closed s = true → step s s' → quiet_step s s'.
Proof.
  intros Hok Hc Hs. pose proof (lok_conn _ Hok Hc) as [Hch _].
  destruct Hs as [s He Hr|s addr data He Hr Hc'|s He Hr|s He Hr|s i p p' s' He Hi Hl
    |s tx He Hd|s p' s' He Hl|s He Hx|s He Hx|s He Hx|s q q' He Hx Hq Hc'|s q q' He Hx Hq|s q He Hx Hq
    |s He Hx Hc'|s He Hx|s order He Hcl Ho|s r He Hr|s t He Ht|s w He Hw|s He Hc'|s He Hc' Hch'|s He Hch' Hcn Hcl
    |s e He Hch' Hcn Hcl|s He Hcn Hcl|s r He Hcl Hr]; try congruence;
    try (by constructor; try right);
    try (by match goal with Hl : local _ _ _ _ |- _ => apply (quiet_local _ _ _ _ Hch) in Hl as []; constructor end);
    try (by destruct r as [[[cl c] w]| |]; constructor; try right).
  all: try (apply quiet_failed); try (apply quiet_with_wg; intros g).
  all: constructor; try done; left; unfold left_of; cbn; rewrite ?Hr, ?Hx, ?Hcl; cbn; try lia.
  destruct (wg_Wait _).1; cbn; lia.
Qed.

(** What holds along every run once the socket is closed. *)
Lemma runs_closed s s' :
  life_ok s → sys_conn_closed s = true → rtc step s s' →
  life_ok s' ∧ sys_conn_closed s' = true ∧ sys_in s' = sys_in s ∧ sys_out s' = sys_out s ∧
  left_of s' ≤ left_of s.
Proof.
  intros Hok Hc. apply (rtc_preserved step (λ y, life_ok y ∧ sys_conn_closed y = true ∧
    sys_in y = sys_in s ∧ sys_out y = sys_out s ∧ left_of y ≤ left_of s)); [|done].
  intros a b (Ha & Hca & <- & <- & Hl) Hs. destruct (step_quiet _ _ Ha Hca Hs) as [-> -> -> Hleft].
  split_and!; [by eapply life_step|done..|].
  destruct Hleft as [|[= E1 E2 E3]]; [lia|]. unfold left_of in *. rewrite E1, E2, E3. done.
Qed.

(** A run up to a step of the two goroutines or of [Close]. *)
Definition moves s s' : Prop := ∃ y, rtc step s y ∧ moving y s'.

Lemma moves_end s : life_ok s → sys_conn_closed s = true → sn moves s.
Proof.
  intros Hok Hc. remember (left_of s) as n eqn:En. revert s Hok Hc En.
  induction (lt_wf n) as [n _ IH]. intros s Hok Hc ->. constructor. intros s' (y & Hr & Hs & Hne).
  destruct (runs_closed _ _ Hok Hc Hr) as (Hy & Hcy & _ & _ & Hl).
  destruct (step_quiet _ _ Hy Hcy Hs) as [_ _ Hc' Hleft].
  eapply IH; [|eapply life_step; [exact Hy|exact Hs]|congruence|reflexivity].
  destruct Hleft as [|?]; [lia|done].
Qed.

(** ** Progress *)

Lemma moving_reader s :
  life_ok s → sys_exit s = None → sys_closed s = true → sys_reader s ≠ WGone →
  ∃ s', moving s s' ∧ sys_exit s' = None.
Proof.
  intros Hok He Hc Hr. destruct (sys_reader s) eqn:E; [| | |done].
  - eexists. split; [split; [by apply step_start_reader|cbn; congruence]|done].
  - pose proof (step_read_error environment s He E) as Hs.
    unfold goroutine_failed in Hs. cbn in Hs. rewrite Hc in Hs.
    eexists. split; [split; [exact Hs|cbn; congruence]|done].
  - pose proof (lok_counter _ Hok) as Hn. rewrite E in Hn.
    destruct (wg_Done_counted _ _ Hn) as (g & Hg & _).
    pose proof (step_end_reader environment s He E) as Hs. rewrite Hg in Hs.
    eexists. split; [split; [exact Hs|cbn; congruence]|done].
Qed.

Lemma moving_sender s :
  life_ok s → sys_exit s = None → sys_chan_closed s = true → sys_sender s ≠ SGone →
  ∃ s', moving s s' ∧ sys_exit s' = None.
Proof.
  intros Hok He Hch Hr. pose proof (lok_chan _ Hok Hch) as Hc.
  destruct (sys_sender s) as [| |q| |] eqn:E; [| | | |done].
  - eexists. split; [split; [by apply step_start_sender|cbn; congruence]|done].
  - pose proof (step_sender_end environment s He E Hch) as Hs.
    unfold goroutine_failed in Hs. cbn in Hs. rewrite Hc in Hs.
    eexists. split; [split; [exact Hs|cbn; congruence]|done].
  - destruct (sends q) as [q'|] eqn:Eq.
    + pose proof (step_write_error environment s q q' He E Eq) as Hs.
      unfold goroutine_failed in Hs. cbn in Hs. rewrite Hc in Hs.
      eexists. split; [split; [exact Hs|cbn; congruence]|done].
    + eexists. split; [split; [by eapply step_skip|cbn; congruence]|done].
  - pose proof (lok_counter _ Hok) as Hn. rewrite E, Nat.add_comm in Hn.
    destruct (wg_Done_counted _ _ Hn) as (g & Hg & _).
    pose proof (step_end_sender environment s He E) as Hs. rewrite Hg in Hs.
    eexists. split; [split; [exact Hs|cbn; congruence]|done].
Qed.

(** Nothing that is left waits for anything else. *)
Lemma close_progress s :
  life_ok s → sys_exit s = None → sys_conn_closed s = true →
  ended s ∨ ∃ s', moving s s' ∧ sys_exit s' = None.
Proof.
  intros Hok He Hc. destruct (lok_conn _ Hok Hc) as [Hch Hnerr].
  destruct (worker_eqb (sys_reader s) WGone) eqn:Er; [apply worker_eqb_eq in Er|];
    [|right; apply moving_reader; [done..|by apply (lok_chan _ Hok)|by intros E; rewrite E in Er]].
  assert (sys_sender s = SGone ∨ sys_sender s ≠ SGone) as [Ex|Ex] by (destruct (sys_sender s); auto);
    [|right; by apply moving_sender].
  pose proof (lok_counter _ Hok) as Hn. rewrite Er, Ex in Hn.
  destruct (sys_closer s) as [| |[e|]] eqn:Ec; [right|right|by destruct (Hnerr e)|by left].
  - eexists. split; [split; [by apply step_wait|]|done]. cbn. rewrite Ec. by destruct (wg_Wait _).1.
  - pose proof (lok_waiting _ Hok) as Hw. rewrite Ec in Hw. pose proof (lok_waiters _ Hok Hn) as Hz.
    assert (wg_wake (sys_wg s) = Some (Ok (mkWaitGroup 0 0 0))) as Hg
      by (unfold wg_wake; rewrite Hn, Hz; by replace (wg_released (sys_wg s)) with 1 by lia).
    pose proof (step_wake environment s _ He Ec Hg) as Hs. cbn in Hs.
    eexists. split; [split; [exact Hs|cbn; congruence]|done].
Qed.

(** [Close] returns only while neither goroutine is counted. *)
Lemma wait_returns s s' :
  life_ok s → step s s' → sys_closer s ≠ CReturned None → sys_closer s' = CReturned None →
  wg_counter (sys_wg s) = 0.
Proof.
  intros Hok Hs Hn Hr.
  destruct Hs as [| |s He Hr'|s He Hr'|s i p p' s' He Hi Hl| |s p' s' He Hl| | | | |s q q' He Hx Hq|
    |s He Hx Hc'|s He Hx| |s r He Hr'| | | | | | |s He Hcn Hcl|s r He Hcl Hr']; cbn in Hr; try done;
    try (unfold goroutine_failed in Hr; by destruct (sys_closed _));
    try (by destruct (wg_Done _));
    try (by match goal with Hl : local _ _ _ _ |- _ =>
      apply local_same in Hl; rewrite (sl_closer _ _ Hl) in Hr end).
  - by destruct r as [[[cl c] w]| |].
  - unfold wg_Wait in Hr. by destruct (wg_counter (sys_wg s)).
  - apply wg_wake_spec in Hr' as [_ Hr']; [|apply (lok_waiters _ Hok)].
    destruct r as [g| |]; [by destruct Hr'|done..].
Qed.

(** C33: Once the socket is closed, no datagram is read or written, the reader, the
    sender and Close take finitely many steps in every interleaving, and while the
    process lives one of them can step until all have ended; Close returns only when
    neither goroutine is counted. *)
Theorem Close_waits resolved listen onNew onDelete now w s0 s :
  NewBackend resolved listen onNew onDelete now w = Ok s0 → reachable environment s0 s →
  sys_conn_closed s = true →
  sn moves s ∧
  ∀ s', rtc step s s' →
    sys_in s' = sys_in s ∧ sys_out s' = sys_out s ∧
    (sys_exit s' = None → ended s' ∨ ∃ s'', moving s' s'' ∧ sys_exit s'' = None) ∧
    (∀ s'', step s' s'' → sys_closer s' ≠ CReturned None → sys_closer s'' = CReturned None →
      reader_counted (sys_reader s') = 0 ∧ sender_counted (sys_sender s') = 0).
Proof.
  intros Hn Hr Hc. assert (life_ok s) as Hok by (eapply life_reachable; [by eapply life_ok_init|exact Hr]).
  split; [by apply moves_end|]. intros s' Hx.
  destruct (runs_closed _ _ Hok Hc Hx) as (Hok' & Hc' & Hi & Ho & _).
  split_and!; [done..|intros He; by apply close_progress|].
  intros s'' Hs Hne Hret. pose proof (wait_returns _ _ Hok' Hs Hne Hret) as Hz.
  rewrite (lok_counter _ Hok') in Hz. lia.
Qed.

(** ** Goroutines that start late *)

(** The state after [Close] closed the socket, when only the reader may have
    started. *)
Definition shut s r g : system W := set_workers (set_flags s true true true) r SNew g.

(** A backend that did nothing yet. *)
Record fresh s : Prop := mkFresh {
  fr_exit : sys_exit s = None;
  fr_closed : sys_closed s = false;
  fr_chan : sys_chan_closed s = false;
  fr_conn : sys_conn_closed s = false;
  fr_closer : sys_closer s = CIdle;
  fr_reader : sys_reader s = WNew;
  fr_sender : sys_sender s = SNew;
  fr_wg : sys_wg s = wg_zero
}.

Lemma NewBackend_fresh resolved listen onNew onDelete now w s :
  NewBackend resolved listen onNew onDelete now w = Ok s → fresh s.
Proof. intros Hs. unfold NewBackend in Hs. inv_ok. by subst s. Qed.

Lemma shut_reachable s0 :
  fresh s0 →
  reachable environment s0 (shut s0 WNew wg_zero) ∧
  reachable environment s0 (shut s0 WRunning (wg_Add wg_zero)).
Proof.
  intros [He Hc Hch Hcn Hcl Hr Hx Hg].
  assert (∀ s, sys_exit s = None → sys_closed s = false → sys_chan_closed s = false →
    sys_conn_closed s = false → sys_closer s = CIdle →
    reachable environment s0 s → reachable environment s0 (set_flags s true true true)) as Hclose.
  { intros s He' Hc' Hch' Hcn' Hcl' Hs.
    set (s1 := set_flags s true (sys_chan_closed s) (sys_conn_closed s)).
    set (s2 := set_flags s1 true true (sys_conn_closed s1)).
    apply (reachable_step _ _ s2); [|by apply (step_close_conn environment s2)].
    apply (reachable_step _ _ s1); [|by apply step_close_chan].
    apply (reachable_step _ _ s); [done|by apply step_close]. }
  split.
  - specialize (Hclose s0 He Hc Hch Hcn Hcl (reachable_init _ _)). unfold shut.
    replace (set_workers _ _ _ _) with (set_flags s0 true true true); [done|].
    destruct s0. cbn in *. by subst.
  - pose proof (step_start_reader environment s0 He Hr) as Hs.
    apply (reachable_step _ _ _ _ (reachable_init _ _)) in Hs. apply Hclose in Hs; try done.
    unfold shut. rewrite Hx, Hg in Hs. exact Hs.
Qed.

(** C11: Whatever the network backend, a backend just made can be closed with Close
    returning before the reader and the sender have started, and Close can panic: a
    goroutine that starts between the Done of the other and the return of Wait
    reuses the wait group Close waits for. *)
Theorem late_start_races resolved listen onNew onDelete now w s0 :
  NewBackend resolved listen onNew onDelete now w = Ok s0 →
  (∃ s, reachable environment s0 s ∧ sys_exit s = None ∧ sys_closer s = CReturned None ∧
        sys_reader s = WNew ∧ sys_sender s = SNew) ∧
  (∃ s, reachable environment s0 s ∧ sys_exit s = Some (ExPanic reuse_panic) ∧
        sys_closer s = CWaiting ∧ sys_reader s = WGone ∧ sys_sender s = SIdle).
Proof.
  intros Hf%NewBackend_fresh. destruct (shut_reachable s0 Hf) as [Hn Hr].
  destruct Hf as [He Hc Hch Hcn Hcl _ _ _]. split.
  - exists (set_closer (shut s0 WNew wg_zero) (CReturned None) wg_zero). split; [|done].
    eapply reachable_step; [exact Hn|]. exact (step_wait environment (shut s0 WNew wg_zero) He eq_refl Hcl).
  - set (s1 := set_closer (shut s0 WRunning (wg_Add wg_zero)) CWaiting (mkWaitGroup 1 1 0)).
    set (s2 := set_workers s1 WReturned SNew (mkWaitGroup 1 1 0)).
    set (s3 := set_workers s2 WGone SNew (mkWaitGroup 0 0 1)).
    set (s4 := set_workers s3 WGone SIdle (mkWaitGroup 1 0 1)).
    exists (set_exit s4 (ExPanic reuse_panic)). split; [|done].
    apply (reachable_step _ _ s4); [|exact (step_wake environment s4 _ He eq_refl eq_refl)].
    apply (reachable_step _ _ s3); [|exact (step_start_sender environment s3 He eq_refl)].
    apply (reachable_step _ _ s2); [|exact (step_end_reader environment s2 He eq_refl)].
    apply (reachable_step _ _ s1); [|exact (step_read_error environment s1 He eq_refl)].
    eapply reachable_step; [exact Hr|].
    exact (step_wait environment (shut s0 WRunning (wg_Add wg_zero)) He eq_refl Hcl).
Qed.
End Closing.

#[local] Existing Instance utc_host.

(** Both goroutines run when the backend is closed. *)
Definition demo_closing : list action :=
  [AStartReader; AStartSender; AClose; ACloseChan; ACloseConn].

Lemma Close_waits_witness :
  ∃ s, reachable quiet demo_start s ∧ sys_reader s = WRunning ∧ sys_conn_closed s = true ∧
    sn (moves quiet) s ∧ ∃ s', moving quiet s s' ∧ sys_exit s' = None.
Proof.
  destruct (demo_check_reachable demo_closing (λ s,
    worker_eqb (sys_reader s) WRunning && sys_conn_closed s && match sys_exit s with None => true | _ => false end))
    as (s & Hs & Hf); [vm_compute; reflexivity|].
  apply andb_true_iff in Hf as [[Hw%worker_eqb_eq Hc]%andb_true_iff He].
  destruct (sys_exit s) eqn:Ee; [discriminate|].
  destruct (Close_waits quiet _ _ _ _ _ _ demo_start s demo_started Hs Hc) as [Hsn Hall].
  exists s. split; [exact Hs|]. split; [exact Hw|]. split; [exact Hc|]. split; [exact Hsn|].
  destruct (Hall _ (rtc_refl _ _)) as (_ & _ & Hp & _).
  destruct (Hp Ee) as [[Hr _]|Hm]; [congruence|exact Hm].
Defined.

Lemma late_start_races_witness :
  ∃ s, reachable quiet demo_start s ∧ sys_exit s = Some (ExPanic reuse_panic) ∧
    sys_closer s = CWaiting ∧ sys_reader s = WGone ∧ sys_sender s = SIdle.
Proof. exact (proj2 (late_start_races quiet _ _ _ _ _ _ demo_start demo_started)). Defined.
