(* ===== verification/Metrics.v ===== *)
(** * Rate metering

    The exponentially weighted moving average of [rcrowley/go-metrics]
    ([ewma.go]) that the network backend keeps per gateway. *)

From Stdlib Require Import String Ascii NArith ZArith Lia SpecFloat.
From stdpp Require Import base list strings numbers.
From S2P Require Import Prelude GoPrim GoFloat.

Local Open Scope Z_scope.

(** [math.Exp]: assembly on amd64, so its last bit depends on the platform. *)
Class MathExp := math_Exp : float64 → float64.

Record EWMA : Type := mkEWMA {
  EWMA_uncounted : Z;
  EWMA_alpha : float64;
  EWMA_rate : float64;
  EWMA_init : bool
}.

#[export] Instance EWMA_eq_dec : EqDecision EWMA.
Proof. solve_decision. Defined.

(** [func NewEWMA(alpha) EWMA], with [UseNilMetrics] at its default. *)
Definition NewEWMA (alpha : float64) : EWMA := mkEWMA 0 alpha f64_zero false.

(** [1 - math.Exp(-5.0/60.0/1)] *)
Definition NewEWMA1 `{MathExp} : EWMA :=
  NewEWMA (f64_sub (f64_of_Z 1) (math_Exp (f64_div (f64_of_Z (-1)) (f64_of_Z 12)))).

(** [func (a *StandardEWMA) Rate() float64] *)
Definition EWMA_Rate (a : EWMA) : float64 := f64_mul (EWMA_rate a) (f64_of_Z 1000000000).

(** [func (a *StandardEWMA) Update(n int64)] *)
Definition EWMA_Update (n : Z) (a : EWMA) : EWMA :=
  mkEWMA (to_int64 (EWMA_uncounted a + n)) (EWMA_alpha a) (EWMA_rate a) (EWMA_init a).

(** [func (a *StandardEWMA) Tick()] *)
Definition EWMA_Tick (a : EWMA) : EWMA :=
  let count := EWMA_uncounted a in
  let uncounted := to_int64 (EWMA_uncounted a + to_int64 (- count)) in
  let instantRate := f64_div (f64_of_Z count) (f64_of_Z 5000000000) in
  if EWMA_init a then
    mkEWMA uncounted (EWMA_alpha a)
      (f64_add (EWMA_rate a) (f64_mul (EWMA_alpha a) (f64_sub instantRate (EWMA_rate a)))) true
  else mkEWMA uncounted (EWMA_alpha a) instantRate true.

(** [n] calls of [Update(1)]. *)
Definition EWMA_marks (n : nat) (a : EWMA) : EWMA := Nat.iter n (EWMA_Update 1) a.

Lemma EWMA_marks_eq n a :
  0 ≤ EWMA_uncounted a → EWMA_uncounted a + Z.of_nat n < 2 ^ 63 →
  EWMA_marks n a =
  mkEWMA (EWMA_uncounted a + Z.of_nat n) (EWMA_alpha a) (EWMA_rate a) (EWMA_init a).
Proof.
  intros H0. unfold EWMA_marks. induction n as [|n IH]; intros Hn.
  - destruct a. simpl. by rewrite Z.add_0_r.
  - change (Nat.iter (S n) (EWMA_Update 1) a) with (EWMA_Update 1 (Nat.iter n (EWMA_Update 1) a)).
    rewrite IH by lia. unfold EWMA_Update.
    cbn [EWMA_uncounted EWMA_alpha EWMA_rate EWMA_init]. f_equal.
    unfold to_int64. rewrite wrap_s_id; [lia|lia|]. apply in_s_spec. simpl. lia.
Qed.

(** A tick takes every counted event into the average, and none twice. *)
Lemma EWMA_Tick_uncounted a :
  in_s 64 (EWMA_uncounted a) = true → - 2 ^ 63 < EWMA_uncounted a →
  EWMA_uncounted (EWMA_Tick a) = 0.
Proof.
  intros Hr Hlo. apply in_s_spec in Hr. simpl in Hr.
  assert (to_int64 (EWMA_uncounted a + to_int64 (- EWMA_uncounted a)) = 0) as H0.
  { unfold to_int64. rewrite (wrap_s_id 64 (- _)); [|lia|apply in_s_spec; simpl; lia].
    rewrite Z.add_opp_diag_r. by rewrite wrap_s_id. }
  unfold EWMA_Tick. by destruct (EWMA_init a).
Qed.

(** *** What a limit of ten means

    The average starts from the first five seconds: [n] events in them exceed
    the rate 10 exactly when [n > 50]. *)
Definition first_rate_exceeds_10 (n : Z) : bool :=
  f64_ltb (f64_of_Z 10)
    (EWMA_Rate (EWMA_Tick (mkEWMA n f64_zero f64_zero false))).

Lemma first_rate_exceeds_10_check n :
  0 ≤ n < 2000 → first_rate_exceeds_10 n = (50 <? n).
Proof.
  intros Hn.
  assert (Bool.eqb (first_rate_exceeds_10 n) (50 <? n) = true) as H.
  { revert n Hn.
    apply (zrange_check_spec (λ n, Bool.eqb (first_rate_exceeds_10 n) (50 <? n)) 2000 0).
    vm_compute. reflexivity. }
  by apply Bool.eqb_prop in H.
Qed.

Lemma EWMA_first_tick alpha n :
  EWMA_Rate (EWMA_Tick (mkEWMA n alpha f64_zero false))
  = EWMA_Rate (EWMA_Tick (mkEWMA n f64_zero f64_zero false)).
Proof. done. Qed.

(** A meter that has not ticked yet reads zero. *)
Lemma EWMA_Rate_zero a : EWMA_rate a = f64_zero → EWMA_Rate a = f64_zero.
Proof. intros H. unfold EWMA_Rate. by rewrite H. Qed.
