(* ===== verification/GoDuration.v ===== *)
(** * Durations

    [time.Time.Sub], [time.Duration.Seconds] and the question the network
    backend asks of them: are two instants more than a minute apart? *)

From Stdlib Require Import String Ascii NArith ZArith Lia SpecFloat.
From stdpp Require Import base list strings numbers.
From S2P Require Import Prelude GoPrim GoFloat GoFloatText GoFloatRound Lorawan.

Local Open Scope Z_scope.

Definition Second : Z := 1000000000.

(** [t.Sub(u)]: the difference in nanoseconds, saturated at the ends of [int64]. *)
Definition Time_Sub (t u : Time) : Z :=
  let d := t - u in
  if in_s 64 d then d else if t <? u then - 2 ^ 63 else 2 ^ 63 - 1.

(** The constant [1e-9]. *)
Definition nano : float64 := f64_div (f64_of_Z 1) (f64_of_Z 1000000000).

(** [d.Seconds()] *)
Definition Duration_Seconds (d : Z) : float64 :=
  let sec := Z.quot d Second in
  let nsec := Z.rem d Second in
  f64_add (f64_of_Z sec) (f64_mul (f64_of_Z nsec) nano).

(** [math.Abs(t.Sub(u).Seconds()) > 60] *)
Definition minute_apart (t u : Time) : bool :=
  f64_ltb (f64_of_Z 60) (f64_abs (Duration_Seconds (Time_Sub t u))).

(** ** Comparing with sixty *)

Definition sixty : float64 := S754_finite false (Z.to_pos (60 * 2 ^ 47)) (-47).

Lemma sixty_eq : f64_of_Z 60 = sixty.
Proof. vm_compute. reflexivity. Qed.

(** The comparison with a normal number, by its exponent and mantissa. *)
Lemma sixty_ltb m e :
  f64_ltb sixty (S754_finite false m e)
  = (-47 <? e) || ((e =? -47) && (60 * 2 ^ 47 <? Zpos m)).
Proof.
  unfold f64_ltb, SFltb, SFcompare, sixty.
  destruct (Z.compare_spec (-47) e) as [<-|Hlt|Hgt].
  - change (Pos.compare_cont Eq (Z.to_pos (60 * 2 ^ 47)) m) with (60 * 2 ^ 47 ?= Zpos m).
    rewrite Z.ltb_irrefl, Z.eqb_refl. cbn [orb andb]. unfold Z.ltb. by destruct (_ ?= _).
  - by rewrite (proj2 (Z.ltb_lt (-47) e)) by lia.
  - rewrite (proj2 (Z.ltb_ge (-47) e)) by lia. by rewrite (proj2 (Z.eqb_neq e (-47))) by lia.
Qed.

Lemma sixty_ltb_of_Z s : 0 < s → s < 2 ^ 53 → f64_ltb sixty (f64_of_Z s) = (60 <? s).
Proof.
  intros Hs Hb. rewrite f64_of_Z_norm, sixty_ltb by done.
  pose proof (Z.log2_spec s Hs) as [Hl Hh].
  assert (Z.log2 s < 53) by (apply Z.log2_lt_pow2; lia). pose proof (Z.log2_nonneg s).
  pose proof (Z.pow_pos_nonneg 2 (52 - Z.log2 s) ltac:(lia) ltac:(lia)).
  rewrite Z2Pos.id by nia.
  destruct (Z.lt_trichotomy (Z.log2 s) 5) as [H5|[H5|H5]].
  - rewrite (proj2 (Z.ltb_ge (-47) _)), (proj2 (Z.eqb_neq _ (-47))) by lia.
    assert (2 ^ Z.succ (Z.log2 s) ≤ 2 ^ 5) by (apply Z.pow_le_mono_r; lia).
    rewrite (proj2 (Z.ltb_ge 60 s)); [done|]. change (2 ^ 5) with 32 in *. lia.
  - rewrite H5. change (- (52 - 5)) with (-47). change (2 ^ (52 - 5)) with (2 ^ 47).
    cbn [Z.ltb Z.eqb Z.compare orb andb]. destruct (Z.ltb_spec 60 s).
    + apply Z.ltb_lt. nia.
    + apply Z.ltb_ge. nia.
  - rewrite (proj2 (Z.ltb_lt (-47) _)) by lia.
    assert (2 ^ 6 ≤ 2 ^ Z.log2 s) by (apply Z.pow_le_mono_r; lia).
    rewrite (proj2 (Z.ltb_lt 60 s)); [done|]. change (2 ^ 6) with 64 in *. lia.
Qed.

(** Rounding a number of at least 53 bits: its leading bits, to nearest even. *)
Definition lead (P : Z) : Z := Z.log2 P - 52.

Lemma binary_round_lead P e :
  -1000 ≤ e → 0 ≤ lead (Zpos P) →
  binary_round 53 1024 false P e
  = finish false (round_even_ratio (Zpos P) (2 ^ lead (Zpos P))) (lead (Zpos P) + e).
Proof.
  unfold lead. intros He Hn.
  assert (fexp64 (Zdigits2 (Zpos P) + e) = Z.log2 (Zpos P) - 52 + e) as Hfexp
    by (rewrite fexp64_eq, Zdigits2_log2 by lia; lia).
  pose proof (binary_round_aux_spec false (Zpos P) 1 e) as Hs. cbv zeta in Hs.
  rewrite Z.div_1_r, loc_of_1, Hfexp, Z.mul_1_l in Hs.
  unfold binary_round. change (Zpos (digits2_pos P)) with (Zdigits2 (Zpos P)).
  rewrite Hfexp. unfold shl_align.
  assert (binary_round_aux 53 1024 false (Zpos P) e loc_Exact
    = finish false (round_even_ratio (Zpos P) (2 ^ (Z.log2 (Zpos P) - 52))) (Z.log2 (Zpos P) - 52 + e))
    as Hr by (rewrite Hs by lia; do 3 f_equal; lia).
  destruct (Z.log2 (Zpos P) - 52 + e - e) as [|q|q] eqn:Eq; [done|done|lia].
Qed.

Lemma lead_bounds P : 0 < P → 0 ≤ lead P →
  2 ^ 52 * 2 ^ lead P ≤ P < 2 ^ 53 * 2 ^ lead P ∧ 2 ^ 52 ≤ P / 2 ^ lead P < 2 ^ 53 ∧ 0 < 2 ^ lead P.
Proof.
  intros HP Hn. pose proof (Z.log2_spec P HP) as [Hl Hh].
  pose proof (Z.pow_pos_nonneg 2 (lead P) ltac:(lia) Hn) as Hpow.
  assert (2 ^ Z.log2 P = 2 ^ 52 * 2 ^ lead P) as Hlp
    by (rewrite <- Z.pow_add_r by lia; f_equal; unfold lead; lia).
  assert (2 ^ Z.succ (Z.log2 P) = 2 ^ 53 * 2 ^ lead P) as Hhp
    by (rewrite <- Z.pow_add_r by lia; f_equal; unfold lead; lia).
  split_and!; try lia; [apply Z.div_le_lower_bound|apply Z.div_lt_upper_bound]; lia.
Qed.

(** The mantissa of the rounded number against that of sixty. *)
Lemma round_even_ratio_sixty P D :
  0 < D → 0 ≤ P → (P ≤ 60 * 2 ^ 47 * D ∨ 60 * 2 ^ 47 * D + D ≤ P) →
  (60 * 2 ^ 47 <? round_even_ratio P D) = (60 * 2 ^ 47 * D <? P).
Proof.
  intros HD HP Hgap. pose proof (round_even_ratio_bounds P D HP HD) as Hr.
  destruct (Z.ltb_spec (60 * 2 ^ 47 * D) P) as [Hlt|Hge].
  - assert (60 * 2 ^ 47 + 1 ≤ P / D) by (apply Z.div_le_lower_bound; lia).
    apply Z.ltb_lt. lia.
  - apply Z.ltb_ge. destruct (Z.eq_dec P (60 * 2 ^ 47 * D)) as [->|Hne].
    + unfold round_even_ratio. rewrite Z.mod_mul, Z.div_mul by lia.
      by rewrite (proj2 (Z.compare_lt_iff (2 * 0) _)) by lia.
    + assert (P / D < 60 * 2 ^ 47) by (apply Z.div_lt_upper_bound; lia). lia.
Qed.

Lemma sixty_ltb_finish m e :
  2 ^ 52 ≤ m ≤ 2 ^ 53 → e < 900 →
  f64_ltb sixty (finish false m e) = (-47 <? e) || ((e =? -47) && (60 * 2 ^ 47 <? m)).
Proof.
  intros Hm He. unfold finish. rewrite (proj2 (Z.eqb_neq m 0)) by lia.
  destruct (Z.eqb_spec m (2 ^ 53)) as [->|Hne]; cbn iota beta;
    rewrite (proj2 (Z.leb_le _ 971)), sixty_ltb, Z2Pos.id by lia; [|done].
  change (60 * 2 ^ 47 <? 2 ^ 52) with false. change (60 * 2 ^ 47 <? 2 ^ 53) with true.
  rewrite andb_false_r, andb_true_r, orb_false_r.
  destruct (Z.ltb_spec (-47) (e + 1)), (Z.ltb_spec (-47) e), (Z.eqb_spec e (-47)); done || lia.
Qed.

(** The comparison with a rounded sum [P * 2^e] that does not fall between
    sixty and its successor. *)
Lemma sixty_ltb_round P e :
  -100 ≤ e ≤ -52 → 2 ^ (- e) ≤ Zpos P < 2 ^ (53 - e) →
  (Zpos P ≤ 60 * 2 ^ (- e) ∨ 60 * 2 ^ (- e) + 2 ^ (- e - 47) ≤ Zpos P) →
  f64_ltb sixty (binary_round 53 1024 false P e) = (60 * 2 ^ (- e) <? Zpos P).
Proof.
  intros He HP Hgap.
  assert (- e ≤ Z.log2 (Zpos P)) as Hlog by (apply Z.log2_le_pow2; lia).
  assert (Z.log2 (Zpos P) < 53 - e) as Hlog' by (apply Z.log2_lt_pow2; lia).
  assert (0 ≤ lead (Zpos P)) as Hn by (unfold lead; lia).
  destruct (lead_bounds (Zpos P) ltac:(lia) Hn) as (Hr & Hq & Hpow).
  rewrite binary_round_lead by lia.
  pose proof (round_even_ratio_bounds (Zpos P) (2 ^ lead (Zpos P)) ltac:(lia) Hpow) as Hb.
  rewrite sixty_ltb_finish by (unfold lead in *; lia). set (n := lead (Zpos P)) in *.
  pose proof (Z.pow_pos_nonneg 2 (- e) ltac:(lia) ltac:(lia)) as Hpe.
  destruct (Z.lt_trichotomy n (-47 - e)) as [Hc|[Hc|Hc]].
  - assert (2 ^ 53 * 2 ^ n ≤ 2 ^ 5 * 2 ^ (- e)) as Hsmall
      by (rewrite <- !Z.pow_add_r by lia; apply Z.pow_le_mono_r; lia).
    rewrite (proj2 (Z.ltb_ge (-47) _)), (proj2 (Z.eqb_neq _ (-47))) by lia.
    symmetry. apply Z.ltb_ge. lia.
  - assert (60 * 2 ^ (- e) = 60 * 2 ^ 47 * 2 ^ n) as H60
      by (rewrite <- Z.mul_assoc, <- Z.pow_add_r by lia; do 2 f_equal; lia).
    assert (2 ^ (- e - 47) = 2 ^ n) as Hulp by (f_equal; lia). rewrite H60, Hulp in *.
    rewrite (proj2 (Z.ltb_ge (-47) _)), (proj2 (Z.eqb_eq _ (-47))) by lia.
    apply round_even_ratio_sixty; lia.
  - assert (2 ^ 6 * 2 ^ (- e) ≤ 2 ^ 52 * 2 ^ n) as Hsmall
      by (rewrite <- !Z.pow_add_r by lia; apply Z.pow_le_mono_r; lia).
    rewrite (proj2 (Z.ltb_lt (-47) _)) by lia.
    symmetry. apply Z.ltb_lt. lia.
Qed.

(** ** The fraction of a second *)

Lemma nano_eq : nano = S754_finite false 4835703278458517 (-82).
Proof. vm_compute. reflexivity. Qed.

(** The nanoseconds of a fraction of a second make a number of at most one, and
    not too small. *)
Lemma f64_mul_nano n :
  0 < n < 1000000000 →
  ∃ m e, f64_mul (f64_of_Z n) nano = S754_finite false m e ∧ -82 ≤ e ≤ -52 ∧
         2 ^ 52 ≤ Zpos m ≤ 2 ^ (- e).
Proof.
  intros Hn. pose proof (Z.log2_nonneg n) as Hln.
  assert (Z.log2 n < 30) as Hlog by (apply Z.log2_lt_pow2; lia).
  rewrite f64_of_Z_norm, nano_eq by lia. set (k := 52 - Z.log2 n) in *.
  pose proof (Z.pow_pos_nonneg 2 k ltac:(lia) ltac:(lia)) as Hpk.
  unfold f64_mul. cbn [SFmul xorb].
  set (N := n * 2 ^ k * 4835703278458517).
  assert (Zpos (Z.to_pos (n * 2 ^ k) * 4835703278458517) = N) as ->
    by (rewrite Pos2Z.inj_mul, Z2Pos.id by nia; done).
  pose proof (Z.log2_spec n ltac:(lia)) as [Hl _].
  assert (2 ^ 52 ≤ n * 2 ^ k) as Hm1.
  { replace 52 with (Z.log2 n + k) by lia. rewrite Z.pow_add_r by lia. nia. }
  assert (2 ^ 104 ≤ N) as HN1 by (subst N; lia).
  assert (N < 2 ^ (82 + k)) as HN2 by (rewrite Z.pow_add_r by lia; subst N; nia).
  assert (104 ≤ Z.log2 N) as HL1 by (apply Z.log2_le_pow2; lia).
  assert (Z.log2 N < 82 + k) as HL2 by (apply Z.log2_lt_pow2; lia).
  pose proof (binary_round_aux_spec false N 1 (- k + -82)) as Hs. cbv zeta in Hs.
  rewrite Z.div_1_r, loc_of_1, Z.mul_1_l in Hs.
  assert (fexp64 (Zdigits2 N + (- k + -82)) = lead N + (- k + -82)) as Hfexp
    by (unfold lead; rewrite fexp64_eq, Zdigits2_log2 by lia; lia).
  rewrite Hfexp in Hs. rewrite Hs by (unfold lead; lia).
  replace (lead N + (- k + -82) - (- k + -82)) with (lead N) by lia.
  destruct (lead_bounds N ltac:(lia) ltac:(unfold lead; lia)) as (_ & Hq & Hpow).
  pose proof (round_even_ratio_bounds N (2 ^ lead N) ltac:(lia) Hpow) as Hb.
  unfold lead in *. unfold finish. rewrite (proj2 (Z.eqb_neq _ 0)) by lia.
  set (m := round_even_ratio N (2 ^ (Z.log2 N - 52))) in *.
  set (e := Z.log2 N - 52 + (- k + -82)).
  assert (2 ^ 53 ≤ 2 ^ (- e)) by (apply Z.pow_le_mono_r; lia).
  destruct (Z.eqb_spec m (2 ^ 53)) as [->|Hne]; cbn iota beta;
    rewrite (proj2 (Z.leb_le _ 971)) by lia;
    (do 2 eexists; split; [reflexivity|]; rewrite Z2Pos.id by lia; split; [lia|]; split; [lia|]).
  - apply Z.pow_le_mono_r; lia.
  - lia.
Qed.

(** ** The sum *)

Lemma abs_binary_round sx p e :
  f64_abs (binary_round 53 1024 sx p e) = binary_round 53 1024 false p e.
Proof.
  rewrite binary_round_sign. unfold f64_abs.
  assert (∀ f, SFabs (set_sign sx f) = SFabs f) as -> by (by intros []).
  unfold binary_round. destruct (shl_align _ _ _) as [m e']. unfold binary_round_aux.
  destruct (shr_fexp _ _ _ _ _) as [mrs e1]. destruct (shr_fexp _ _ _ _ loc_Exact) as [mrs' e2].
  destruct (shr_m mrs') as [|q|q]; try done. by destruct (e2 <=? _).
Qed.

Lemma shl_align_down m e n : n ≤ e → shl_align m e n = (Z.to_pos (Zpos m * 2 ^ (e - n)), n).
Proof.
  intros H. unfold shl_align. destruct (n - e) as [|d|d] eqn:E; [|lia|].
  - replace e with n by lia. rewrite Z.sub_diag, Z.mul_1_r. done.
  - f_equal. change (Pos.iter xO m d) with (Zpower.shift_pos d m).
    apply Pos2Z.inj. rewrite Zpower.shift_pos_correct, Z.mul_comm.
    replace (e - n) with (Zpos d) by lia.
    rewrite Z2Pos.id; [done|]. pose proof (Z.pow_pos_nonneg 2 (Zpos d)). nia.
Qed.

Lemma abs_add_same_sign sx s m e :
  0 < s → s < 2 ^ 53 → e ≤ -52 →
  f64_abs (f64_add (set_sign sx (f64_of_Z s)) (S754_finite sx m e))
  = binary_round 53 1024 false (Z.to_pos (s * 2 ^ (- e) + Zpos m)) e.
Proof.
  intros Hs Hb He. rewrite f64_of_Z_norm by done.
  assert (Z.log2 s < 53) as Hl by (apply Z.log2_lt_pow2; lia). pose proof (Z.log2_nonneg s).
  set (k := 52 - Z.log2 s). pose proof (Z.pow_pos_nonneg 2 k ltac:(lia) ltac:(lia)).
  unfold f64_add. cbn [set_sign SFadd]. rewrite Z.min_r by lia.
  rewrite !shl_align_down, Z.sub_diag, Z.mul_1_r by lia. cbn [fst].
  rewrite (Z2Pos.id (s * 2 ^ k)) by nia.
  rewrite <- Z.mul_assoc, <- Z.pow_add_r by lia.
  replace (k + (- k - e)) with (- e) by lia.
  pose proof (Z.pow_pos_nonneg 2 (- e) ltac:(lia) ltac:(lia)).
  rewrite !Z2Pos.id by nia.
  set (P := Z.to_pos (s * 2 ^ (- e) + Zpos m)).
  assert (cond_Zopp sx (s * 2 ^ (- e)) + cond_Zopp sx (Zpos m) = cond_Zopp sx (Zpos P)) as ->
    by (subst P; rewrite Z2Pos.id by nia; destruct sx; simpl; lia).
  destruct sx; cbn [cond_Zopp binary_normalize Z.opp]; apply abs_binary_round.
Qed.

(** Whole seconds [s] and [n] nanoseconds, of the same sign. *)
Lemma sixty_ltb_seconds sx s n :
  0 ≤ s < 2 ^ 34 → 0 ≤ n < 1000000000 →
  f64_ltb sixty (f64_abs (f64_add (f64_of_Z (cond_Zopp sx s))
    (f64_mul (f64_of_Z (cond_Zopp sx n)) nano)))
  = (60 * 1000000000 <? s * 1000000000 + n).
Proof.
  intros Hs Hn.
  assert (∀ z, 0 < z → f64_of_Z (cond_Zopp sx z) = set_sign sx (f64_of_Z z)) as Hsign.
  { intros z Hz. destruct sx; cbn [cond_Zopp]; [by apply f64_of_Z_opp|].
    by destruct z; try lia; unfold f64_of_Z; cbn [binary_normalize]; rewrite <- binary_round_sign. }
  destruct (Z.eq_dec n 0) as [->|Hn0].
  - assert (f64_mul (f64_of_Z (cond_Zopp sx 0)) nano = f64_zero) as -> by (by destruct sx).
    destruct (Z.eq_dec s 0) as [->|Hs0]; [by destruct sx|].
    rewrite Hsign, f64_of_Z_norm by lia. unfold f64_add, f64_zero. cbn [set_sign SFadd f64_abs SFabs].
    unfold f64_abs. cbn [SFabs]. rewrite <- f64_of_Z_norm, sixty_ltb_of_Z by lia.
    destruct (Z.ltb_spec 60 s), (Z.ltb_spec (60 * 1000000000) (s * 1000000000 + 0)); done || lia.
  - destruct (f64_mul_nano n ltac:(lia)) as (m & e & Hm & He & Hmr).
    rewrite (Hsign n) by lia.
    assert (f64_mul (set_sign sx (f64_of_Z n)) nano = S754_finite sx m e) as ->.
    { revert Hm. rewrite f64_of_Z_norm, nano_eq by lia. unfold f64_mul.
      cbn [set_sign SFmul xorb]. rewrite xorb_false_r. intros Hm.
      change (S754_finite sx m e) with (set_sign sx (S754_finite false m e)). rewrite <- Hm.
      unfold binary_round_aux. destruct (shr_fexp _ _ _ _ _) as [mrs e1].
      destruct (shr_fexp _ _ _ _ loc_Exact) as [mrs' e2].
      destruct (shr_m mrs') as [|q|q]; try done. by destruct (e2 <=? _). }
    pose proof (Z.pow_pos_nonneg 2 (- e) ltac:(lia) ltac:(lia)) as Hpe.
    destruct (Z.eq_dec s 0) as [->|Hs0].
    { assert (f64_add (f64_of_Z (cond_Zopp sx 0)) (S754_finite sx m e) = S754_finite sx m e) as ->
        by (by destruct sx).
      unfold f64_abs. cbn [SFabs]. rewrite sixty_ltb.
      rewrite (proj2 (Z.ltb_ge (-47) e)), (proj2 (Z.eqb_neq e (-47))) by lia.
      symmetry. apply Z.ltb_ge. lia. }
    rewrite (Hsign s), abs_add_same_sign by lia.
    assert (2 ^ (- e - 47) ≤ 2 ^ 52) as Hulp by (apply Z.pow_le_mono_r; lia).
    assert (2 ^ 34 * 2 ^ (- e) ≤ 2 ^ (53 - e) - 2 ^ (- e)) as Hbig.
    { replace (53 - e) with (53 + - e) by lia. rewrite (Z.pow_add_r 2 53) by lia. lia. }
    assert (Zpos (Z.to_pos (s * 2 ^ (- e) + Zpos m)) = s * 2 ^ (- e) + Zpos m) as HP
      by (apply Z2Pos.id; nia).
    rewrite sixty_ltb_round; rewrite ?HP; [|lia| |].
    + destruct (Z.ltb_spec (60 * 1000000000) (s * 1000000000 + n)).
      * apply Z.ltb_lt. assert (60 ≤ s) by lia. nia.
      * apply Z.ltb_ge. assert (s ≤ 59) by lia. nia.
    + split; [nia|]. assert (s * 2 ^ (- e) + 2 ^ (- e) ≤ 2 ^ 34 * 2 ^ (- e)) by nia. lia.
    + destruct (Z.le_gt_cases s 59); [left; nia|right; nia].
Qed.

(** Sixty seconds as the backend computes them are sixty seconds, although the
    computation is in floating point and the difference may saturate. *)
Lemma minute_apart_spec t u : minute_apart t u = (60 * Second <? Z.abs (t - u)).
Proof.
  unfold minute_apart, Duration_Seconds. rewrite sixty_eq.
  set (d := Time_Sub t u).
  assert (in_s 64 d = true ∧ (60 * Second <? Z.abs (t - u)) = (60 * Second <? Z.abs d)) as [Hd ->].
  { subst d. unfold Time_Sub. destruct (in_s 64 (t - u)) eqn:E; [done|].
    assert (¬ (- 2 ^ 63 ≤ t - u < 2 ^ 63)) as Hout.
    { intros Hin. rewrite (proj2 (in_s_spec 64 (t - u))) in E; [done|]. simpl in *. lia. }
    unfold Second. destruct (Z.ltb_spec t u); (split; [done|]);
      rewrite (proj2 (Z.ltb_lt _ _)), (proj2 (Z.ltb_lt _ _)); simpl in *; done || lia. }
  apply in_s_spec in Hd. simpl in Hd. unfold Second in *.
  destruct (Z.le_gt_cases 0 d) as [Hpos|Hneg].
  - rewrite Z.quot_div_nonneg, Z.rem_mod_nonneg by lia.
    pose proof (Z.div_mod d 1000000000 ltac:(lia)). pose proof (Z.mod_pos_bound d 1000000000 ltac:(lia)).
    pose proof (sixty_ltb_seconds false (d / 1000000000) (d mod 1000000000)) as Hq.
    cbn [cond_Zopp] in Hq. rewrite Hq by lia. f_equal. lia.
  - replace d with (- (- d)) by lia. set (a := - d) in *.
    rewrite Z.quot_opp_l, Z.rem_opp_l, Z.quot_div_nonneg, Z.rem_mod_nonneg by lia.
    pose proof (Z.div_mod a 1000000000 ltac:(lia)). pose proof (Z.mod_pos_bound a 1000000000 ltac:(lia)).
    pose proof (sixty_ltb_seconds true (a / 1000000000) (a mod 1000000000)) as Hq.
    cbn [cond_Zopp] in Hq. rewrite Hq by lia. f_equal. lia.
Qed.
