(* ===== verification/TtnTypes.v ===== *)
(** * Data of The Things Network

    The messages of the router API (vendored protocol buffers), the account
    server's view of a gateway, the data-rate text of the network, and the
    buffered channels under the router streams. *)

From Stdlib Require Import String Ascii NArith ZArith Lia SpecFloat.
From stdpp Require Import base gmap list strings numbers.
From S2P Require Import Prelude GoPrim GoStrconv GoFloat GoNumText Lorawan Convert.

Local Open Scope string_scope.
Local Open Scope list_scope.
Local Open Scope Z_scope.

(** ** The account server *)

(** [account.Location] *)
Record Location : Type := mkLocation {
  Location_Longitude : float64;
  Location_Latitude : float64
}.

(** [account.GatewayAttributes]: the attributes the bridge reads. *)
Record GatewayAttributes : Type := mkGatewayAttributes {
  Attr_Brand : option string;
  Attr_Model : option string;
  Attr_Description : option string
}.

(** [account.Gateway]: the fields the bridge reads; the token is its access
    token. *)
Record account_Gateway : Type := mkAccountGateway {
  Gateway_Token : option string;
  Gateway_Location : option Location;
  Gateway_Altitude : float64;
  Gateway_Attributes : GatewayAttributes
}.

Definition account_Gateway_zero : account_Gateway :=
  mkAccountGateway None None f64_zero (mkGatewayAttributes None None None).

(** [auth.Strategy] *)
Inductive Strategy : Type :=
| AuthPublic
| AuthBasic (username password : string)
| AuthAccessToken (token : string)
| AuthAccessKey (key : string).

(** [account.Account]: its server and its current strategy. *)
Record Account : Type := mkAccount {
  Account_server : string;
  Account_auth : Strategy
}.

(** [func New(server) *Account] *)
Definition account_New (server : string) : Account := mkAccount server AuthPublic.

(** [func (a *Account) WithAuth(strategy) *Account]: the receiver is changed in
    place and returned. *)
Definition WithAuth (strategy : Strategy) (a : Account) : Account :=
  mkAccount (Account_server a) strategy.

#[export] Instance Strategy_eq_dec : EqDecision Strategy.
Proof. solve_decision. Defined.
#[export] Instance Account_eq_dec : EqDecision Account.
Proof. solve_decision. Defined.
#[export] Instance Location_eq_dec : EqDecision Location.
Proof. solve_decision. Defined.
#[export] Instance GatewayAttributes_eq_dec : EqDecision GatewayAttributes.
Proof. solve_decision. Defined.
#[export] Instance account_Gateway_eq_dec : EqDecision account_Gateway.
Proof. solve_decision. Defined.

(** ** Messages *)

(** [pb_gateway.GPSMetadata] *)
Record GPSMetadata : Type := mkGPSMetadata {
  GPS_Time : Z;
  GPS_Latitude : float32;
  GPS_Longitude : float32;
  GPS_Altitude : Z
}.

(** [pb_gateway.Status], without the metrics of the operating system, which
    are never set. *)
Record Status : Type := mkStatus {
  Status_Timestamp : Z;
  Status_Time : Z;
  Status_Ip : list string;
  Status_Platform : string;
  Status_ContactEmail : string;
  Status_Description : string;
  Status_Region : string;
  Status_Bridge : string;
  Status_Router : string;
  Status_Gps : option GPSMetadata;
  Status_Rtt : Z;
  Status_RxIn : Z;
  Status_RxOk : Z;
  Status_TxIn : Z;
  Status_TxOk : Z
}.

Definition Status_zero : Status := mkStatus 0 0 [] "" "" "" "" "" "" None 0 0 0 0 0.

(** [pb_lorawan.Modulation]: a protocol buffer enumeration is open, any 32-bit
    integer can arrive. *)
Definition Modulation_LORA : Z := 0.
Definition Modulation_FSK : Z := 1.

(** [pb_lorawan.Metadata] and [pb_lorawan.TxConfiguration] *)
Record LorawanMetadata : Type := mkLorawanMetadata {
  Lorawan_Modulation : Z;
  Lorawan_DataRate : string;
  Lorawan_BitRate : Z;
  Lorawan_CodingRate : string
}.

(** [pb_gateway.RxMetadata] *)
Record RxMetadata : Type := mkRxMetadata {
  Rx_GatewayId : string;
  Rx_Timestamp : Z;
  Rx_Time : Z;
  Rx_RfChain : Z;
  Rx_Channel : Z;
  Rx_Frequency : Z;
  Rx_Rssi : float32;
  Rx_Snr : float32
}.

(** [pb_router.UplinkMessage] *)
Record UplinkMessage : Type := mkUplinkMessage {
  Uplink_Payload : bytes;
  Uplink_ProtocolMetadata : LorawanMetadata;
  Uplink_GatewayMetadata : RxMetadata
}.

(** [pb_gateway.TxConfiguration] *)
Record TxConfiguration : Type := mkTxConfiguration {
  Tx_Timestamp : Z;
  Tx_RfChain : Z;
  Tx_Frequency : Z;
  Tx_Power : Z;
  Tx_PolarizationInversion : bool;
  Tx_FrequencyDeviation : Z
}.

(** [pb_router.DownlinkMessage].  The protocol configuration is what
    [GetLorawan] returns: nil when it is missing or not LoRaWAN. *)
Record DownlinkMessage : Type := mkDownlinkMessage {
  Downlink_Payload : bytes;
  Downlink_Lorawan : option LorawanMetadata;
  Downlink_GatewayConfiguration : option TxConfiguration
}.

#[export] Instance GPSMetadata_eq_dec : EqDecision GPSMetadata.
Proof. solve_decision. Defined.
#[export] Instance Status_eq_dec : EqDecision Status.
Proof. solve_decision. Defined.
#[export] Instance LorawanMetadata_eq_dec : EqDecision LorawanMetadata.
Proof. solve_decision. Defined.
#[export] Instance RxMetadata_eq_dec : EqDecision RxMetadata.
Proof. solve_decision. Defined.
#[export] Instance UplinkMessage_eq_dec : EqDecision UplinkMessage.
Proof. solve_decision. Defined.
#[export] Instance TxConfiguration_eq_dec : EqDecision TxConfiguration.
Proof. solve_decision. Defined.
#[export] Instance DownlinkMessage_eq_dec : EqDecision DownlinkMessage.
Proof. solve_decision. Defined.

(** ** [types.ParseDataRate] *)

Fixpoint strip_prefix (p s : bytes) : option bytes :=
  match p, s with
  | [], _ => Some s
  | a :: p, b :: s => if bool_decide (a = b) then strip_prefix p s else None
  | _ :: _, [] => None
  end.

(** The first alternative of a group that is followed by a match of the rest. *)
Fixpoint first_alt {A} (alts : list Z) (s : bytes) (rest : bytes → option A) : option (Z * A) :=
  match alts with
  | [] => None
  | v :: alts =>
      match strip_prefix (FormatUint v) s with
      | Some t => match rest t with Some r => Some (v, r) | None => first_alt alts s rest end
      | None => first_alt alts s rest
      end
  end.

Definition spreading_factors : list Z := [7; 8; 9; 10; 11; 12].
Definition bandwidths : list Z := [125; 250; 500].

(** [SF(7|8|9|10|11|12)BW(125|250|500)], matched at the head of the text. *)
Definition match_bandwidth (s : bytes) : option Z :=
  match strip_prefix (to_bytes "BW") s with
  | Some s => fst <$> first_alt bandwidths s (λ _, Some tt)
  | None => None
  end.

Definition match_ttn_rate (s : bytes) : option (Z * Z) :=
  match strip_prefix (to_bytes "SF") s with
  | Some s => first_alt spreading_factors s match_bandwidth
  | None => None
  end.

Fixpoint find_ttn_rate (s : bytes) : option (Z * Z) :=
  match match_ttn_rate s with
  | Some m => Some m
  | None => match s with [] => None | _ :: t => find_ttn_rate t end
  end.

(** [func ParseDataRate(input) (datr *DataRate, err error)]: nil comes with the
    error. *)
Definition ParseDataRate (input : string) : option (Z * Z) := find_ttn_rate (to_bytes input).

Definition ttn_rate_ok (sf bw : Z) : Prop := sf ∈ spreading_factors ∧ bw ∈ bandwidths.

Lemma ParseDataRate_sprintf sf bw :
  ttn_rate_ok sf bw → ParseDataRate (sprintf_data_rate sf bw) = Some (sf, bw).
Proof.
  intros [Hs Hb]. unfold spreading_factors, bandwidths in *.
  repeat (apply elem_of_cons in Hs as [->|Hs]);
    try (by apply not_elem_of_nil in Hs);
    repeat (apply elem_of_cons in Hb as [->|Hb]);
    try (by apply not_elem_of_nil in Hb); vm_compute; reflexivity.
Qed.

Lemma first_alt_elem {A} alts s (rest : bytes → option A) v r :
  first_alt alts s rest = Some (v, r) → v ∈ alts ∧ ∃ t, rest t = Some r.
Proof.
  induction alts as [|a alts IH]; simpl; [done|].
  intros H. repeat case_match; simplify_eq; try (destruct (IH H) as [??]; split; [by right|done]).
  split; [by left|eauto].
Qed.

(** What is parsed is a rate the network knows. *)
Lemma ParseDataRate_sound input sf bw : ParseDataRate input = Some (sf, bw) → ttn_rate_ok sf bw.
Proof.
  unfold ParseDataRate.
  assert (∀ s, match_ttn_rate s = Some (sf, bw) → ttn_rate_ok sf bw) as Hmatch.
  { intros s E. unfold match_ttn_rate in E. destruct (strip_prefix _ s) as [t|]; [|done].
    apply first_alt_elem in E as [Hsf (t' & Ht)]. split; [done|].
    unfold match_bandwidth in Ht. destruct (strip_prefix _ t') as [t2|]; [|done].
    apply fmap_Some in Ht as ([bw' u] & Hb & ->). by apply first_alt_elem in Hb as [Hb _]. }
  induction (to_bytes input) as [|c s IH]; intros H; cbn [find_ttn_rate] in H;
    destruct (match_ttn_rate _) as [m|] eqn:E; simplify_eq; eauto.
Qed.

(** ** Buffered channels *)

(** A buffered channel: everything that was put in, how much was taken out. *)
Record gochan (A : Type) : Type := mkChan {
  chan_sent : list A;
  chan_taken : nat;
  chan_closed : bool
}.
Arguments mkChan {A}.
Arguments chan_sent {A}.
Arguments chan_taken {A}.
Arguments chan_closed {A}.

#[export] Instance gochan_eq_dec {A} `{EqDecision A} : EqDecision (gochan A).
Proof. solve_decision. Defined.

(** [DefaultBufferSize] *)
Definition DefaultBufferSize : nat := 10.

Section Channel.
Context {A : Type}.
Implicit Types (c : gochan A) (x : A).

Definition chan_make : gochan A := mkChan [] 0 false.
Definition chan_buffer c : list A := drop (chan_taken c) (chan_sent c).

(** [select { case ch <- x: default: }]: a full buffer drops the message, a
    closed channel panics. *)
Definition chan_offer x c : result (gochan A) :=
  if chan_closed c then Panic "send on closed channel"
  else if (length (chan_buffer c) <? DefaultBufferSize)%nat
  then Ok (mkChan (chan_sent c ++ [x]) (chan_taken c) false)
  else Ok c.

(** A receive that does not block. *)
Definition chan_receive c : option (A * gochan A) :=
  x ← chan_sent c !! chan_taken c;
  Some (x, mkChan (chan_sent c) (S (chan_taken c)) (chan_closed c)).

(** [close(ch)]: closing twice panics. *)
Definition chan_close c : result (gochan A) :=
  if chan_closed c then Panic "close of closed channel"
  else Ok (mkChan (chan_sent c) (chan_taken c) true).

Definition chan_ok c : Prop :=
  (chan_taken c <= length (chan_sent c) <= chan_taken c + DefaultBufferSize)%nat.

Lemma chan_offer_ok x c c' : chan_ok c → chan_offer x c = Ok c' → chan_ok c'.
Proof.
  unfold chan_offer, chan_ok, chan_buffer. rewrite length_drop. intros Hok H.
  repeat case_match; simplify_eq; [|done]. simpl. rewrite length_app. simpl.
  match goal with E : (_ <? _)%nat = true |- _ => apply Nat.ltb_lt in E end.
  unfold DefaultBufferSize in *. lia.
Qed.

(** Sending never removes or reorders what was sent before. *)
Lemma chan_offer_prefix x c c' :
  chan_offer x c = Ok c' → chan_sent c `prefix_of` chan_sent c' ∧
  (chan_sent c' = chan_sent c ∨ chan_sent c' = chan_sent c ++ [x]) ∧
  chan_taken c' = chan_taken c ∧ chan_closed c' = chan_closed c.
Proof.
  unfold chan_offer. intros H. destruct (chan_closed c) eqn:E; [done|].
  case_match; simplify_eq; simpl; split_and!; try done; auto. by apply prefix_app_r.
Qed.

Lemma chan_receive_ok x c c' : chan_ok c → chan_receive c = Some (x, c') → chan_ok c'.
Proof.
  unfold chan_receive, chan_ok. intros Hok H. apply bind_Some in H as (y & Hy & H). simplify_eq/=.
  apply lookup_lt_Some in Hy. lia.
Qed.
End Channel.
