(* ===== verification/Streams.v ===== *)
(** * Monitored streams to the router

    [NewMonitoredUplinkStream] and [NewMonitoredGatewayStatusStream] of the
    vendored [api/router/client_streams.go]: the goroutine that keeps a gRPC
    stream to the router alive and forwards to it what [Send] put in the
    buffered channel, with the two goroutines of each of its sessions.  The two
    functions differ in the type of the messages only.  The third stream, that of
    downlink messages, is in [Downstream]. *)

From Stdlib Require Import String Ascii NArith ZArith Lia.
From stdpp Require Import base gmap list strings numbers relations.
From S2P Require Import Prelude GoPrim GoSync GoFloat TtnTypes.

Local Open Scope string_scope.
Local Open Scope list_scope.

(** ** Back-off *)

(** [DefaultConfig]: delays in nanoseconds. *)
Definition BaseDelay : Z := 1000000000.
Definition MaxDelay : Z := 120000000000.
Definition Factor : float64 := f64_of_dec false 16 (-1).
Definition Jitter : float64 := f64_of_dec false 2 (-1).

(** [for backoff < max && retries > 0] *)
Fixpoint backoff_loop (retries : nat) (backoff : float64) : float64 :=
  match retries with
  | O => backoff
  | S retries =>
      if f64_ltb backoff (f64_of_Z MaxDelay) then backoff_loop retries (f64_mul backoff Factor)
      else backoff
  end.

Definition backoff_nominal (retries : nat) : float64 :=
  let max := f64_of_Z MaxDelay in
  let backoff := backoff_loop retries (f64_of_Z BaseDelay) in
  if f64_ltb max backoff then max else backoff.

(** [func (bc Config) Backoff(retries int) time.Duration], with the number
    [rand.Float64] returns. *)
Definition Backoff (rand : float64) (retries : nat) : Z :=
  match retries with
  | O => BaseDelay
  | _ =>
      let two := f64_of_Z 2 in
      let one := f64_of_Z 1 in
      let backoff :=
        f64_mul (backoff_nominal retries)
          (f64_add one (f64_mul Jitter (f64_sub (f64_mul rand two) one))) in
      if f64_ltb backoff f64_zero then 0%Z else f64_to_int64 backoff
  end.

(** The loop ends after at most eleven turns, however many retries there were:
    from then on the nominal delay is the maximal one. *)
Lemma backoff_nominal_max retries : 11 <= retries → backoff_nominal retries = f64_of_Z MaxDelay.
Proof.
  intros Hr. assert (backoff_loop retries (f64_of_Z BaseDelay) = backoff_loop 11 (f64_of_Z BaseDelay)) as He.
  { replace retries with (11 + (retries - 11)) by lia. generalize (retries - 11) as n. intros n.
    assert (∀ k b, f64_ltb (backoff_loop k b) (f64_of_Z MaxDelay) = false →
      backoff_loop (k + n) b = backoff_loop k b) as Hloop.
    { induction k as [|k IH]; intros b Hb; cbn [backoff_loop Nat.add] in *.
      - destruct n; [done|]. cbn [backoff_loop]. by rewrite Hb.
      - destruct (f64_ltb b (f64_of_Z MaxDelay)); [by apply IH|done]. }
    apply Hloop. vm_compute. reflexivity. }
  unfold backoff_nominal. rewrite He. vm_compute. reflexivity.
Qed.

(** ** Streams that send *)

Section Sending.
Context {A : Type}.

(** The goroutine [Send] of a session: at its receive, in [client.Send],
    gone after an error (with the message that was lost), or at the end of the
    channel. *)
Inductive sender : Type :=
| SReceive
| SSending (x : A)
| SFailed (x : A)
| SEnded.

(** The goroutine [Receive errors]: in [client.RecvMsg], at its send on [errCh],
    or gone, with [errCh] closed. *)
Inductive receiver : Type :=
| RWaiting
| RError (e : error)
| RClosed.

(** A session: its goroutines, whether its channel [ch] is closed, and what the
    router was sent. *)
Record session : Type := mkSession {
  ss_sender : sender;
  ss_receiver : receiver;
  ss_closed : bool;
  ss_wire : list A
}.

Definition session_new : session := mkSession SReceive RWaiting false [].

(** Where the monitoring goroutine is: about to start a session, after an
    attempt that failed, sleeping, at its [select], at [ch <- msg], after the
    loop, after [CloseAndRecv], or returned. *)
Inductive phase : Type :=
| PConnect
| PFailed
| PSleep
| PSelect
| PForward (x : A)
| PBroken
| PAfter
| PStopped.

(** [gatewayStream] with its channel [s.ch], and the sessions it had. *)
Record stream : Type := mkStream {
  st_chan : gochan A;
  st_closing : bool;
  st_setup : WaitGroup;
  st_retries : nat;
  st_phase : phase;
  st_sessions : list session
}.

Definition stream_new : stream := mkStream chan_make false (wg_Add wg_zero) 0 PConnect [].

Definition set_chan c (s : stream) : stream :=
  mkStream c (st_closing s) (st_setup s) (st_retries s) (st_phase s) (st_sessions s).
Definition set_phase p (s : stream) : stream :=
  mkStream (st_chan s) (st_closing s) (st_setup s) (st_retries s) p (st_sessions s).
Definition set_retries n (s : stream) : stream :=
  mkStream (st_chan s) (st_closing s) (st_setup s) n (st_phase s) (st_sessions s).
Definition set_setup g (s : stream) : stream :=
  mkStream (st_chan s) (st_closing s) g (st_retries s) (st_phase s) (st_sessions s).
Definition set_sessions l (s : stream) : stream :=
  mkStream (st_chan s) (st_closing s) (st_setup s) (st_retries s) (st_phase s) l.
Definition set_session i x (s : stream) : stream := set_sessions (<[i := x]> (st_sessions s)) s.

Definition set_sender v (x : session) : session :=
  mkSession v (ss_receiver x) (ss_closed x) (ss_wire x).
Definition set_receiver v (x : session) : session :=
  mkSession (ss_sender x) v (ss_closed x) (ss_wire x).
Definition close_session (x : session) : session :=
  mkSession (ss_sender x) (ss_receiver x) true (ss_wire x).

(** The session of the current turn of the loop. *)
Definition current (s : stream) : nat := pred (length (st_sessions s)).
Definition session_at (s : stream) (i : nat) (x : session) : Prop := st_sessions s !! i = Some x.

(** [s.setup.Done()], and on *)
Definition setup_Done p (s : stream) : result stream :=
  let* g := wg_Done (st_setup s) in Ok (set_phase p (set_setup g s)).

(** [s.setup.Add(1)], into the back-off *)
Definition setup_Add (s : stream) : stream := set_phase PSleep (set_setup (wg_Add (st_setup s)) s).

(** The steps of the monitoring goroutine. *)
Inductive monitor_step : stream → result stream → Prop :=
(* s.client.Uplink(), s.setup.Done(), the goroutines of the session *)
| ms_connected s :
    st_phase s = PConnect →
    monitor_step s (setup_Done PSelect (set_sessions (st_sessions s ++ [session_new]) s))
(* with an error: break when it is a cancellation *)
| ms_canceled s : st_phase s = PConnect → monitor_step s (setup_Done PStopped s)
| ms_failed s : st_phase s = PConnect → monitor_step s (setup_Done PFailed s)
| ms_sleep s : st_phase s = PFailed → monitor_step s (Ok (setup_Add s))
(* the back-off is over, retries++ *)
| ms_wake s :
    st_phase s = PSleep →
    monitor_step s (Ok (set_phase PConnect (set_retries (S (st_retries s)) s)))
(* the select *)
| ms_timer s : st_phase s = PSelect → monitor_step s (Ok (set_retries 0 s))
| ms_error s x e :
    st_phase s = PSelect → session_at s (current s) x → ss_receiver x = RError e →
    monitor_step s (Ok (set_phase PBroken (set_session (current s) (set_receiver RClosed x) s)))
| ms_error_closed s x :
    st_phase s = PSelect → session_at s (current s) x → ss_receiver x = RClosed →
    monitor_step s (Ok (set_phase PBroken s))
| ms_message s m c :
    st_phase s = PSelect → chan_receive (st_chan s) = Some (m, c) →
    monitor_step s (Ok (set_phase (PForward m) (set_chan c s)))
| ms_chan_closed s :
    st_phase s = PSelect → chan_receive (st_chan s) = None → chan_closed (st_chan s) = true →
    monitor_step s (Ok (set_phase PBroken s))
(* ch <- msg: the channel has no buffer *)
| ms_forward s x m :
    st_phase s = PForward m → session_at s (current s) x → ss_sender x = SReceive →
    monitor_step s
      (Ok (set_phase PSelect (set_session (current s) (set_sender (SSending m) x) s)))
(* close(ch), client.CloseAndRecv() *)
| ms_break s x :
    st_phase s = PBroken → session_at s (current s) x →
    monitor_step s (Ok (set_phase PAfter (set_session (current s) (close_session x) s)))
(* if s.closing *)
| ms_stop s :
    st_phase s = PAfter → st_closing s = true → monitor_step s (Ok (set_phase PStopped s))
| ms_again s : st_phase s = PAfter → st_closing s = false → monitor_step s (Ok (setup_Add s)).

(** The steps of the two goroutines of a session. *)
Inductive session_step : session → session → Prop :=
(* client.RecvMsg returns *)
| se_error x e : ss_receiver x = RWaiting → session_step x (set_receiver (RError e) x)
| se_closed x : ss_receiver x = RWaiting → session_step x (set_receiver RClosed x)
(* client.Send returns *)
| se_sent x m :
    ss_sender x = SSending m →
    session_step x (mkSession SReceive (ss_receiver x) (ss_closed x) (ss_wire x ++ [m]))
| se_failed x m : ss_sender x = SSending m → session_step x (set_sender (SFailed m) x)
(* the channel is closed *)
| se_ended x :
    ss_sender x = SReceive → ss_closed x = true → session_step x (set_sender SEnded x).

(** [Send] and [Close], as the backend calls them. *)
Definition stream_Send (m : A) (s : stream) : result stream :=
  let* c := chan_offer m (st_chan s) in Ok (set_chan c s).

(** [s.closing = true; close(s.ch)] *)
Definition close_body (s : stream) : result stream :=
  let* c := chan_close (st_chan s) in
  Ok (mkStream c true (st_setup s) (st_retries s) (st_phase s) (st_sessions s)).

(** A call of [Close], up to the end or to [s.setup.Wait()]; then the rest of it,
    when the goroutine runs again. *)
Definition stream_Close (s : stream) : result stream :=
  let p := wg_Wait (st_setup s) in
  if p.1 then close_body (set_setup p.2 s) else Ok (set_setup p.2 s).

Definition stream_Close_woken (s : stream) : option (result stream) :=
  r ← wg_wake (st_setup s); Some (let* g := r in close_body (set_setup g s)).

Inductive stream_act : stream → result stream → Prop :=
| sa_monitor s r : monitor_step s r → stream_act s r
| sa_session s i x x' :
    session_at s i x → session_step x x' → stream_act s (Ok (set_session i x' s))
| sa_send s m : stream_act s (stream_Send m s)
| sa_close s : stream_act s (stream_Close s)
| sa_close_woken s r : stream_Close_woken s = Some r → stream_act s r.

Definition stream_run (s s' : stream) : Prop := stream_act s (Ok s').
Definition stream_reachable (s : stream) : Prop := rtc stream_run stream_new s.

(** The message a session holds or lost; what the sessions were given; what the
    monitoring goroutine holds; what was taken from the buffer. *)
Definition pending (x : session) : list A :=
  match ss_sender x with SSending m | SFailed m => [m] | SReceive | SEnded => [] end.
Definition session_messages (x : session) : list A := ss_wire x ++ pending x.
Definition forwarding (s : stream) : list A :=
  match st_phase s with PForward m => [m] | _ => [] end.
Definition taken (s : stream) : list A := take (chan_taken (st_chan s)) (chan_sent (st_chan s)).
Definition delivered (s : stream) : list A := concat (session_messages <$> st_sessions s).

(** The phases in which [setup] is at one, and those of a session. *)
Definition busy (s : stream) : bool :=
  match st_phase s with PConnect | PSleep => true | _ => false end.
Definition in_session (s : stream) : bool :=
  match st_phase s with PSelect | PForward _ | PBroken => true | _ => false end.

(** ** Every message is accounted for *)

Record stream_ok (s : stream) : Prop := mkStreamOk {
  sok_chan : chan_ok (st_chan s);
  sok_messages : taken s = delivered s ++ forwarding s;
  (* only the session in use has its channel open *)
  sok_sessions : ∀ i x, session_at s i x →
    ss_closed x = negb (in_session s && bool_decide (i = current s));
  sok_current : in_session s = true → is_Some (st_sessions s !! current s);
  sok_setup : wg_turn (busy s) (st_setup s);
  sok_closing : chan_closed (st_chan s) = st_closing s
}.

Lemma stream_new_ok : stream_ok stream_new.
Proof. by split; cbn; [unfold chan_ok; cbn; lia|..]. Qed.

(** What [stream_ok] says of the sessions depends on these only. *)
Lemma stream_ok_phase (s s' : stream) :
  stream_ok s → st_chan s' = st_chan s → st_closing s' = st_closing s →
  st_sessions s' = st_sessions s → in_session s' = in_session s → forwarding s' = forwarding s →
  wg_turn (busy s') (st_setup s') → stream_ok s'.
Proof.
  intros [Hc Hm Hx Hu _ Hcl] Ec El Es Ei Ef Hg.
  split; unfold taken, delivered, session_at, current in *; rewrite ?Ec, ?El, ?Es, ?Ei, ?Ef; done.
Qed.

Lemma take_receive (c c' : gochan A) m :
  chan_receive c = Some (m, c') →
  take (chan_taken c') (chan_sent c') = take (chan_taken c) (chan_sent c) ++ [m].
Proof.
  unfold chan_receive. intros Hr. apply bind_Some in Hr as (y & Hy & [= -> <-]). cbn.
  by apply take_S_r.
Qed.

Lemma delivered_session s i x x' :
  session_at s i x → session_messages x' = session_messages x →
  delivered (set_session i x' s) = delivered s.
Proof.
  unfold session_at, delivered. intros Hx Heq. cbn. f_equal. rewrite list_fmap_insert, Heq.

  apply list_insert_id. by rewrite list_lookup_fmap, Hx.
Qed.

Lemma delivered_current s x m :
  session_at s (current s) x → pending x = [] →
  delivered (set_session (current s) (set_sender (SSending m) x) s) = delivered s ++ [m].
Proof.
  unfold session_at, current, delivered. cbn. intros Hx Hp.
  destruct (st_sessions s) as [|y l _] using rev_ind; [done|].
  rewrite length_app in *. cbn in *. rewrite Nat.add_comm in *. cbn in *.
  rewrite list_lookup_middle in Hx by done. injection Hx as ->.
  rewrite insert_app_r_alt by lia. rewrite Nat.sub_diag. cbn.
  rewrite !fmap_app, !concat_app. cbn. rewrite !app_nil_r. unfold session_messages.
  rewrite Hp, app_nil_r. cbn. by rewrite <- app_assoc.
Qed.

Lemma session_step_messages x x' :
  session_step x x' → session_messages x' = session_messages x ∧ ss_closed x' = ss_closed x.
Proof.
  unfold session_messages, pending.
  intros [y e Hr|y Hr|y m Hs|y m Hs|y Hs Hc]; cbn; rewrite ?Hs, <- ?app_assoc; done.
Qed.

(** A change of one session that keeps its messages and its channel. *)
Lemma stream_ok_session s i x x' :
  stream_ok s → session_at s i x → session_messages x' = session_messages x →
  ss_closed x' = ss_closed x → stream_ok (set_session i x' s).
Proof.
  intros [Hc Hm Hx Hu Hg Hcl] Hat Heq Hclosed.
  split; try done.
  - rewrite (delivered_session _ _ x) by done. done.
  - unfold session_at, current in *. cbn. rewrite length_insert. intros j y Hy.
    destruct (decide (j = i)) as [->|Hne].
    + rewrite list_lookup_insert_eq in Hy by (by eapply lookup_lt_Some). injection Hy as <-.
      rewrite Hclosed. by apply Hx.
    + rewrite list_lookup_insert_ne in Hy by done. by apply Hx.
  - unfold current in *. cbn. rewrite length_insert. intros Hin. destruct (Hu Hin) as [y Hy].
    destruct (decide (i = pred (length (st_sessions s)))) as [->|Hne].
    + rewrite list_lookup_insert_eq by (by eapply lookup_lt_Some). eauto.
    + rewrite list_lookup_insert_ne by done. eauto.
Qed.

(** [setup.Done()] in its turn. *)
Lemma setup_Done_ok p s :
  wg_turn true (st_setup s) →
  ∃ g, setup_Done p s = Ok (set_phase p (set_setup g s)) ∧ wg_turn false g.
Proof. intros Hg. destruct (wg_turn_Done _ Hg) as (g & E & ?). exists g. unfold setup_Done. by rewrite E. Qed.

Lemma stream_ok_connect s g :
  stream_ok s → st_phase s = PConnect → wg_turn false g →
  stream_ok (set_phase PSelect (set_setup g (set_sessions (st_sessions s ++ [session_new]) s))).
Proof.
  intros [Hc Hm Hx Hu _ Hcl] Hp Hg. unfold in_session, forwarding, session_at in *. rewrite Hp in *.
  split; try done; unfold taken, delivered, session_at, current in *; cbn.
  - rewrite fmap_app, concat_app, app_nil_r. cbn. rewrite !app_nil_r. by rewrite app_nil_r in Hm.
  - rewrite length_app, Nat.add_comm. cbn. intros i x Hi. case_bool_decide as Hd.
    + subst. rewrite list_lookup_middle in Hi by done. by injection Hi as <-.
    + rewrite lookup_app_l in Hi; [by apply Hx in Hi|].
      apply lookup_lt_Some in Hi. rewrite length_app in Hi. cbn in Hi. lia.
  - intros _. rewrite length_app, Nat.add_comm. cbn. rewrite list_lookup_middle by done. eauto.
Qed.

Lemma stream_ok_message s m c :
  stream_ok s → st_phase s = PSelect → chan_receive (st_chan s) = Some (m, c) →
  stream_ok (set_phase (PForward m) (set_chan c s)).
Proof.
  intros [Hc Hm Hx Hu Hg Hcl] Hp Hr. unfold in_session, busy, forwarding in *. rewrite Hp in *.
  split; try done; unfold taken in *; cbn.
  - by eapply chan_receive_ok.
  - rewrite (take_receive _ _ _ Hr), Hm. by rewrite app_nil_r.
  - unfold chan_receive in Hr. apply bind_Some in Hr as (y & _ & [= _ <-]). done.
Qed.

Lemma session_at_insert s i x x' j y :
  session_at s i x → session_at (set_session i x' s) j y →
  (j = i ∧ y = x') ∨ (j ≠ i ∧ session_at s j y).
Proof.
  unfold session_at. cbn. intros Hi Hj. destruct (decide (j = i)) as [->|].
  - rewrite list_lookup_insert_eq in Hj by (by eapply lookup_lt_Some). left. by simplify_eq.
  - rewrite list_lookup_insert_ne in Hj by done. auto.
Qed.

Lemma session_at_eq s i x x' : session_at s i x → session_at (set_session i x' s) i x'.
Proof. intros Hi. unfold session_at in *. cbn. apply list_lookup_insert_eq. by eapply lookup_lt_Some. Qed.

Lemma session_at_ne s i j x' y : i ≠ j → session_at s j y → session_at (set_session i x' s) j y.
Proof. intros Hne Hj. unfold session_at in *. cbn. by rewrite list_lookup_insert_ne. Qed.

Lemma current_set_session s i x : current (set_session i x s) = current s.
Proof. unfold current. cbn. by rewrite length_insert. Qed.

Lemma stream_ok_forward s m x :
  stream_ok s → st_phase s = PForward m → session_at s (current s) x → ss_sender x = SReceive →
  stream_ok (set_phase PSelect (set_session (current s) (set_sender (SSending m) x) s)).
Proof.
  intros [Hc Hm Hx Hu Hg Hcl] Hp Hat Hs. unfold in_session, busy, forwarding in *. rewrite Hp in *.
  set (x' := set_sender (SSending m) x). split; try done.
  - change (taken s = delivered (set_session (current s) x' s) ++ []). rewrite app_nil_r.
    unfold x'. by rewrite (delivered_current s x m Hat) by (unfold pending; by rewrite Hs).
  - change (∀ i y, session_at (set_session (current s) x' s) i y →
      ss_closed y = negb (bool_decide (i = current (set_session (current s) x' s)))).
    rewrite current_set_session. intros i y Hi.
    destruct (session_at_insert _ _ _ _ _ _ Hat Hi) as [[-> ->]|[_ Hi']]; [by apply (Hx _ x)|by apply Hx].
  - intros _. change (is_Some (st_sessions (set_session (current s) x' s) !!
      current (set_session (current s) x' s))). rewrite current_set_session.
    exists x'. by eapply session_at_eq.
Qed.

Lemma stream_ok_break s x :
  stream_ok s → st_phase s = PBroken → session_at s (current s) x →
  stream_ok (set_phase PAfter (set_session (current s) (close_session x) s)).
Proof.
  intros [Hc Hm Hx Hu Hg Hcl] Hp Hat. unfold in_session, busy, forwarding in *. rewrite Hp in *.
  split; try done.
  - change (taken s = delivered (set_session (current s) (close_session x) s) ++ []).
    by rewrite (delivered_session _ _ x).
  - intros i y Hi. destruct (session_at_insert s _ x _ _ _ Hat Hi) as [[-> ->]|[Hne Hi']]; [done|].
    rewrite (Hx i y Hi'). by rewrite bool_decide_false.
Qed.

Lemma stream_ok_sleep s :
  stream_ok s → in_session s = false → busy s = false → forwarding s = [] → stream_ok (setup_Add s).
Proof.
  intros Hok Hi Hb Hf. pose proof (sok_setup _ Hok) as Hg. rewrite Hb in Hg.
  apply (stream_ok_phase s); try done. by apply wg_turn_Add.
Qed.

(** The monitoring goroutine never panics, and keeps the account. *)
Lemma monitor_step_ok s r :
  stream_ok s → monitor_step s r → ∃ s', r = Ok s' ∧ stream_ok s'.
Proof.
  intros Hok Hs.
  pose proof (sok_setup _ Hok) as Hg. unfold busy in Hg.
  destruct Hs as [s Hp|s Hp|s Hp|s Hp|s Hp|s Hp|s x e Hp Hat Hr|s x Hp Hat Hr|s m c Hp Hr|s Hp Hr Hcl
    |s x m Hp Hat Hse|s x Hp Hat|s Hp Hcl|s Hp Hcl]; rewrite Hp in Hg;
    try (destruct (setup_Done_ok PSelect (set_sessions (st_sessions s ++ [session_new]) s) Hg)
           as (g & -> & Hg'); eexists; split; [done|by apply stream_ok_connect]);
    try (destruct (setup_Done_ok PStopped s Hg) as (g & -> & Hg'); eexists; split; [done|]);
    try (destruct (setup_Done_ok PFailed s Hg) as (g & -> & Hg'); eexists; split; [done|]);
    try (eexists; split; [done|]);
    try (apply stream_ok_sleep; unfold in_session, busy, forwarding; by rewrite ?Hp);
    try (apply (stream_ok_phase s); unfold in_session, forwarding, busy; cbn; rewrite ?Hp; by auto).
  - apply (stream_ok_phase (set_session (current s) (set_receiver RClosed x) s));
      unfold in_session, forwarding, busy; cbn; rewrite ?Hp; try done.
    by apply (stream_ok_session _ _ x).
  - by apply stream_ok_message.
  - by apply stream_ok_forward.
  - by apply stream_ok_break.
Qed.

Lemma stream_Send_ok s m s' : stream_ok s → stream_Send m s = Ok s' → stream_ok s'.
Proof.
  intros [Hc Hm Hx Hu Hg Hcl] Hs. unfold stream_Send in Hs. apply rbind_ok in Hs as (c & Ho & [= <-]).
  pose proof (chan_offer_ok _ _ _ Hc Ho) as Hc'.
  apply chan_offer_prefix in Ho as (_ & Hsent & Ht & Hclo). split; try done; [|cbn; congruence].
  unfold taken, delivered, forwarding in *. cbn. rewrite Ht, <- Hm.
  destruct Hsent as [->| ->]; [done|]. rewrite take_app_le; [done|]. unfold chan_ok in Hc. lia.
Qed.

Lemma close_body_ok s g s' :
  stream_ok s → wg_turn (busy s) g → close_body (set_setup g s) = Ok s' → stream_ok s'.
Proof.
  intros [Hc Hm Hx Hu _ Hcl] Hg Hs. unfold close_body, chan_close in Hs. cbn in Hs.
  destruct (chan_closed (st_chan s)); [done|]. injection Hs as <-. by split.
Qed.

Lemma stream_ok_setup s g : stream_ok s → wg_turn (busy s) g → stream_ok (set_setup g s).
Proof. intros Hok Hg. by apply (stream_ok_phase s). Qed.

(** [Send] and [Close] panic on a closed channel only. *)
Lemma stream_Send_cases s m :
  match stream_Send m s with Ok _ => True | Err _ => False | Panic _ => chan_closed (st_chan s) = true end.
Proof. unfold stream_Send, chan_offer. destruct (chan_closed _); [done|]. by destruct (_ <? _)%nat. Qed.

Lemma close_body_cases s :
  match close_body s with Ok _ => True | Err _ => False | Panic _ => chan_closed (st_chan s) = true end.
Proof. unfold close_body, chan_close. by destruct (chan_closed _). Qed.

Lemma close_body_act s g :
  stream_ok s → wg_turn (busy s) g →
  match close_body (set_setup g s) with
  | Ok s' => stream_ok s' | Err _ => False | Panic _ => st_closing s = true
  end.
Proof.
  intros Hok Hg. rewrite <- (sok_closing _ Hok). pose proof (close_body_cases (set_setup g s)) as Hc.
  destruct (close_body _) eqn:E; [by eapply close_body_ok|done..].
Qed.

(** What any action does to a stream in order; [Send] and [Close] panic on a
    closed stream, and a [Close] that waited panics when the goroutine is again
    at its next attempt. *)
Lemma stream_act_ok s r :
  stream_ok s → stream_act s r →
  match r with
  | Ok s' => stream_ok s'
  | Panic _ => st_closing s = true ∨ 0 < wg_released (st_setup s) ∧ busy s = true
  | Err _ => False
  end.
Proof.
  intros Hok Hs. pose proof (sok_setup _ Hok) as Hg.
  destruct Hs as [s r Hs|s i x x' Hat Hs|s m|s|s r Hw].
  - destruct (monitor_step_ok _ _ Hok Hs) as (s' & -> & ?). done.
  - apply session_step_messages in Hs as [??]. by eapply stream_ok_session.
  - pose proof (stream_Send_cases s m) as Hc. rewrite (sok_closing _ Hok) in Hc.
    destruct (stream_Send m s) eqn:E; [by eapply stream_Send_ok|auto..].
  - apply wg_turn_Wait in Hg as [_ Hg]. unfold stream_Close.
    destruct (wg_Wait _) as [[] g]; cbn in *; [|by apply stream_ok_setup].
    pose proof (close_body_act _ _ Hok Hg). destruct (close_body _); auto.
  - unfold stream_Close_woken in Hw. apply bind_Some in Hw as (rg & Hw & [= <-]).
    pose proof (wg_turn_wake _ _ _ Hg Hw) as Hwake.
    destruct rg as [g|e|p]; cbn; [|done|].
    + destruct Hwake as [Hb Hg']. rewrite <- Hb in Hg'.
      pose proof (close_body_act _ _ Hok Hg'). destruct (close_body _); auto.
    + right. split; [|apply Hwake]. unfold wg_wake in Hw. destruct (wg_released _); [done|lia].
Qed.

Lemma stream_reachable_ok s : stream_reachable s → stream_ok s.
Proof.
  apply rtc_preserved; [|apply stream_new_ok]. intros a b Hok Hs. by apply (stream_act_ok _ _ Hok) in Hs.
Qed.

(** C12: In every interleaving of a router stream's goroutines, what Send accepted
    is, in order and once each, sent or lost in some session (at most one lost in
    each), held by the monitor, or one of at most ten in the buffer; Send drops only
    when that is full. *)
Theorem messages_accounted s :
  stream_reachable s →
  chan_sent (st_chan s) =
    concat (session_messages <$> st_sessions s) ++ forwarding s ++ chan_buffer (st_chan s) ∧
  length (chan_buffer (st_chan s)) <= DefaultBufferSize ∧
  (st_closing s = false → ∀ m, ∃ s', stream_Send m s = Ok s' ∧
    chan_sent (st_chan s') = chan_sent (st_chan s) ++
      (if decide (length (chan_buffer (st_chan s)) < DefaultBufferSize) then [m] else [])).
Proof.
  intros Hr. apply stream_reachable_ok in Hr as [Hc Hm _ _ _ Hcl]. split_and!.
  - rewrite app_assoc. change (concat _ ++ forwarding s) with (delivered s ++ forwarding s).
    rewrite <- Hm. symmetry. apply take_drop.
  - unfold chan_buffer. rewrite length_drop. unfold chan_ok in Hc. lia.
  - intros Ho m. unfold stream_Send, chan_offer. rewrite Hcl, Ho.
    destruct (Nat.ltb_spec (length (chan_buffer (st_chan s))) DefaultBufferSize); case_decide; try lia;
      cbn; eexists; rewrite ?app_nil_r; done.
Qed.

(** ** Forwarding *)

(** The monitoring goroutine waits for a goroutine that is gone. *)
Definition stuck (n k : nat) (m : A) (l : list A) (s : stream) : Prop :=
  st_phase s = PForward m ∧ length (st_sessions s) = n ∧ chan_taken (st_chan s) = k ∧
  ∃ x y, session_at s (current s) x ∧ ss_sender x = SFailed y ∧ ss_wire x = l.

Lemma monitor_step_stuck n k m l s r : stuck n k m l s → ¬ monitor_step s r.
Proof.
  intros (Hp & _ & _ & x & y & Hat & Hx & _) Hs. destruct Hs; try congruence.
Qed.

(** What only changes the end of the channel or the wait group. *)
Lemma stuck_keep n k m l s s' :
  stuck n k m l s → st_phase s' = st_phase s → st_sessions s' = st_sessions s →
  chan_taken (st_chan s') = chan_taken (st_chan s) → stuck n k m l s'.
Proof.
  unfold stuck, session_at, current. intros Hst Hp Hs Ht. by rewrite Hp, Hs, Ht.
Qed.

Lemma close_body_same s s' : close_body s = Ok s' →
  st_phase s' = st_phase s ∧ st_sessions s' = st_sessions s ∧
  chan_taken (st_chan s') = chan_taken (st_chan s) ∧ chan_sent (st_chan s') = chan_sent (st_chan s).
Proof. unfold close_body, chan_close. destruct (chan_closed _); [done|]. by intros [= <-]. Qed.

Lemma stream_Close_same s s' :
  stream_Close s = Ok s' ∨ stream_Close_woken s = Some (Ok s') →
  st_phase s' = st_phase s ∧ st_sessions s' = st_sessions s ∧
  chan_taken (st_chan s') = chan_taken (st_chan s) ∧ chan_sent (st_chan s') = chan_sent (st_chan s).
Proof.
  intros [Hc|Hc].
  - unfold stream_Close in Hc. destruct (wg_Wait _) as [[] g]; cbn in Hc;
      [by apply close_body_same in Hc|]. by injection Hc as <-.
  - unfold stream_Close_woken in Hc. apply bind_Some in Hc as (r & _ & Hc). injection Hc as Hc.
    apply rbind_ok in Hc as (g & _ & Hc). by apply close_body_same in Hc.
Qed.

Lemma stuck_run n k m l s s' : stuck n k m l s → stream_run s s' → stuck n k m l s'.
Proof.
  intros Hst Hs. unfold stream_run in Hs. remember (Ok s') as r eqn:Er.
  destruct Hs as [s r Hs|s i x x' Hat Hs|s m'|s|s r Hw]; subst.
  - by apply monitor_step_stuck with (1 := Hst) in Hs.
  - injection Er as <-. destruct Hst as (Hp & Hn & Ht & z & y & Hz & Hzy & Hl).
    split_and!; [done|by cbn; rewrite length_insert|done|]. rewrite current_set_session.
    destruct (decide (i = current s)) as [->|Hne].
    + unfold session_at in Hz, Hat. simplify_eq. exists x', y. split; [by eapply session_at_eq|].
      destruct Hs; simplify_eq/=; try congruence; by split.
    + exists z, y. split; [by apply session_at_ne|done].
  - unfold stream_Send in Er. apply rbind_ok in Er as (c & Ho & [= <-]).
    apply chan_offer_prefix in Ho as (_ & _ & Ht & _). by eapply stuck_keep.
  - destruct (stream_Close_same s s') as (? & ? & ? & _); [by left|]. by eapply stuck_keep.
  - destruct (stream_Close_same s s') as (? & ? & ? & _); [by right|]. by eapply stuck_keep.
Qed.

(** A sender that left its loop found its channel closed. *)
Definition ended_closed (x : session) : Prop := ss_sender x = SEnded → ss_closed x = true.

Lemma ended_run s s' :
  Forall ended_closed (st_sessions s) → stream_run s s' → Forall ended_closed (st_sessions s').
Proof.
  intros Hf Hs. unfold stream_run in Hs. remember (Ok s') as r eqn:Er.
  destruct Hs as [s r Hs|s i x x' Hat Hs|s m'|s|s r Hw]; subst.
  - remember (Ok s') as r eqn:Er. destruct Hs; unfold setup_Done in Er; try (apply rbind_ok in Er as (g & _ & Er));
      simplify_eq/=; try done; try (by apply Forall_app; split; [|by repeat constructor]);
      (apply Forall_insert; [done|]); try done;
      match goal with Hat : session_at _ _ _ |- _ => apply (Forall_lookup_1 _ _ _ _ Hf Hat) end.
  - injection Er as <-. apply Forall_insert; [done|].
    pose proof (Forall_lookup_1 _ _ _ _ Hf Hat) as Hx. unfold ended_closed in *.
    destruct Hs; cbn in *; try done; auto.
  - unfold stream_Send in Er. apply rbind_ok in Er as (c & _ & [= <-]). done.
  - destruct (stream_Close_same s s') as (_ & Hss & _); [by left|]. by rewrite Hss.
  - destruct (stream_Close_same s s') as (_ & Hss & _); [by right|]. by rewrite Hss.
Qed.

Lemma stream_reachable_ended s : stream_reachable s → Forall ended_closed (st_sessions s).
Proof. apply (rtc_preserved _ (λ s, Forall ended_closed (st_sessions s))); [apply ended_run|constructor]. Qed.

(** C14: Once a session's sender has failed and the monitor holds the next message,
    the stream is blocked for good: no message is taken or sent, no new session is
    made, Close does not help, and all but ten further messages are dropped. *)
Theorem failed_send_blocks s s' m x y :
  stream_reachable s → st_phase s = PForward m → session_at s (current s) x →
  ss_sender x = SFailed y → rtc stream_run s s' →
  st_phase s' = PForward m ∧ length (st_sessions s') = length (st_sessions s) ∧
  chan_taken (st_chan s') = chan_taken (st_chan s) ∧
  length (chan_sent (st_chan s')) <= chan_taken (st_chan s) + DefaultBufferSize ∧
  ∃ x', session_at s' (current s') x' ∧ ss_wire x' = ss_wire x.
Proof.
  intros Hre Hp Hat Hx Hr.
  assert (stuck (length (st_sessions s)) (chan_taken (st_chan s)) m (ss_wire x) s) as Hst
    by (split_and!; eauto 10).
  assert (stuck (length (st_sessions s)) (chan_taken (st_chan s)) m (ss_wire x) s') as Hst'
    by (eapply rtc_preserved; [apply stuck_run|exact Hst|exact Hr]).
  destruct Hst' as (? & ? & Ht & x' & y' & ? & _ & ?). split_and!; try done; [|by eauto].
  assert (stream_reachable s') as Hre' by (unfold stream_reachable in *; by etrans). apply stream_reachable_ok in Hre' as [Hc _ _ _ _ _].
  unfold chan_ok in Hc. lia.
Qed.

(** At the [select], with a sender that is ready and has sent [l] so far. *)
Definition idle (n : nat) (l : list A) (s : stream) : Prop :=
  st_phase s = PSelect ∧ length (st_sessions s) = n ∧
  ∃ x, session_at s (current s) x ∧ ss_sender x = SReceive ∧ ss_wire x = l.

(** [client.Send] returns. *)
Lemma sent_run n s x m :
  st_phase s = PSelect → length (st_sessions s) = n → session_at s (current s) x →
  ss_sender x = SSending m →
  ∃ s', stream_run s s' ∧ st_chan s' = st_chan s ∧ idle n (ss_wire x ++ [m]) s'.
Proof.
  intros Hp Hn Hat Hx. eexists. split; [by eapply sa_session, se_sent|].
  split; [done|]. split_and!; [done|by cbn; rewrite length_insert|].
  rewrite current_set_session. eexists. by split; [eapply session_at_eq|].
Qed.

Lemma forward_run n l s m c :
  idle n l s → chan_receive (st_chan s) = Some (m, c) →
  ∃ s', rtc stream_run s s' ∧ st_chan s' = c ∧ idle n (l ++ [m]) s'.
Proof.
  intros (Hp & Hn & x & Hat & Hx & Hl) Hr.
  set (s1 := set_phase (PForward m) (set_chan c s)).
  set (s2 := set_phase PSelect (set_session (current s1) (set_sender (SSending m) x) s1)).
  assert (stream_run s s1) as H1 by (by apply sa_monitor, ms_message).
  assert (stream_run s1 s2) as H2 by (by apply sa_monitor, ms_forward).
  destruct (sent_run n s2 (set_sender (SSending m) x) m) as (s3 & H3 & Hc & Hi); try done.
  - cbn. by rewrite length_insert.
  - change (current s2) with (current (set_session (current s1) (set_sender (SSending m) x) s1)).
    rewrite current_set_session. by apply (session_at_eq s1 (current s1) x).
  - exists s3. split; [|by rewrite Hc; cbn in Hi; rewrite Hl in Hi].
    eapply rtc_l; [exact H1|]. eapply rtc_l; [exact H2|]. by apply rtc_once.
Qed.

Lemma drain_run n l s :
  idle n l s →
  ∃ s', rtc stream_run s s' ∧ chan_buffer (st_chan s') = [] ∧
    chan_sent (st_chan s') = chan_sent (st_chan s) ∧ idle n (l ++ chan_buffer (st_chan s)) s'.
Proof.
  remember (chan_buffer (st_chan s)) as b eqn:Eb. revert s l Eb.
  induction b as [|m b IH]; intros s l Eb Hi.
  - exists s. rewrite app_nil_r. done.
  - assert (chan_sent (st_chan s) !! chan_taken (st_chan s) = Some m) as Hm.
    { rewrite <- (Nat.add_0_r (chan_taken _)), <- lookup_drop. unfold chan_buffer in Eb. by rewrite <- Eb. }
    set (c := mkChan (chan_sent (st_chan s)) (S (chan_taken (st_chan s))) (chan_closed (st_chan s))).
    destruct (forward_run n l s m c) as (s1 & H1 & Hc & Hi1); [done| |].
    { unfold chan_receive. by rewrite Hm. }
    destruct (IH s1 (l ++ [m])) as (s2 & H2 & Hb & Hsent & Hi2); [|done|].
    { rewrite Hc. unfold chan_buffer in *. cbn.
      rewrite <- Nat.add_1_r, <- drop_drop, <- Eb. done. }
    exists s2. rewrite <- app_assoc in Hi2. split_and!; [by etrans|done| |done].
    by rewrite Hsent, Hc.
Qed.

(** C13: From the monitor's select, unless the session's sender has failed, the
    stream can hand the router everything it accepted: the session's message in
    flight and the whole buffer, in order. *)
Theorem stream_delivers s x :
  stream_reachable s → st_phase s = PSelect → session_at s (current s) x →
  (∀ y, ss_sender x ≠ SFailed y) →
  ∃ s' x', rtc stream_run s s' ∧ current s' = current s ∧ session_at s' (current s) x' ∧
    ss_wire x' = ss_wire x ++ pending x ++ chan_buffer (st_chan s) ∧
    chan_sent (st_chan s') = chan_sent (st_chan s) ∧ chan_buffer (st_chan s') = [].
Proof.
  intros Hre Hp Hat Hx.
  assert (∃ s1, rtc stream_run s s1 ∧ st_chan s1 = st_chan s ∧
    idle (length (st_sessions s)) (ss_wire x ++ pending x) s1) as (s1 & H1 & Hc & Hi).
  { unfold pending. destruct (ss_sender x) as [|m|m|] eqn:Es.
    - exists s. rewrite app_nil_r. split_and!; [done..|]. by split_and!; eauto.
    - destruct (sent_run _ s x m Hp eq_refl Hat Es) as (s1 & H1 & Hc & Hi).
      exists s1. split; [by apply rtc_once|done].
    - by destruct (Hx m).
    - exfalso. pose proof (Forall_lookup_1 _ _ _ _ (stream_reachable_ended _ Hre) Hat Es) as Hcl.
      apply stream_reachable_ok in Hre as [_ _ Hs _ _ _]. apply Hs in Hat. unfold in_session in Hat.
      rewrite Hp, bool_decide_true, Hcl in Hat by done. done. }
  destruct (drain_run _ _ _ Hi) as (s2 & H2 & Hb & Hsent & Hp2 & Hn2 & x2 & Hat2 & _ & Hl2).
  assert (current s2 = current s) as Hcur by (unfold current; by rewrite Hn2).
  exists s2, x2. rewrite Hc in *. split_and!; [by etrans|done|by rewrite <- Hcur| |done|done].
  by rewrite Hl2, <- app_assoc.
Qed.
End Sending.
