(* ===== verification/Ttn.v ===== *)
(** * The Things Network backend: state and operations

    [backend/thethingsnetwork/backend.go] and [util.go]: the per-gateway router
    streams, the subscriptions, the conversion of uplink packets, of statistics
    and of downlink messages, and the publishing calls, which run concurrently
    and are written as sequences of atomic actions. *)

From Stdlib Require Import String Ascii NArith ZArith Lia SpecFloat.
From stdpp Require Import base gmap list strings numbers.
From S2P Require Import Prelude GoPrim GoStrconv GoSync GoFloat Lorawan Registry Convert Metrics.
From S2P Require Import GoDuration TtnTypes.

Local Open Scope string_scope.
Local Open Scope list_scope.
Local Open Scope Z_scope.

(** ** State *)

(** [type gtwConf struct] *)
Record gtwConf : Type := mkGtwConf {
  gtwConf_id : string;
  gtwConf_key : string;
  gtwConf_token : string;
  gtwConf_settings : account_Gateway
}.

(** [routerClientForGateway]: what it sends along with a request. *)
Record routerClient : Type := mkRouterClient {
  client_gatewayID : string;
  client_token : string;
  client_closed : bool
}.

(** [downlinkStream]: its channel, its field [closing], and the wait group [setup]
    that its goroutine holds while it subscribes.  The goroutine itself is in
    [Downstream]. *)
Record downlinkStream : Type := mkDownlinkStream {
  ds_chan : gochan DownlinkMessage;
  ds_closing : bool;
  ds_setup : WaitGroup
}.

Definition set_ds_chan (c : gochan DownlinkMessage) (s : downlinkStream) : downlinkStream :=
  mkDownlinkStream c (ds_closing s) (ds_setup s).
Definition set_ds_setup (g : WaitGroup) (s : downlinkStream) : downlinkStream :=
  mkDownlinkStream (ds_chan s) (ds_closing s) g.

(** [type gtw struct].  [gtw_downlinks] lists the streams opened for the
    gateway; the field [downlink] is the last one, nil when there is none.  A
    [*gtw] is named by its MAC: [newGtw] is the only function that stores in
    the map [gateways], and it never replaces an entry. *)
Record gtw : Type := mkGtw {
  gtw_id : string;
  gtw_conf : option gtwConf;
  gtw_client : routerClient;
  gtw_uplink : gochan UplinkMessage;
  gtw_status : gochan Status;
  gtw_downlinks : list downlinkStream;
  gtw_rxRate : EWMA
}.

(** The field [downlink]. *)
Definition gtw_downlink (g : gtw) : option downlinkStream :=
  gtw_downlinks g !! pred (length (gtw_downlinks g)).

(** The goroutine of [SubscribeGatewayTX]: not started, ranging over a stream,
    blocked on [txPacketChan] with a packet, or returned. *)
Inductive consumer : Type :=
| CStart
| CRange (i : nat)
| CSend (i : nat) (tx : TXPacketBytes)
| CDone.

(** [type Backend struct], with the goroutines it started: the pending
    configuration requests and the downlink consumers.  [ttn_tx] is what was
    handed over on [txPacketChan]. *)
Record ttn : Type := mkTtn {
  ttn_accountServer : option Account;
  ttn_rxRateLimit : float64;
  ttn_gatewayConf : gmap EUI64 gtwConf;
  ttn_gateways : gmap EUI64 gtw;
  ttn_gatewayStatus : Status;
  ttn_fetches : list EUI64;
  ttn_consumers : list (EUI64 * consumer);
  ttn_tx : list TXPacketBytes
}.

(** Assignments to the fields. *)
Definition set_account (w : ttn) x : ttn :=
  mkTtn x (ttn_rxRateLimit w) (ttn_gatewayConf w) (ttn_gateways w) (ttn_gatewayStatus w)
    (ttn_fetches w) (ttn_consumers w) (ttn_tx w).
Definition set_gatewayConf (w : ttn) x : ttn :=
  mkTtn (ttn_accountServer w) (ttn_rxRateLimit w) x (ttn_gateways w) (ttn_gatewayStatus w)
    (ttn_fetches w) (ttn_consumers w) (ttn_tx w).
Definition set_gateways (w : ttn) x : ttn :=
  mkTtn (ttn_accountServer w) (ttn_rxRateLimit w) (ttn_gatewayConf w) x (ttn_gatewayStatus w)
    (ttn_fetches w) (ttn_consumers w) (ttn_tx w).
Definition set_gatewayStatus (w : ttn) x : ttn :=
  mkTtn (ttn_accountServer w) (ttn_rxRateLimit w) (ttn_gatewayConf w) (ttn_gateways w) x
    (ttn_fetches w) (ttn_consumers w) (ttn_tx w).
Definition set_goroutines (w : ttn) fetches consumers tx : ttn :=
  mkTtn (ttn_accountServer w) (ttn_rxRateLimit w) (ttn_gatewayConf w) (ttn_gateways w)
    (ttn_gatewayStatus w) fetches consumers tx.
Definition update_gtw (mac : EUI64) (f : gtw → gtw) (w : ttn) : ttn :=
  set_gateways w (alter f mac (ttn_gateways w)).

Definition set_conf (c : option gtwConf) (cl : routerClient) (g : gtw) : gtw :=
  mkGtw (gtw_id g) c cl (gtw_uplink g) (gtw_status g) (gtw_downlinks g) (gtw_rxRate g).
Definition set_uplink (c : gochan UplinkMessage) (g : gtw) : gtw :=
  mkGtw (gtw_id g) (gtw_conf g) (gtw_client g) c (gtw_status g) (gtw_downlinks g) (gtw_rxRate g).
Definition set_status (c : gochan Status) (g : gtw) : gtw :=
  mkGtw (gtw_id g) (gtw_conf g) (gtw_client g) (gtw_uplink g) c (gtw_downlinks g) (gtw_rxRate g).
Definition set_downlinks (l : list downlinkStream) (g : gtw) : gtw :=
  mkGtw (gtw_id g) (gtw_conf g) (gtw_client g) (gtw_uplink g) (gtw_status g) l (gtw_rxRate g).
Definition set_rxRate (r : EWMA) (g : gtw) : gtw :=
  mkGtw (gtw_id g) (gtw_conf g) (gtw_client g) (gtw_uplink g) (gtw_status g) (gtw_downlinks g) r.

Definition nil_pointer : string := "invalid memory address or nil pointer dereference".

(** ** Setting up *)

(** [func getID() string] of [util.go], from what the host says of the current
    user and of its name. *)
Definition getID (current hostname : result string) : string :=
  let id := "" in
  let id := match current with Ok user => id +:+ "-" +:+ user | _ => id end in
  match hostname with Ok host => id +:+ "@" +:+ host | _ => id end.

(** [func NewBackend(discovery, router)]: the discovery
    server and the connection to the router are the network's. *)
Definition NewBackend (newClient : string → string → result ())
    (discovery_Get : string → string → result string) (Dial : string → result ())
    (id discovery router : string) : result ttn :=
  let* netAddress :=
    (if bool_decide (discovery = "") then Ok router
     else let* _ := newClient discovery id in discovery_Get "router" router) in
  let* _ := Dial netAddress in
  Ok (mkTtn None f64_zero ∅ ∅ Status_zero [] [] []).

(** [func (b *Backend) SetRxRateLimit(limit float64)] *)
Definition SetRxRateLimit (limit : float64) (w : ttn) : ttn :=
  mkTtn (ttn_accountServer w) limit (ttn_gatewayConf w) (ttn_gateways w) (ttn_gatewayStatus w)
    (ttn_fetches w) (ttn_consumers w) (ttn_tx w).

(** [func (b *Backend) SetAccount(server, clientID, clientSecret) error] *)
Definition SetAccount (server clientID clientSecret : string) (w : ttn) : ttn :=
  let a := account_New server in
  set_account w (Some (
    if negb (bool_decide (clientID = "")) && negb (bool_decide (clientSecret = ""))
    then WithAuth (AuthBasic clientID clientSecret) a else a)).

(** [func (b *Backend) AddGateway(euiStr, id, key, token) error].  The account
    is a pointer: [WithAuth] changes the one the backend keeps. *)
Definition AddGateway (FindGateway : Account → string → error + account_Gateway)
    (euiStr id key token : string) (w : ttn) : result (option error * ttn) :=
  match EUI64_UnmarshalText (to_bytes euiStr) with
  | Ok eui =>
      let '(found, w) :=
        match ttn_accountServer w with
        | Some a =>
            if negb (bool_decide (token = "")) then
              let a := WithAuth (AuthAccessToken token) a in
              (FindGateway a id, set_account w (Some a))
            else if negb (bool_decide (key = "")) then
              let a := WithAuth (AuthAccessKey key) a in
              (FindGateway a id, set_account w (Some a))
            else (inr account_Gateway_zero, w)
        | None => (inr account_Gateway_zero, w)
        end in
      match found with
      | inr g =>
          let token := match Gateway_Token g with
                       | Some t => if bool_decide (t = "") then token else t
                       | None => token
                       end in
          Ok (None, set_gatewayConf w (<[eui := mkGtwConf id key token g]> (ttn_gatewayConf w)))
      | inl e => Ok (Some e, w)
      end
  | Err e => Ok (Some e, w)
  | Panic p => Panic p
  end.

Definition with_bridge (x : string) (s : Status) : Status :=
  let '(mkStatus a b c d e f g _ i j k l m n o) := s in mkStatus a b c d e f g x i j k l m n o.
Definition with_region (x : string) (s : Status) : Status :=
  let '(mkStatus a b c d e f _ h i j k l m n o) := s in mkStatus a b c d e f x h i j k l m n o.
Definition with_rtt (x : Z) (s : Status) : Status :=
  let '(mkStatus a b c d e f g h i j _ l m n o) := s in mkStatus a b c d e f g h i j x l m n o.

Definition InjectBridge (bridge : string) (w : ttn) : ttn :=
  set_gatewayStatus w (with_bridge bridge (ttn_gatewayStatus w)).
Definition InjectRegion (region : string) (w : ttn) : ttn :=
  set_gatewayStatus w (with_region region (ttn_gatewayStatus w)).
Definition InjectRTT (rtt : Z) (w : ttn) : ttn :=
  set_gatewayStatus w (with_rtt (to_uint32 rtt) (ttn_gatewayStatus w)).

(** ** Gateways *)

(** [fmt.Sprintf("eui-%s", mac)] *)
Definition eui_id (mac : EUI64) : string := "eui-" +:+ EUI64_String mac.

(** [func (b *Backend) getGtw(mac) *gtw] *)
Definition getGtw (w : ttn) (mac : EUI64) : option gtw := ttn_gateways w !! mac.

Section Gateways.
Context `{MathExp}.

(** [func (b *Backend) newGtw(mac) *gtw], under the lock.  The configuration
    request runs in a goroutine of its own ([fetch_conf]). *)
Definition newGtw (mac : EUI64) (w : ttn) : ttn :=
  match ttn_gateways w !! mac with
  | Some _ => w
  | None =>
      let conf := ttn_gatewayConf w !! mac in
      let gatewayID := match conf with Some c => gtwConf_id c | None => eui_id mac end in
      let gatewayToken := match conf with Some c => gtwConf_token c | None => "token" end in
      let gateway :=
        mkGtw gatewayID conf (mkRouterClient gatewayID gatewayToken false)
          chan_make chan_make [] NewEWMA1 in
      let w := set_gateways w (<[mac := gateway]> (ttn_gateways w)) in
      match conf, ttn_accountServer w with
      | None, Some _ => set_goroutines w (ttn_fetches w ++ [mac]) (ttn_consumers w) (ttn_tx w)
      | _, _ => w
      end
  end.

(** The goroutine [newGtw] starts: it asks with the credentials the account has
    by then. *)
Definition fetch_conf (FindGateway : Account → string → error + account_Gateway)
    (mac : EUI64) (w : ttn) : result ttn :=
  match ttn_gateways w !! mac, ttn_accountServer w with
  | Some g, Some a =>
      match FindGateway a (gtw_id g) with
      | inr s =>
          let client := gtw_client g in
          Ok (match Gateway_Token s with
              | Some t =>
                  update_gtw mac (set_conf (Some (mkGtwConf (gtw_id g) "" t s))
                    (mkRouterClient (client_gatewayID client) t (client_closed client))) w
              | None => update_gtw mac (set_conf (Some (mkGtwConf (gtw_id g) "" "" s)) client) w
              end)
      | inl _ => Ok w
      end
  | _, _ => Panic nil_pointer
  end.

(** [func (b *Backend) tick()] *)
Definition tick (w : ttn) : ttn :=
  set_gateways w ((λ g, set_rxRate (EWMA_Tick (gtw_rxRate g)) g) <$> ttn_gateways w).

(** [getGtw], and [newGtw] when it finds nothing. *)
Definition ensure_gtw (mac : EUI64) (w : ttn) : ttn :=
  match getGtw w mac with
  | Some _ => w
  | None => newGtw mac w
  end.
End Gateways.

(** ** Downlink *)

(** [NewMonitoredDownlinkStream]: its goroutine is about to subscribe. *)
Definition downlinkStream_new : downlinkStream := mkDownlinkStream chan_make false (wg_Add wg_zero).

(** [func (s *downlinkStream) Close()], to its end ([true]) or to where it waits in
    [s.setup.Wait()]; then the rest of it, when its goroutine runs again.
    [s.cancel()] ends the session: [Downstream] has it. *)
Definition downlink_Close (s : downlinkStream) : bool * downlinkStream :=
  let p := wg_Wait (ds_setup s) in
  if p.1 then (true, mkDownlinkStream (ds_chan s) true p.2) else (false, set_ds_setup p.2 s).

Definition downlink_Close_woken (s : downlinkStream) : option (result downlinkStream) :=
  r ← wg_wake (ds_setup s); Some (let* g := r in Ok (mkDownlinkStream (ds_chan s) true g)).

(** [func (b *Backend) SubscribeGatewayTX(mac) error]: a new stream, and a
    goroutine that will range over the stream it finds. *)
Definition SubscribeGatewayTX `{MathExp} (mac : EUI64) (w : ttn) : option error * ttn :=
  let w := ensure_gtw mac w in
  let w := update_gtw mac (λ g, set_downlinks (gtw_downlinks g ++ [downlinkStream_new]) g) w in
  (None, set_goroutines w (ttn_fetches w) (ttn_consumers w ++ [(mac, CStart)]) (ttn_tx w)).

(** The body of the loop of [SubscribeGatewayTX]: the packet for
    [txPacketChan], or [None] for a message that is skipped. *)
Definition downlink_packet (mac : EUI64) (m : DownlinkMessage) : result (option TXPacketBytes) :=
  match Downlink_Lorawan m with
  | None => Ok None
  | Some lora =>
      let* dataRate :=
        (if Lorawan_Modulation lora =? Modulation_LORA then
           match ParseDataRate (Lorawan_DataRate lora) with
           | Some (sf, bw) => Ok (mkDataRate LoRaModulation (to_int sf) (to_int bw) 0)
           | None => Panic nil_pointer
           end
         else Ok DataRate_zero) in
      let dataRate :=
        if Lorawan_Modulation lora =? Modulation_FSK
        then mkDataRate FSKModulation (SpreadFactor dataRate) (Bandwidth dataRate)
               (to_int (Lorawan_BitRate lora))
        else dataRate in
      match Downlink_GatewayConfiguration m with
      | None => Panic nil_pointer
      | Some c =>
          Ok (Some {|
            TXPacket_TXInfo := {|
              TXInfo_MAC := mac;
              TXInfo_Immediately := false;
              TXInfo_Timestamp := Tx_Timestamp c;
              TXInfo_Frequency := to_int (Tx_Frequency c);
              TXInfo_Power := to_int (Tx_Power c);
              TXInfo_DataRate := dataRate;
              TXInfo_CodeRate := Lorawan_CodingRate lora;
              TXInfo_IPol := None
            |};
            TXPacket_PHYPayload := Downlink_Payload m
          |})
      end
  end.

Definition set_consumer (j : nat) (mac : EUI64) (c : consumer) (w : ttn) : ttn :=
  set_goroutines w (ttn_fetches w) (<[j := (mac, c)]> (ttn_consumers w)) (ttn_tx w).

Definition set_stream (mac : EUI64) (i : nat) (s : downlinkStream) (w : ttn) : ttn :=
  update_gtw mac (λ g, set_downlinks (<[i := s]> (gtw_downlinks g)) g) w.

(** The stream [i] of a gateway. *)
Definition stream (w : ttn) (mac : EUI64) (i : nat) : option downlinkStream :=
  g ← getGtw w mac; gtw_downlinks g !! i.

(** [func (b *Backend) UnSubscribeGatewayTX(mac) error], to its end or to where the
    [Close] of the stream waits; then the rest of it.  Only [SubscribeGatewayTX]
    stores in the field [downlink], and the registry calls neither while the other
    runs: it is still the last stream. *)
Definition UnSubscribeGatewayTX_call (mac : EUI64) (w : ttn) : answer ttn :=
  match getGtw w mac with
  | Some g =>
      match gtw_downlink g with
      | Some s =>
          let '(returned, s) := downlink_Close s in
          let w := set_stream mac (pred (length (gtw_downlinks g))) s w in
          if returned then Returned None w else Waits w
      | None => Returned None w
      end
  | None => Returned None w
  end.

Definition UnSubscribeGatewayTX_woken (mac : EUI64) (w : ttn) : option (answer ttn) :=
  g ← getGtw w mac; s ← gtw_downlink g; r ← downlink_Close_woken s;
  Some (match r with
        | Ok s => Returned None (set_stream mac (pred (length (gtw_downlinks g))) s w)
        | Err e => Returned (Some e) w
        | Panic why => Panicked why
        end).

Definition UnSubscribeGatewayTX : waiting_callback ttn :=
  mkWaitingCallback UnSubscribeGatewayTX_call UnSubscribeGatewayTX_woken.

(** The next action of the consumer [j]: [None] when it is blocked.  A consumer
    that holds a packet waits for the receiver on [txPacketChan]. *)
Definition consumer_step (j : nat) (w : ttn) : option (result ttn) :=
  '(mac, c) ← ttn_consumers w !! j;
  match c with
  | CStart =>
      g ← getGtw w mac;
      match gtw_downlink g with
      | Some _ => Some (Ok (set_consumer j mac (CRange (pred (length (gtw_downlinks g)))) w))
      | None => Some (Panic nil_pointer)
      end
  | CRange i =>
      s ← stream w mac i;
      match chan_receive (ds_chan s) with
      | Some (m, ch) =>
          let w := set_stream mac i (set_ds_chan ch s) w in
          Some (let* p := downlink_packet mac m in
                Ok (match p with
                    | Some tx => set_consumer j mac (CSend i tx) w
                    | None => w
                    end))
      | None =>
          if chan_closed (ds_chan s) then Some (Ok (set_consumer j mac CDone w)) else None
      end
  | CSend _ _ | CDone => None
  end.

(** The rendezvous of the consumer [j] with the receiver. *)
Definition handover (j : nat) (w : ttn) : option (TXPacketBytes * ttn) :=
  '(mac, c) ← ttn_consumers w !! j;
  match c with
  | CSend i tx =>
      let w := set_consumer j mac (CRange i) w in
      Some (tx, set_goroutines w (ttn_fetches w) (ttn_consumers w) (ttn_tx w ++ [tx]))
  | _ => None
  end.

(** ** Uplink *)

(** [func (b *Backend) convertRXPacket(rxPacket)], at the instant [now]. *)
Definition convertRXPacket (now : Time) (rxPacket : RXPacketBytes) : UplinkMessage :=
  let info := RXPacket_RXInfo rxPacket in
  let rate := RXInfo_DataRate info in
  let lora := bool_decide (Modulation rate = LoRaModulation) in
  let fsk := negb lora && bool_decide (Modulation rate = FSKModulation) in
  let modulation := if lora then Modulation_LORA else if fsk then Modulation_FSK else 0 in
  let datarate := if lora then sprintf_data_rate (SpreadFactor rate) (Bandwidth rate) else "" in
  let bitrate := if fsk then to_uint32 (BitRate rate) else 0 in
  let time := if minute_apart (RXInfo_Time info) now then 0 else RXInfo_Time info in
  {|
    Uplink_Payload := RXPacket_PHYPayload rxPacket;
    Uplink_ProtocolMetadata := {|
      Lorawan_Modulation := modulation;
      Lorawan_DataRate := datarate;
      Lorawan_BitRate := bitrate;
      Lorawan_CodingRate := RXInfo_CodeRate info
    |};
    Uplink_GatewayMetadata := {|
      Rx_GatewayId := eui_id (RXInfo_MAC info);
      Rx_Timestamp := RXInfo_Timestamp info;
      Rx_Time := to_int64 time;
      Rx_RfChain := to_uint32 (RXInfo_RFChain info);
      Rx_Channel := to_uint32 (RXInfo_Channel info);
      Rx_Frequency := to_uint64 (RXInfo_Frequency info);
      Rx_Rssi := f32_of_Z (RXInfo_RSSI info);
      Rx_Snr := f32_of_f64 (RXInfo_LoRaSNR info)
    |}
  |}.

(** ** Statistics *)

Definition custom_string (key : string) (stats : GatewayStatsPacket) (default : string) : string :=
  match Stats_CustomData stats !! key with
  | Some (IString s) => s
  | _ => default
  end.

(** [func (b *Backend) convertStatsPacket(stats)] *)
Definition convertStatsPacket (w : ttn) (stats : GatewayStatsPacket) : Status :=
  let d := ttn_gatewayStatus w in
  let nonzero x := negb (f64_eqb x f64_zero) in
  {|
    Status_Timestamp := Status_Timestamp d;
    Status_Time := to_int64 (Stats_Time stats);
    Status_Ip := match Stats_CustomData stats !! "ip" with
                 | Some (IStrings ip) => ip
                 | _ => Status_Ip d
                 end;
    Status_Platform := custom_string "platform" stats (Status_Platform d);
    Status_ContactEmail := custom_string "contactEmail" stats (Status_ContactEmail d);
    Status_Description := custom_string "description" stats (Status_Description d);
    Status_Region := Status_Region d;
    Status_Bridge := Status_Bridge d;
    Status_Router := Status_Router d;
    Status_Gps :=
      if nonzero (Stats_Latitude stats) || nonzero (Stats_Longitude stats)
         || nonzero (Stats_Altitude stats)
      then Some (mkGPSMetadata 0 (f32_of_f64 (Stats_Latitude stats))
                   (f32_of_f64 (Stats_Longitude stats)) (f64_to_int32 (Stats_Altitude stats)))
      else Status_Gps d;
    Status_Rtt := Status_Rtt d;
    Status_RxIn := to_uint32 (Stats_RXPacketsReceived stats);
    Status_RxOk := to_uint32 (Stats_RXPacketsReceivedOK stats);
    Status_TxIn := Status_TxIn d;
    Status_TxOk := Status_TxOk d
  |}.

Definition with_gps (x : option GPSMetadata) (s : Status) : Status :=
  let '(mkStatus a b c d e f g h i _ k l m n o) := s in mkStatus a b c d e f g h i x k l m n o.
Definition with_description (x : string) (s : Status) : Status :=
  let '(mkStatus a b c d e _ g h i j k l m n o) := s in mkStatus a b c d e x g h i j k l m n o.
Definition with_platform (x : string) (s : Status) : Status :=
  let '(mkStatus a b c _ e f g h i j k l m n o) := s in mkStatus a b c x e f g h i j k l m n o.

(** The part of [PublishGatewayStats] that fills in what the gateway did not
    report from its registration at the account server. *)
Definition complete_status (conf : option gtwConf) (status : Status) : Status :=
  match conf with
  | None => status
  | Some c =>
      let settings := gtwConf_settings c in
      let attrs := Gateway_Attributes settings in
      let status :=
        match Status_Gps status, Gateway_Location settings with
        | None, Some l =>
            with_gps (Some (mkGPSMetadata 0 (f32_of_f64 (Location_Latitude l))
              (f32_of_f64 (Location_Longitude l)) (f64_to_int32 (Gateway_Altitude settings)))) status
        | _, _ => status
        end in
      let status :=
        match Attr_Description attrs with
        | Some d => if bool_decide (Status_Description status = "") then with_description d status
                    else status
        | None => status
        end in
      if bool_decide (Status_Platform status = "") then
        let status :=
          match Attr_Brand attrs with
          | Some b => with_platform (Status_Platform status +:+ b) status
          | None => status
          end in
        match Attr_Model attrs with
        | Some m => with_platform (Status_Platform status +:+ (" " +:+ m)) status
        | None => status
        end
      else status
  end.

(** ** Publishing *)

(** A goroutine that acts on the backend: each step is atomic, and the next one
    depends on the state the step ran in. *)
Inductive tprog (A : Type) : Type :=
| TRet (a : A)
| TStep (act : Time → ttn → result ttn) (k : ttn → tprog A).
Arguments TRet {A} a.
Arguments TStep {A} act k.

(** Running a goroutine without interruption, at one instant. *)
Fixpoint trun {A} (now : Time) (p : tprog A) (w : ttn) : result (A * ttn) :=
  match p with
  | TRet a => Ok (a, w)
  | TStep act k => let* w' := act now w in trun now (k w) w'
  end.

Definition skip : Time → ttn → result ttn := λ _ w, Ok w.

Section Publishing.
Context `{MathExp}.

(** [gtw := b.getGtw(mac); if gtw == nil { gtw = b.newGtw(mac) }]: other
    goroutines run between the two calls. *)
Definition with_gtw {A} (mac : EUI64) (k : tprog A) : tprog A :=
  TStep skip (λ w,
    match getGtw w mac with
    | Some _ => k
    | None => TStep (λ _ w, Ok (newGtw mac w)) (λ _, k)
    end).

(** [gtw.rxRate.Update(1)] *)
Definition rate_update (mac : EUI64) (w : ttn) : ttn :=
  update_gtw mac (λ g, set_rxRate (EWMA_Update 1 (gtw_rxRate g)) g) w.

(** [b.rxRateLimit > 0 && gtw.rxRate.Rate() > b.rxRateLimit] *)
Definition rate_exceeded (w : ttn) (g : gtw) : bool :=
  f64_ltb f64_zero (ttn_rxRateLimit w) && f64_ltb (ttn_rxRateLimit w) (EWMA_Rate (gtw_rxRate g)).

(** [gtw.uplink.Send(b.convertRXPacket(rxPacket))] *)
Definition uplink_send (mac : EUI64) (rxPacket : RXPacketBytes) (now : Time) (w : ttn) : result ttn :=
  match getGtw w mac with
  | Some g =>
      let* c := chan_offer (convertRXPacket now rxPacket) (gtw_uplink g) in
      Ok (update_gtw mac (set_uplink c) w)
  | None => Panic nil_pointer
  end.

(** [func (b *Backend) PublishGatewayRX(mac, rxPacket) error] *)
Definition PublishGatewayRX (mac : EUI64) (rxPacket : RXPacketBytes) : tprog (option error) :=
  with_gtw mac (
  TStep (λ _ w, Ok (rate_update mac w)) (λ _,
  TStep skip (λ w,
    match getGtw w mac with
    | Some g =>
        if rate_exceeded w g then TRet None
        else TStep (uplink_send mac rxPacket) (λ _, TRet None)
    | None => TStep (λ _ _, Panic nil_pointer) (λ _, TRet None)
    end))).

(** [gtw.status.Send(status)], with [confMu] held. *)
Definition status_send (mac : EUI64) (stats : GatewayStatsPacket) (now : Time) (w : ttn) : result ttn :=
  match getGtw w mac with
  | Some g =>
      let* c := chan_offer (complete_status (gtw_conf g) (convertStatsPacket w stats)) (gtw_status g) in
      Ok (update_gtw mac (set_status c) w)
  | None => Panic nil_pointer
  end.

(** [func (b *Backend) PublishGatewayStats(mac, stats) error] *)
Definition PublishGatewayStats (mac : EUI64) (stats : GatewayStatsPacket) : tprog (option error) :=
  with_gtw mac (TStep (status_send mac stats) (λ _, TRet None)).
End Publishing.
