(* ===== verification/Downstream.v ===== *)
(** * The monitored downlink stream

    [NewMonitoredDownlinkStream] of the vendored [api/router/client_streams.go]:
    the goroutine that keeps a subscription to the router alive and puts what it
    receives in the buffered channel of [Channel()], and [Close], which cancels
    the subscription. *)

From Stdlib Require Import String Ascii NArith ZArith Lia.
From stdpp Require Import base gmap list strings numbers relations.
From S2P Require Import Prelude GoPrim GoSync TtnTypes Ttn Streams.

Local Open Scope string_scope.
Local Open Scope list_scope.

(** ** State *)

(** Where the goroutine is: in [Subscribe], after an attempt that failed,
    sleeping, at [client.Recv], after the inner loop, after the outer loop, or
    returned. *)
Inductive dphase : Type :=
| DConnect
| DFailed
| DSleep
| DRecv
| DAfter
| DEnding
| DStopped.

(** [downlinkStream].  [Subscribe] makes a context for every attempt: the
    contexts are numbered, with whether they were cancelled; [s.cancel] is nil or
    cancels one of them. *)
Record dstream : Type := mkDstream {
  dn_chan : gochan DownlinkMessage;
  dn_closing : bool;
  dn_setup : WaitGroup;
  dn_cancel : option nat;
  dn_retries : nat;
  dn_phase : dphase;
  dn_contexts : list bool
}.

#[export] Instance dphase_eq_dec : EqDecision dphase.
Proof. solve_decision. Defined.

Definition dn_new : dstream := mkDstream chan_make false (wg_Add wg_zero) None 0 DConnect [].

Definition dn_set_chan c (s : dstream) : dstream :=
  mkDstream c (dn_closing s) (dn_setup s) (dn_cancel s) (dn_retries s) (dn_phase s) (dn_contexts s).
Definition dn_set_setup g (s : dstream) : dstream :=
  mkDstream (dn_chan s) (dn_closing s) g (dn_cancel s) (dn_retries s) (dn_phase s) (dn_contexts s).
Definition dn_set_phase n p (s : dstream) : dstream :=
  mkDstream (dn_chan s) (dn_closing s) (dn_setup s) (dn_cancel s) n p (dn_contexts s).

(** ** The goroutine *)

(** [client, s.cancel, err = s.client.Subscribe(); s.setup.Done()] *)
Definition dn_subscribe p (s : dstream) : result dstream :=
  let* g := wg_Done (dn_setup s) in
  Ok (mkDstream (dn_chan s) (dn_closing s) g (Some (length (dn_contexts s))) (dn_retries s) p
        (dn_contexts s ++ [false])).

(** [s.setup.Add(1)], into the back-off *)
Definition dn_sleep (s : dstream) : dstream :=
  dn_set_phase (dn_retries s) DSleep (dn_set_setup (wg_Add (dn_setup s)) s).

(** [message, err = client.Recv()] and what the inner loop does with them *)
Definition dn_receive (message : option DownlinkMessage) (err : option error) (s : dstream)
    : result dstream :=
  let* c :=
    (match message with
     | Some m => chan_offer m (dn_chan s)
     | None => Ok (dn_chan s)
     end) in
  let s := dn_set_chan c s in
  Ok (match err with
      | Some _ => dn_set_phase (dn_retries s) DAfter s
      | None => dn_set_phase 0 DRecv s
      end).

Inductive dn_step : dstream → result dstream → Prop :=
| dn_connected s : dn_phase s = DConnect → dn_step s (dn_subscribe DRecv s)
| dn_canceled s : dn_phase s = DConnect → dn_step s (dn_subscribe DEnding s)
| dn_failed s : dn_phase s = DConnect → dn_step s (dn_subscribe DFailed s)
| dn_retry s : dn_phase s = DFailed → dn_step s (Ok (dn_sleep s))
| dn_wake s : dn_phase s = DSleep → dn_step s (Ok (dn_set_phase (S (dn_retries s)) DConnect s))
| dn_message s message err : dn_phase s = DRecv → dn_step s (dn_receive message err s)
| dn_stop s :
    dn_phase s = DAfter → dn_closing s = true →
    dn_step s (Ok (dn_set_phase (dn_retries s) DEnding s))
| dn_again s : dn_phase s = DAfter → dn_closing s = false → dn_step s (Ok (dn_sleep s))
(* close(s.ch) *)
| dn_end s :
    dn_phase s = DEnding →
    dn_step s (let* c := chan_close (dn_chan s) in
               Ok (dn_set_phase (dn_retries s) DStopped (dn_set_chan c s))).

(** ** [Close] *)

(** [s.closing = true; if s.cancel != nil { s.cancel() }] *)
Definition dn_close_body (s : dstream) : dstream :=
  mkDstream (dn_chan s) true (dn_setup s) (dn_cancel s) (dn_retries s) (dn_phase s)
    (match dn_cancel s with
     | Some i => <[i := true]> (dn_contexts s)
     | None => dn_contexts s
     end).

(** A call of [Close], up to the end or to [s.setup.Wait()]; then the rest of it,
    when the goroutine runs again. *)
Definition dn_Close (s : dstream) : dstream :=
  let p := wg_Wait (dn_setup s) in
  if p.1 then dn_close_body (dn_set_setup p.2 s) else dn_set_setup p.2 s.

Definition dn_Close_woken (s : dstream) : option (result dstream) :=
  r ← wg_wake (dn_setup s); Some (let* g := r in Ok (dn_close_body (dn_set_setup g s))).

(** With the consumer that ranges over [Channel()]. *)
Inductive dn_act : dstream → result dstream → Prop :=
| da_step s r : dn_step s r → dn_act s r
| da_range s m c : chan_receive (dn_chan s) = Some (m, c) → dn_act s (Ok (dn_set_chan c s))
| da_close s : dn_act s (Ok (dn_Close s))
| da_close_woken s r : dn_Close_woken s = Some r → dn_act s r.

Definition dn_run (s s' : dstream) : Prop := dn_act s (Ok s').
Definition dn_reachable (s : dstream) : Prop := rtc dn_run dn_new s.

Definition dn_busy (s : dstream) : bool :=
  match dn_phase s with DConnect | DSleep => true | _ => false end.

(** ** The channel is closed once, at the end *)

Record dn_ok (s : dstream) : Prop := mkDnOk {
  dok_chan : chan_ok (dn_chan s);
  dok_setup : wg_turn (dn_busy s) (dn_setup s);
  dok_closed : chan_closed (dn_chan s) = bool_decide (dn_phase s = DStopped);
  (* [s.cancel] cancels the latest subscription *)
  dok_cancel : dn_busy s = false →
    ∃ n, length (dn_contexts s) = S n ∧ dn_cancel s = Some n
}.

Lemma dn_new_ok : dn_ok dn_new.
Proof. by split; [unfold chan_ok; cbn; lia|..]. Qed.

Lemma dn_subscribe_ok p s :
  dn_ok s → dn_phase s = DConnect → p ∈ [DRecv; DEnding; DFailed] →
  ∃ g, dn_subscribe p s = Ok (mkDstream (dn_chan s) (dn_closing s) g (Some (length (dn_contexts s)))
      (dn_retries s) p (dn_contexts s ++ [false])) ∧ dn_ok (mkDstream (dn_chan s) (dn_closing s) g
      (Some (length (dn_contexts s))) (dn_retries s) p (dn_contexts s ++ [false])).
Proof.
  intros [Hc Hg Hcl _] Hp Hin. unfold dn_busy in Hg. rewrite Hp in *.
  destruct (wg_turn_Done _ Hg) as (g & E & Hg'). unfold dn_subscribe. rewrite E. eexists. split; [done|].
  assert (length (dn_contexts s ++ [false]) = S (length (dn_contexts s))) as Hl
    by (rewrite length_app; cbn; lia).
  repeat (apply elem_of_cons in Hin as [->|Hin]; [split; cbn; eauto|]). by apply not_elem_of_nil in Hin.
Qed.

Lemma dn_sleep_ok s : dn_ok s → dn_busy s = false → dn_phase s ≠ DStopped → dn_ok (dn_sleep s).
Proof.
  intros [Hc Hg Hcl _] Hb Hp. rewrite Hb in Hg. split; [done|by apply wg_turn_Add| |done].
  cbn. rewrite Hcl. by rewrite bool_decide_false.
Qed.

Lemma dn_receive_ok message err s :
  dn_ok s → dn_phase s = DRecv → ∃ s', dn_receive message err s = Ok s' ∧ dn_ok s'.
Proof.
  intros [Hc Hg Hcl Hca] Hp. unfold dn_busy in Hg, Hca. rewrite Hp in *.
  assert (∃ c, (match message with Some m => chan_offer m (dn_chan s) | None => Ok (dn_chan s) end) = Ok c ∧
    chan_ok c ∧ chan_closed c = false) as (c & E & Hc' & Hcl').
  { destruct message as [m|]; [|by eexists].
    destruct (chan_offer m (dn_chan s)) as [c|e|q] eqn:E;
      [|unfold chan_offer in E; rewrite Hcl in E; by destruct (_ <? _)%nat..].
    exists c. split_and!; [done|by eapply chan_offer_ok|].
    by apply chan_offer_prefix in E as (_ & _ & _ & ->). }
  unfold dn_receive. rewrite E. eexists. split; [done|]. by destruct err.
Qed.

Lemma dn_phase_ok n p s :
  dn_ok s → dn_busy (dn_set_phase n p s) = dn_busy s → p ≠ DStopped → dn_phase s ≠ DStopped →
  dn_ok (dn_set_phase n p s).
Proof.
  intros [Hc Hg Hcl Hca] Hb Hp Hs. split; [done|by rewrite Hb| |by rewrite Hb]. cbn. rewrite Hcl.
  by rewrite !bool_decide_false.
Qed.

Lemma dn_step_ok s r : dn_ok s → dn_step s r → ∃ s', r = Ok s' ∧ dn_ok s'.
Proof.
  intros Hok Hs. destruct Hs as [s Hp|s Hp|s Hp|s Hp|s Hp|s m e Hp|s Hp _|s Hp _|s Hp];
    try (edestruct dn_subscribe_ok as (g & E & Hok'); [exact Hok|exact Hp| |rewrite E; by eexists];
         rewrite !elem_of_cons; tauto);
    try (by apply dn_receive_ok);
    try (eexists; split; [done|]);
    try (by apply dn_sleep_ok; unfold dn_busy; rewrite ?Hp);
    try (by apply dn_phase_ok; unfold dn_busy; cbn; rewrite ?Hp).
  destruct Hok as [Hc Hg Hcl Hca]. unfold dn_busy in Hg, Hca. rewrite Hp in *. cbn in Hcl.
  unfold chan_close. rewrite Hcl. eexists. split; [done|]. by split.
Qed.

Lemma dn_set_setup_ok g s : dn_ok s → wg_turn (dn_busy s) g → dn_ok (dn_set_setup g s).
Proof. intros [Hc _ Hcl Hca] Hg. by split. Qed.

Lemma dn_close_body_ok s : dn_ok s → dn_ok (dn_close_body s).
Proof.
  intros [Hc Hg Hcl Hca]. split; try done. intros Hb. destruct (Hca Hb) as (n & Hl & E).
  exists n. cbn. rewrite E. by rewrite length_insert.
Qed.

Lemma dn_act_ok s r :
  dn_ok s → dn_act s r →
  match r with
  | Ok s' => dn_ok s'
  | Panic p => p = reuse_panic ∧ 0 < wg_released (dn_setup s) ∧ dn_busy s = true
  | Err _ => False
  end.
Proof.
  intros Hok Hs. pose proof (dok_setup _ Hok) as Hg.
  destruct Hs as [s r Hs|s m c Hr|s|s r Hw].
  - destruct (dn_step_ok _ _ Hok Hs) as (s' & -> & ?). done.
  - destruct Hok as [Hc _ Hcl Hca]. split; [by eapply chan_receive_ok|done| |done].
    unfold chan_receive in Hr. apply bind_Some in Hr as (y & _ & [= _ <-]). done.
  - apply wg_turn_Wait in Hg as [_ Hg]. unfold dn_Close.
    destruct (wg_Wait _) as [[] g]; [apply dn_close_body_ok|]; by apply dn_set_setup_ok.
  - unfold dn_Close_woken in Hw. apply bind_Some in Hw as (rg & Hw & [= <-]).
    pose proof (wg_turn_wake _ _ _ Hg Hw) as Hwake.
    destruct rg as [g|e|p]; cbn; [|done|].
    + apply dn_close_body_ok, dn_set_setup_ok; [done|]. by destruct Hwake as [-> ?].
    + split; [apply Hwake|]. split; [|apply Hwake].
      unfold wg_wake in Hw. destruct (wg_released _); [done|lia].
Qed.

Lemma dn_reachable_ok s : dn_reachable s → dn_ok s.
Proof. apply rtc_preserved; [|apply dn_new_ok]. intros a b Hok Hs. by apply (dn_act_ok _ _ Hok) in Hs. Qed.

(** C16: In every reachable state of a downlink stream its channel is closed exactly
    when its goroutine has returned, so nothing is sent on or closes a closed
    channel; only a Close that waited for an attempt can panic. *)
Theorem downlink_channel_closed_once s r :
  dn_reachable s → dn_act s r →
  (chan_closed (dn_chan s) = true ↔ dn_phase s = DStopped) ∧
  match r with
  | Ok _ => True
  | Panic p => p = reuse_panic ∧ 0 < wg_released (dn_setup s) ∧ (dn_phase s = DSleep ∨ dn_phase s = DConnect)
  | Err _ => False
  end.
Proof.
  intros Hr Hs. apply dn_reachable_ok in Hr. split.
  - rewrite (dok_closed _ Hr). apply bool_decide_eq_true.
  - pose proof (dn_act_ok _ _ Hr Hs) as Hok. destruct r as [s'|e|p]; [done..|].
    destruct Hok as (-> & Hrel & Hb). split_and!; [done..|].
    unfold dn_busy in Hb. destruct (dn_phase s); auto; done.
Qed.

(** ** [Close] during a session *)

(** A stream that is about to end. *)
Definition dn_ending (n : nat) (s : dstream) : Prop :=
  dn_closing s = true ∧ length (dn_contexts s) = n ∧
  match dn_phase s with DRecv | DAfter | DEnding | DStopped => True | _ => False end.

Lemma dn_ending_close n g s : dn_ending n s → dn_ending n (dn_close_body (dn_set_setup g s)).
Proof.
  intros (Hc & Hn & Hp). split_and!; [done| |done]. cbn. destruct (dn_cancel s); [|done].
  by rewrite length_insert.
Qed.

Lemma dn_ending_run n s s' : dn_ending n s → dn_run s s' → dn_ending n s'.
Proof.
  intros Hn Hs. unfold dn_run in Hs. remember (Ok s') as r eqn:Er.
  destruct Hs as [s r Hs|s m c Hr|s|s r Hw].
  - destruct Hn as (Hc & Hn & Hp).
    destruct Hs as [s Hq|s Hq|s Hq|s Hq|s Hq|s m e Hq|s Hq _|s Hq Hcl|s Hq];
      rewrite Hq in Hp; try done; try congruence; simplify_eq/=; try done.
    + unfold dn_receive in Er. apply rbind_ok in Er as (c & _ & [= <-]). by destruct e.
    + apply rbind_ok in Er as (c & _ & [= <-]). done.
  - by injection Er as <-.
  - injection Er as <-. unfold dn_Close. destruct (wg_Wait _) as [[] g]; [by apply dn_ending_close|done].
  - subst. unfold dn_Close_woken in Hw. apply bind_Some in Hw as (rg & _ & [= Hw]).
    apply rbind_ok in Hw as (g & _ & [= <-]). by apply dn_ending_close.
Qed.

(** From there, the error that answers the cancellation ends the goroutine. *)
Lemma dn_ending_stops n s :
  dn_ok s → dn_ending n s →
  ∃ s', rtc dn_run s s' ∧ dn_phase s' = DStopped ∧ chan_closed (dn_chan s') = true ∧
    chan_sent (dn_chan s') = chan_sent (dn_chan s).
Proof.
  intros Hok (Hc & Hn & Hp).
  assert (∀ t, dn_phase t = DEnding → dn_ok t → ∃ s', rtc dn_run t s' ∧ dn_phase s' = DStopped ∧
    chan_closed (dn_chan s') = true ∧ chan_sent (dn_chan s') = chan_sent (dn_chan t)) as Hend.
  { intros t Ht [_ _ Hcl _]. rewrite Ht in Hcl. cbn in Hcl. eexists. split.
    { apply rtc_once, da_step. pose proof (dn_end t Ht) as He. unfold chan_close in He.
      rewrite Hcl in He. exact He. } done. }
  assert (∀ t, dn_phase t = DAfter → dn_closing t = true → dn_ok t → ∃ s', rtc dn_run t s' ∧
    dn_phase s' = DStopped ∧ chan_closed (dn_chan s') = true ∧
    chan_sent (dn_chan s') = chan_sent (dn_chan t)) as Hafter.
  { intros t Ht Htc Hto. pose proof (dn_stop t Ht Htc) as Hs.
    destruct (dn_step_ok _ _ Hto Hs) as (? & [= <-] & Hto').
    destruct (Hend (dn_set_phase (dn_retries t) DEnding t) eq_refl Hto') as (s' & Hr & ?). exists s'. split; [|done].
    eapply rtc_l; [|exact Hr]. by apply da_step. }
  destruct (dn_phase s) eqn:Ep; try done; [|by apply Hafter|by apply Hend|].
  - pose proof (dn_message s None (Some (ErrExt "canceled")) Ep) as Hs.
    destruct (dn_step_ok _ _ Hok Hs) as (? & [= <-] & Hok').
    destruct (Hafter (dn_set_phase (dn_retries s) DAfter (dn_set_chan (dn_chan s) s)) eq_refl Hc Hok') as (s' & Hr & ?). exists s'. split; [|done].
    eapply rtc_l; [|exact Hr]. by apply da_step.
  - exists s. split_and!; [done..| |done]. rewrite (dok_closed _ Hok), Ep. done.
Qed.

(** C17: Closing a downlink stream during a session cancels that subscription and no
    other is ever made; from every state after it the goroutine can end and close
    the channel, with nothing received lost. *)
Theorem close_ends_session s s' :
  dn_reachable s → dn_phase s = DRecv → rtc dn_run (dn_Close s) s' →
  last (dn_contexts (dn_Close s)) = Some true ∧
  length (dn_contexts s') = length (dn_contexts s) ∧
  ∃ s2, rtc dn_run s' s2 ∧ dn_phase s2 = DStopped ∧ chan_closed (dn_chan s2) = true ∧
    chan_sent (dn_chan s2) = chan_sent (dn_chan s').
Proof.
  intros Hre Hp Hr. assert (dn_reachable (dn_Close s)) as Hre1.
  { unfold dn_reachable in *. etrans; [exact Hre|]. apply rtc_once, da_close. }
  assert (dn_reachable s') as Hre' by (unfold dn_reachable in *; by etrans).
  apply dn_reachable_ok in Hre as [_ Hg _ Hca]. unfold dn_busy in Hg, Hca. rewrite Hp in *.
  destruct (Hca eq_refl) as (n & Hn & E).
  assert (dn_Close s = dn_close_body (dn_set_setup (dn_setup s) s)) as HC.
  { unfold dn_Close, wg_Wait. destruct Hg as [-> _]. done. }
  assert (dn_ending (length (dn_contexts s)) (dn_Close s)) as Hend.
  { rewrite HC. split_and!; [done| |cbn; by rewrite Hp]. cbn. rewrite E. by rewrite length_insert. }
  assert (dn_ending (length (dn_contexts s)) s') as Hend'
    by (eapply rtc_preserved; [apply dn_ending_run|exact Hend|exact Hr]).
  split_and!.
  - rewrite HC. cbn. rewrite E, last_lookup, length_insert, Hn. cbn.
    apply list_lookup_insert_eq. lia.
  - apply Hend'.
  - eapply dn_ending_stops; [by apply dn_reachable_ok|exact Hend'].
Qed.

(** ** [Close] between sessions *)

Lemma dn_reconnect s :
  dn_ok s → dn_phase s = DFailed ∨ dn_busy s = true →
  ∃ s', rtc dn_run s s' ∧ dn_ok s' ∧ dn_phase s' = DRecv ∧ dn_closing s' = dn_closing s ∧
    dn_chan s' = dn_chan s ∧ dn_contexts s' = dn_contexts s ++ [false].
Proof.
  assert (∀ t, dn_ok t → dn_phase t = DConnect → ∃ s', rtc dn_run t s' ∧ dn_ok s' ∧
    dn_phase s' = DRecv ∧ dn_closing s' = dn_closing t ∧ dn_chan s' = dn_chan t ∧
    dn_contexts s' = dn_contexts t ++ [false]) as Hconn.
  { intros t Ht Hp. destruct (dn_subscribe_ok DRecv t Ht Hp) as (g & E & Hok'); [by left|].
    eexists. split; [|split; [exact Hok'|done]].
    apply rtc_once, da_step. rewrite <- E. by apply dn_connected. }
  assert (∀ t, dn_ok t → dn_phase t = DSleep → ∃ s', rtc dn_run t s' ∧ dn_ok s' ∧
    dn_phase s' = DRecv ∧ dn_closing s' = dn_closing t ∧ dn_chan s' = dn_chan t ∧
    dn_contexts s' = dn_contexts t ++ [false]) as Hsleep.
  { intros t Ht Hp. pose proof (dn_wake t Hp) as Hs.
    destruct (dn_step_ok _ _ Ht Hs) as (? & [= <-] & Hok').
    destruct (Hconn (dn_set_phase (S (dn_retries t)) DConnect t) Hok' eq_refl) as (s' & Hr & ?).
    exists s'. split; [|done]. eapply rtc_l; [|exact Hr]. by apply da_step. }
  intros Hok [Hp|Hb].
  - pose proof (dn_retry s Hp) as Hs. destruct (dn_step_ok _ _ Hok Hs) as (? & [= <-] & Hok').
    destruct (Hsleep (dn_sleep s) Hok' eq_refl) as (s' & Hr & ?).
    exists s'. split; [|done]. eapply rtc_l; [|exact Hr]. by apply da_step.
  - unfold dn_busy in Hb. destruct (dn_phase s) eqn:Hp; try done; [by apply Hconn|by apply Hsleep].
Qed.

(** A stream that is closed between two attempts goes on: the next attempt is made,
    and what the router then sends is delivered. *)
Lemma close_between_sessions_ignored s m :
  dn_reachable s → dn_phase s = DFailed ∨ dn_phase s = DSleep ∨ dn_phase s = DConnect →
  dn_closing s = true → length (chan_buffer (dn_chan s)) < DefaultBufferSize →
  ∃ s', rtc dn_run s s' ∧ dn_closing s' = true ∧ dn_phase s' = DRecv ∧
    last (dn_contexts s') = Some false ∧ chan_sent (dn_chan s') = chan_sent (dn_chan s) ++ [m].
Proof.
  intros Hre Hp Hc Hroom. apply dn_reachable_ok in Hre as Hok.
  destruct (dn_reconnect s Hok) as (s1 & Hr & Hok1 & Hp1 & Hc1 & Hch & Hctx).
  { unfold dn_busy. destruct Hp as [->|[->| ->]]; auto. }
  pose proof (dn_message s1 (Some m) None Hp1) as Hs. rewrite <- Hch in Hroom |- *.
  pose proof (dok_closed _ Hok1) as Hcl. rewrite Hp1 in Hcl. cbn in Hcl.
  unfold dn_receive, chan_offer in Hs. rewrite Hcl in Hs. apply Nat.ltb_lt in Hroom. rewrite Hroom in Hs.
  eexists. split; [eapply rtc_r; [exact Hr|]; apply da_step; exact Hs|]. cbn. rewrite Hctx, last_snoc.
  split_and!; try done. congruence.
Qed.
