(* ===== verification/TtnLaws.v ===== *)
(** * Properties of The Things Network backend

    The conversions between the gateway's packets and the router's messages,
    the rate limit, statistics, the configuration of gateways, and the contract
    with the gateway registry. *)

From Stdlib Require Import String Ascii NArith ZArith Lia SpecFloat.
From stdpp Require Import base gmap list strings numbers.
From S2P Require Import Prelude GoPrim GoSync GoStrconv GoFloat GoJsonLaws Lorawan Registry.
From S2P Require Import Convert Metrics GoDuration TtnTypes Ttn.

Local Open Scope string_scope.
Local Open Scope list_scope.
Local Open Scope Z_scope.

(** ** Downlink messages *)

(** What a router may ask of a gateway: the fields in the ranges of their
    types, the frequency below 2^53 Hz, a data rate the network knows. *)
Record TxConfiguration_wf (c : TxConfiguration) : Prop := mkTxConfigurationWf {
  Tx_wf_timestamp : in_u 32 (Tx_Timestamp c) = true;
  Tx_wf_frequency : 0 ≤ Tx_Frequency c < 2 ^ 53;
  Tx_wf_power : in_s 32 (Tx_Power c) = true
}.

Definition lora_rate (lora : LorawanMetadata) (r : DataRate) : Prop :=
  (Lorawan_Modulation lora = Modulation_LORA ∧
   ∃ sf bw, ParseDataRate (Lorawan_DataRate lora) = Some (sf, bw) ∧
            r = mkDataRate LoRaModulation sf bw 0) ∨
  (Lorawan_Modulation lora = Modulation_FSK ∧ 0 < Lorawan_BitRate lora < 2 ^ 32 ∧
   r = mkDataRate FSKModulation 0 0 (Lorawan_BitRate lora)).

Lemma to_int_id z : 0 ≤ z < 2 ^ 63 → to_int z = z.
Proof. intros Hz. apply (wrap_s_id 64); [done|]. apply in_s_spec. simpl in *. lia. Qed.

Lemma ttn_rate_bounds sf bw : ttn_rate_ok sf bw → 7 ≤ sf ≤ 12 ∧ 125 ≤ bw ≤ 500.
Proof.
  intros [Hs Hb]. unfold spreading_factors, bandwidths in *.
  split; [clear Hb|clear Hs];
    repeat match goal with H : _ ∈ _ :: _ |- _ => apply elem_of_cons in H as [->|H]; [lia|] end;
    by apply not_elem_of_nil in Hs || by apply not_elem_of_nil in Hb.
Qed.

Lemma lora_rate_wf lora r : lora_rate lora r → DataRate_wf r.
Proof.
  intros [(_ & sf & bw & Hp & ->)|(_ & Hb & ->)]; [left|by right].
  apply ParseDataRate_sound, ttn_rate_bounds in Hp. cbn. split_and!; done || lia.
Qed.

Lemma downlink_packet_ok mac m lora c r :
  Downlink_Lorawan m = Some lora → Downlink_GatewayConfiguration m = Some c →
  TxConfiguration_wf c → lora_rate lora r →
  downlink_packet mac m = Ok (Some (mkTXPacketBytes
    (mkTXInfo mac false (Tx_Timestamp c) (Tx_Frequency c) (Tx_Power c) r (Lorawan_CodingRate lora) None)
    (Downlink_Payload m))).
Proof.
  intros Hl Hc [Ht Hf Hp] Hr. unfold downlink_packet. rewrite Hl, Hc.
  rewrite (to_int_id (Tx_Frequency c)) by lia.
  assert (to_int (Tx_Power c) = Tx_Power c) as ->.
  { apply (wrap_s_id 64); [done|]. apply in_s_spec in Hp. apply in_s_spec. simpl in *. lia. }
  destruct Hr as [(-> & sf & bw & Hp' & ->)|(-> & Hb & ->)].
  - change (Modulation_LORA =? Modulation_LORA) with true.
    change (Modulation_LORA =? Modulation_FSK) with false. cbn iota. rewrite Hp'.
    pose proof (ttn_rate_bounds _ _ (ParseDataRate_sound _ _ _ Hp')).
    rewrite !to_int_id by lia. done.
  - change (Modulation_FSK =? Modulation_LORA) with false.
    change (Modulation_FSK =? Modulation_FSK) with true. cbn [rbind SpreadFactor Bandwidth DataRate_zero].
    rewrite to_int_id by lia. done.
Qed.

(** C27: A router message with a valid configuration becomes a well-formed packet
    for its gateway, with the message's payload, timestamp, frequency, power and
    data rate. *)
Theorem downlink_packet_spec mac m lora c r :
  Downlink_Lorawan m = Some lora → Downlink_GatewayConfiguration m = Some c →
  TxConfiguration_wf c → lora_rate lora r → str_ok (Lorawan_CodingRate lora) →
  ∃ tx, downlink_packet mac m = Ok (Some tx) ∧ TXPacket_wf tx ∧
    TXInfo_MAC (TXPacket_TXInfo tx) = mac ∧ TXPacket_PHYPayload tx = Downlink_Payload m ∧
    TXInfo_Timestamp (TXPacket_TXInfo tx) = Tx_Timestamp c ∧
    TXInfo_Frequency (TXPacket_TXInfo tx) = Tx_Frequency c ∧
    TXInfo_Power (TXPacket_TXInfo tx) = Tx_Power c ∧ TXInfo_DataRate (TXPacket_TXInfo tx) = r ∧
    TXInfo_Immediately (TXPacket_TXInfo tx) = false.
Proof.
  intros Hl Hc Hwf Hr Hs. pose proof (lora_rate_wf _ _ Hr). destruct (Hwf) as [Ht Hf Hp].
  eexists. split; [by apply downlink_packet_ok|]. by split.
Qed.

(** The messages that crash the goroutine that receives them. *)
Definition malformed (m : DownlinkMessage) : bool :=
  match Downlink_Lorawan m, Downlink_GatewayConfiguration m with
  | None, _ => false
  | Some _, None => true
  | Some lora, Some _ =>
      (Lorawan_Modulation lora =? Modulation_LORA) &&
      match ParseDataRate (Lorawan_DataRate lora) with Some _ => false | None => true end
  end.

Lemma downlink_packet_cases mac m :
  if malformed m then downlink_packet mac m = Panic nil_pointer
  else ∃ p, downlink_packet mac m = Ok p ∧
            match Downlink_Lorawan m, p with
            | None, None => True
            | Some _, Some tx => TXInfo_MAC (TXPacket_TXInfo tx) = mac
            | _, _ => False
            end.
Proof.
  unfold malformed, downlink_packet. destruct (Downlink_Lorawan m) as [lora|]; [|by exists None].
  destruct (Downlink_GatewayConfiguration m) as [c|];
    destruct (Lorawan_Modulation lora =? Modulation_LORA); cbn [andb rbind];
    try destruct (ParseDataRate _) as [[sf bw]|]; cbn [rbind]; try done;
    (eexists; split; [reflexivity|done]).
Qed.

(** C26: The downlink goroutine panics on a message exactly when it is a LoRaWAN
    message without gateway configuration, or with LoRa modulation and a data rate
    that ParseDataRate rejects. *)
Theorem downlink_panics_iff mac m :
  (∃ why, downlink_packet mac m = Panic why) ↔
  ∃ lora, Downlink_Lorawan m = Some lora ∧
    (Downlink_GatewayConfiguration m = None ∨
     Lorawan_Modulation lora = Modulation_LORA ∧ ParseDataRate (Lorawan_DataRate lora) = None).
Proof.
  pose proof (downlink_packet_cases mac m) as Hc. unfold malformed in Hc.
  destruct (Downlink_Lorawan m) as [lora|] eqn:El.
  2: { destruct Hc as (p & -> & _). split; [by intros [? [=]]|by intros (? & [=] & _)]. }
  destruct (Downlink_GatewayConfiguration m) as [c|] eqn:Eg.
  2: { rewrite Hc. split; [intros _; eauto|eauto]. }
  destruct (Z.eqb_spec (Lorawan_Modulation lora) Modulation_LORA) as [Hm|Hm]; cbn [andb] in Hc.
  - destruct (ParseDataRate (Lorawan_DataRate lora)) eqn:Ep.
    + destruct Hc as (q & -> & _). split; [by intros [? [=]]|naive_solver].
    + rewrite Hc. split; [intros _; eauto|eauto].
  - destruct Hc as (p & -> & _). split; [by intros [? [=]]|naive_solver].
Qed.

(** ** Uplink messages *)

(** C28: An uplink packet is converted field by field: payload, gateway id and,
    within their ranges, timestamp, frequency and data rate are kept, and a gateway
    time is kept exactly when it is within 60 seconds of the bridge's clock. *)
Theorem convertRXPacket_spec now rx :
  let info := RXPacket_RXInfo rx in
  let m := convertRXPacket now rx in
  let g := Uplink_GatewayMetadata m in
  let l := Uplink_ProtocolMetadata m in
  Uplink_Payload m = RXPacket_PHYPayload rx ∧
  Rx_GatewayId g = "eui-" +:+ EUI64_String (RXInfo_MAC info) ∧
  (in_u 32 (RXInfo_Timestamp info) = true → Rx_Timestamp g = RXInfo_Timestamp info) ∧
  (0 ≤ RXInfo_Frequency info < 2 ^ 64 → Rx_Frequency g = RXInfo_Frequency info) ∧
  (in_s 64 (RXInfo_Time info) = true →
   Rx_Time g = if Z.abs (RXInfo_Time info - now) <=? 60 * Second then RXInfo_Time info else 0) ∧
  (∀ sf bw, RXInfo_DataRate info = mkDataRate LoRaModulation sf bw 0 → ttn_rate_ok sf bw →
   lora_rate l (RXInfo_DataRate info)) ∧
  (∀ br, RXInfo_DataRate info = mkDataRate FSKModulation 0 0 br → 0 < br < 2 ^ 32 →
   lora_rate l (RXInfo_DataRate info)).
Proof.
  intros info m g l. subst m g l. unfold convertRXPacket. fold info.
  cbn [Uplink_Payload Uplink_GatewayMetadata Uplink_ProtocolMetadata Rx_GatewayId Rx_Timestamp
    Rx_Frequency Rx_Time]. split_and!; try done.
  - intros Hf. apply (wrap_u_id 64); [done|]. by apply in_u_spec.
  - intros Ht. rewrite minute_apart_spec, Z.leb_antisym.
    destruct (60 * Second <? _); cbn [negb]; [done|]. by apply (wrap_s_id 64).
  - intros sf bw -> Hr. left. cbn. split; [done|]. exists sf, bw. split; [|done].
    by apply ParseDataRate_sprintf.
  - intros br -> Hb. right. cbn [Modulation BitRate]. cbn [Lorawan_Modulation Lorawan_BitRate].
    rewrite bool_decide_false by done. rewrite bool_decide_true by done. cbn [negb andb].
    assert (to_uint32 br = br) as -> by (apply (wrap_u_id 32); [done|]; apply in_u_spec; lia).
    done.
Qed.

(** ** The rate limit *)

(** With the limit 10 of the program, after the first tick the limit is exceeded
    exactly by more than 50 packets in the five seconds. *)
Theorem rate_limit_is_per_second `{MathExp} w g n :
  ttn_rxRateLimit w = f64_of_Z 10 → (n < 2000)%nat →
  gtw_rxRate g = EWMA_Tick (EWMA_marks n NewEWMA1) →
  rate_exceeded w g = (50 <? Z.of_nat n).
Proof.
  intros Hw Hn Hg. unfold rate_exceeded. rewrite Hw, Hg.
  rewrite EWMA_marks_eq by (cbn; lia).
  cbn [NewEWMA1 NewEWMA EWMA_uncounted EWMA_alpha EWMA_rate EWMA_init].
  rewrite EWMA_first_tick, Z.add_0_l.
  change (f64_ltb f64_zero (f64_of_Z 10)) with true. cbn [andb].
  apply first_rate_exceeds_10_check. lia.
Qed.

(** ** Publishing *)

Section Publish.
Context `{MathExp}.
Implicit Types (w : ttn) (mac : EUI64) (g : gtw).

Lemma update_gtw_insert mac f w g :
  getGtw w mac = Some g → update_gtw mac f w = set_gateways w (<[mac := f g]> (ttn_gateways w)).
Proof.
  unfold getGtw, update_gtw. intros Hg. f_equal. apply map_eq. intros m.
  destruct (decide (m = mac)) as [->|Hm].
  - by rewrite lookup_alter_eq, lookup_insert_eq, Hg.
  - by rewrite lookup_alter_ne, lookup_insert_ne by done.
Qed.

Lemma getGtw_update mac f w m :
  getGtw (update_gtw mac f w) m = if bool_decide (m = mac) then f <$> getGtw w m else getGtw w m.
Proof.
  unfold getGtw, update_gtw. cbn. case_bool_decide; subst;
    [by rewrite lookup_alter_eq|by rewrite lookup_alter_ne].
Qed.

(** The gateway [newGtw] makes. *)
Definition fresh_gtw (w : ttn) (mac : EUI64) : gtw :=
  let conf := ttn_gatewayConf w !! mac in
  let id := match conf with Some c => gtwConf_id c | None => eui_id mac end in
  let token := match conf with Some c => gtwConf_token c | None => "token" end in
  mkGtw id conf (mkRouterClient id token false) chan_make chan_make [] NewEWMA1.

Lemma getGtw_newGtw mac w m :
  getGtw (newGtw mac w) m
  = match getGtw w m with
    | Some g => Some g
    | None => if bool_decide (m = mac) then Some (fresh_gtw w mac) else None
    end.
Proof.
  unfold newGtw, getGtw. destruct (ttn_gateways w !! mac) as [g|] eqn:E.
  - case_bool_decide; subst; [by rewrite E|by destruct (_ !! m)].
  - assert (∀ w', ttn_gateways w' = <[mac := fresh_gtw w mac]> (ttn_gateways w) →
      ttn_gateways w' !! m = match ttn_gateways w !! m with
                             | Some g => Some g
                             | None => if bool_decide (m = mac) then Some (fresh_gtw w mac) else None
                             end) as Hl.
    { intros w' ->. case_bool_decide; subst; [by rewrite lookup_insert_eq, E|].
      rewrite lookup_insert_ne by done. by destruct (_ !! m). }
    destruct (ttn_gatewayConf w !! mac) eqn:Ec; [|cbn [set_gateways ttn_accountServer];
      destruct (ttn_accountServer w)]; (apply Hl; cbn; unfold fresh_gtw; by rewrite Ec).
Qed.

Lemma getGtw_ensure mac w m :
  getGtw (ensure_gtw mac w) m
  = match getGtw w m with
    | Some g => Some g
    | None => if bool_decide (m = mac) then Some (fresh_gtw w mac) else None
    end.
Proof.
  unfold ensure_gtw. destruct (getGtw w mac) as [g|] eqn:E; [|apply getGtw_newGtw].
  case_bool_decide; subst; [by rewrite E|by destruct (getGtw w m)].
Qed.

(** What the gateway of [mac] is once [getGtw] or [newGtw] returned. *)
Definition the_gtw (w : ttn) (mac : EUI64) : gtw :=
  match getGtw w mac with Some g => g | None => fresh_gtw w mac end.

Lemma getGtw_ensure_eq mac w : getGtw (ensure_gtw mac w) mac = Some (the_gtw w mac).
Proof. rewrite getGtw_ensure, bool_decide_true by done. unfold the_gtw. by destruct (getGtw w mac). Qed.

Lemma trun_with_gtw {A} now mac (k : tprog A) w :
  trun now (with_gtw mac k) w = trun now k (ensure_gtw mac w).
Proof. unfold with_gtw, ensure_gtw, skip. simpl. by destruct (getGtw w mac). Qed.

Lemma ensure_gtw_limit mac w : ttn_rxRateLimit (ensure_gtw mac w) = ttn_rxRateLimit w.
Proof.
  unfold ensure_gtw, newGtw. by repeat case_match.
Qed.

(** The gateways after replacing one of those [ensure_gtw] leaves. *)
Definition put_gtw (w : ttn) (mac : EUI64) (g : gtw) : gmap EUI64 gtw :=
  <[mac := g]> (ttn_gateways (ensure_gtw mac w)).

Definition count_rx (g : gtw) : gtw := set_rxRate (EWMA_Update 1 (gtw_rxRate g)) g.

Lemma trun_PublishGatewayRX now mac rx w :
  let g := count_rx (the_gtw w mac) in
  trun now (PublishGatewayRX mac rx) w =
  if rate_exceeded w g then Ok (None, set_gateways (ensure_gtw mac w) (put_gtw w mac g))
  else let* c := chan_offer (convertRXPacket now rx) (gtw_uplink g) in
       Ok (None, set_gateways (ensure_gtw mac w) (put_gtw w mac (set_uplink c g))).
Proof.
  intros g. unfold PublishGatewayRX. rewrite trun_with_gtw. cbn [trun rbind skip].
  set (w1 := ensure_gtw mac w). assert (getGtw w1 mac = Some (the_gtw w mac)) as Hg
    by apply getGtw_ensure_eq.
  assert (rate_update mac w1 = set_gateways w1 (put_gtw w mac g)) as ->
    by (unfold rate_update; by rewrite (update_gtw_insert _ _ _ _ Hg)).
  assert (getGtw (set_gateways w1 (put_gtw w mac g)) mac = Some g) as Hg2
    by (unfold getGtw, put_gtw; cbn; by rewrite lookup_insert_eq).
  rewrite Hg2.
  assert (rate_exceeded (set_gateways w1 (put_gtw w mac g)) g = rate_exceeded w g) as ->
    by (unfold rate_exceeded, w1; cbn [set_gateways ttn_rxRateLimit]; by rewrite ensure_gtw_limit).
  destruct (rate_exceeded w g); [done|]. cbn [trun]. unfold uplink_send. rewrite Hg2.
  destruct (chan_offer _ _) as [c|e|p]; cbn [rbind trun]; [|done|done].
  rewrite (update_gtw_insert _ _ _ _ Hg2). unfold put_gtw. cbn. by rewrite insert_insert_eq.
Qed.

(** C29: Publishing a packet makes sure of the gateway and counts the packet; its
    conversion is appended to the uplink stream unless the rate limit is exceeded or
    ten messages are waiting, in which case it is dropped. *)
Theorem PublishGatewayRX_spec now mac rx w :
  let g := count_rx (the_gtw w mac) in
  chan_closed (gtw_uplink g) = false →
  ∃ up, trun now (PublishGatewayRX mac rx) w
        = Ok (None, set_gateways (ensure_gtw mac w) (put_gtw w mac (set_uplink up g))) ∧
    chan_closed up = false ∧ chan_taken up = chan_taken (gtw_uplink g) ∧
    chan_sent up = chan_sent (gtw_uplink g) ++
      if rate_exceeded w g || (DefaultBufferSize <=? length (chan_buffer (gtw_uplink g)))%nat
      then [] else [convertRXPacket now rx].
Proof.
  intros g Hc. pose proof (trun_PublishGatewayRX now mac rx w) as Hrun. cbv zeta in Hrun. fold g in Hrun.
  destruct (rate_exceeded w g) eqn:Er.
  - exists (gtw_uplink g). rewrite Hrun, app_nil_r. split_and!; try done.
  - unfold chan_offer in Hrun. rewrite Hc in Hrun. cbn [orb].
    destruct (Nat.ltb_spec (length (chan_buffer (gtw_uplink g))) DefaultBufferSize) as [Hb|Hb].
    + exists (mkChan (chan_sent (gtw_uplink g) ++ [convertRXPacket now rx]) (chan_taken (gtw_uplink g)) false).
      rewrite Hrun. rewrite (proj2 (Nat.leb_gt _ _)) by lia. done.
    + exists (gtw_uplink g). rewrite Hrun, (proj2 (Nat.leb_le _ _)) by lia.
      rewrite app_nil_r. done.
Qed.

(** ** Statistics *)

Lemma trun_PublishGatewayStats now mac stats w :
  let g := the_gtw w mac in
  trun now (PublishGatewayStats mac stats) w =
  let* c := chan_offer (complete_status (gtw_conf g)
              (convertStatsPacket (ensure_gtw mac w) stats)) (gtw_status g) in
  Ok (None, set_gateways (ensure_gtw mac w) (put_gtw w mac (set_status c g))).
Proof.
  intros g. unfold PublishGatewayStats. rewrite trun_with_gtw. cbn [trun].
  unfold status_send. rewrite getGtw_ensure_eq. fold g.
  destruct (chan_offer _ _) as [c|e|p]; cbn [rbind trun]; [|done|done].
  by rewrite (update_gtw_insert _ _ _ _ (getGtw_ensure_eq mac w)).
Qed.
End Publish.

Definition reported_position (stats : GatewayStatsPacket) : bool :=
  negb (f64_eqb (Stats_Latitude stats) f64_zero && f64_eqb (Stats_Longitude stats) f64_zero
        && f64_eqb (Stats_Altitude stats) f64_zero).

Definition gps_of (lat long alt : float64) : GPSMetadata :=
  mkGPSMetadata 0 (f32_of_f64 lat) (f32_of_f64 long) (f64_to_int32 alt).

Lemma string_app_nil_r s : s +:+ "" = s.
Proof. induction s as [|a s IH]; [done|]. change (String a (s +:+ "") = String a s). by rewrite IH. Qed.

Definition or_empty (o : option string) : string := match o with Some s => s | None => "" end.

(** C30: A status carries the reported position, description and platform, and what
    is missing is filled in from the registration at the account server; region,
    bridge and RTT are the injected ones. *)
Theorem status_sent_spec w conf stats :
  Status_Gps (ttn_gatewayStatus w) = None →
  let s := complete_status conf (convertStatsPacket w stats) in
  let settings := match conf with Some c => gtwConf_settings c | None => account_Gateway_zero end in
  let attrs := Gateway_Attributes settings in
  let description := custom_string "description" stats (Status_Description (ttn_gatewayStatus w)) in
  let platform := custom_string "platform" stats (Status_Platform (ttn_gatewayStatus w)) in
  Status_Gps s =
    (if reported_position stats
     then Some (gps_of (Stats_Latitude stats) (Stats_Longitude stats) (Stats_Altitude stats))
     else (λ l, gps_of (Location_Latitude l) (Location_Longitude l) (Gateway_Altitude settings))
            <$> Gateway_Location settings) ∧
  Status_Description s =
    (if bool_decide (description = "") then or_empty (Attr_Description attrs) else description) ∧
  Status_Platform s =
    (if bool_decide (platform = "")
     then or_empty (Attr_Brand attrs) +:+ match Attr_Model attrs with Some m => " " +:+ m | None => "" end
     else platform) ∧
  Status_Region s = Status_Region (ttn_gatewayStatus w) ∧
  Status_Bridge s = Status_Bridge (ttn_gatewayStatus w) ∧
  Status_Rtt s = Status_Rtt (ttn_gatewayStatus w) ∧
  (0 ≤ Stats_RXPacketsReceived stats < 2 ^ 32 → Status_RxIn s = Stats_RXPacketsReceived stats) ∧
  (0 ≤ Stats_RXPacketsReceivedOK stats < 2 ^ 32 → Status_RxOk s = Stats_RXPacketsReceivedOK stats).
Proof.
  intros Hgps s settings attrs description platform.
  assert (∀ z, 0 ≤ z < 2 ^ 32 → to_uint32 z = z) as Hu
    by (intros z Hz; apply (wrap_u_id 32); [done|by apply in_u_spec]).
  subst s settings attrs. unfold complete_status, convertStatsPacket. rewrite Hgps.
  fold description platform. fold (reported_position stats).
  assert (negb (f64_eqb (Stats_Latitude stats) f64_zero) || negb (f64_eqb (Stats_Longitude stats) f64_zero)
    || negb (f64_eqb (Stats_Altitude stats) f64_zero) = reported_position stats) as ->
    by (unfold reported_position; by rewrite !negb_andb).
  clearbody description platform.
  destruct conf as [[cid ck ct [tok loc alt [brand model desc]]]|];
    cbn [gtwConf_settings Gateway_Attributes Gateway_Location Gateway_Altitude Attr_Brand Attr_Model
      Attr_Description account_Gateway_zero Status_Gps or_empty].
  - destruct (reported_position stats), loc as [l|], desc as [d|], brand as [b|], model as [m|];
      cbn; repeat case_bool_decide; cbn in *; subst; split_and!; cbn; rewrite ?string_app_nil_r;
      eauto; congruence.
  - destruct (reported_position stats); cbn; repeat case_bool_decide; subst; split_and!; eauto.
Qed.

(** ** Configured gateways *)

Definition effective_token (token : string) (settings : account_Gateway) : string :=
  match Gateway_Token settings with
  | Some t => if bool_decide (t = "") then token else t
  | None => token
  end.

(** The credentials [AddGateway] puts in place of those of the account. *)
Definition gateway_auth (key token : string) (a : Account) : Account :=
  if negb (bool_decide (token = "")) then WithAuth (AuthAccessToken token) a
  else if negb (bool_decide (key = "")) then WithAuth (AuthAccessKey key) a
  else a.

Lemma AddGateway_eq FindGateway mac id key token w :
  let a' := gateway_auth key token <$> ttn_accountServer w in
  let found :=
    match a' with
    | Some a => if bool_decide (token = "" ∧ key = "") then inr account_Gateway_zero
                else FindGateway a id
    | None => inr account_Gateway_zero
    end in
  AddGateway FindGateway (EUI64_String mac) id key token w
  = Ok match found with
       | inr g => (None, set_gatewayConf (set_account w a')
                     (<[mac := mkGtwConf id key (effective_token token g) g]> (ttn_gatewayConf w)))
       | inl e => (Some e, set_account w a')
       end.
Proof.
  intros a' found. subst a' found. unfold AddGateway, gateway_auth, effective_token.
  rewrite EUI64_UnmarshalText_String.
  destruct (ttn_accountServer w) as [a|] eqn:Ea; cbn [fmap option_fmap option_map].
  - destruct (decide (token = "")) as [Ht|Ht], (decide (key = "")) as [Hk|Hk];
      repeat first [rewrite bool_decide_true by naive_solver|rewrite bool_decide_false by naive_solver];
      cbn [negb]; try (destruct (FindGateway _ _)); try done.
    unfold set_account, set_gatewayConf. cbn. by rewrite Ea.
  - unfold set_account, set_gatewayConf. cbn. by rewrite Ea.
Qed.

(** Adding a gateway stores its id, key, effective token and settings for its
    EUI, which later makes newGtw use that id and token; when the account server
    refuses, the configuration is unchanged and its error is returned. *)
Theorem AddGateway_spec `{MathExp} FindGateway mac id key token w e w' :
  AddGateway FindGateway (EUI64_String mac) id key token w = Ok (e, w') →
  match e with
  | None =>
      ∃ settings,
        ttn_gatewayConf w' = <[mac := mkGtwConf id key (effective_token token settings) settings]>
                               (ttn_gatewayConf w) ∧
        (getGtw w mac = None →
         ∃ g, getGtw (newGtw mac w') mac = Some g ∧ gtw_id g = id ∧
              gtw_client g = mkRouterClient id (effective_token token settings) false)
  | Some err =>
      ttn_gatewayConf w' = ttn_gatewayConf w ∧ ∃ a, FindGateway a id = inl err
  end ∧ ttn_gateways w' = ttn_gateways w.
Proof.
  rewrite AddGateway_eq. intros [= Heq].
  destruct (ttn_accountServer w) as [a|]; cbn [fmap option_fmap option_map] in Heq;
    [destruct (bool_decide _); [|destruct (FindGateway _ id) as [err|g] eqn:Ef]|]; simplify_eq;
    (split; [|done]); eauto;
    (eexists; split; [reflexivity|]; intros Hg; rewrite getGtw_newGtw;
     unfold getGtw in *; cbn [set_gatewayConf set_account ttn_gateways]; rewrite Hg;
     rewrite bool_decide_true by done; eexists; split; [reflexivity|]; unfold fresh_gtw;
     cbn [set_gatewayConf ttn_gatewayConf]; by rewrite lookup_insert_eq).
Qed.

(** After a gateway is added with a key or token, the configuration request of any
    other gateway is made with those credentials. *)
Theorem AddGateway_credentials_stay `{MathExp} FindGateway mac id key token w a e w' mac' :
  ttn_accountServer w = Some a → (key ≠ "" ∨ token ≠ "") →
  AddGateway FindGateway (EUI64_String mac) id key token w = Ok (e, w') →
  getGtw w' mac' = None → ttn_gatewayConf w' !! mac' = None →
  mac' ∈ ttn_fetches (newGtw mac' w') ∧
  ∀ Find Find',
    Find (gateway_auth key token a) (eui_id mac') = Find' (gateway_auth key token a) (eui_id mac') →
    fetch_conf Find mac' (newGtw mac' w') = fetch_conf Find' mac' (newGtw mac' w').
Proof.
  intros Ha Hk Hadd Hg Hc.
  assert (ttn_accountServer w' = Some (gateway_auth key token a)) as Ha'.
  { rewrite AddGateway_eq, Ha in Hadd. cbn [fmap option_fmap option_map] in Hadd.
    destruct (bool_decide _); [|destruct (FindGateway _ id)]; by simplify_eq. }
  unfold newGtw. unfold getGtw in Hg. rewrite Hg, Hc. cbn [set_gateways ttn_accountServer].
  rewrite Ha'. split; [cbn; set_solver|]. intros Find Find' Heq.
  unfold fetch_conf. cbn [set_goroutines set_gateways ttn_gateways ttn_accountServer].
  rewrite lookup_insert_eq, Ha'. cbn [gtw_id]. by rewrite Heq.
Qed.

(** ** The contract with the gateway registry *)

Definition downlink_open (g : gtw) : bool :=
  match gtw_downlink g with Some s => negb (ds_closing s) | None => false end.

(** The gateways with an open subscription. *)
Definition ttn_subs (w : ttn) : gset EUI64 :=
  dom (filter (λ '(_, g), downlink_open g = true) (ttn_gateways w)).

Lemma elem_of_ttn_subs w mac :
  mac ∈ ttn_subs w ↔ ∃ g, getGtw w mac = Some g ∧ downlink_open g = true.
Proof.
  unfold ttn_subs, getGtw. rewrite elem_of_dom. split.
  - intros [g Hg]. apply map_lookup_filter_Some in Hg. eauto.
  - intros (g & Hg & Ho). exists g. by apply map_lookup_filter_Some.
Qed.

(** The subscriptions only depend on the downlink streams. *)
Lemma ttn_subs_ext w w' :
  (∀ mac, (∃ g, getGtw w mac = Some g ∧ downlink_open g = true) ↔
          (∃ g, getGtw w' mac = Some g ∧ downlink_open g = true)) →
  ttn_subs w = ttn_subs w'.
Proof. intros Hm. apply set_eq. intros mac. by rewrite !elem_of_ttn_subs. Qed.

Lemma downlink_open_fresh `{MathExp} w mac : downlink_open (fresh_gtw w mac) = false.
Proof. done. Qed.

Lemma gtw_downlink_app g l s : gtw_downlinks g = l ++ [s] → gtw_downlink g = Some s.
Proof.
  unfold gtw_downlink. intros ->. rewrite length_app, Nat.add_1_r. cbn [pred].
  by rewrite lookup_app_r, Nat.sub_diag by lia.
Qed.

Lemma downlink_open_subscribed g :
  downlink_open (set_downlinks (gtw_downlinks g ++ [downlinkStream_new]) g) = true.
Proof. unfold downlink_open. by rewrite (gtw_downlink_app _ (gtw_downlinks g) downlinkStream_new). Qed.

Lemma getGtw_set_stream mac i s w m :
  getGtw (set_stream mac i s w) m =
  if bool_decide (m = mac) then (λ g, set_downlinks (<[i := s]> (gtw_downlinks g)) g) <$> getGtw w m
  else getGtw w m.
Proof. apply getGtw_update. Qed.

(** Replacing the current downlink stream. *)
Lemma downlink_open_last g s s' :
  gtw_downlink g = Some s →
  downlink_open (set_downlinks (<[pred (length (gtw_downlinks g)) := s']> (gtw_downlinks g)) g)
  = negb (ds_closing s').
Proof.
  intros Hs. unfold downlink_open, gtw_downlink in *. cbn. rewrite length_insert.
  rewrite list_lookup_insert_eq; [done|by apply lookup_lt_Some in Hs].
Qed.

Lemma ttn_subs_last mac w g s s' :
  getGtw w mac = Some g → gtw_downlink g = Some s →
  ttn_subs (set_stream mac (pred (length (gtw_downlinks g))) s' w) =
  if ds_closing s' then ttn_subs w ∖ {[mac]} else {[mac]} ∪ ttn_subs w.
Proof.
  intros Hg Hs. apply set_eq. intros m. rewrite elem_of_ttn_subs, getGtw_set_stream.
  destruct (decide (m = mac)) as [->|Hm].
  - rewrite bool_decide_true, Hg by done. cbn. split.
    + intros (? & [= <-] & Ho). rewrite (downlink_open_last _ _ _ Hs) in Ho.
      destruct (ds_closing s'); [done|set_solver].
    + destruct (ds_closing s') eqn:Ec; [set_solver|]. intros _. eexists. split; [reflexivity|].
      by rewrite (downlink_open_last _ _ _ Hs), Ec.
  - rewrite bool_decide_false, <- elem_of_ttn_subs by done. destruct (ds_closing s'); set_solver.
Qed.

Lemma ttn_subs_none mac w :
  (∀ g, getGtw w mac = Some g → gtw_downlink g = None) → ttn_subs w = ttn_subs w ∖ {[mac]}.
Proof.
  intros Hn. assert (mac ∉ ttn_subs w); [|set_solver]. rewrite elem_of_ttn_subs.
  intros (g & Hg & Ho). unfold downlink_open in Ho. by rewrite (Hn g Hg) in Ho.
Qed.

(** While [Close] waits, the subscription is as it was. *)
Lemma ttn_subs_waiting mac w g s s' :
  getGtw w mac = Some g → gtw_downlink g = Some s → ds_closing s' = ds_closing s →
  ttn_subs (set_stream mac (pred (length (gtw_downlinks g))) s' w) = ttn_subs w.
Proof.
  intros Hg Hs Hc. rewrite (ttn_subs_last mac w g s s' Hg Hs).
  assert (mac ∈ ttn_subs w ↔ ds_closing s' = false) as Hm.
  { rewrite elem_of_ttn_subs, Hc. unfold downlink_open. split.
    - intros (g' & Hg' & Ho). simplify_eq. rewrite Hs in Ho. by apply negb_true_iff.
    - intros Ho. exists g. split; [done|]. by rewrite Hs, Ho. }
  destruct (ds_closing s'); set_solver.
Qed.

#[export] Instance ttn_subscriber `{MathExp} :
  Subscriber SubscribeGatewayTX UnSubscribeGatewayTX ttn_subs.
Proof.
  constructor; intros mac w; [intros w' Hs|intros e w' Hs| |intros a].
  - unfold SubscribeGatewayTX in Hs. injection Hs as <-. apply set_eq. intros m.
    rewrite elem_of_union, elem_of_singleton, !elem_of_ttn_subs. setoid_rewrite getGtw_update.
    destruct (decide (m = mac)) as [->|Hm].
    + rewrite bool_decide_true by done. split; [by left|intros _].
      rewrite getGtw_ensure_eq. eexists. split; [reflexivity|]. apply downlink_open_subscribed.
    + rewrite bool_decide_false, getGtw_ensure, bool_decide_false by done.
      destruct (getGtw w m); (split; [intros (g' & Hg' & Ho); right; eauto|by intros [?|?]]).
  - done.
  - cbn. unfold UnSubscribeGatewayTX_call. destruct (getGtw w mac) as [g|] eqn:Eg;
      [|apply ttn_subs_none; congruence].
    destruct (gtw_downlink g) as [s|] eqn:Es; [|apply ttn_subs_none; congruence].
    unfold downlink_Close. destruct (wg_Wait (ds_setup s)).1; cbn.
    + by rewrite (ttn_subs_last mac w g s).
    + by rewrite (ttn_subs_waiting mac w g s).
  - intros Ha. cbn in Ha. unfold UnSubscribeGatewayTX_woken, downlink_Close_woken in Ha.
    apply bind_Some in Ha as (g & Hg & Ha). apply bind_Some in Ha as (s & Hs & Ha).
    apply bind_Some in Ha as (r & Hr & Ha). apply bind_Some in Hr as (rg & _ & [= <-]).
    destruct rg as [x|e|why]; cbn in Ha; injection Ha as <-; cbn; [|done|done].
    by rewrite (ttn_subs_last mac w g s).
Qed.
