(* ===== verification/TtnSystem.v ===== *)
(** * The Things Network backend: concurrent steps

    The steps the backend takes between and during the calls of its clients:
    the rate ticker, the configuration requests, the router's streams, the
    downlink consumers and the atomic actions of publishing goroutines.  In
    every interleaving a gateway keeps its identity and its streams, and what
    is on a stream has a reason to be there. *)

From Stdlib Require Import String Ascii NArith ZArith Lia SpecFloat.
From stdpp Require Import base gmap list strings numbers relations.
From S2P Require Import Prelude GoPrim GoStrconv GoSync GoFloat Lorawan Registry Convert Metrics.
From S2P Require Import GoDuration TtnTypes Ttn TtnLaws.

Local Open Scope string_scope.
Local Open Scope list_scope.
Local Open Scope Z_scope.

(** ** Steps *)

Section Steps.
Context `{MathExp}.
(** The packets and statistics that may be published. *)
Context (P : RXPacketBytes → Prop) (Q : GatewayStatsPacket → Prop).
Implicit Types (w : ttn) (mac : EUI64) (g : gtw).

(** The atomic actions of a publishing goroutine that knows that the gateways
    [K] exist, with the gateways it makes sure of. *)
Inductive pub_act (K : gset EUI64) : (Time → ttn → result ttn) → gset EUI64 → Prop :=
| pa_skip : pub_act K skip ∅
| pa_new mac : pub_act K (λ _ w, Ok (newGtw mac w)) {[mac]}
| pa_rate mac : pub_act K (λ _ w, Ok (rate_update mac w)) ∅
| pa_uplink rx :
    P rx → RXInfo_MAC (RXPacket_RXInfo rx) ∈ K →
    pub_act K (uplink_send (RXInfo_MAC (RXPacket_RXInfo rx)) rx) ∅
| pa_status st :
    Q st → Stats_MAC st ∈ K → pub_act K (status_send (Stats_MAC st) st) ∅.

(** The steps of the backend's own goroutines and of the router's streams.  The
    goroutine of a downlink stream holds [setup] during a subscription attempt and
    the back-off before it: it gives it back after each attempt, takes it again
    after one that failed and after a session, delivers while it has given it back,
    and ends after [Close] or when the router answers a subscription with a
    cancellation. *)
Inductive ttn_own : ttn → ttn → Prop :=
| to_tick w : ttn_own w (tick w)
| to_fetch FindGateway i mac w w' :
    ttn_fetches w !! i = Some mac → fetch_conf FindGateway mac w = Ok w' →
    ttn_own w (set_goroutines w' (delete i (ttn_fetches w)) (ttn_consumers w) (ttn_tx w))
| to_attempted mac i s x w :
    stream w mac i = Some s → wg_Done (ds_setup s) = Ok x →
    ttn_own w (set_stream mac i (set_ds_setup x s) w)
| to_again mac i s w :
    stream w mac i = Some s → wg_counter (ds_setup s) = 0%nat → chan_closed (ds_chan s) = false →
    ttn_own w (set_stream mac i (set_ds_setup (wg_Add (ds_setup s)) s) w)
| to_deliver mac i s m c w :
    stream w mac i = Some s → wg_counter (ds_setup s) = 0%nat → chan_closed (ds_chan s) = false →
    chan_offer m (ds_chan s) = Ok c →
    ttn_own w (set_stream mac i (set_ds_chan c s) w)
| to_finish mac i s c w :
    stream w mac i = Some s → wg_counter (ds_setup s) = 0%nat → chan_close (ds_chan s) = Ok c →
    ttn_own w (set_stream mac i (set_ds_chan c s) w)
| to_uplink_session mac g m c w :
    getGtw w mac = Some g → chan_receive (gtw_uplink g) = Some (m, c) →
    ttn_own w (update_gtw mac (set_uplink c) w)
| to_status_session mac g m c w :
    getGtw w mac = Some g → chan_receive (gtw_status g) = Some (m, c) →
    ttn_own w (update_gtw mac (set_status c) w)
| to_consumer j w w' : consumer_step j w = Some (Ok w') → ttn_own w w'.

(** With the rendezvous on [txPacketChan] and the publishing goroutines. *)
Inductive ttn_env : ttn → ttn → Prop :=
| te_own w w' : ttn_own w w' → ttn_env w w'
| te_handover j tx w w' : handover j w = Some (tx, w') → ttn_env w w'
| te_publish now K act new w w' :
    K ⊆ dom (ttn_gateways w) → pub_act K act new → act now w = Ok w' → ttn_env w w'.

(** The steps of the backend with those of the gateway registry's calls. *)
Inductive ttn_step : ttn → ttn → Prop :=
| ts_env w w' : ttn_env w w' → ttn_step w w'
| ts_subscribe mac w : ttn_step w (SubscribeGatewayTX mac w).2
| ts_unsubscribe mac w w' :
    UnSubscribeGatewayTX_call mac w = Returned None w' ∨ UnSubscribeGatewayTX_call mac w = Waits w' →
    ttn_step w w'
| ts_unsubscribe_woken mac w err w' :
    UnSubscribeGatewayTX_woken mac w = Some (Returned err w') → ttn_step w w'.
End Steps.

(** ** Gateways only grow *)

Record stream_le (s s' : downlinkStream) : Prop := mkStreamLe {
  sle_sent : chan_sent (ds_chan s) `prefix_of` chan_sent (ds_chan s');
  sle_closing : ds_closing s = true → ds_closing s' = true
}.

Record gtw_le (g g' : gtw) : Prop := mkGtwLe {
  gle_id : gtw_id g' = gtw_id g;
  gle_client : client_gatewayID (gtw_client g') = client_gatewayID (gtw_client g);
  gle_uplink : chan_sent (gtw_uplink g) `prefix_of` chan_sent (gtw_uplink g');
  gle_status : chan_sent (gtw_status g) `prefix_of` chan_sent (gtw_status g');
  gle_downlinks : ∀ i s, gtw_downlinks g !! i = Some s →
    ∃ s', gtw_downlinks g' !! i = Some s' ∧ stream_le s s'
}.

Record ttn_le (w w' : ttn) : Prop := mkTtnLe {
  tle_gateways : ∀ mac g, getGtw w mac = Some g → ∃ g', getGtw w' mac = Some g' ∧ gtw_le g g';
  tle_tx : ttn_tx w `prefix_of` ttn_tx w'
}.

#[export] Instance stream_le_preorder : PreOrder stream_le.
Proof. split; [done|]. intros a b c [??] [??]. split; [by etrans|auto]. Qed.

#[export] Instance gtw_le_preorder : PreOrder gtw_le.
Proof.
  split; [intros g; split; [done..|]; intros i s Hs; by exists s|]. intros a b c [? ? ? ? Hd] [? ? ? ? Hd'].
  split; [congruence..|by etrans|by etrans|].
  intros i s Hs. destruct (Hd i s Hs) as (s' & Hs' & ?). destruct (Hd' i s' Hs') as (s2 & ? & ?).
  exists s2. split; [done|by etrans].
Qed.

#[export] Instance ttn_le_preorder : PreOrder ttn_le.
Proof.
  split; [intros w; split; [|done]; intros mac g Hg; by exists g|].
  intros a b c [Hg ?] [Hg' ?]. split; [|by etrans].
  intros mac g Hm. destruct (Hg mac g Hm) as (g' & Hm' & ?). destruct (Hg' mac g' Hm') as (g2 & ? & ?).
  exists g2. split; [done|by etrans].
Qed.

Lemma stream_le_refl s : stream_le s s.
Proof. done. Qed.
Lemma gtw_le_refl g : gtw_le g g.
Proof. done. Qed.
#[local] Hint Resolve stream_le_refl gtw_le_refl : core.

Section Growth.
Context `{MathExp}.
Implicit Types (w : ttn) (mac : EUI64) (g : gtw).

Lemma ttn_le_update mac f w :
  (∀ g, getGtw w mac = Some g → gtw_le g (f g)) → ttn_le w (update_gtw mac f w).
Proof.
  intros Hf. split; [|done]. intros m g Hg. rewrite getGtw_update, Hg.
  case_bool_decide; subst; [|by eauto]. exists (f g). auto.
Qed.

Lemma ttn_le_goroutines w fs cs tx :
  ttn_tx w `prefix_of` tx → ttn_le w (set_goroutines w fs cs tx).
Proof. intros Htx. split; [eauto|done]. Qed.

Lemma ttn_le_new mac w : ttn_le w (newGtw mac w).
Proof.
  split; [|unfold newGtw; by repeat case_match].
  intros m g Hg. rewrite getGtw_newGtw, Hg. eauto.
Qed.

Lemma gtw_le_downlinks g l :
  (∀ i s, gtw_downlinks g !! i = Some s → ∃ s', l !! i = Some s' ∧ stream_le s s') →
  gtw_le g (set_downlinks l g).
Proof. by split. Qed.

Lemma gtw_le_stream g i s s' :
  gtw_downlinks g !! i = Some s → stream_le s s' →
  gtw_le g (set_downlinks (<[i := s']> (gtw_downlinks g)) g).
Proof.
  intros Hs Hle. apply gtw_le_downlinks. intros j t Ht.
  destruct (decide (j = i)) as [->|Hne].
  - rewrite list_lookup_insert_eq by (by apply lookup_lt_Some in Hs). exists s'. by simplify_eq.
  - rewrite list_lookup_insert_ne by done. eauto.
Qed.

Lemma gtw_le_rate g r : gtw_le g (set_rxRate r g).
Proof. split; cbn; eauto. Qed.
Lemma gtw_le_uplink g c : chan_sent (gtw_uplink g) `prefix_of` chan_sent c → gtw_le g (set_uplink c g).
Proof. intros Hc. split; cbn; eauto. Qed.
Lemma gtw_le_status g c : chan_sent (gtw_status g) `prefix_of` chan_sent c → gtw_le g (set_status c g).
Proof. intros Hc. split; cbn; eauto. Qed.

Lemma ttn_le_stream mac i s s' w :
  stream w mac i = Some s → stream_le s s' → ttn_le w (set_stream mac i s' w).
Proof.
  intros Hs Hle. apply bind_Some in Hs as (g & Hg & Hs). apply ttn_le_update.
  intros g' Hg'. simplify_eq. by eapply gtw_le_stream.
Qed.

Lemma ttn_le_account w w' fs cs tx :
  ttn_le w w' → ttn_tx w `prefix_of` tx → ttn_le w (set_goroutines w' fs cs tx).
Proof. intros [Hg ?] Htx. by split. Qed.

Lemma chan_receive_sent {A} (c c' : gochan A) x : chan_receive c = Some (x, c') →
  chan_sent c' = chan_sent c ∧ x ∈ chan_sent c ∧ chan_closed c' = chan_closed c.
Proof.
  unfold chan_receive. intros Hr. apply bind_Some in Hr as (y & Hy & Hr). simplify_eq.
  split_and!; try done. by eapply list_elem_of_lookup_2.
Qed.

Lemma fetch_conf_le Find mac w w' : fetch_conf Find mac w = Ok w' → ttn_le w w' ∧ ttn_tx w' = ttn_tx w.
Proof.
  unfold fetch_conf. destruct (ttn_gateways w !! mac) as [g|] eqn:Eg; [|done].
  destruct (ttn_accountServer w) as [a|]; [|done].
  destruct (Find a _) as [e|s]; [intros [= <-]; by split|].
  destruct (Gateway_Token s); intros [= <-]; (split; [|done]); apply ttn_le_update;
    intros g' Hg'; unfold getGtw in Hg'; rewrite Eg in Hg'; injection Hg' as <-;
    split; cbn; eauto.
Qed.

Lemma consumer_step_le j w w' : consumer_step j w = Some (Ok w') → ttn_le w w'.
Proof.
  unfold consumer_step. intros Hs. apply bind_Some in Hs as ([mac c] & Hj & Hs).
  destruct c as [|i|i tx|]; try done.
  - apply bind_Some in Hs as (g & Hg & Hs). destruct (gtw_downlink g); [|done].
    injection Hs as <-. by apply ttn_le_goroutines.
  - apply bind_Some in Hs as (s & Hst & Hs).
    destruct (chan_receive (ds_chan s)) as [[m ch]|] eqn:Er.
    + injection Hs as Hs. apply rbind_ok in Hs as (p & _ & Hs). injection Hs as <-.
      assert (ttn_le w (set_stream mac i (set_ds_chan ch s) w)) as Hle.
      { eapply ttn_le_stream; [done|]. split; [|done]. cbn.
        by apply chan_receive_sent in Er as [-> _]. }
      destruct p; [|done]. by apply ttn_le_account.
    + destruct (chan_closed (ds_chan s)); [|done]. injection Hs as <-. by apply ttn_le_goroutines.
Qed.

Lemma handover_le j tx w w' :
  handover j w = Some (tx, w') → ttn_le w w' ∧ ttn_tx w' = ttn_tx w ++ [tx].
Proof.
  unfold handover. intros Hs. apply bind_Some in Hs as ([mac c] & Hj & Hs).
  destruct c; try done. simplify_eq. split; [|done].
  apply ttn_le_account; [by apply ttn_le_goroutines|]. cbn. by apply prefix_app_r.
Qed.

Lemma pub_act_le P Q K act new now w w' : pub_act P Q K act new → act now w = Ok w' → ttn_le w w'.
Proof.
  intros [|mac|mac|rx _ _|st _ _] Hact.
  - by injection Hact as <-.
  - injection Hact as <-. apply ttn_le_new.
  - apply (inj Ok) in Hact as <-. unfold rate_update. apply ttn_le_update. intros g _.
    by apply gtw_le_rate.
  - unfold uplink_send in Hact. destruct (getGtw w _) as [g|] eqn:Eg; [|done].
    apply rbind_ok in Hact as (c & Hc & Hact). injection Hact as <-. apply chan_offer_prefix in Hc as [Hc _].
    apply ttn_le_update. intros g' Hg'. simplify_eq. by apply gtw_le_uplink.
  - unfold status_send in Hact. destruct (getGtw w _) as [g|] eqn:Eg; [|done].
    apply rbind_ok in Hact as (c & Hc & Hact). injection Hact as <-. apply chan_offer_prefix in Hc as [Hc _].
    apply ttn_le_update. intros g' Hg'. simplify_eq. by apply gtw_le_status.
Qed.

Lemma ttn_own_le w w' : ttn_own w w' → ttn_le w w'.
Proof.
  intros Hs. destruct Hs as [w|Find i mac w w' Hi Hf|mac i s g w Hs Hd|mac i s w Hs Hc Ho
    |mac i s m c w Hs Hd Hc Ho|mac i s c w Hs Hd Ho|mac g m c w Hg Hr|mac g m c w Hg Hr|j w w' Hj].
  - split; [|done]. intros mac g Hg. unfold getGtw, tick in *. cbn. rewrite lookup_fmap, Hg.
    eexists. split; [done|apply gtw_le_rate].
  - apply fetch_conf_le in Hf as [Hf _]. by apply ttn_le_account.
  - by eapply ttn_le_stream.
  - by eapply ttn_le_stream.
  - eapply ttn_le_stream; [done|]. split; [|done]. by apply chan_offer_prefix in Ho as [Ho _].
  - eapply ttn_le_stream; [done|]. split; [|done]. unfold chan_close in Ho. case_match; by simplify_eq.
  - apply ttn_le_update. intros g' Hg'. simplify_eq. apply chan_receive_sent in Hr as [Hr _].
    apply gtw_le_uplink. by rewrite Hr.
  - apply ttn_le_update. intros g' Hg'. simplify_eq. apply chan_receive_sent in Hr as [Hr _].
    apply gtw_le_status. by rewrite Hr.
  - by eapply consumer_step_le.
Qed.

(** Only the rendezvous hands packets over. *)
Lemma ttn_own_tx w w' : ttn_own w w' → ttn_tx w' = ttn_tx w.
Proof.
  intros Hs. destruct Hs as [| | | | | | | |j w w' Hj]; try done.
  unfold consumer_step in Hj. apply bind_Some in Hj as ([mac c] & Hc & Hj).
  destruct c as [|i|i tx|]; try done.
  - apply bind_Some in Hj as (g & Hg & Hj). destruct (gtw_downlink g); [|done]. by injection Hj as <-.
  - apply bind_Some in Hj as (s & Hs & Hj).
    destruct (chan_receive (ds_chan s)) as [[m ch]|].
    + injection Hj as Hj. apply rbind_ok in Hj as (p & _ & Hj). injection Hj as <-. by destruct p.
    + destruct (chan_closed _); [|done]. by injection Hj as <-.
Qed.

Lemma ttn_env_le P Q w w' : ttn_env P Q w w' → ttn_le w w'.
Proof.
  intros [? ? Ho|j tx ? ? Hj|now K act new ? ? _ Hp Hact];
    [by apply ttn_own_le|by eapply handover_le|by eapply pub_act_le].
Qed.

Lemma ensure_gtw_le mac w : ttn_le w (ensure_gtw mac w).
Proof. unfold ensure_gtw. case_match; [done|apply ttn_le_new]. Qed.

Lemma subscribe_le mac w : ttn_le w (SubscribeGatewayTX mac w).2.
Proof.
  etrans; [apply (ensure_gtw_le mac w)|]. unfold SubscribeGatewayTX.
  apply ttn_le_account; [|done]. apply ttn_le_update. intros g _. apply gtw_le_downlinks.
  intros i s Hs. exists s. split; [by apply lookup_app_l_Some|done].
Qed.

(** What a call of [UnSubscribeGatewayTX], or the rest of it, does to the state. *)
Definition unsubscribed mac w w' : Prop :=
  w' = w ∨ ∃ g s s', getGtw w mac = Some g ∧ gtw_downlink g = Some s ∧
    w' = set_stream mac (pred (length (gtw_downlinks g))) s' w ∧ stream_le s s' ∧
    (∀ busy, wg_turn busy (ds_setup s) → wg_turn busy (ds_setup s')).

Lemma downlink_Close_le s :
  stream_le s (downlink_Close s).2 ∧
  ∀ busy, wg_turn busy (ds_setup s) → wg_turn busy (ds_setup (downlink_Close s).2).
Proof.
  split.
  - unfold downlink_Close. destruct (wg_Wait _).1; by split.
  - intros busy Hb. apply wg_turn_Wait in Hb as [_ Hb]. unfold downlink_Close. by destruct (wg_Wait _).1.
Qed.

Lemma unsubscribe_call mac w :
  match UnSubscribeGatewayTX_call mac w with
  | Returned None w' | Waits w' => unsubscribed mac w w'
  | Returned (Some _) _ | Panicked _ => False
  end.
Proof.
  unfold UnSubscribeGatewayTX_call. destruct (getGtw w mac) as [g|] eqn:Eg; [|by left].
  destruct (gtw_downlink g) as [s|] eqn:Es; [|by left].
  pose proof (downlink_Close_le s) as [Hle Ht]. destruct (downlink_Close s) as [[] s'] eqn:E; right;
    exists g, s, s'; by split_and!.
Qed.

Lemma unsubscribe_woken mac w a :
  UnSubscribeGatewayTX_woken mac w = Some a →
  match a with
  | Returned None w' => unsubscribed mac w w'
  | Returned (Some _) _ | Waits _ => False
  | Panicked why => why = reuse_panic ∧ ∃ g s, getGtw w mac = Some g ∧ gtw_downlink g = Some s ∧
      (0 < wg_released (ds_setup s))%nat ∧
      (wg_counter (ds_setup s) ≠ 0 ∨ wg_waiters (ds_setup s) ≠ 0)%nat
  end.
Proof.
  unfold UnSubscribeGatewayTX_woken, downlink_Close_woken. intros Ha.
  apply bind_Some in Ha as (g & Hg & Ha). apply bind_Some in Ha as (s & Hs & Ha).
  apply bind_Some in Ha as (r & Hr & Ha). apply bind_Some in Hr as (rg & Hw & Hr).
  injection Hr as <-. unfold wg_wake in Hw. destruct (wg_released (ds_setup s)) as [|n] eqn:En; [done|].
  destruct (wg_counter (ds_setup s)) as [|k] eqn:Ek; [destruct (wg_waiters (ds_setup s)) as [|l] eqn:El|];
    injection Hw as <-; cbn in Ha; injection Ha as <-.
  - right. exists g, s, (mkDownlinkStream (ds_chan s) true (mkWaitGroup 0 0 n)). split_and!; try done.
    intros []; cbn; [by rewrite Ek|done].
  - split; [done|]. exists g, s. split_and!; try done; lia.
  - split; [done|]. exists g, s. split_and!; try done; lia.
Qed.

Lemma unsubscribed_le mac w w' : unsubscribed mac w w' → ttn_le w w'.
Proof.
  intros [->|(g & s & s' & Hg & Hs & -> & Hle & _)]; [done|].
  eapply ttn_le_stream; [|exact Hle]. unfold stream. by rewrite Hg.
Qed.

Lemma ttn_step_le P Q w w' : ttn_step P Q w w' → ttn_le w w'.
Proof.
  intros [? ? He|mac ?|mac w1 w2 Hc|mac w1 err w2 Hc]; [by eapply ttn_env_le|apply subscribe_le|..].
  - pose proof (unsubscribe_call mac w1) as Hu. apply (unsubscribed_le mac).
    by destruct Hc as [Hc|Hc]; rewrite Hc in Hu.
  - apply unsubscribe_woken in Hc. apply (unsubscribed_le mac). by destruct err.
Qed.

(** In every interleaving of the network backend's steps a gateway keeps its
    identity, and what was sent on its uplink and status streams is never removed
    or reordered. *)
Theorem gateways_survive P Q w w' mac g :
  rtc (ttn_step P Q) w w' → getGtw w mac = Some g →
  ∃ g', getGtw w' mac = Some g' ∧ gtw_id g' = gtw_id g ∧
    client_gatewayID (gtw_client g') = client_gatewayID (gtw_client g) ∧
    chan_sent (gtw_uplink g) `prefix_of` chan_sent (gtw_uplink g') ∧
    chan_sent (gtw_status g) `prefix_of` chan_sent (gtw_status g').
Proof.
  intros Hr Hg. assert (ttn_le w w') as Hle.
  { clear Hg. induction Hr as [|w1 w2 w3 Hs _ IH]; [done|]. etrans; [by eapply ttn_step_le|done]. }
  destruct (tle_gateways _ _ Hle mac g Hg) as (g' & Hg' & [? ? ? ? _]). eauto 10.
Qed.
End Growth.
