(* ===== verification/TtnInvariant.v ===== *)
(** * The Things Network backend: invariants

    No step of the backend changes who is subscribed; every uplink message and
    status on a gateway's stream was made from a packet of that gateway; every
    packet handed to the downlink loop was made from a message that arrived on
    a stream of its gateway; and nothing panics except on a malformed message. *)

From Stdlib Require Import String Ascii NArith ZArith Lia SpecFloat.
From stdpp Require Import base gmap list strings numbers relations.
From S2P Require Import Prelude GoPrim GoSync GoStrconv GoFloat Lorawan Registry Convert Metrics.
From S2P Require Import GoDuration TtnTypes Ttn TtnLaws TtnSystem.

Local Open Scope string_scope.
Local Open Scope list_scope.
Local Open Scope Z_scope.

(** ** Subscriptions *)

Section Subscriptions.
Context `{MathExp}.
Implicit Types (w : ttn) (mac : EUI64) (g : gtw).

Definition open_at w mac : bool :=
  match getGtw w mac with Some g => downlink_open g | None => false end.

Lemma ttn_subs_open w w' : (∀ mac, open_at w' mac = open_at w mac) → ttn_subs w' = ttn_subs w.
Proof.
  intros Hm. apply ttn_subs_ext. intros mac. specialize (Hm mac). unfold open_at in Hm.
  destruct (getGtw w mac) as [g|], (getGtw w' mac) as [g'|];
    split; intros (x & Hx & Ho); simplify_eq; (congruence || (eexists; split; [done|congruence])).
Qed.

Lemma ttn_subs_update mac f w :
  (∀ g, getGtw w mac = Some g → downlink_open (f g) = downlink_open g) →
  ttn_subs (update_gtw mac f w) = ttn_subs w.
Proof.
  intros Hf. apply ttn_subs_open. intros m. unfold open_at. rewrite getGtw_update.
  case_bool_decide; subst; [|done]. destruct (getGtw w mac) as [g|] eqn:Eg; [|done]. by apply Hf.
Qed.

Lemma ttn_subs_new mac w : ttn_subs (newGtw mac w) = ttn_subs w.
Proof.
  apply ttn_subs_open. intros m. unfold open_at. rewrite getGtw_newGtw.
  destruct (getGtw w m); [done|]. by case_bool_decide.
Qed.

Lemma downlink_open_stream g i s s' :
  gtw_downlinks g !! i = Some s → ds_closing s' = ds_closing s →
  downlink_open (set_downlinks (<[i := s']> (gtw_downlinks g)) g) = downlink_open g.
Proof.
  intros Hs Hc. unfold downlink_open, gtw_downlink. cbn. rewrite length_insert.
  destruct (decide (i = pred (length (gtw_downlinks g)))) as [<-|Hne].
  - rewrite list_lookup_insert_eq, Hs by (by apply lookup_lt_Some in Hs). by rewrite Hc.
  - by rewrite list_lookup_insert_ne by done.
Qed.

Lemma ttn_subs_stream mac i s s' w :
  stream w mac i = Some s → ds_closing s' = ds_closing s →
  ttn_subs (set_stream mac i s' w) = ttn_subs w.
Proof.
  intros Hs Hc. apply bind_Some in Hs as (g & Hg & Hs). apply ttn_subs_update.
  intros g' Hg'. simplify_eq. by eapply downlink_open_stream.
Qed.

Lemma ttn_own_subs w w' : ttn_own w w' → ttn_subs w' = ttn_subs w.
Proof.
  intros Hs. destruct Hs as [w|Find i mac w w' Hi Hf|mac i s g w Hs Hd|mac i s w Hs Hc Ho
    |mac i s m c w Hs Hd Hc Ho|mac i s c w Hs Hd Ho|mac g m c w Hg Hr|mac g m c w Hg Hr|j w w' Hj].
  - apply ttn_subs_open. intros mac. unfold open_at, getGtw, tick. cbn. rewrite lookup_fmap.
    by destruct (ttn_gateways w !! mac).
  - change (ttn_subs w' = ttn_subs w). unfold fetch_conf in Hf.
    destruct (ttn_gateways w !! mac); [|done]. destruct (ttn_accountServer w); [|done].
    destruct (Find _ _) as [e|st]; [by injection Hf as <-|].
    destruct (Gateway_Token st); injection Hf as <-; by apply ttn_subs_update.
  - by eapply ttn_subs_stream.
  - by eapply ttn_subs_stream.
  - by eapply ttn_subs_stream.
  - by eapply ttn_subs_stream.
  - by apply ttn_subs_update.
  - by apply ttn_subs_update.
  - unfold consumer_step in Hj. apply bind_Some in Hj as ([mac c] & Hc & Hj).
    destruct c as [|i|i tx|]; try done.
    + apply bind_Some in Hj as (g & Hg & Hj). destruct (gtw_downlink g); [|done]. by injection Hj as <-.
    + apply bind_Some in Hj as (s & Hs & Hj).
      destruct (chan_receive (ds_chan s)) as [[m ch]|] eqn:Er.
      * injection Hj as Hj. apply rbind_ok in Hj as (p & _ & Hj). injection Hj as <-.
        transitivity (ttn_subs (set_stream mac i (set_ds_chan ch s) w));
          [by destruct p|by eapply ttn_subs_stream].
      * destruct (chan_closed _); [|done]. by injection Hj as <-.
Qed.

Lemma ttn_env_subs P Q w w' : ttn_env P Q w w' → ttn_subs w' = ttn_subs w.
Proof.
  intros [? ? Ho|j tx ? ? Hj|now K act new ? ? _ Hp Hact]; [by apply ttn_own_subs| |].
  - unfold handover in Hj. apply bind_Some in Hj as ([mac c] & Hc & Hj). by destruct c; simplify_eq.
  - destruct Hp as [|mac|mac|rx _ _|st _ _].
    + by injection Hact as <-.
    + apply (inj Ok) in Hact as <-. apply ttn_subs_new.
    + apply (inj Ok) in Hact as <-. unfold rate_update. by apply ttn_subs_update.
    + unfold uplink_send in Hact. destruct (getGtw _ _) as [g|] eqn:Eg; [|done].
      apply rbind_ok in Hact as (c & Hc & Hact). injection Hact as <-. by apply ttn_subs_update.
    + unfold status_send in Hact. destruct (getGtw _ _) as [g|] eqn:Eg; [|done].
      apply rbind_ok in Hact as (c & Hc & Hact). injection Hact as <-. by apply ttn_subs_update.
Qed.
End Subscriptions.

(** ** Well-formed states *)

Definition from_stream (w : ttn) (mac : EUI64) (i : nat) (tx : TXPacketBytes) : Prop :=
  ∃ s m, stream w mac i = Some s ∧ m ∈ chan_sent (ds_chan s) ∧
         downlink_packet mac m = Ok (Some tx).

(** The state of the consumer of a stream of a gateway. *)
Definition consumer_ok (w : ttn) (mac : EUI64) (c : consumer) : Prop :=
  ∃ g, getGtw w mac = Some g ∧ gtw_downlinks g ≠ [] ∧
    match c with
    | CRange i => is_Some (gtw_downlinks g !! i)
    | CSend i tx => is_Some (gtw_downlinks g !! i) ∧ from_stream w mac i tx
    | CStart | CDone => True
    end.

(** A message that would crash its consumer was delivered to a gateway. *)
Definition malformed_delivered (w : ttn) : Prop :=
  ∃ mac i s m, stream w mac i = Some s ∧ m ∈ chan_sent (ds_chan s) ∧ malformed m = true.

Lemma stream_mono w w' mac i s :
  ttn_le w w' → stream w mac i = Some s → ∃ s', stream w' mac i = Some s' ∧ stream_le s s'.
Proof.
  intros [Hg _] Hs. apply bind_Some in Hs as (g & Hm & Hs).
  destruct (Hg mac g Hm) as (g' & Hm' & Hle). destruct (gle_downlinks _ _ Hle i s Hs) as (s' & Hs' & ?).
  exists s'. split; [|done]. unfold stream. by rewrite Hm'.
Qed.

Lemma from_stream_mono w w' mac i tx : ttn_le w w' → from_stream w mac i tx → from_stream w' mac i tx.
Proof.
  intros Hle (s & m & Hs & Hm & Hd). destruct (stream_mono _ _ _ _ _ Hle Hs) as (s' & Hs' & [Hp _]).
  exists s', m. split_and!; [done| |done]. by eapply elem_of_prefix.
Qed.

Lemma malformed_delivered_mono w w' : ttn_le w w' → malformed_delivered w → malformed_delivered w'.
Proof.
  intros Hle (mac & i & s & m & Hs & Hm & Hb).
  destruct (stream_mono _ _ _ _ _ Hle Hs) as (s' & Hs' & [Hp _]).
  exists mac, i, s', m. split_and!; [done| |done]. by eapply elem_of_prefix.
Qed.

Lemma consumer_ok_mono w w' mac c : ttn_le w w' → consumer_ok w mac c → consumer_ok w' mac c.
Proof.
  intros Hle (g & Hg & Hne & Hc). destruct (tle_gateways _ _ Hle _ _ Hg) as (g' & Hg' & Hgle).
  assert (∀ i, is_Some (gtw_downlinks g !! i) → is_Some (gtw_downlinks g' !! i)) as Hd.
  { intros i [s Hs]. destruct (gle_downlinks _ _ Hgle i s Hs) as (s' & Hs' & _). eauto. }
  exists g'. split_and!; [done| |].
  - destruct (gtw_downlinks g) as [|s l] eqn:El; [done|].
    destruct (Hd 0%nat) as [s' Hs']; [by exists s|]. by destruct (gtw_downlinks g').
  - destruct c as [|i|i tx|]; [done|auto| |done]. destruct Hc. eauto using from_stream_mono.
Qed.

Section Invariant.
Context `{MathExp}.
Context (P : RXPacketBytes → Prop) (Q : GatewayStatsPacket → Prop).
Implicit Types (w : ttn) (mac : EUI64) (g : gtw).

(** An uplink message made from a packet of the gateway. *)
Definition uplink_ok mac (m : UplinkMessage) : Prop :=
  ∃ now rx, P rx ∧ RXInfo_MAC (RXPacket_RXInfo rx) = mac ∧ m = convertRXPacket now rx.
Definition status_ok mac (m : Status) : Prop :=
  ∃ conf w st, Q st ∧ Stats_MAC st = mac ∧ m = complete_status conf (convertStatsPacket w st).

(** Its goroutine holds [setup] or has given it back. *)
Definition setup_ok (s : downlinkStream) : Prop := ∃ busy, wg_turn busy (ds_setup s).

Record gtw_ok mac g : Prop := mkGtwOk {
  gok_uplink_open : chan_closed (gtw_uplink g) = false;
  gok_status_open : chan_closed (gtw_status g) = false;
  gok_uplink_buffer : chan_ok (gtw_uplink g);
  gok_status_buffer : chan_ok (gtw_status g);
  gok_uplink : Forall (uplink_ok mac) (chan_sent (gtw_uplink g));
  gok_status : Forall (status_ok mac) (chan_sent (gtw_status g));
  gok_downlinks : ∀ i s, gtw_downlinks g !! i = Some s → setup_ok s
}.

Record ttn_ok w : Prop := mkTtnOk {
  tok_gateways : ∀ mac g, getGtw w mac = Some g → gtw_ok mac g;
  tok_consumers : ∀ j mac c, ttn_consumers w !! j = Some (mac, c) → consumer_ok w mac c;
  tok_fetches : ∀ mac, mac ∈ ttn_fetches w → is_Some (getGtw w mac) ∧ is_Some (ttn_accountServer w);
  tok_tx : ∀ tx, tx ∈ ttn_tx w → ∃ i, from_stream w (TXInfo_MAC (TXPacket_TXInfo tx)) i tx
}.

Lemma ttn_ok_init newClient get Dial id discovery router w :
  NewBackend newClient get Dial id discovery router = Ok w → ttn_ok w ∧ ttn_subs w = ∅.
Proof.
  unfold NewBackend. intros Hw. inv_ok. subst w. split; [|done].
  split; cbn; set_solver.
Qed.

(** A step that keeps the goroutines only has to keep the gateways in order. *)
Lemma ttn_ok_gateways w w' :
  ttn_ok w → ttn_le w w' → (∀ mac g, getGtw w' mac = Some g → gtw_ok mac g) →
  ttn_consumers w' = ttn_consumers w → ttn_fetches w' ⊆ ttn_fetches w →
  ttn_accountServer w' = ttn_accountServer w → ttn_tx w' = ttn_tx w → ttn_ok w'.
Proof.
  intros [Hg Hc Hf Ht] Hle Hg' Ec Ef Ea Et. split; [done| | |].
  - intros j mac c. rewrite Ec. eauto using consumer_ok_mono.
  - intros mac Hm. apply Ef, Hf in Hm as [[g Hm] ?]. rewrite Ea. split; [|done].
    destruct (tle_gateways _ _ Hle mac g Hm) as (g' & ? & _). eauto.
  - intros tx. rewrite Et. intros Htx. destruct (Ht tx Htx) as [i Hi]. eauto using from_stream_mono.
Qed.

Lemma ttn_ok_update mac f w :
  ttn_ok w → (∀ g, getGtw w mac = Some g → gtw_ok mac g → gtw_le g (f g) ∧ gtw_ok mac (f g)) →
  ttn_ok (update_gtw mac f w).
Proof.
  intros Hok Hf. apply (ttn_ok_gateways w); try done.
  - apply ttn_le_update. intros g Hg. apply Hf; [done|]. by apply (tok_gateways _ Hok).
  - intros m g. rewrite getGtw_update. case_bool_decide; subst; [|apply (tok_gateways _ Hok)].
    intros Hg. apply fmap_Some in Hg as (g0 & Hg & ->). apply Hf; [done|].
    by apply (tok_gateways _ Hok).
Qed.

Lemma gtw_ok_fresh w mac : gtw_ok mac (fresh_gtw w mac).
Proof. split; try done; unfold chan_ok; cbn; lia. Qed.

Lemma gtw_ok_downlinks mac g l :
  gtw_ok mac g → (∀ i s, l !! i = Some s → setup_ok s) → gtw_ok mac (set_downlinks l g).
Proof. intros []. by split. Qed.

Lemma ttn_ok_stream mac i s s' w :
  ttn_ok w → stream w mac i = Some s → stream_le s s' → (setup_ok s → setup_ok s') →
  ttn_ok (set_stream mac i s' w).
Proof.
  intros Hok Hs Hle Hst. apply bind_Some in Hs as (g & Hg & Hs). apply ttn_ok_update; [done|].
  intros g' Hg' Hgok. simplify_eq. split; [by eapply gtw_le_stream|]. apply gtw_ok_downlinks; [done|].
  intros j t Ht. apply list_lookup_insert_Some in Ht as [(_ & <- & _)|[_ Ht]];
    [apply Hst; by apply (gok_downlinks _ _ Hgok i)|by apply (gok_downlinks _ _ Hgok j)].
Qed.

(** The state of a stream of a well-formed backend. *)
Lemma ttn_ok_setup mac i s w : ttn_ok w → stream w mac i = Some s → setup_ok s.
Proof.
  intros Hok Hs. apply bind_Some in Hs as (g & Hg & Hs).
  by apply (gok_downlinks _ _ (tok_gateways _ Hok mac g Hg) i).
Qed.

(** Changing the goroutine at one index. *)
Lemma ttn_ok_consumer j mac c w :
  ttn_ok w → consumer_ok w mac c → ttn_ok (set_consumer j mac c w).
Proof.
  intros [Hg Hc Hf Ht] Hok. split; [done| |done|done].
  intros j' mac' c' Hj. cbn in Hj. apply list_lookup_insert_Some in Hj as [(-> & [= <- <-] & _)|[_ Hj]];
    [done|by apply (Hc j')].
Qed.

Lemma newGtw_ok mac w : ttn_ok w → ttn_ok (newGtw mac w).
Proof.
  intros Hok. pose proof (ttn_le_new mac w) as Hle.
  assert (ttn_consumers (newGtw mac w) = ttn_consumers w ∧ ttn_tx (newGtw mac w) = ttn_tx w ∧
    ttn_accountServer (newGtw mac w) = ttn_accountServer w ∧
    (ttn_fetches (newGtw mac w) = ttn_fetches w ∨
     ttn_fetches (newGtw mac w) = ttn_fetches w ++ [mac] ∧ is_Some (ttn_accountServer w)))
    as (Ec & Et & Ea & Ef).
  { unfold newGtw. destruct (ttn_gateways w !! mac); [by auto|].
    destruct (ttn_gatewayConf w !! mac); [by auto|]. cbn.
    destruct (ttn_accountServer w) eqn:Ea; cbn; (split_and!; [done..|]); [right; eauto|by left]. }
  split.
  - intros m g. rewrite getGtw_newGtw. destruct (getGtw w m) as [g0|] eqn:Eg.
    + intros [= <-]. by apply (tok_gateways _ Hok).
    + case_bool_decide; [|done]. intros [= <-]. subst. apply gtw_ok_fresh.
  - intros j m c. rewrite Ec. intros Hj. eapply consumer_ok_mono; [done|]. by eapply (tok_consumers _ Hok).
  - intros m Hm. rewrite getGtw_newGtw, Ea.
    assert (m ∈ ttn_fetches w ∨ m = mac ∧ is_Some (ttn_accountServer w)) as [Hin|[-> Ha]].
    { destruct Ef as [Ef|[Ef ?]]; rewrite Ef in Hm; [by left|].
      apply elem_of_app in Hm as [|Hm]; [by left|]. apply list_elem_of_singleton in Hm. auto. }
    + apply (tok_fetches _ Hok) in Hin as [[g ->] ?]. eauto.
    + split; [|done]. rewrite bool_decide_true by done. destruct (getGtw w mac); eauto.
  - intros tx. rewrite Et. intros Htx. destruct (tok_tx _ Hok tx Htx) as [i Hi]. eauto using from_stream_mono.
Qed.

Lemma chan_receive_gtw {A} (c c' : gochan A) m :
  chan_receive c = Some (m, c') → chan_ok c → chan_ok c' ∧ chan_sent c' = chan_sent c ∧
  chan_closed c' = chan_closed c.
Proof.
  intros Hr Hok. pose proof (chan_receive_ok _ _ _ Hok Hr). by apply chan_receive_sent in Hr as (? & _ & ?).
Qed.

(** The next action of a consumer: in order, or a panic on a malformed message. *)
Lemma consumer_step_ok j w r :
  ttn_ok w → consumer_step j w = Some r →
  match r with
  | Ok w' => ttn_ok w'
  | Panic _ => malformed_delivered w
  | Err _ => False
  end.
Proof.
  intros Hok Hs. unfold consumer_step in Hs. apply bind_Some in Hs as ([mac c] & Hj & Hs).
  pose proof (tok_consumers _ Hok _ _ _ Hj) as (g & Hg & Hne & Hc).
  destruct c as [|i|i tx|]; try done.
  - rewrite Hg in Hs. cbn in Hs. unfold gtw_downlink in Hs.
    destruct (gtw_downlinks g !! pred (length (gtw_downlinks g))) as [s|] eqn:Es.
    + injection Hs as <-. apply ttn_ok_consumer; [done|]. exists g. eauto.
    + apply lookup_ge_None_1 in Es. destruct (gtw_downlinks g); [done|]. cbn in Es. lia.
  - apply bind_Some in Hs as (s & Hst & Hs).
    destruct (chan_receive (ds_chan s)) as [[m ch]|] eqn:Er.
    + injection Hs as <-. destruct (chan_receive_sent _ _ _ Er) as (Hsent & Hm & _).
      pose proof (downlink_packet_cases mac m) as Hcase. destruct (malformed m) eqn:Em.
      { rewrite Hcase. cbn. exists mac, i, s, m. done. }
      destruct Hcase as (p & Hp & _). rewrite Hp. cbn [rbind].
      assert (stream_le s (set_ds_chan ch s)) as Hsle
        by (split; [cbn; by rewrite Hsent|done]).
      pose proof (ttn_ok_stream _ _ _ _ _ Hok Hst Hsle (λ x, x)) as Hok'.
      destruct p as [tx|]; [|done]. apply ttn_ok_consumer; [done|].
      pose proof (ttn_le_stream _ _ _ _ _ Hst Hsle) as Hle.
      assert (consumer_ok w mac (CRange i)) as Hco by (by exists g).
      destruct (consumer_ok_mono _ _ _ _ Hle Hco) as (g' & ? & ? & ?).
      exists g'. split_and!; try done. eapply from_stream_mono; [done|]. by exists s, m.
    + destruct (chan_closed _); [|done]. injection Hs as <-. apply ttn_ok_consumer; [done|]. by exists g.
Qed.

Lemma handover_ok j tx w w' :
  ttn_ok w → handover j w = Some (tx, w') → ttn_ok w'.
Proof.
  intros Hok Hs. unfold handover in Hs. apply bind_Some in Hs as ([mac c] & Hj & Hs).
  destruct c as [| |i tx'|]; try done. injection Hs as <- <-.
  pose proof (tok_consumers _ Hok _ _ _ Hj) as (g & Hg & Hne & Hi & Hfs).
  assert (ttn_ok (set_consumer j mac (CRange i) w)) as [Hg' Hc' Hf' Ht'].
  { apply ttn_ok_consumer; [done|]. by exists g. }
  split; [done|done|done|]. cbn. intros t Ht. apply elem_of_app in Ht as [Ht|Ht].
  - by apply (tok_tx _ Hok).
  - apply list_elem_of_singleton in Ht as ->. exists i.
    assert (TXInfo_MAC (TXPacket_TXInfo tx') = mac) as ->; [|done].
    destruct Hfs as (s & m & _ & _ & Hd). pose proof (downlink_packet_cases mac m) as Hcase.
    destruct (malformed m); [by rewrite Hd in Hcase|]. destruct Hcase as (p & Hp & Hcase).
    rewrite Hd in Hp. injection Hp as <-. by destruct (Downlink_Lorawan m).
Qed.

(** An action of a publishing goroutine: in order, and it never panics. *)
Lemma pub_act_ok K act new now w :
  ttn_ok w → pub_act P Q K act new → K ⊆ dom (ttn_gateways w) →
  ∃ w', act now w = Ok w' ∧ ttn_ok w' ∧ K ∪ new ⊆ dom (ttn_gateways w').
Proof.
  intros Hok Hp HK.
  assert (∀ w', ttn_le w w' → K ∪ ∅ ⊆ dom (ttn_gateways w')) as Hdom.
  { intros w' [Hle _] m Hm. assert (m ∈ K) as Hk by set_solver.
    apply HK, elem_of_dom in Hk as [g Hg]. destruct (Hle m g Hg) as (g' & ? & _). apply elem_of_dom. eauto. }
  destruct Hp as [|mac|mac|rx HP Hmac|st HQ Hmac].
  - exists w. split_and!; [done..|]. by apply Hdom.
  - exists (newGtw mac w). split_and!; [done|by apply newGtw_ok|]. intros m Hm.
    apply elem_of_dom. change (is_Some (getGtw (newGtw mac w) m)). rewrite getGtw_newGtw.
    apply elem_of_union in Hm as [Hm|Hm].
    + apply HK, elem_of_dom in Hm as [g Hg]. unfold getGtw. rewrite Hg. eauto.
    + apply elem_of_singleton in Hm as ->. rewrite bool_decide_true by done. destruct (getGtw w mac); eauto.
  - exists (rate_update mac w). split_and!; [done| |].
    + unfold rate_update. apply ttn_ok_update; [done|]. intros g _ [].
      split; [apply gtw_le_rate|by split].
    + apply Hdom. unfold rate_update. apply ttn_le_update. intros g _. apply gtw_le_rate.
  - apply HK, elem_of_dom in Hmac as [g Hg]. fold (getGtw w (RXInfo_MAC (RXPacket_RXInfo rx))) in Hg.
    unfold uplink_send. rewrite Hg. destruct (tok_gateways _ Hok _ _ Hg) as [Huo Hso Hub Hsb Hu Hs Hdl].
    destruct (chan_offer (convertRXPacket now rx) (gtw_uplink g)) as [c|e|p] eqn:Ec;
      [|unfold chan_offer in Ec; rewrite Huo in Ec; by case_match..].
    destruct (chan_offer_prefix _ _ _ Ec) as (Hpre & Hsent & _ & Hcl).
    exists (update_gtw (RXInfo_MAC (RXPacket_RXInfo rx)) (set_uplink c) w). split_and!; [done| |].
    + apply ttn_ok_update; [done|]. intros g' Hg' _. simplify_eq. split; [by apply gtw_le_uplink|].
      split; cbn; try done; [congruence|by eapply chan_offer_ok|].
      destruct Hsent as [->| ->]; [done|]. apply Forall_app_2; [done|]. constructor; [|done].
      by exists now, rx.
    + apply Hdom. apply ttn_le_update. intros g' Hg'. simplify_eq. by apply gtw_le_uplink.
  - apply HK, elem_of_dom in Hmac as [g Hg]. fold (getGtw w (Stats_MAC st)) in Hg.
    unfold status_send. rewrite Hg. destruct (tok_gateways _ Hok _ _ Hg) as [Huo Hso Hub Hsb Hu Hs Hdl].
    set (m := complete_status (gtw_conf g) (convertStatsPacket w st)).
    destruct (chan_offer m (gtw_status g)) as [c|e|p] eqn:Ec;
      [|unfold chan_offer in Ec; rewrite Hso in Ec; by case_match..].
    destruct (chan_offer_prefix _ _ _ Ec) as (Hpre & Hsent & _ & Hcl).
    exists (update_gtw (Stats_MAC st) (set_status c) w). split_and!; [done| |].
    + apply ttn_ok_update; [done|]. intros g' Hg' _. simplify_eq. split; [by apply gtw_le_status|].
      split; cbn; try done; [congruence|by eapply chan_offer_ok|].
      destruct Hsent as [->| ->]; [done|]. apply Forall_app_2; [done|]. constructor; [|done].
      by exists (gtw_conf g), w, st.
    + apply Hdom. apply ttn_le_update. intros g' Hg'. simplify_eq. by apply gtw_le_status.
Qed.

(** The backend's own steps. *)
Lemma fetch_conf_ok Find i mac w w' :
  ttn_ok w → ttn_fetches w !! i = Some mac → fetch_conf Find mac w = Ok w' →
  ttn_ok (set_goroutines w' (delete i (ttn_fetches w)) (ttn_consumers w) (ttn_tx w)).
Proof.
  intros Hok Hi Hf. destruct (fetch_conf_le _ _ _ _ Hf) as [Hle _].
  assert (ttn_accountServer w' = ttn_accountServer w ∧
    ∀ m g, getGtw w' m = Some g → gtw_ok m g) as [Ea Hg].
  { unfold fetch_conf in Hf. destruct (ttn_gateways w !! mac) as [g|]; [|done].
    destruct (ttn_accountServer w) eqn:Eacc; [|done].
    destruct (Find _ _) as [e|st];
      [injection Hf as <-; split; [done|apply (tok_gateways _ Hok)]|].
    destruct (Gateway_Token st); injection Hf as <-; (split; [done|]); intros m g'; rewrite getGtw_update;
      (case_bool_decide; [|apply (tok_gateways _ Hok)]); intros Hm;
      apply fmap_Some in Hm as (g0 & Hm & ->); destruct (tok_gateways _ Hok _ _ Hm); by split. }
  apply (ttn_ok_gateways w); try done.
  - by apply ttn_le_account.
  - cbn. intros m Hm. apply list_elem_of_lookup in Hm as [k Hk].
    rewrite list_lookup_delete in Hk. apply list_elem_of_lookup. case_match; eauto.
Qed.

Lemma ttn_own_ok w w' : ttn_ok w → ttn_own w w' → ttn_ok w'.
Proof.
  intros Hok Hs. destruct Hs as [w|Find i mac w w' Hi Hf|mac i s g w Hs Hd|mac i s w Hs Hc Ho
    |mac i s m c w Hs Hd Hc Ho|mac i s c w Hs Hd Ho|mac g m c w Hg Hr|mac g m c w Hg Hr|j w w' Hj].
  - apply (ttn_ok_gateways w); try done; [by apply ttn_own_le; constructor|].
    intros mac g. unfold getGtw, tick. cbn. rewrite lookup_fmap. intros Hg.
    apply fmap_Some in Hg as (g0 & Hg & ->). destruct (tok_gateways _ Hok mac g0 Hg). by split.
  - by eapply fetch_conf_ok.
  - eapply ttn_ok_stream; [done..|]. intros [[] Hb]; cbn in *.
    + destruct (wg_turn_Done _ Hb) as (x & Hx & ?). rewrite Hd in Hx. injection Hx as <-. by exists false.
    + destruct Hb as [Hb _]. unfold wg_Done in Hd. by rewrite Hb in Hd.
  - eapply ttn_ok_stream; [done..|]. intros [[] Hb]; cbn in *; [by rewrite Hc in Hb|].
    exists true. by apply wg_turn_Add.
  - eapply ttn_ok_stream; [done|done| |done]. split; [|done]. by apply chan_offer_prefix in Ho as [Ho _].
  - eapply ttn_ok_stream; [done|done| |done]. split; [|done]. unfold chan_close in Ho. case_match; by simplify_eq.
  - apply ttn_ok_update; [done|]. intros g' Hg' [? ? Hb ? ? ? ?]. simplify_eq.
    destruct (chan_receive_gtw _ _ _ Hr Hb) as (? & Hsent & ?).
    split; [apply gtw_le_uplink; by rewrite Hsent|]. split; cbn; rewrite ?Hsent; try done. congruence.
  - apply ttn_ok_update; [done|]. intros g' Hg' [? ? ? Hb ? ? ?]. simplify_eq.
    destruct (chan_receive_gtw _ _ _ Hr Hb) as (? & Hsent & ?).
    split; [apply gtw_le_status; by rewrite Hsent|]. split; cbn; rewrite ?Hsent; try done. congruence.
  - by apply (consumer_step_ok _ _ _ Hok Hj).
Qed.

(** A configuration request never fails to find what it needs. *)
Lemma fetch_conf_no_panic Find i mac w :
  ttn_ok w → ttn_fetches w !! i = Some mac → no_panic (fetch_conf Find mac w).
Proof.
  intros Hok Hi. apply list_elem_of_lookup_2, (tok_fetches _ Hok) in Hi as [[g Hg] [a Ha]].
  unfold fetch_conf. unfold getGtw in Hg. rewrite Hg, Ha.
  destruct (Find _ _); [done|]. by destruct (Gateway_Token _).
Qed.

(** The calls of the gateway registry. *)
Lemma SubscribeGatewayTX_ok mac w : ttn_ok w → ttn_ok (SubscribeGatewayTX mac w).2.
Proof.
  intros Hok. unfold SubscribeGatewayTX. cbn [snd].
  assert (ttn_ok (ensure_gtw mac w)) as Hok1
    by (unfold ensure_gtw; case_match; [done|by apply newGtw_ok]).
  set (f := λ g, set_downlinks (gtw_downlinks g ++ [downlinkStream_new]) g).
  assert (ttn_ok (update_gtw mac f (ensure_gtw mac w))) as [Hg Hc Hf Ht].
  { apply ttn_ok_update; [done|]. intros g _ Hg. split.
    - apply gtw_le_downlinks. intros i s Hs. exists s. split; [by apply lookup_app_l_Some|done].
    - apply gtw_ok_downlinks; [done|]. intros i s Hs. apply lookup_app_Some in Hs as [Hs|[_ Hs]].
      + by apply (gok_downlinks _ _ Hg i).
      + apply list_lookup_singleton_Some in Hs as [_ <-]. by exists true. }
  split; [done| |done|done]. intros j m c. cbn.
  destruct (decide (j < length (ttn_consumers (ensure_gtw mac w)))%nat) as [Hj|Hj].
  - rewrite lookup_app_l by done. intros Hl. by apply (Hc j).
  - rewrite lookup_app_r by lia. intros Hl. apply list_lookup_singleton_Some in Hl as [_ [= <- <-]].
    exists (f (the_gtw w mac)). split_and!; [|intros E; symmetry in E; by apply app_cons_not_nil in E|done].
    change (getGtw (update_gtw mac f (ensure_gtw mac w)) mac = Some (f (the_gtw w mac))).
    by rewrite getGtw_update, bool_decide_true, getGtw_ensure_eq by done.
Qed.

Lemma unsubscribed_ok mac w w' : ttn_ok w → unsubscribed mac w w' → ttn_ok w'.
Proof.
  intros Hok [->|(g & s & s' & Hg & Hs & -> & Hle & Ht)]; [done|].
  eapply ttn_ok_stream; [done| |exact Hle|].
  - unfold stream. by rewrite Hg.
  - intros [busy Hb]. exists busy. auto.
Qed.

(** A subscription can only be cancelled by waiting for its attempts: when it
    panics, another attempt is under way. *)
Lemma UnSubscribeGatewayTX_panics mac w why :
  ttn_ok w → UnSubscribeGatewayTX_woken mac w = Some (Panicked why) →
  why = reuse_panic ∧ ∃ g s, getGtw w mac = Some g ∧ gtw_downlink g = Some s ∧
    (0 < wg_released (ds_setup s))%nat ∧ wg_counter (ds_setup s) = 1%nat.
Proof.
  intros Hok Hp. apply unsubscribe_woken in Hp as (-> & g & s & Hg & Hs & Hr & Hw).
  split; [done|]. exists g, s. split_and!; try done.
  destruct (gok_downlinks _ _ (tok_gateways _ Hok mac g Hg) _ s Hs) as [[] Hb]; [done|].
  destruct Hb as [Hz Hn]. rewrite Hz, Hn in Hw. by destruct Hw.
Qed.
End Invariant.

(** More packets may have been published meanwhile. *)
Lemma ttn_ok_mono `{MathExp} (P P' : RXPacketBytes → Prop) (Q Q' : GatewayStatsPacket → Prop) w :
  (∀ rx, P rx → P' rx) → (∀ st, Q st → Q' st) → ttn_ok P Q w → ttn_ok P' Q' w.
Proof.
  intros HP HQ [Hg Hc Hf Ht]. split; try done. intros mac g Hm. destruct (Hg mac g Hm) as [? ? ? ? Hu Hs ?].
  split; try done.
  - eapply Forall_impl; [exact Hu|]. intros m (now & rx & ? & ? & ?). exists now, rx. auto.
  - eapply Forall_impl; [exact Hs|]. intros m (conf & w' & st & ? & ? & ?). exists conf, w', st. auto.
Qed.

(** ** Publishing goroutines *)

Section Publishers.
Context `{MathExp}.
Context (P : RXPacketBytes → Prop) (Q : GatewayStatsPacket → Prop).

(** A goroutine whose actions, from now on, are those of publishing calls on
    gateways that exist by then: [K] are known to exist now. *)
Fixpoint tsafe {A} (K : gset EUI64) (p : tprog A) : Prop :=
  match p with
  | TRet _ => True
  | TStep act k =>
      ∃ new, pub_act P Q K act new ∧
        ∀ w, K ⊆ dom (ttn_gateways w) → tsafe (K ∪ new ∪ dom (ttn_gateways w)) (k w)
  end.

Lemma pub_act_weaken K K' act new : K ⊆ K' → pub_act P Q K act new → pub_act P Q K' act new.
Proof.
  intros HK [|mac|mac|rx ? ?|st ? ?];
    [apply pa_skip|apply pa_new|apply pa_rate|apply pa_uplink|apply pa_status]; auto.
Qed.

Lemma tsafe_weaken {A} (p : tprog A) K K' : K ⊆ K' → tsafe K p → tsafe K' p.
Proof.
  revert K K'. induction p as [a|act k IH]; intros K K' HK; [done|]. cbn.
  intros (new & Hp & Hk). exists new. split; [by eapply pub_act_weaken|].
  intros w Hw. apply (IH w (K ∪ new ∪ dom (ttn_gateways w))); [set_solver|]. apply Hk. set_solver.
Qed.

Lemma tsafe_with_gtw {A} mac (k : tprog A) K : tsafe (K ∪ {[mac]}) k → tsafe K (with_gtw mac k).
Proof.
  intros Hk. exists ∅. split; [apply pa_skip|]. intros w Hw.
  destruct (getGtw w mac) as [g|] eqn:Eg.
  - eapply tsafe_weaken; [|exact Hk]. unfold getGtw in Eg. apply elem_of_dom_2 in Eg. set_solver.
  - exists {[mac]}. split; [apply pa_new|]. intros w' Hw'. eapply tsafe_weaken; [|exact Hk]. set_solver.
Qed.

Lemma tsafe_PublishGatewayRX rx K :
  P rx → tsafe K (PublishGatewayRX (RXInfo_MAC (RXPacket_RXInfo rx)) rx).
Proof.
  intros HP. apply tsafe_with_gtw. set (mac := RXInfo_MAC (RXPacket_RXInfo rx)).
  exists ∅. split; [apply pa_rate|]. intros w1 Hw1. exists ∅. split; [apply pa_skip|].
  intros w2 Hw2.
  destruct (getGtw w2 mac) as [g|] eqn:Eg.
  - destruct (rate_exceeded w2 g); [done|]. exists ∅. split; [|done].
    apply pa_uplink; [done|]. subst mac. set_solver.
  - exfalso. unfold getGtw in Eg. apply not_elem_of_dom in Eg. apply Eg. set_solver.
Qed.

Lemma tsafe_PublishGatewayStats st K : Q st → tsafe K (PublishGatewayStats (Stats_MAC st) st).
Proof.
  intros HQ. apply tsafe_with_gtw. exists ∅. split; [|done]. apply pa_status; [done|]. set_solver.
Qed.
End Publishers.

Lemma tsafe_mono `{MathExp} {A} (P P' : RXPacketBytes → Prop) (Q Q' : GatewayStatsPacket → Prop)
    (p : tprog A) K :
  (∀ rx, P rx → P' rx) → (∀ st, Q st → Q' st) → tsafe P Q K p → tsafe P' Q' K p.
Proof.
  intros HP HQ. revert K. induction p as [a|act k IH]; intros K; [done|]. cbn.
  intros (new & Hp & Hk). exists new. split; [|by auto].
  destruct Hp as [|mac|mac|rx ? ?|st ? ?];
    [apply pa_skip|apply pa_new|apply pa_rate|apply pa_uplink|apply pa_status]; auto.
Qed.
