(* ===== verification/StreamRuns.v ===== *)
(** * The streams implement the backend's channels

    The backend of the other files sees a stream that sends as its buffered channel,
    and a downlink stream as its channel, its flag and its wait group.  Every step
    of the goroutines of [Streams] and [Downstream] is a step of that backend or
    leaves it alone.  Then runs of the streams: what
    their theorems are about can happen. *)

From Stdlib Require Import String Ascii NArith ZArith Lia.
From stdpp Require Import base gmap list strings numbers relations.
From S2P Require Import Prelude GoPrim GoSync GoFloat Lorawan Registry Convert Metrics.
From S2P Require Import GoDuration TtnTypes.
From S2P Require Import Ttn TtnLaws TtnSystem Streams Downstream.

Local Open Scope string_scope.
Local Open Scope list_scope.

(** ** Refinement *)

Lemma ttn_eta w : set_gateways w (ttn_gateways w) = w.
Proof. by destruct w. Qed.

Lemma update_gtw_id mac f w :
  (∀ g, getGtw w mac = Some g → f g = g) → update_gtw mac f w = w.
Proof.
  intros Hf. unfold update_gtw. rewrite <- (ttn_eta w) at 3. f_equal. apply map_eq. intros m.
  destruct (decide (m = mac)) as [->|Hne]; [|by rewrite lookup_alter_ne].
  rewrite lookup_alter_eq. destruct (ttn_gateways w !! mac) as [g|] eqn:E; [|done].
  cbn. f_equal. by apply Hf.
Qed.

Lemma update_gtw_comp mac f g h w :
  (∀ x, f (g x) = h x) → update_gtw mac f (update_gtw mac g w) = update_gtw mac h w.
Proof.
  intros Hh. unfold update_gtw, set_gateways. cbn. f_equal. apply map_eq. intros m.
  destruct (decide (m = mac)) as [->|Hne]; [|by rewrite !lookup_alter_ne].
  rewrite !lookup_alter_eq. destruct (ttn_gateways w !! mac); [|done]. cbn. by rewrite Hh.
Qed.

Section Refinement.
Context `{MathExp}.
Implicit Types (w : ttn) (mac : EUI64) (g : gtw).

(** The goroutines of a stream that sends. *)
Definition stream_own {A} (s s' : Streams.stream (A := A)) : Prop :=
  monitor_step s (Ok s') ∨
  ∃ i x x', session_at s i x ∧ session_step x x' ∧ s' = set_session i x' s.

Lemma stream_own_chan {A} (s s' : Streams.stream (A := A)) :
  stream_own s s' → st_chan s' = st_chan s ∨ ∃ m, chan_receive (st_chan s) = Some (m, st_chan s').
Proof.
  intros [Hs|(i & x & x' & _ & _ & ->)]; [|by left]. remember (Ok s') as r eqn:Er.
  destruct Hs; unfold setup_Done in Er; try (apply rbind_ok in Er as (g & _ & Er));
    simplify_eq/=; eauto.
Qed.

(** The channel of a gateway that a stream serves, for both kinds of stream. *)
Lemma stream_own_run {A} (get : gtw → gochan A) (set : gochan A → gtw → gtw) mac w g s s' :
  (∀ c g, get (set c g) = c) → (∀ c c' g, set c (set c' g) = set c g) → (∀ g, set (get g) g = g) →
  (∀ w g m c, getGtw w mac = Some g → chan_receive (get g) = Some (m, c) →
    ttn_own w (update_gtw mac (set c) w)) →
  getGtw w mac = Some g → get g = st_chan s → rtc stream_own s s' →
  rtc ttn_own w (update_gtw mac (set (st_chan s')) w).
Proof.
  intros Hgs Hss Hsg Hstep Hg Hc Hr. revert w g Hg Hc.
  induction Hr as [s|s1 s2 s3 Hs _ IH]; intros w g Hg Hc.
  - rewrite update_gtw_id; [done|]. intros g' Hg'. simplify_eq. by rewrite <- Hc.
  - assert (rtc ttn_own w (update_gtw mac (set (st_chan s2)) w)) as H1.
    { destruct (stream_own_chan _ _ Hs) as [E|[m Hm]].
      - rewrite update_gtw_id; [done|]. intros g' Hg'. simplify_eq. by rewrite E, <- Hc.
      - apply rtc_once. eapply Hstep; [done|by rewrite Hc]. }
    etrans; [exact H1|].
    assert (getGtw (update_gtw mac (set (st_chan s2)) w) mac = Some (set (st_chan s2) g)) as Hg2.
    { rewrite getGtw_update, Hg. by rewrite bool_decide_true. }
    specialize (IH _ _ Hg2 (Hgs _ _)). erewrite update_gtw_comp in IH; [exact IH|]. auto.
Qed.

(** What the backend sees of a downlink stream. *)
Definition dn_abs (s : dstream) : downlinkStream :=
  mkDownlinkStream (dn_chan s) (dn_closing s) (dn_setup s).
Definition dn_own (s s' : dstream) : Prop := dn_step s (Ok s').

Lemma dn_subscribe_abs p s s' mac i w :
  dn_subscribe p s = Ok s' → Ttn.stream w mac i = Some (dn_abs s) →
  ttn_own w (set_stream mac i (dn_abs s') w).
Proof.
  intros Hs Hw. unfold dn_subscribe in Hs. apply rbind_ok in Hs as (g & Hg & [= <-]).
  by eapply (to_attempted mac i (dn_abs s)).
Qed.

Lemma dn_sleep_abs s mac i w :
  dn_ok s → dn_busy s = false → dn_phase s ≠ DStopped → Ttn.stream w mac i = Some (dn_abs s) →
  ttn_own w (set_stream mac i (dn_abs (dn_sleep s)) w).
Proof.
  intros [_ Hg Hcl _] Hb Hp Hw. rewrite Hb in Hg. destruct Hg as [Hz _].
  apply (to_again mac i (dn_abs s)); [done|done|]. cbn. rewrite Hcl. by apply bool_decide_false.
Qed.

Lemma dn_own_abs s s' mac i w :
  dn_ok s → dn_own s s' → Ttn.stream w mac i = Some (dn_abs s) →
  dn_abs s' = dn_abs s ∨ ttn_own w (set_stream mac i (dn_abs s') w).
Proof.
  unfold dn_own. intros Hok Hs Hw. remember (Ok s') as r eqn:Er.
  destruct Hs as [s Hp|s Hp|s Hp|s Hp|s Hp|s m e Hp|s Hp _|s Hp _|s Hp].
  - right. exact (dn_subscribe_abs _ _ _ _ _ _ Er Hw).
  - right. exact (dn_subscribe_abs _ _ _ _ _ _ Er Hw).
  - right. exact (dn_subscribe_abs _ _ _ _ _ _ Er Hw).
  - injection Er as <-. right. apply dn_sleep_abs; unfold dn_busy; by rewrite ?Hp.
  - injection Er as <-. by left.
  - unfold dn_receive in Er. apply rbind_ok in Er as (c & Hc & [= <-]).
    destruct m as [m|]; [right|left; injection Hc as <-; by destruct e].
    replace (dn_abs _) with (set_ds_chan c (dn_abs s)) by (by destruct e).
    pose proof (dok_setup _ Hok) as Hg. unfold dn_busy in Hg. rewrite Hp in Hg. destruct Hg as [Hz _].
    eapply (to_deliver mac i (dn_abs s)); [done|exact Hz| |exact Hc].
    cbn. rewrite (dok_closed _ Hok), Hp. done.
  - injection Er as <-. by left.
  - injection Er as <-. right. apply dn_sleep_abs; unfold dn_busy; by rewrite ?Hp.
  - apply rbind_ok in Er as (c & Hc & [= <-]). right.
    pose proof (dok_setup _ Hok) as Hg. unfold dn_busy in Hg. rewrite Hp in Hg. destruct Hg as [Hz _].
    by apply (to_finish mac i (dn_abs s)).
Qed.

Lemma stream_set_stream mac i s s' w :
  Ttn.stream w mac i = Some s → Ttn.stream (set_stream mac i s' w) mac i = Some s'.
Proof.
  unfold Ttn.stream, set_stream. intros Hs. apply bind_Some in Hs as (g & Hg & Hs).
  rewrite getGtw_update, Hg, bool_decide_true by done. cbn.
  apply list_lookup_insert_eq. by eapply lookup_lt_Some.
Qed.

Lemma set_stream_id mac i s w : Ttn.stream w mac i = Some s → set_stream mac i s w = w.
Proof.
  intros Hs. unfold Ttn.stream in Hs. apply bind_Some in Hs as (g & Hg & Hs).
  apply update_gtw_id. intros g' Hg'. assert (g' = g) as -> by congruence. rewrite list_insert_id by done. by destruct g.
Qed.

Lemma set_stream_set_stream mac i s s' w :
  set_stream mac i s (set_stream mac i s' w) = set_stream mac i s w.
Proof. apply update_gtw_comp. intros g. cbn. by rewrite list_insert_insert_eq. Qed.

Lemma dn_own_run mac i w s s' :
  dn_ok s → Ttn.stream w mac i = Some (dn_abs s) → rtc dn_own s s' →
  rtc ttn_own w (set_stream mac i (dn_abs s') w).
Proof.
  intros Hok Hw Hr. revert w Hok Hw. induction Hr as [s|s1 s2 s3 Hs _ IH]; intros w Hok Hw.
  - by rewrite set_stream_id.
  - assert (dn_ok s2) as Hok2 by (destruct (dn_step_ok _ _ Hok Hs) as (? & [= <-] & ?); done).
    destruct (dn_own_abs _ _ _ _ _ Hok Hs Hw) as [E|H1].
    + apply IH; [done|]. by rewrite E.
    + eapply rtc_l; [exact H1|]. specialize (IH _ Hok2 (stream_set_stream _ _ _ (dn_abs s2) _ Hw)).
      by rewrite set_stream_set_stream in IH.
Qed.

(** [Close] of a downlink stream, as the backend calls it. *)
Lemma unsubscribe_abs mac w g d :
  getGtw w mac = Some g → gtw_downlink g = Some (dn_abs d) →
  UnSubscribeGatewayTX_call mac w =
    (let w' := set_stream mac (pred (length (gtw_downlinks g))) (dn_abs (dn_Close d)) w in
     if (wg_Wait (dn_setup d)).1 then Returned None w' else Waits w').
Proof.
  intros Hg Hd. unfold UnSubscribeGatewayTX_call, downlink_Close, dn_Close. rewrite Hg, Hd. cbn.
  by destruct (wg_Wait (dn_setup d)) as [[] x].
Qed.

Lemma unsubscribe_woken_abs mac w g d :
  getGtw w mac = Some g → gtw_downlink g = Some (dn_abs d) →
  UnSubscribeGatewayTX_woken mac w =
    (r ← dn_Close_woken d;
     Some (match r with
           | Ok d' => Returned None (set_stream mac (pred (length (gtw_downlinks g))) (dn_abs d') w)
           | Err e => Returned (Some e) w
           | Panic why => Panicked why
           end)).
Proof.
  intros Hg Hd. unfold UnSubscribeGatewayTX_woken, downlink_Close_woken, dn_Close_woken. rewrite Hg. cbn.
  rewrite Hd. cbn. destruct (wg_wake (dn_setup d)) as [[x|e|why]|]; done.
Qed.
End Refinement.

(** C15: The goroutines of the uplink, status and downlink streams refine the
    backend's channels: each run of theirs is a run of the abstract backend; Send on
    the first two and Close of the third, with its waiting and its panic, are its
    operations. *)
Theorem router_streams_refine `{MathExp} w mac g :
  getGtw w mac = Some g →
  (∀ u, gtw_uplink g = st_chan u →
    (∀ u', rtc stream_own u u' → rtc ttn_own w (update_gtw mac (set_uplink (st_chan u')) w)) ∧
    ∀ now rx, uplink_send mac rx now w =
      (let* u' := stream_Send (convertRXPacket now rx) u in
       Ok (update_gtw mac (set_uplink (st_chan u')) w))) ∧
  (∀ u, gtw_status g = st_chan u →
    (∀ u', rtc stream_own u u' → rtc ttn_own w (update_gtw mac (set_status (st_chan u')) w)) ∧
    ∀ now st, status_send mac st now w =
      (let* u' := stream_Send (complete_status (gtw_conf g) (convertStatsPacket w st)) u in
       Ok (update_gtw mac (set_status (st_chan u')) w))) ∧
  (∀ i d d', gtw_downlinks g !! i = Some (dn_abs d) → dn_reachable d → rtc dn_own d d' →
    rtc ttn_own w (set_stream mac i (dn_abs d') w)) ∧
  (∀ d, gtw_downlink g = Some (dn_abs d) →
    wc_call UnSubscribeGatewayTX mac w =
      (let w' := set_stream mac (pred (length (gtw_downlinks g))) (dn_abs (dn_Close d)) w in
       if (wg_Wait (dn_setup d)).1 then Returned None w' else Waits w') ∧
    wc_resume UnSubscribeGatewayTX mac w =
      (r ← dn_Close_woken d;
       Some (match r with
             | Ok d' => Returned None (set_stream mac (pred (length (gtw_downlinks g))) (dn_abs d') w)
             | Err e => Returned (Some e) w
             | Panic why => Panicked why
             end))).
Proof.
  intros Hg. split_and!.
  - intros u Hu. split.
    + intros u'. apply (stream_own_run gtw_uplink set_uplink mac w g); try done; [by intros []|].
      intros w' g' m c. apply to_uplink_session.
    + intros now rx. unfold uplink_send, stream_Send. rewrite Hg, Hu. by destruct (chan_offer _ _).
  - intros u Hu. split.
    + intros u'. apply (stream_own_run gtw_status set_status mac w g); try done; [by intros []|].
      intros w' g' m c. apply to_status_session.
    + intros now st. unfold status_send, stream_Send. rewrite Hg, Hu. by destruct (chan_offer _ _).
  - intros i d d' Hd Hre. apply dn_own_run; [by apply dn_reachable_ok|]. unfold Ttn.stream. by rewrite Hg.
  - intros d Hd. split; [by apply unsubscribe_abs|by apply unsubscribe_woken_abs].
Qed.

(** ** An executable scheduler *)

(** What happens next to a stream that sends: an attempt ends, the monitoring
    goroutine goes on, a call of a session returns, or a call from outside. *)
Inductive event (A : Type) : Type :=
| EvConnected
| EvCanceled
| EvFailed
| EvTimer
| EvError
| EvNext
| EvReceived (i : nat) (e : option error)
| EvSent (i : nat)
| EvLost (i : nat)
| EvSend (m : A)
| EvClose
| EvWoken.
Arguments EvConnected {A}. Arguments EvCanceled {A}. Arguments EvFailed {A}.
Arguments EvTimer {A}. Arguments EvError {A}. Arguments EvNext {A}.
Arguments EvReceived {A}. Arguments EvSent {A}. Arguments EvLost {A}.
Arguments EvSend {A}. Arguments EvClose {A}. Arguments EvWoken {A}.

Section Scheduler.
Context {A : Type}.
Implicit Types (s : Streams.stream (A := A)).

Definition next_exec s : option (result Streams.stream) :=
  match st_phase s with
  | PFailed => Some (Ok (setup_Add s))
  | PSleep => Some (Ok (set_phase PConnect (set_retries (S (st_retries s)) s)))
  | PSelect =>
      match chan_receive (st_chan s) with
      | Some (m, c) => Some (Ok (set_phase (PForward m) (set_chan c s)))
      | None => if chan_closed (st_chan s) then Some (Ok (set_phase PBroken s)) else None
      end
  | PForward m =>
      x ← st_sessions s !! current s;
      match ss_sender x with
      | SReceive =>
          Some (Ok (set_phase PSelect (set_session (current s) (set_sender (SSending m) x) s)))
      | _ => None
      end
  | PBroken =>
      x ← st_sessions s !! current s;
      Some (Ok (set_phase PAfter (set_session (current s) (close_session x) s)))
  | PAfter => Some (Ok (if st_closing s then set_phase PStopped s else setup_Add s))
  | _ => None
  end.

(** The goroutines of the stream. *)
Definition exec_own (ev : event A) s : option (result Streams.stream) :=
  match ev with
  | EvConnected =>
      match st_phase s with
      | PConnect => Some (setup_Done PSelect (set_sessions (st_sessions s ++ [session_new]) s))
      | _ => None
      end
  | EvCanceled => match st_phase s with PConnect => Some (setup_Done PStopped s) | _ => None end
  | EvFailed => match st_phase s with PConnect => Some (setup_Done PFailed s) | _ => None end
  | EvTimer => match st_phase s with PSelect => Some (Ok (set_retries 0 s)) | _ => None end
  | EvError =>
      x ← st_sessions s !! current s;
      match st_phase s, ss_receiver x with
      | PSelect, RError _ =>
          Some (Ok (set_phase PBroken (set_session (current s) (set_receiver RClosed x) s)))
      | PSelect, RClosed => Some (Ok (set_phase PBroken s))
      | _, _ => None
      end
  | EvNext => next_exec s
  | EvReceived i e =>
      x ← st_sessions s !! i;
      match ss_receiver x with
      | RWaiting =>
          Some (Ok (set_session i
            (set_receiver (match e with Some e => RError e | None => RClosed end) x) s))
      | _ => None
      end
  | EvSent i =>
      x ← st_sessions s !! i;
      match ss_sender x with
      | SSending m =>
          Some (Ok (set_session i
            (mkSession SReceive (ss_receiver x) (ss_closed x) (ss_wire x ++ [m])) s))
      | _ => None
      end
  | EvLost i =>
      x ← st_sessions s !! i;
      match ss_sender x with
      | SSending m => Some (Ok (set_session i (set_sender (SFailed m) x) s))
      | _ => None
      end
  | EvSend _ | EvClose | EvWoken => None
  end.

(** With the calls from outside. *)
Definition exec (ev : event A) s : option (result Streams.stream) :=
  match ev with
  | EvSend m => Some (stream_Send m s)
  | EvClose => Some (stream_Close s)
  | EvWoken => stream_Close_woken s
  | _ => exec_own ev s
  end.

Lemma next_exec_sound s r : next_exec s = Some r → monitor_step s r.
Proof.
  unfold next_exec. destruct (st_phase s) as [| | | |m| | |] eqn:Ep; intros He; try done.
  - injection He as <-. by apply ms_sleep.
  - injection He as <-. by apply ms_wake.
  - destruct (chan_receive _) as [[m c]|] eqn:Er; [injection He as <-; by apply ms_message|].
    destruct (chan_closed _) eqn:Ec; [|done]. injection He as <-. by apply ms_chan_closed.
  - apply bind_Some in He as (x & Hx & He). destruct (ss_sender x) eqn:Es; try done.
    injection He as <-. by apply ms_forward.
  - apply bind_Some in He as (x & Hx & He). injection He as <-. by apply ms_break.
  - injection He as <-. destruct (st_closing s) eqn:Ec; [by apply ms_stop|by apply ms_again].
Qed.

(** What the scheduler does is a step of the stream. *)
Lemma exec_own_sound ev s r :
  exec_own ev s = Some r →
  monitor_step s r ∨ ∃ i x x', session_at s i x ∧ session_step x x' ∧ r = Ok (set_session i x' s).
Proof.
  destruct ev; unfold exec_own; intros He; try done;
    try (by left; apply next_exec_sound);
    try (by left; destruct (st_phase s) eqn:Ep; try done; injection He as <-; constructor);
    apply bind_Some in He as (x & Hx & He).
  - left. destruct (st_phase s) eqn:Ep; try done.
    destruct (ss_receiver x) eqn:Er; try done; injection He as <-;
      [by eapply ms_error|by eapply ms_error_closed].
  - right. destruct (ss_receiver x) eqn:Er; try done. injection He as <-.
    eexists i, x, _. split; [done|]. split; [|reflexivity]. destruct e; by constructor.
  - right. destruct (ss_sender x) eqn:Er; try done. injection He as <-.
    eexists i, x, _. split; [done|]. split; [|reflexivity]. by constructor.
  - right. destruct (ss_sender x) eqn:Er; try done. injection He as <-.
    eexists i, x, _. split; [done|]. split; [|reflexivity]. by eapply se_failed.
Qed.

Lemma exec_own_stream ev s s' : exec_own ev s = Some (Ok s') → stream_own s s'.
Proof.
  intros [Hm|(i & x & x' & Hx & Hs & [= ->])]%exec_own_sound; [by left|]. right. by exists i, x, x'.
Qed.

Lemma exec_sound ev s r : exec ev s = Some r → stream_act s r.
Proof.
  assert (exec_own ev s = Some r → stream_act s r) as Hown.
  { intros [Hm|(i & x & x' & Hx & Hs & ->)]%exec_own_sound; [by apply sa_monitor|by eapply sa_session]. }
  destruct ev; cbn [exec]; try (exact Hown); try (by intros [= <-]; constructor).
  apply sa_close_woken.
Qed.

Fixpoint exec_all (evs : list (event A)) s : option Streams.stream :=
  match evs with
  | [] => Some s
  | ev :: evs => match exec ev s with Some (Ok s') => exec_all evs s' | _ => None end
  end.

Lemma exec_all_sound evs s s' : exec_all evs s = Some s' → rtc stream_run s s'.
Proof.
  revert s. induction evs as [|ev evs IH]; intros s; cbn; [by intros [= ->]|].
  destruct (exec ev s) as [[s1|e|p]|] eqn:E; try done. intros He.
  eapply rtc_l; [by apply (exec_sound ev)|auto].
Qed.
End Scheduler.

(** ** Runs of a stream that sends *)

Definition demo_run (evs : list (event nat)) : Streams.stream := default stream_new (exec_all evs stream_new).

Definition runs (evs : list (event nat)) (s : Streams.stream) : bool :=
  match exec_all evs s with Some _ => true | None => false end.

Lemma runs_rtc evs s : runs evs s = true → rtc stream_run s (default s (exec_all evs s)).
Proof. unfold runs. destruct (exec_all evs s) eqn:E; [|done]. intros _. by eapply exec_all_sound. Qed.

Lemma demo_stream_reachable evs : runs evs stream_new = true → stream_reachable (demo_run evs).
Proof. apply runs_rtc. Qed.

(** Two messages; the first is in [client.Send]. *)
Definition sending_run : list (event nat) := [EvSend 1; EvSend 2; EvConnected; EvNext; EvNext].
(** [client.Send] fails, and the second message is taken. *)
Definition lost_run : list (event nat) := sending_run ++ [EvLost 0; EvNext].
(** The same, with the error of the stream seen first: the second message goes out
    in the next session. *)
Definition two_sessions_run : list (event nat) :=
  sending_run ++
  [EvLost 0; EvReceived 0 (Some (ErrExt "unavailable")); EvError; EvNext; EvNext; EvNext;
   EvConnected; EvNext; EvNext; EvSent 1; EvSend 3].

Lemma messages_accounted_witness :
  let s := demo_run two_sessions_run in
  chan_sent (st_chan s) = [1; 2; 3] ∧ session_messages <$> st_sessions s = [[1]; [2]] ∧
  chan_sent (st_chan s) = concat (session_messages <$> st_sessions s) ++ forwarding s ++ chan_buffer (st_chan s).
Proof.
  assert (stream_reachable (demo_run two_sessions_run)) as Hr
    by (apply demo_stream_reachable; vm_compute; reflexivity).
  cbv zeta. split; [vm_compute; reflexivity|]. split; [vm_compute; reflexivity|].
  exact (proj1 (messages_accounted _ Hr)).
Defined.

Lemma stream_delivers_witness :
  let s := demo_run sending_run in
  ∃ s' x', rtc stream_run s s' ∧ session_at s' (current s) x' ∧ ss_wire x' = [1; 2].
Proof.
  destruct (stream_delivers (demo_run sending_run) (mkSession (SSending 1) RWaiting false []))
    as (s' & x' & Hr & _ & Hx & Hw & _); [apply demo_stream_reachable; vm_compute; reflexivity|reflexivity..|done|].
  exists s', x'. split_and!; [exact Hr|exact Hx|]. rewrite Hw. vm_compute. reflexivity.
Defined.

(** Ten more messages are kept; everything after them is dropped. *)
Definition after_run : list (event nat) := (EvSend <$> seq 3 12) ++ [EvClose].

Lemma failed_send_blocks_witness :
  let s := demo_run lost_run in
  let s' := default s (exec_all after_run s) in
  st_phase s = PForward 2 ∧ st_phase s' = PForward 2 ∧ chan_sent (st_chan s') = seq 1 12 ∧
  ∃ x', session_at s' (current s') x' ∧ ss_wire x' = [].
Proof.
  cbv zeta.
  assert (stream_reachable (demo_run lost_run)) as Hs by (apply demo_stream_reachable; vm_compute; reflexivity).
  assert (rtc stream_run (demo_run lost_run) (default (demo_run lost_run) (exec_all after_run (demo_run lost_run))))
    as Hr by (apply runs_rtc; vm_compute; reflexivity).
  assert (session_at (demo_run lost_run) (current (demo_run lost_run)) (mkSession (SFailed 1) RWaiting false []))
    as Hx by (vm_compute; reflexivity).
  assert (st_phase (demo_run lost_run) = PForward 2) as Hp by (vm_compute; reflexivity).
  pose proof (failed_send_blocks _ _ _ _ 1 Hs Hp Hx eq_refl Hr) as (Hp' & _ & _ & _ & Hx').
  split; [exact Hp|]. split; [exact Hp'|]. split; [vm_compute; reflexivity|exact Hx'].
Defined.

(** ** [Close] while a subscription is attempted *)

(** C18: When a subscription attempt fails while Close waits for it, Close either
    panics because the wait group is in use again, or returns and is ignored: the
    stream subscribes again and goes on delivering. *)
Theorem close_during_attempt s n :
  dn_reachable s → dn_phase s = DConnect → wg_waiters (dn_setup s) = S n →
  ∃ s1, dn_own s s1 ∧ dn_phase s1 = DFailed ∧
    (∃ s2, dn_own s1 s2 ∧ dn_Close_woken s2 = Some (Panic reuse_panic)) ∧
    (∃ s2, dn_Close_woken s1 = Some (Ok s2) ∧ dn_closing s2 = true ∧
      ∀ m, length (chan_buffer (dn_chan s)) < DefaultBufferSize →
      ∃ s3, rtc dn_run s2 s3 ∧ dn_phase s3 = DRecv ∧ last (dn_contexts s3) = Some false ∧
        chan_sent (dn_chan s3) = chan_sent (dn_chan s) ++ [m]).
Proof.
  intros Hre Hp Hw. pose proof (dok_setup _ (dn_reachable_ok _ Hre)) as Hg. unfold dn_busy in Hg.
  rewrite Hp in Hg. cbn in Hg. destruct s as [c cl [wc ww wr] ca re p ctx]. cbn in Hp, Hw, Hg. subst.
  set (s1 := mkDstream c cl (mkWaitGroup 0 0 (wr + S n)) (Some (length ctx)) re DFailed (ctx ++ [false])).
  assert (dn_own (mkDstream c cl (mkWaitGroup 1 (S n) wr) ca re DConnect ctx) s1) as H1
    by exact (dn_failed (mkDstream _ _ _ _ _ _ _) eq_refl).
  set (s2 := dn_close_body (dn_set_setup (mkWaitGroup 0 0 (wr + n)) s1)).
  assert (dn_Close_woken s1 = Some (Ok s2)) as H2
    by (unfold dn_Close_woken, wg_wake; cbn; by rewrite Nat.add_succ_r).
  exists s1. split; [exact H1|]. split; [done|]. split.
  - exists (dn_sleep s1). split; [by apply dn_retry|]. unfold dn_Close_woken, wg_wake. cbn.
    by rewrite Nat.add_succ_r.
  - exists s2. split; [exact H2|]. split; [done|]. intros m Hm.
    destruct (close_between_sessions_ignored s2 m) as (s3 & Hr & _ & Hp3 & Hl & Hs);
      [|by left|done|exact Hm|by exists s3].
    unfold dn_reachable. eapply rtc_r; [eapply rtc_r; [exact Hre|by apply da_step]|by apply da_close_woken].
Qed.

(** A [Close] waits for the first attempt. *)
Lemma close_during_attempt_witness :
  ∃ s1, dn_own (dn_Close dn_new) s1 ∧ dn_phase s1 = DFailed ∧
    (∃ s2, dn_own s1 s2 ∧ dn_Close_woken s2 = Some (Panic reuse_panic)).
Proof.
  destruct (close_during_attempt (dn_Close dn_new) 0) as (s1 & H1 & Hp & H2 & _);
    [apply rtc_once; by constructor|reflexivity..|].
  by exists s1.
Defined.

Definition demo_message : DownlinkMessage := mkDownlinkMessage [] None None.

(** A session that received a message. *)
Definition subscribed : dstream := mkDstream chan_make false (mkWaitGroup 0 0 0) (Some 0) 0 DRecv [false].
Definition in_session_state : dstream :=
  mkDstream (mkChan [demo_message] 0 false) false (mkWaitGroup 0 0 0) (Some 0) 0 DRecv [false].

Lemma in_session_reachable : dn_reachable in_session_state.
Proof.
  eapply rtc_l; [exact (da_step _ _ (dn_connected dn_new eq_refl))|].
  apply rtc_once. exact (da_step _ _ (dn_message subscribed (Some demo_message) None eq_refl)).
Qed.

Lemma close_ends_session_witness :
  ∃ s2, rtc dn_run (dn_Close in_session_state) s2 ∧ dn_phase s2 = DStopped ∧
    chan_closed (dn_chan s2) = true ∧ chan_sent (dn_chan s2) = [demo_message].
Proof.
  apply (close_ends_session in_session_state (dn_Close in_session_state));
    [apply in_session_reachable|reflexivity|done].
Defined.

Lemma downlink_channel_closed_once_witness :
  chan_closed (dn_chan in_session_state) = true ↔ dn_phase in_session_state = DStopped.
Proof.
  apply (downlink_channel_closed_once in_session_state (Ok (dn_Close in_session_state)));
    [apply in_session_reachable|apply da_close].
Defined.

(** ** A stream and its backend *)

Definition exp_zero : MathExp := λ _, f64_zero.
#[local] Existing Instance exp_zero.

Definition demo_uplink : UplinkMessage :=
  mkUplinkMessage [] (mkLorawanMetadata Modulation_LORA "SF7BW125" 0 "4/5")
    (mkRxMetadata "gtw" 0 0 0 0 868100000 f64_zero f64_zero).
Definition demo_gtw : gtw :=
  mkGtw "gtw" None (mkRouterClient "gtw" "token" false) (mkChan [demo_uplink] 0 false) chan_make
    [downlinkStream_new] NewEWMA1.
Definition demo_eui : EUI64 := eui_zero.
Definition demo_ttn : ttn :=
  mkTtn None f64_zero ∅ {[demo_eui := demo_gtw]} Status_zero [] [] [].

(** A session takes the message. *)
Definition demo_stream : Streams.stream :=
  mkStream (gtw_uplink demo_gtw) false wg_zero 0 PSelect [session_new].

(** The session takes the message; and an unsubscription waits for the first
    attempt of the gateway's downlink stream. *)
Lemma router_streams_refine_witness :
  rtc ttn_own demo_ttn (update_gtw demo_eui (set_uplink (mkChan [demo_uplink] 1 false)) demo_ttn) ∧
  wc_call UnSubscribeGatewayTX demo_eui demo_ttn =
    Waits (set_stream demo_eui 0 (dn_abs (dn_Close dn_new)) demo_ttn).
Proof.
  destruct (router_streams_refine demo_ttn demo_eui demo_gtw) as (Hup & _ & _ & Hcl).
  { exact (lookup_singleton_eq demo_eui demo_gtw). }
  split.
  - apply (proj1 (Hup demo_stream eq_refl) (set_phase (PForward demo_uplink)
      (set_chan (mkChan [demo_uplink] 1 false) demo_stream))).
    apply rtc_once. left. by apply ms_message.
  - exact (proj1 (Hcl dn_new eq_refl)).
Defined.
