(* ===== verification/Typing.v ===== *)
(** * Types

    The model keeps Go's integers as [Z] and its floats as binary64 data.  Here
    every decoder and every conversion is shown to stay within the types its Go
    counterpart declares: whatever the network sends, each field of a decoded
    packet, of a published packet and of a packet for a gateway is a value of
    its type. *)

From Stdlib Require Import String Ascii NArith ZArith Lia SpecFloat.
From stdpp Require Import base gmap list strings numbers relations.
From S2P Require Import Prelude GoPrim GoStrconv GoTime GoFloat GoFloatText GoFloatRound Lorawan.
From S2P Require Import GoUtf8 GoJson GoJsonValid GoJsonTyped GoJsonLaws Payload Structs GoNet.
From S2P Require Import Registry Convert Backend.
From S2P Require Import BackendLaws System SystemLaws GoDuration TtnTypes Ttn TtnLaws.

Local Open Scope string_scope.
Local Open Scope list_scope.
Local Open Scope Z_scope.

(** ** The types *)

Definition uint_t (w z : Z) : Prop := in_u w z = true.
Definition int_t (w z : Z) : Prop := in_s w z = true.
Definition any {A} (_ : A) : Prop := True.

(** Text between quotes.  [DatR.UnmarshalJSON] takes the LoRa identifier from the
    JSON text itself, without decoding it: escapes stay, and it need not be UTF-8. *)
Definition unquoted (s : string) : Prop :=
  head (to_bytes s) ≠ Some dquote ∧ last (to_bytes s) ≠ Some dquote.

Record DatR_typed (d : DatR) : Prop := mkDatRtyped {
  dt_lora : unquoted (DatR_LoRa d);
  dt_fsk : uint_t 32 (DatR_FSK d)
}.

(** The strings are UTF-8, except for the data rate. *)
Record RXPK_typed (r : RXPK) : Prop := mkRXPKtyped {
  rt_tmst : uint_t 32 (RXPK_Tmst r);
  rt_freq : f64_ok (RXPK_Freq r);
  rt_chan : uint_t 8 (RXPK_Chan r);
  rt_rfch : uint_t 8 (RXPK_RFCh r);
  rt_stat : int_t 8 (RXPK_Stat r);
  rt_datr : DatR_typed (RXPK_DatR r);
  rt_rssi : int_t 16 (RXPK_RSSI r);
  rt_lsnr : f64_ok (RXPK_LSNR r);
  rt_size : uint_t 16 (RXPK_Size r);
  rt_modu : str_ok (RXPK_Modu r);
  rt_codr : str_ok (RXPK_CodR r);
  rt_data : str_ok (RXPK_Data r)
}.

Record Stat_typed (s : Stat) : Prop := mkStattyped {
  st_lati : f64_ok (Stat_Lati s);
  st_long : f64_ok (Stat_Long s);
  st_alti : int_t 32 (Stat_Alti s);
  st_rxnb : uint_t 32 (Stat_RXNb s);
  st_rxok : uint_t 32 (Stat_RXOK s);
  st_rxfw : uint_t 32 (Stat_RXFW s);
  st_ackr : f64_ok (Stat_ACKR s);
  st_dwnb : uint_t 32 (Stat_DWNb s);
  st_pfrm : str_ok (Stat_Pfrm s);
  st_mail : str_ok (Stat_Mail s);
  st_desc : str_ok (Stat_Desc s)
}.

Record TXPK_typed (x : TXPK) : Prop := mkTXPKtyped {
  tt_tmst : uint_t 32 (TXPK_Tmst x);
  tt_rfch : uint_t 8 (TXPK_RFCh x);
  tt_powe : uint_t 8 (TXPK_Powe x);
  tt_fsk : uint_t 32 (DatR_FSK (TXPK_DatR x));
  tt_fdev : uint_t 16 (TXPK_FDev x);
  tt_prea : uint_t 16 (TXPK_Prea x);
  tt_size : uint_t 16 (TXPK_Size x)
}.

Definition header_typed (v token : Z) : Prop := uint_t 8 v ∧ uint_t 16 token.

Definition PushDataPayload_typed (p : PushDataPayload) : Prop :=
  Forall RXPK_typed (PushDataPayload_RXPK p) ∧
  match PushDataPayload_Stat p with Some s => Stat_typed s | None => True end.

Definition PushDataPacket_typed (p : PushDataPacket) : Prop :=
  header_typed (PushDataPacket_ProtocolVersion p) (PushDataPacket_RandomToken p) ∧
  PushDataPayload_typed (PushDataPacket_Payload p).

Definition PullRespPacket_typed (p : PullRespPacket) : Prop :=
  header_typed (PullRespPacket_ProtocolVersion p) (PullRespPacket_RandomToken p) ∧
  TXPK_typed (PullRespPayload_TXPK (PullRespPacket_Payload p)).

(** [int] is 64 bits wide. *)
Record DataRate_typed (d : DataRate) : Prop := mkDataRatetyped {
  dt_sf : int_t 64 (SpreadFactor d);
  dt_bw : int_t 64 (Bandwidth d);
  dt_br : int_t 64 (BitRate d);
  dt_modulation : str_ok (Modulation d)
}.

Record RXPacket_typed (p : RXPacketBytes) : Prop := mkRXPackettyped {
  rp_timestamp : uint_t 32 (RXInfo_Timestamp (RXPacket_RXInfo p));
  rp_frequency : int_t 64 (RXInfo_Frequency (RXPacket_RXInfo p));
  rp_channel : int_t 64 (RXInfo_Channel (RXPacket_RXInfo p));
  rp_rfchain : int_t 64 (RXInfo_RFChain (RXPacket_RXInfo p));
  rp_crc : int_t 64 (RXInfo_CRCStatus (RXPacket_RXInfo p));
  rp_rssi : int_t 64 (RXInfo_RSSI (RXPacket_RXInfo p));
  rp_snr : f64_ok (RXInfo_LoRaSNR (RXPacket_RXInfo p));
  rp_size : int_t 64 (RXInfo_Size (RXPacket_RXInfo p));
  rp_coderate : str_ok (RXInfo_CodeRate (RXPacket_RXInfo p));
  rp_datarate : DataRate_typed (RXInfo_DataRate (RXPacket_RXInfo p))
}.

(** A member of [CustomData]: of a type the sources store, its strings UTF-8. *)
Definition custom_typed (k : string) (v : iface) : Prop :=
  str_ok k ∧ match v with IString s => str_ok s | IStrings l => Forall str_ok l | IOther => False end.

Record GatewayStats_typed (s : GatewayStatsPacket) : Prop := mkGatewayStatstyped {
  gs_latitude : f64_ok (Stats_Latitude s);
  gs_longitude : f64_ok (Stats_Longitude s);
  gs_altitude : f64_ok (Stats_Altitude s);
  gs_received : int_t 64 (Stats_RXPacketsReceived s);
  gs_ok : int_t 64 (Stats_RXPacketsReceivedOK s);
  gs_emitted : int_t 64 (Stats_TXPacketsEmitted s);
  gs_custom : map_Forall custom_typed (Stats_CustomData s)
}.

Record TXPacket_typed (p : TXPacketBytes) : Prop := mkTXPackettyped {
  tp_timestamp : uint_t 32 (TXInfo_Timestamp (TXPacket_TXInfo p));
  tp_frequency : int_t 64 (TXInfo_Frequency (TXPacket_TXInfo p));
  tp_power : int_t 64 (TXInfo_Power (TXPacket_TXInfo p));
  tp_datarate : DataRate_typed (TXInfo_DataRate (TXPacket_TXInfo p))
}.

(** ** Decoders *)

(** What is decoded over a value of a type is of that type; the value read comes
    from the parser, so its strings are UTF-8. *)
Definition dec_typed {A} (P : A → Prop) (d : decoder A) : Prop :=
  ∀ j prior a, json_valid j → P prior → d j prior = Ok a → P a.

Create HintDb type_db.

Lemma dec_typed_uint w : dec_typed (uint_t w) (decode_uint w).
Proof.
  intros j prior a Hv Hp Hd. unfold decode_uint in Hd. destruct j; try done; [by injection Hd as <-|].
  apply rbind_ok in Hd as (n & Hn & Hd). apply ParseUint_range in Hn.
  destruct (Z.ltb_spec n (2 ^ w)); [|done]. injection Hd as <-. apply in_u_spec. lia.
Qed.

Lemma dec_typed_int w : dec_typed (int_t w) (decode_int w).
Proof.
  intros j prior a Hv Hp Hd. unfold decode_int in Hd. destruct j; try done; [by injection Hd as <-|].
  apply rbind_ok in Hd as (n & Hn & Hd). destruct (in_s w n) eqn:E; [|done]. by injection Hd as <-.
Qed.

Lemma dec_typed_float : dec_typed f64_ok decode_float.
Proof.
  intros j prior a Hv Hp Hd. unfold decode_float in Hd. destruct j; try done; [by injection Hd as <-|].
  by eapply ParseFloat_ok.
Qed.

Lemma trim_left_head c s : head (trim_left c s) ≠ Some c.
Proof. induction s as [|b s IH]; cbn; [done|]. case_bool_decide; [done|]. cbn. congruence. Qed.

Lemma trim_left_suffix c s : ∃ l, s = l ++ trim_left c s.
Proof.
  induction s as [|b s [l IH]]; [by exists []|]. cbn. case_bool_decide; [|by exists []].
  exists (b :: l). cbn. by rewrite <- IH.
Qed.

Lemma head_rev {A} (l : list A) : head (rev l) = last l.
Proof. rewrite rev_alt. apply head_reverse. Qed.
Lemma last_rev {A} (l : list A) : last (rev l) = head l.
Proof. by rewrite <- head_rev, rev_involutive. Qed.

Lemma trim_ends c s : head (trim c s) ≠ Some c ∧ last (trim c s) ≠ Some c.
Proof.
  unfold trim. rewrite last_rev. split; [|apply trim_left_head].
  destruct (trim_left_suffix c (rev (trim_left c s))) as [l Hl].
  rewrite head_rev. destruct (trim_left c (rev (trim_left c s))) as [|b t] eqn:E; [done|].
  assert (last (b :: t) = head (trim_left c s)) as ->; [|apply trim_left_head].
  rewrite <- last_rev, Hl, last_app. by destruct (last (b :: t)) eqn:El; [|apply last_None in El].
Qed.

Lemma dec_typed_DatR : dec_typed DatR_typed decode_DatR.
Proof.
  intros j prior a Hv [Hl Hp] Hd. unfold decode_DatR, decode_unmarshaler, DatR_UnmarshalJSON in Hd.
  destruct (ParseUint _ _); injection Hd as <-; constructor; cbn; try done; try (by apply wrap_u_range);
    unfold unquoted; rewrite to_bytes_of_string; apply trim_ends.
Qed.

(** The identifier can be any bytes. *)
Example datr_any_bytes :
  DatR_UnmarshalJSON [dquote; byte_of_Z 255; dquote] DatR_zero = Ok (mkDatR (to_string [byte_of_Z 255]) 0) ∧
  ¬ str_ok (to_string [byte_of_Z 255]).
Proof. split; [vm_compute; reflexivity|]. intros Hs. vm_compute in Hs. discriminate Hs. Qed.

Lemma dec_typed_DatR_FSK : dec_typed (λ d, uint_t 32 (DatR_FSK d)) decode_DatR.
Proof.
  intros j prior a Hv Hp Hd. unfold decode_DatR, decode_unmarshaler, DatR_UnmarshalJSON in Hd.
  destruct (ParseUint _ _); injection Hd as <-; [|done..]. by apply wrap_u_range.
Qed.

Lemma dec_typed_string : dec_typed str_ok decode_string.
Proof.
  intros j prior a Hv Hp Hd. unfold decode_string in Hd. destruct j; try done; [by injection Hd as <-|].
  injection Hd as <-. inversion Hv. unfold str_ok. by rewrite to_bytes_of_string.
Qed.

Lemma dec_typed_any {A} (d : decoder A) : dec_typed any d.
Proof. done. Qed.

Lemma dec_typed_slice {A} P (zero : A) d :
  P zero → dec_typed P d → dec_typed (Forall P) (decode_slice zero d).
Proof.
  intros Hz Hd j prior a Hv Hp Hj. destruct j as [| | | |txt l|]; try done; cbn in Hj.
  { by injection Hj as <-. }
  inversion_clear Hv as [| | | |? ? Hl|].
  revert prior a Hp Hj. induction Hl as [|x l Hx _ IH]; intros prior a Hp Hj; cbn in Hj;
    [by injection Hj as <-|].
  apply rbind_ok in Hj as (b & Hb & Hj). apply rbind_ok in Hj as (rest & Hr & [= <-]).
  constructor; [|by eapply (IH (tl prior)); [destruct Hp|]].
  apply (Hd x (hd zero prior)); [done|by destruct Hp|done].
Qed.

Lemma dec_typed_ptr {A} P (zero : A) d :
  P zero → dec_typed P d →
  dec_typed (λ o, match o with Some a => P a | None => True end) (decode_ptr zero d).
Proof.
  intros Hz Hd j prior a Hv Hp Hj. unfold decode_ptr in Hj.
  assert (P (default zero prior)) as Hp' by (by destruct prior).
  destruct j; [by injection Hj as <-|..]; apply rbind_ok in Hj as (a' & Ha & [= <-]); by eapply Hd.
Qed.

Lemma dec_typed_struct {A} P (fs : list (field A)) :
  Forall (λ f, dec_typed P (field_set f)) fs → dec_typed P (decode_struct fs).
Proof.
  intros Hfs j prior a Hv Hp Hj. destruct j as [| | | | |txt l]; try done; cbn in Hj.
  { by injection Hj as <-. }
  inversion_clear Hv as [| | | | |? ? _ Hl].
  revert prior Hp Hj. induction Hl as [|[k x] l Hx _ IH]; intros prior Hp Hj; cbn in Hj;
    [by injection Hj as <-|].
  apply rbind_ok in Hj as (b & Hb & Hj). apply (IH b); [|done].
  destruct (find_field fs k) as [f|] eqn:E; [|by injection Hb as <-].
  rewrite List.Forall_forall in Hfs. apply find_field_In, Hfs in E. by eapply E.
Qed.

Lemma dec_typed_lens {A B} P Q name (d : decoder B) (get : A → B) upd :
  dec_typed Q d → (∀ a, P a → Q (get a)) → (∀ a b, P a → Q b → P (upd a b)) →
  dec_typed P (field_set (lens name d get upd)).
Proof.
  intros Hd Hg Hu j prior a Hv Hp Hj. cbn in Hj. apply rbind_ok in Hj as (b & Hb & [= <-]).
  apply Hu; [done|]. by eapply Hd; [exact Hv|apply Hg|].
Qed.

#[local] Hint Resolve dec_typed_uint dec_typed_int dec_typed_float dec_typed_string : type_db.

(** A struct, field by field: each with the type of its field. *)
Ltac field_typed dec :=
  eapply dec_typed_lens; [dec|by intros ? []|];
  let a := fresh in let Ha := fresh in
  intros a ? Ha ?; destruct a, Ha; cbn in *; by constructor.
Ltac fields_typed :=
  apply dec_typed_struct;
  repeat (apply List.Forall_cons;
    [first
      [ field_typed ltac:(solve [eauto with type_db])
      | field_typed ltac:(exact dec_typed_DatR)
      | field_typed ltac:(exact dec_typed_DatR_FSK)
      | apply (dec_typed_lens _ any); [apply dec_typed_any|done|];
        let a := fresh in let Ha := fresh in
        intros a ? Ha ?; destruct a, Ha; cbn in *; by constructor ]|]);
  apply List.Forall_nil.

Section Payloads.
Context `{HostZone}.

Lemma dec_typed_RXPK : dec_typed RXPK_typed (decode_struct RXPK_fields).
Proof. fields_typed. Qed.
Lemma dec_typed_Stat : dec_typed Stat_typed (decode_struct Stat_fields).
Proof. fields_typed. Qed.
Lemma dec_typed_TXPK : dec_typed TXPK_typed (decode_struct TXPK_fields).
Proof. fields_typed. Qed.
End Payloads.

(** ** Packets *)

Lemma RXPK_zero_typed : RXPK_typed RXPK_zero.
Proof. by constructor. Qed.
Lemma Stat_zero_typed : Stat_typed Stat_zero.
Proof. by constructor. Qed.
Lemma TXPK_zero_typed : TXPK_typed TXPK_zero.
Proof. by constructor. Qed.
#[local] Hint Resolve RXPK_zero_typed Stat_zero_typed dec_typed_RXPK dec_typed_Stat dec_typed_TXPK
  dec_typed_slice dec_typed_ptr : type_db.

Lemma json_decode_typed {A} P (d : decoder A) data prior a :
  dec_typed P d → P prior → json_decode d data prior = Ok a → P a.
Proof.
  unfold json_decode. intros Hd Hp Hj. destruct (parse_json data) as [j|] eqn:Ej; [|done].
  by eapply Hd; [eapply parse_json_valid|..].
Qed.

Section Packets.
Context `{HostZone}.

Lemma PushDataPayload_decode_typed text prior p :
  PushDataPayload_typed prior → json_Unmarshal text prior = Ok p → PushDataPayload_typed p.
Proof.
  apply json_decode_typed, dec_typed_struct. repeat apply List.Forall_cons; [..|apply List.Forall_nil].
  - apply (dec_typed_lens _ (Forall RXPK_typed)); [auto with type_db|by intros a [Hr Hs]|].
    intros [] b [Hr Hs] Hb. by split.
  - eapply dec_typed_lens; [eapply (dec_typed_ptr Stat_typed); auto with type_db|by intros a [Hr Hs]|].
    intros [] b [Hr Hs] Hb. by split.
Qed.

Lemma PullRespPayload_decode_typed text prior p :
  TXPK_typed (PullRespPayload_TXPK prior) → json_Unmarshal text prior = Ok p →
  TXPK_typed (PullRespPayload_TXPK p).
Proof.
  apply (json_decode_typed (λ q, TXPK_typed (PullRespPayload_TXPK q))), dec_typed_struct.
  apply List.Forall_cons; [|apply List.Forall_nil].
  by eapply dec_typed_lens; [apply dec_typed_TXPK|..].
Qed.

(** The steps of a decoder: an early error, or the next read. *)
Ltac decode_step H :=
  match type of H with
  | (if ?c then _ else _) = Ok _ => destruct c; [done || idtac|done || idtac]
  | rbind _ _ = Ok _ => let x := fresh "x" in let Hx := fresh "Hx" in apply rbind_ok in H as (x & Hx & H)
  end.

Lemma header_decode_typed (data : bytes) i b token :
  index data i = Ok b → Uint16 data 1 = Ok token → header_typed (Z_of_byte b) token.
Proof. intros _ Ht. split; [apply Z_of_byte_in_u|by eapply Uint16_range]. Qed.

Lemma PushDataPacket_decode_typed data prior p :
  PushDataPayload_typed (PushDataPacket_Payload prior) →
  PushDataPacket_UnmarshalBinary data prior = Ok p → PushDataPacket_typed p.
Proof.
  intros Hp Hd. unfold PushDataPacket_UnmarshalBinary in Hd. repeat decode_step Hd.
  injection Hd as <-. split; [by eapply header_decode_typed|]. by eapply PushDataPayload_decode_typed.
Qed.

(** C25: Decoding is type sound: whatever the bytes, a decoded packet has an 8-bit
    version and a 16-bit token, and in its JSON every integer is in the range of its
    field's type, and in an uplink every float is finite and every string UTF-8,
    except for the data rate, given a destination that is. *)
Theorem decoded_packets_typed data :
  (∀ prior p, PushDataPayload_typed (PushDataPacket_Payload prior) →
    PushDataPacket_UnmarshalBinary data prior = Ok p → PushDataPacket_typed p) ∧
  (∀ prior p, TXPK_typed (PullRespPayload_TXPK (PullRespPacket_Payload prior)) →
    PullRespPacket_UnmarshalBinary data prior = Ok p → PullRespPacket_typed p) ∧
  (∀ prior p, TXACKPacket_UnmarshalBinary data prior = Ok p →
    header_typed (TXACKPacket_ProtocolVersion p) (TXACKPacket_RandomToken p)) ∧
  (∀ prior p, PullDataPacket_UnmarshalBinary data prior = Ok p →
    header_typed (PullDataPacket_ProtocolVersion p) (PullDataPacket_RandomToken p)) ∧
  (∀ prior p, PushACKPacket_UnmarshalBinary data prior = Ok p →
    header_typed (PushACKPacket_ProtocolVersion p) (PushACKPacket_RandomToken p)) ∧
  (∀ prior p, PullACKPacket_UnmarshalBinary data prior = Ok p →
    header_typed (PullACKPacket_ProtocolVersion p) (PullACKPacket_RandomToken p)).
Proof.
  split_and!; [apply PushDataPacket_decode_typed|..]; intros prior p.
  - intros Hp Hd. unfold PullRespPacket_UnmarshalBinary in Hd. repeat decode_step Hd.
    injection Hd as <-. split; [by eapply header_decode_typed|]. by eapply PullRespPayload_decode_typed.
  - intros Hd. unfold TXACKPacket_UnmarshalBinary in Hd. repeat decode_step Hd;
      injection Hd as <-; by eapply header_decode_typed.
  - intros Hd. unfold PullDataPacket_UnmarshalBinary in Hd. repeat decode_step Hd.
    injection Hd as <-. by eapply header_decode_typed.
  - intros Hd. unfold PushACKPacket_UnmarshalBinary in Hd. repeat decode_step Hd.
    injection Hd as <-. by eapply header_decode_typed.
  - intros Hd. unfold PullACKPacket_UnmarshalBinary in Hd. repeat decode_step Hd.
    injection Hd as <-. by eapply header_decode_typed.
Qed.
End Packets.

(** ** Conversions *)

Lemma to_int_typed z : int_t 64 (to_int z).
Proof.
  apply in_s_spec. unfold to_int, to_int64, wrap_s.
  pose proof (Z.mod_pos_bound (z + 2 ^ (64 - 1)) (2 ^ 64) ltac:(lia)). lia.
Qed.

Lemma f64_to_int64_typed f : int_t 64 (f64_to_int64 f).
Proof. unfold f64_to_int64, int_t. destruct (f_trunc f) as [z|]; [|done]. by destruct (in_s 64 z) eqn:E. Qed.

Lemma Atoi_typed s z : Atoi s = Ok z → int_t 64 z.
Proof. by apply ParseInt_range. Qed.

#[local] Hint Resolve to_int_typed f64_to_int64_typed Atoi_typed : type_db.

Lemma newDataRateFromDatR_typed d r : newDataRateFromDatR d = Ok r → DataRate_typed r.
Proof.
  unfold newDataRateFromDatR. destruct (negb _).
  - destruct (find_data_rate _) as [[m1 m2]|]; [|done]. intros Hd.
    apply rbind_ok in Hd as (sf & Hs & Hd). apply rbind_ok in Hd as (bw & Hb & [= <-]).
    apply rwrap_ok in Hs, Hb. constructor; cbn; eauto with type_db; done.
  - destruct (negb _); [|done]. intros [= <-]. constructor; cbn; eauto with type_db; done.
Qed.

Lemma newRXPacketFromRXPK_typed mac r p :
  RXPK_typed r → newRXPacketFromRXPK mac r = Ok p → RXPacket_typed p.
Proof.
  intros [] Hp. unfold newRXPacketFromRXPK in Hp. apply rbind_ok in Hp as (d & Hd & Hp).
  apply rbind_ok in Hp as (b & _ & [= <-]). apply rwrap_ok, newDataRateFromDatR_typed in Hd.
  constructor; cbn -[f64_to_int64]; auto with type_db; done.
Qed.

(** *** The text of an address is ASCII *)

Definition ascii_text (s : bytes) : Prop := Forall (λ c, Z_of_byte c < 128) s.

Lemma ascii_text_ok s : ascii_text s → str_ok (to_string s).
Proof.
  intros Hs. unfold str_ok. rewrite to_bytes_of_string. apply ascii_valid.
  unfold is_ascii. apply forallb_forall. intros c Hc. apply Z.ltb_lt.
  revert c Hc. by apply List.Forall_forall.
Qed.

Lemma hex_digit_ascii z : 0 ≤ z < 16 → Z_of_byte (hex_digit z) < 128.
Proof.
  intros Hz. apply Z.ltb_lt, (zrange_check_spec (λ z, Z_of_byte (hex_digit z) <? 128) 16 0);
    [vm_compute; reflexivity|lia].
Qed.

Lemma hex_encode_ascii b : ascii_text (hex_encode b).
Proof.
  induction b as [|c b IH]; [constructor|]. simpl. pose proof (Z_of_byte_range c).
  apply List.Forall_cons; [|apply List.Forall_cons; [|done]]; apply hex_digit_ascii.
  - rewrite Z.shiftr_div_pow2 by lia. change (2 ^ 4) with 16.
    split; [apply Z.div_pos; lia|apply Z.div_lt_upper_bound; lia].
  - change 15 with (Z.ones 4). rewrite Z.land_ones by lia. by apply Z.mod_pos_bound.
Qed.

Lemma append_hex_ascii g : ascii_text (append_hex g).
Proof.
  unfold append_hex. repeat case_goal; repeat constructor; apply hex_digit_ascii; by apply Z.mod_pos_bound.
Qed.

Lemma FormatUint_ascii n : 0 ≤ n → ascii_text (FormatUint n).
Proof.
  intros Hn. eapply List.Forall_impl; [|by apply FormatUint_digits].
  intros c Hc. apply is_digit_iff in Hc. lia.
Qed.

Lemma join_with_ascii sep l : ascii_text sep → Forall ascii_text l → ascii_text (join_with sep l).
Proof.
  intros Hs Hl. induction Hl as [|x l Hx _ IH]; [constructor|]. destruct l as [|y l]; [done|].
  apply Forall_app_2; [done|]. by apply Forall_app_2.
Qed.

Lemma IP_String_ok ip : str_ok (IP_String ip).
Proof.
  apply ascii_text_ok. unfold IP_bytes. destruct ip as [|b ip]; [by repeat constructor|].
  destruct (To4 _) as [p4|].
  - apply join_with_ascii; [by repeat constructor|]. apply List.Forall_map, List.Forall_forall.
    intros c _. apply FormatUint_ascii. pose proof (Z_of_byte_range c). lia.
  - destruct (negb _); [constructor; [done|apply hex_encode_ascii]|].
    assert (∀ l, ascii_text (join_with (to_bytes ":") (map append_hex l))) as Htxt.
    { intros l. apply join_with_ascii; [by repeat constructor|].
      apply List.Forall_map, List.Forall_forall. intros g _. apply append_hex_ascii. }
    destruct (longest_run _ _ _) as [e0 n]. destruct (_ <? _)%nat; [apply Htxt|].
    apply Forall_app_2; [apply Htxt|]. apply Forall_app_2; [by repeat constructor|apply Htxt].
Qed.

(** An integer becomes a finite float when it has at most 53 bits. *)
Lemma f64_of_Z_ok z : int_t 32 z → f64_ok (f64_of_Z z).
Proof.
  unfold int_t. rewrite in_s_spec. intros Hz. split; [|apply f64_of_Z_valid].
  destruct (Z.lt_trichotomy z 0) as [Hn|[->|Hpos]]; [|done|].
  - replace z with (- - z) by lia. rewrite f64_of_Z_opp by lia.
    destruct (f64_of_Z_exact (- z)) as (k & _ & ->); [lia..|done].
  - destruct (f64_of_Z_exact z) as (k & _ & ->); [lia..|done].
Qed.

Lemma newGatewayStatsPacket_typed mac s : Stat_typed s → GatewayStats_typed (newGatewayStatsPacket mac s).
Proof.
  intros []. constructor; cbn; auto with type_db; [by apply f64_of_Z_ok|done|].
  repeat apply map_Forall_insert_2; try (split; [reflexivity|done]). apply map_Forall_empty.
Qed.

Lemma newDatRfromDataRate_typed d : uint_t 32 (DatR_FSK (newDatRfromDataRate d)).
Proof. unfold newDatRfromDataRate. case_bool_decide; [done|]. by apply wrap_u_range. Qed.

Lemma newTXPKFromTXPacket_typed p x :
  TXPacket_typed p → newTXPKFromTXPacket p = Ok x → TXPK_typed x.
Proof.
  intros [] [= <-]. constructor; cbn; try done; try (by apply wrap_u_range).
  - apply newDatRfromDataRate_typed.
  - case_bool_decide; [by apply wrap_u_range|done].
Qed.

(** The types of a message of the router. *)
Record DownlinkMessage_typed (m : DownlinkMessage) : Prop := mkDownlinkMessagetyped {
  dm_lorawan : ∀ l, Downlink_Lorawan m = Some l →
    int_t 32 (Lorawan_Modulation l) ∧ uint_t 32 (Lorawan_BitRate l);
  dm_config : ∀ c, Downlink_GatewayConfiguration m = Some c →
    uint_t 32 (Tx_Timestamp c) ∧ uint_t 64 (Tx_Frequency c) ∧ int_t 32 (Tx_Power c)
}.

Lemma downlink_packet_typed mac m tx :
  DownlinkMessage_typed m → downlink_packet mac m = Ok (Some tx) → TXPacket_typed tx.
Proof.
  intros [_ Hc] Hd. unfold downlink_packet in Hd. destruct (Downlink_Lorawan m) as [l|]; [|done].
  apply rbind_ok in Hd as (r & Hr & Hd).
  destruct (Downlink_GatewayConfiguration m) as [c|]; [|done]. injection Hd as <-.
  assert (DataRate_typed r) as [].
  { destruct (_ =? Modulation_LORA); [|by injection Hr as <-].
    destruct (ParseDataRate _) as [[sf bw]|]; [|done]. injection Hr as <-.
    constructor; cbn; auto with type_db; done. }
  destruct (Hc c eq_refl) as (? & _ & _).
  constructor; cbn -[to_int]; auto with type_db.
  destruct (_ =? Modulation_FSK); constructor; cbn -[to_int]; auto with type_db; done.
Qed.

(** A message of the router becomes a packet, and the packet a payload for the
    gateway, of their types. *)
Theorem downlinks_typed mac m tx :
  DownlinkMessage_typed m → downlink_packet mac m = Ok (Some tx) →
  TXPacket_typed tx ∧ ∃ txpk, newTXPKFromTXPacket tx = Ok txpk ∧ TXPK_typed txpk.
Proof.
  intros Hm Hd. pose proof (downlink_packet_typed _ _ _ Hm Hd) as Ht. split; [done|].
  eexists. split; [reflexivity|]. by apply (newTXPKFromTXPacket_typed tx).
Qed.

(** ** What the backend publishes *)

Section Published.
Context `{HostZone}.

Lemma pushed_typed h addr q : pushed h addr q → PushDataPacket_typed q.
Proof.
  intros (data & _ & Hd).
  by apply (PushDataPacket_decode_typed data PushDataPacket_zero).
Qed.

Lemma rx_ok_typed h rx : rx_ok h rx → RXPacket_typed rx.
Proof.
  intros (addr & q & r & Hq & Hr & Ha). apply pushed_typed in Hq as [_ [Hrx _]].
  unfold accepted in Ha. apply rbind_ok in Ha as (p & Hp & Ha). destruct (_ =? _); [|done].
  injection Ha as <-. eapply newRXPacketFromRXPK_typed; [|done].
  rewrite List.Forall_forall in Hrx. by apply Hrx, list_elem_of_In.
Qed.

Lemma stats_ok_typed h st : stats_ok h st → GatewayStats_typed st.
Proof.
  intros (addr & q & s & Hq & Hs & ->). apply pushed_typed in Hq as [_ [_ Hst]]. rewrite Hs in Hst.
  destruct (newGatewayStatsPacket_typed (PushDataPacket_GatewayMAC q) s Hst). constructor; try done.
  apply map_Forall_insert_2; [|done]. split; [reflexivity|]. repeat constructor. apply IP_String_ok.
Qed.

Context {W : Type} (onNew : callback W) (onDelete : waiting_callback W) (subs : W → gset EUI64).
Context `{!Subscriber onNew onDelete subs}.
Context (environment : W → W → Prop).
Hypothesis environment_subs : ∀ w w', environment w w' → subs w' = subs w.

(** C20: Every packet and statistic the backend publishes comes from a PUSH_DATA
    that was received, each packet has CRC status 1, and all their fields are values
    of their Go types, whatever the datagrams hold. *)
Theorem published_packets_typed resolved listen now w0 s0 s :
  subs w0 = ∅ → System.NewBackend resolved listen onNew onDelete now w0 = Ok s0 →
  reachable environment s0 s →
  Forall (λ rx, rx_ok (hist s) rx ∧ RXInfo_CRCStatus (RXPacket_RXInfo rx) = 1 ∧ RXPacket_typed rx)
    (sys_rx s) ∧
  Forall (λ st, stats_ok (hist s) st ∧ GatewayStats_typed st) (sys_stats s).
Proof.
  intros Hw Hn Hr.
  destruct (published_packets_genuine onNew onDelete subs environment environment_subs
    _ _ _ _ _ Hw Hn s Hr) as [Hrx Hst].
  split; (eapply Forall_impl; [exact Hrx || exact Hst|]).
  - intros rx [Hx Hc]. split; [done|]. split; [done|]. by eapply rx_ok_typed.
  - intros st Hx. split; [done|]. by eapply stats_ok_typed.
Qed.
End Published.
