(* ===== verification/Bridge.v ===== *)
(** * The program: configuration and wiring

    [cmd/lora-gateway-bridge/main.go]: the command-line options, the set-up of
    both backends, and the loops that connect them, as a transition system over
    the packet-forwarder system of [System] with The Things Network backend of
    [Ttn] behind its callbacks.  It is the program up to the [Close] of the network
    backend, the last deferred call of [run]: that one is in [Shutdown]. *)

From Stdlib Require Import String Ascii NArith ZArith Lia.
From stdpp Require Import base gmap list strings numbers.
From S2P Require Import Prelude GoPrim GoStrconv GoFloat GoNet Lorawan Payload Registry.
From S2P Require Import Backend System Metrics TtnTypes Ttn TtnLaws TtnSystem.

Local Open Scope string_scope.
Local Open Scope list_scope.
Local Open Scope Z_scope.

(** ** Options *)

(** [app.Flags] *)
Record options : Type := mkOptions {
  udp_bind : string;
  ttn_account_server : string;
  ttn_account_client_id : string;
  ttn_account_client_secret : string;
  ttn_discovery_server : string;
  root_ca_file : string;
  ttn_router : string;
  ttn_gateway_eui : string;
  ttn_gateway_id : string;
  ttn_gateway_key : string;
  ttn_gateway_token : string;
  ttn_inject_bridge : string;
  ttn_inject_region : string;
  ttn_inject_rtt : Z;
  log_level_option : Z
}.

(** The [Value]s of the flags. *)
Definition default_options : options :=
  {| udp_bind := "0.0.0.0:1700";
     ttn_account_server := "https://account.thethingsnetwork.org";
     ttn_account_client_id := "";
     ttn_account_client_secret := "";
     ttn_discovery_server := "localhost:1900";
     root_ca_file := "";
     ttn_router := "dev";
     ttn_gateway_eui := "";
     ttn_gateway_id := "";
     ttn_gateway_key := "";
     ttn_gateway_token := "";
     ttn_inject_bridge := "";
     ttn_inject_region := "";
     ttn_inject_rtt := 0;
     log_level_option := 4 |}.

(** ** State *)

(** The running program: both backends, the publishing goroutines, and a panic
    outside of the packet-forwarder backend.  How far the two uplink loops have come
    is in the packet-forwarder system. *)
Record bridge : Type := mkBridge {
  br_sys : system ttn;
  br_publishers : list (tprog (option error));
  br_crash : option string
}.

Definition set_sys (b : bridge) (s : system ttn) : bridge :=
  mkBridge s (br_publishers b) (br_crash b).
Definition set_publishers (b : bridge) l : bridge := mkBridge (br_sys b) l (br_crash b).
Definition crash (b : bridge) (why : string) : bridge :=
  mkBridge (br_sys b) (br_publishers b) (Some why).

Definition set_world (s : system ttn) (w : ttn) : system ttn := set_registry s (sys_registry s) w.

(** ** Set-up *)

(** What the host and the network answer during set-up. *)
Record host : Type := mkHost {
  host_ReadFile : string → result bytes;
  host_user : result string;
  host_name : result string;
  host_NewClient : string → string → result ();
  host_Discover : string → string → result string;
  host_Dial : string → result ();
  host_FindGateway : Account → string → error + account_Gateway;
  host_ResolveUDPAddr : string → result UDPAddr;
  host_ListenUDP : UDPAddr → result ()
}.

Definition nonempty (s : string) : bool := negb (bool_decide (s = "")).

(** The first part of [run]: the network backend as the options describe it.
    An error here ends the program; failing to set the account or to add the
    gateway is only logged. *)
Definition setup (h : host) (c : options) : result ttn :=
  let* _ := if nonempty (root_ca_file c) then host_ReadFile h (root_ca_file c) else Ok [] in
  let* ttn := NewBackend (host_NewClient h) (host_Discover h) (host_Dial h)
                (getID (host_user h) (host_name h)) (ttn_discovery_server c) (ttn_router c) in
  let ttn := SetRxRateLimit (f64_of_Z 10) ttn in
  let ttn :=
    if nonempty (ttn_account_server c) then
      SetAccount (ttn_account_server c) (ttn_account_client_id c) (ttn_account_client_secret c) ttn
    else ttn in
  let* ttn :=
    if nonempty (ttn_gateway_id c) then
      let* r := AddGateway (host_FindGateway h) (ttn_gateway_eui c) (ttn_gateway_id c)
                  (ttn_gateway_key c) (ttn_gateway_token c) ttn in
      Ok r.2
    else Ok ttn in
  let ttn := if nonempty (ttn_inject_bridge c) then InjectBridge (ttn_inject_bridge c) ttn else ttn in
  let ttn := if nonempty (ttn_inject_region c) then InjectRegion (ttn_inject_region c) ttn else ttn in
  let ttn := if negb (ttn_inject_rtt c =? 0) then InjectRTT (ttn_inject_rtt c) ttn else ttn in
  Ok ttn.

Section Run.
Context `{HostZone} `{MathExp}.

(** [onNew] and [onDelete] of [run]. *)
Definition onNew : callback ttn := λ mac w, SubscribeGatewayTX mac w.
Definition onDelete : waiting_callback ttn := UnSubscribeGatewayTX.

(** [run] up to the moment it waits for a signal. *)
Definition start (h : host) (c : options) (now : Time) : result bridge :=
  let* ttn := setup h c in
  let* s := System.NewBackend (host_ResolveUDPAddr h (udp_bind c)) (host_ListenUDP h)
              onNew onDelete now ttn in
  Ok (mkBridge s [] None).

(** ** Steps *)

(** The goroutines the two uplink loops start. *)
Definition publish_rx (rxPacket : RXPacketBytes) : tprog (option error) :=
  PublishGatewayRX (RXInfo_MAC (RXPacket_RXInfo rxPacket)) rxPacket.
Definition publish_stats (stats : GatewayStatsPacket) : tprog (option error) :=
  PublishGatewayStats (Stats_MAC stats) stats.

(** The downlink loop takes a packet from [TXPacketChan] and sends it. *)
Definition take_downlink (s : system ttn) (tx : TXPacketBytes) (w : ttn) : system ttn :=
  let s := set_world s w in
  set_downlink (set_io s (sys_in s) (sys_tx s ++ [tx]) (sys_out s) (sys_rx s) (sys_stats s))
    (downlink tx).

(** A turn of the loop over [RXPacketChan], and of the loop over [StatsChan]. *)
Definition turn_rx (s : system ttn) : system ttn :=
  set_loops s (S (sys_rx_taken s)) (sys_stats_taken s).
Definition turn_stats (s : system ttn) : system ttn :=
  set_loops s (sys_rx_taken s) (S (sys_stats_taken s)).

Definition alive (b : bridge) : Prop := br_crash b = None ∧ sys_exit (br_sys b) = None.

(** Steps of [System] that the loops of [run] have no part in. *)
Definition no_loop (s s' : system ttn) : Prop :=
  sys_tx s' = sys_tx s ∧ sys_rx_taken s' = sys_rx_taken s ∧ sys_stats_taken s' = sys_stats_taken s.

Inductive bridge_step : bridge → bridge → Prop :=
(* the packet-forwarder backend *)
| bs_gateway b s' :
    alive b → step (λ _ _, False) (br_sys b) s' → no_loop (br_sys b) s' →
    bridge_step b (set_sys b s')
(* the network backend *)
| bs_ttn b w' :
    alive b → ttn_own (sys_world (br_sys b)) w' →
    bridge_step b (set_sys b (set_world (br_sys b) w'))
(* for txPacket := range ttn.TXPacketChan() *)
| bs_downlink b j tx w' :
    alive b → handover j (sys_world (br_sys b)) = Some (tx, w') →
    sys_downlink (br_sys b) = PRet tt →
    bridge_step b (set_sys b (take_downlink (br_sys b) tx w'))
(* for rxPacket := range gwBackend.RXPacketChan() *)
| bs_rx b rx :
    alive b → sys_rx (br_sys b) !! sys_rx_taken (br_sys b) = Some rx →
    bridge_step b
      (set_publishers (set_sys b (turn_rx (br_sys b))) (br_publishers b ++ [publish_rx rx]))
(* for stats := range gwBackend.StatsChan() *)
| bs_stats b st :
    alive b → sys_stats (br_sys b) !! sys_stats_taken (br_sys b) = Some st →
    bridge_step b
      (set_publishers (set_sys b (turn_stats (br_sys b))) (br_publishers b ++ [publish_stats st]))
(* the publishing goroutines *)
| bs_publish b i act k w' :
    alive b → br_publishers b !! i = Some (TStep act k) →
    act (sys_clock (br_sys b)) (sys_world (br_sys b)) = Ok w' →
    bridge_step b
      (set_publishers (set_sys b (set_world (br_sys b) w'))
         (<[i := k (sys_world (br_sys b))]> (br_publishers b)))
| bs_publish_panic b i act k why :
    alive b → br_publishers b !! i = Some (TStep act k) →
    act (sys_clock (br_sys b)) (sys_world (br_sys b)) = Panic why →
    bridge_step b (crash b why)
(* a panic of a downlink consumer, of a configuration request *)
| bs_consumer_panic b j why :
    alive b → consumer_step j (sys_world (br_sys b)) = Some (Panic why) →
    bridge_step b (crash b why)
| bs_fetch_panic b Find i mac why :
    alive b → ttn_fetches (sys_world (br_sys b)) !! i = Some mac →
    fetch_conf Find mac (sys_world (br_sys b)) = Panic why →
    bridge_step b (crash b why).

Inductive bridge_reachable (b0 : bridge) : bridge → Prop :=
| br_init : bridge_reachable b0 b0
| br_step b b' : bridge_reachable b0 b → bridge_step b b' → bridge_reachable b0 b'.
End Run.
