(* ===== verification/BridgeLaws.v ===== *)
(** * Properties of the whole program

    What set-up leaves behind, what a gateway sent related to what the router
    receives, and back, and what can crash the program.  Every state of the
    program is a state of the packet-forwarder system over some behaviour of the
    network backend, so the lemmas of [SystemLaws] carry over; the invariants of
    [TtnInvariant] are the other half. *)

From Stdlib Require Import String Ascii NArith ZArith Lia.
From stdpp Require Import base gmap list strings numbers.
From S2P Require Import Prelude GoPrim GoStrconv GoFloat GoNet Lorawan GoJsonTyped Payload.
From S2P Require Import PayloadLaws Structs Registry Convert Backend BackendLaws System.
From S2P Require Import GoSync SystemLaws Metrics TtnTypes Ttn TtnLaws TtnSystem TtnInvariant Bridge.

Local Open Scope string_scope.
Local Open Scope list_scope.
Local Open Scope Z_scope.

(** ** Set-up *)

(** A network backend that has not been used yet. *)
Record blank (w : ttn) : Prop := mkBlank {
  blank_gateways : ttn_gateways w = ∅;
  blank_fetches : ttn_fetches w = [];
  blank_consumers : ttn_consumers w = [];
  blank_tx : ttn_tx w = [];
  blank_gps : Status_Gps (ttn_gatewayStatus w) = None;
  blank_limit : ttn_rxRateLimit w = f64_of_Z 10
}.

Lemma blank_ok `{MathExp} P Q w : blank w → ttn_ok P Q w ∧ ttn_subs w = ∅.
Proof.
  intros [Hg Hf Hc Ht _ _]. split.
  - split; unfold getGtw; rewrite ?Hg, ?Hf, ?Hc, ?Ht.
    + intros mac g. by rewrite lookup_empty.
    + intros j mac c. by rewrite lookup_nil.
    + intros mac Hm. by apply not_elem_of_nil in Hm.
    + intros tx Htx. by apply not_elem_of_nil in Htx.
  - apply set_eq. intros mac. rewrite elem_of_ttn_subs. unfold getGtw. rewrite Hg.
    split; [|by intros ?%not_elem_of_empty]. intros (g & Hm & _). by rewrite lookup_empty in Hm.
Qed.

Lemma blank_SetAccount server id secret w : blank w → blank (SetAccount server id secret w).
Proof. intros [? ? ? ? ? ?]. by split. Qed.

Lemma blank_AddGateway Find eui id key token w r :
  blank w → AddGateway Find eui id key token w = Ok r → blank r.2.
Proof.
  intros [? ? ? ? ? ?]. unfold AddGateway.
  destruct (EUI64_UnmarshalText _) as [e|e|p]; [|intros [= <-]; by split|done].
  destruct (ttn_accountServer w) as [a|]; [destruct (negb _); [|destruct (negb _)]|];
    try destruct (Find _ _); intros [= <-]; by split.
Qed.

Lemma blank_inject w f :
  (∀ s, Status_Gps (f s) = Status_Gps s) → blank w → blank (set_gatewayStatus w (f (ttn_gatewayStatus w))).
Proof. intros Hf [? ? ? ? ? ?]. split; try done. cbn. by rewrite Hf. Qed.

Lemma blank_if (b : bool) (f : ttn → ttn) w :
  (∀ w, blank w → blank (f w)) → blank w → blank (if b then f w else w).
Proof. intros Hf Hw. destruct b; auto. Qed.

Lemma setup_blank h c w : setup h c = Ok w → blank w.
Proof.
  unfold setup. intros Hs.
  apply rbind_ok in Hs as (ca & _ & Hs). apply rbind_ok in Hs as (w0 & H0 & Hs).
  apply rbind_ok in Hs as (w1 & H1 & Hs). apply (inj Ok) in Hs as <-.
  apply (blank_if _ (InjectRTT (ttn_inject_rtt c))).
  { intros w Hw. apply (blank_inject w (with_rtt _)); [by intros []|done]. }
  apply (blank_if _ (InjectRegion (ttn_inject_region c))).
  { intros w Hw. apply (blank_inject w (with_region _)); [by intros []|done]. }
  apply (blank_if _ (InjectBridge (ttn_inject_bridge c))).
  { intros w Hw. apply (blank_inject w (with_bridge _)); [by intros []|done]. }
  assert (blank (SetRxRateLimit (f64_of_Z 10) w0)) as Hb0.
  { unfold NewBackend in H0. apply rbind_ok in H0 as (addr & _ & H0).
    apply rbind_ok in H0 as (u & _ & H0). apply (inj Ok) in H0 as <-. by split. }
  eapply (blank_if (nonempty (ttn_account_server c))) in Hb0;
    [|intros w; by apply (blank_SetAccount (ttn_account_server c) (ttn_account_client_id c)
        (ttn_account_client_secret c))].
  destruct (nonempty (ttn_gateway_id c)).
  - apply rbind_ok in H1 as (r & Hr & H1). apply (inj Ok) in H1 as <-. by eapply blank_AddGateway.
  - by apply (inj Ok) in H1 as <-.
Qed.






(** ** Steps of the packet-forwarder system, seen from the network backend *)

Section World.
Context `{HostZone} {W : Type}.
Implicit Types (s : system W) (w : W).

Lemma step_env_mono (e e' : W → W → Prop) s s' :
  (∀ w w', e w w' → e' w w') → step e s s' → step e' s s'.
Proof. intros He Hs. destruct Hs; try (by econstructor; eauto). Qed.

Lemma gateways_set_world (I : W → Prop) onNew (c : gateways W) mac gw w err c' w' :
  gateways_onNew c = Some onNew → (∀ mac w, I w → I (onNew mac w).2) → I w →
  gateways_set c mac gw w = (err, c', w') → I w'.
Proof.
  unfold gateways_set. intros -> HI Hw Hs. specialize (HI mac w Hw).
  destruct (gateways_map c !! mac); [by simplify_eq|].
  destruct (onNew mac w) as [[e|] w1]; by simplify_eq.
Qed.

(** An answer of [onDelete] leaves a state with the property [I]. *)
Definition leaves (I : W → Prop) (a : answer W) : Prop :=
  match a with Returned _ w | Waits w => I w | Panicked _ => True end.

Lemma cleanup_world (I : W → Prop) onDelete now cl (c : gateways W) w cl' c' w' :
  gateways_onDelete c = Some onDelete →
  (∀ mac w a, a = wc_call onDelete mac w ∨ wc_resume onDelete mac w = Some a → I w → leaves I a) → I w →
  cleanup_step now cl c w = Some (Ok (cl', c', w')) → I w'.
Proof.
  intros Hd HI Hw Hs.
  assert (∀ mac rest a, leaves I a → cleanup_deleted mac rest c a = Ok (cl', c', w') → I w') as Ha.
  { intros mac rest [[e|] w1|w1|why]; cbn; intros Hl Hc; by simplify_eq. }
  destruct cl as [|[|mac rest]|mac rest|err]; cbn in Hs; try done; [by simplify_eq| |].
  - rewrite Hd in Hs. destruct (gateways_map c !! mac); [|by simplify_eq].
    destruct (stale now g); [|by simplify_eq]. injection Hs as Hs. eapply Ha; [|exact Hs]. eapply HI; [by left|done].
  - apply bind_Some in Hs as (f & Hf & Hs). apply bind_Some in Hs as (a & Hr & Hs). injection Hs as Hs.
    assert (f = onDelete) as -> by congruence. eapply Ha; [|exact Hs]. eapply HI; [by right|done].
Qed.

(** What the steps of the system keep of the backend's state, and that its
    output channels only grow. *)
Lemma local_world (I : W → Prop) onNew p s p' s' :
  gateways_onNew (sys_registry s) = Some onNew → (∀ mac w, I w → I (onNew mac w).2) →
  I (sys_world s) → local p s p' s' →
  I (sys_world s') ∧ sys_rx s `prefix_of` sys_rx s' ∧ sys_stats s `prefix_of` sys_stats s'.
Proof.
  intros Hn HI Hw Hl. destruct Hl; try (split_and!; done).
  - split_and!; [|done..]. by eapply gateways_set_world.
  - split_and!; cbn; [done|by apply prefix_app_r|done].
  - split_and!; cbn; [done|done|by apply prefix_app_r].
Qed.

Lemma step_world (I : W → Prop) onNew onDelete s s' :
  gateways_onNew (sys_registry s) = Some onNew → gateways_onDelete (sys_registry s) = Some onDelete →
  (∀ mac w, I w → I (onNew mac w).2) →
  (∀ mac w a, a = wc_call onDelete mac w ∨ wc_resume onDelete mac w = Some a → I w → leaves I a) →
  I (sys_world s) → step (λ _ _, False) s s' →
  I (sys_world s') ∧ sys_rx s `prefix_of` sys_rx s' ∧ sys_stats s `prefix_of` sys_stats s'.
Proof.
  intros Hn Hd HIn HId Hw Hs. destruct Hs; try (split_and!; done).
  - unfold goroutine_failed. by case_match.
  - by destruct (wg_Done _).
  - match goal with Hl : local _ _ _ _ |- _ => by destruct (local_world I onNew _ _ _ _ Hn HIn Hw Hl) end.
  - match goal with Hl : local _ _ _ _ |- _ => by destruct (local_world I onNew _ _ _ _ Hn HIn Hw Hl) end.
  - unfold goroutine_failed. by case_match.
  - unfold goroutine_failed. by case_match.
  - by destruct (wg_Done _).
  - destruct r as [[[cl c] w]|e|why]; cbn; [|done..]. split_and!; [|done..]. by eapply cleanup_world.
  - by destruct r.
Qed.
End World.

(** ** The program is a packet-forwarder system over some network backend *)

(** What the network backend does between the calls of the registry. *)
Definition network `{MathExp} : ttn → ttn → Prop := ttn_env (λ _, True) (λ _, True).

Section Simulation.
Context `{HostZone} `{MathExp}.

(** The publishing goroutines act on gateways that exist. *)
Definition publisher_ok (b : bridge) (p : tprog (option error)) : Prop :=
  ∃ K, K ⊆ dom (ttn_gateways (sys_world (br_sys b))) ∧
       tsafe (λ rx, rx ∈ sys_rx (br_sys b)) (λ st, st ∈ sys_stats (br_sys b)) K p.

Record bridge_ok (b : bridge) : Prop := mkBridgeOk {
  bok_sys : sys_ok onNew onDelete ttn_subs (br_sys b);
  bok_life : life_ok (br_sys b);
  bok_ttn : ttn_ok (λ rx, rx ∈ sys_rx (br_sys b)) (λ st, st ∈ sys_stats (br_sys b))
              (sys_world (br_sys b));
  bok_publishers : Forall (publisher_ok b) (br_publishers b);
  bok_tx : sys_tx (br_sys b) = ttn_tx (sys_world (br_sys b));
  bok_crash : br_crash b ≠ None → malformed_delivered (sys_world (br_sys b))
}.

Lemma publisher_ok_mono b b' p :
  ttn_le (sys_world (br_sys b)) (sys_world (br_sys b')) →
  sys_rx (br_sys b) `prefix_of` sys_rx (br_sys b') →
  sys_stats (br_sys b) `prefix_of` sys_stats (br_sys b') →
  publisher_ok b p → publisher_ok b' p.
Proof.
  intros Hle Hrx Hst (K & HK & Hs). exists K. split.
  - intros mac Hm. apply HK, elem_of_dom in Hm as [g Hg].
    destruct (tle_gateways _ _ Hle mac g Hg) as (g' & Hg' & _). apply elem_of_dom. eauto.
  - eapply tsafe_mono; [| |exact Hs]; intros x Hx;
      [exact (elem_of_prefix _ _ _ Hx Hrx)|exact (elem_of_prefix _ _ _ Hx Hst)].
Qed.

(** A step that changes the system and leaves the goroutines of [run] alone. *)
Lemma bridge_ok_sys b s' :
  bridge_ok b → sys_ok onNew onDelete ttn_subs s' ∧ life_ok s' →
  ttn_le (sys_world (br_sys b)) (sys_world s') →
  sys_rx (br_sys b) `prefix_of` sys_rx s' → sys_stats (br_sys b) `prefix_of` sys_stats s' →
  ttn_ok (λ rx, rx ∈ sys_rx (br_sys b)) (λ st, st ∈ sys_stats (br_sys b)) (sys_world s') →
  sys_tx s' = ttn_tx (sys_world s') → bridge_ok (set_sys b s').
Proof.
  intros [_ _ _ Hp _ Hc] [Hsys Hlife] Hle Hrx Hst Hok Htx. split; try done.
  - eapply ttn_ok_mono; [| |exact Hok]; intros x Hx;
      [exact (elem_of_prefix _ _ _ Hx Hrx)|exact (elem_of_prefix _ _ _ Hx Hst)].
  - eapply Forall_impl; [|exact Hp]. intros p. by apply publisher_ok_mono.
  - intros Hcr. eapply malformed_delivered_mono; [exact Hle|by apply Hc].
Qed.

Lemma network_subs w w' : network w w' → ttn_subs w' = ttn_subs w.
Proof. apply ttn_env_subs. Qed.

Lemma network_step (s : system ttn) w' :
  sys_exit s = None → network (sys_world s) w' → step network s (set_world s w').
Proof. intros He Hn. by apply step_environment. Qed.

Lemma sys_ok_step (s s' : system ttn) :
  sys_ok onNew onDelete ttn_subs s ∧ life_ok s → step network s s' →
  sys_ok onNew onDelete ttn_subs s' ∧ life_ok s'.
Proof.
  intros [Hok Hlife] Hs. split; [|by eapply life_step].
  eapply step_ok; [apply ttn_subscriber|apply network_subs|done..].
Qed.

Lemma bridge_sys_ok b : bridge_ok b → sys_ok onNew onDelete ttn_subs (br_sys b) ∧ life_ok (br_sys b).
Proof. by intros []. Qed.

Lemma unsubscribe_tx mac w w' : unsubscribed mac w w' → ttn_tx w' = ttn_tx w.
Proof. by intros [->|(g & s & s' & _ & _ & -> & _)]. Qed.

(** Whatever [onDelete] does. *)
Lemma unsubscribe_leaves (I : ttn → Prop) mac w a :
  a = wc_call onDelete mac w ∨ wc_resume onDelete mac w = Some a →
  (∀ w', unsubscribed mac w w' → I w') → leaves I a.
Proof.
  intros [->|Ha] Hu.
  - pose proof (unsubscribe_call mac w) as Hc. cbn in *.
    destruct (UnSubscribeGatewayTX_call mac w) as [[e|] w1|w1|why]; cbn; auto. done.
  - apply unsubscribe_woken in Ha. destruct a as [[e|] w1|w1|why]; cbn; auto; done.
Qed.

(** The registry calls back into the network backend. *)
Lemma gateway_step_ok b s' :
  bridge_ok b → step (λ _ _, False) (br_sys b) s' → sys_tx s' = sys_tx (br_sys b) →
  bridge_ok (set_sys b s').
Proof.
  intros Hok Hs Htx. pose proof (ok_registry _ _ _ _ (bok_sys _ Hok)) as (Hn & Hd & _).
  set (P := λ rx, rx ∈ sys_rx (br_sys b)). set (Q := λ st, st ∈ sys_stats (br_sys b)).
  destruct (step_world (λ w, ttn_ok P Q w ∧ ttn_le (sys_world (br_sys b)) w ∧
      ttn_tx w = ttn_tx (sys_world (br_sys b))) onNew onDelete (br_sys b) s')
    as ((Hto & Hle & Ht) & Hrx & Hst); [done|done| | | |done|].
  - intros mac w (Hw & Hl & Ht). split_and!; [by apply SubscribeGatewayTX_ok|etrans; [done|apply subscribe_le]|].
    rewrite <- Ht. unfold onNew, SubscribeGatewayTX. cbn. unfold ensure_gtw, newGtw. by repeat case_match.
  - intros mac w a Ha (Hw & Hl & Ht).
    eapply unsubscribe_leaves; [exact Ha|]. intros w' Hu.
    split_and!; [by eapply unsubscribed_ok|etrans; [done|by eapply unsubscribed_le]|].
    by rewrite <- Ht, (unsubscribe_tx _ _ _ Hu).
  - split_and!; [apply (bok_ttn _ Hok)|done|done].
  - apply bridge_ok_sys; try done.
    + eapply sys_ok_step; [by apply bridge_sys_ok|]. eapply step_env_mono; [|done]. done.
    + by rewrite Htx, Ht, (bok_tx _ Hok).
Qed.

(** The network backend acts on its own. *)
Lemma world_step_ok b w' :
  bridge_ok b → alive b → network (sys_world (br_sys b)) w' →
  ttn_ok (λ rx, rx ∈ sys_rx (br_sys b)) (λ st, st ∈ sys_stats (br_sys b)) w' →
  ttn_tx w' = ttn_tx (sys_world (br_sys b)) → bridge_ok (set_sys b (set_world (br_sys b) w')).
Proof.
  intros Hok [_ He] Hn Hw Htx. apply bridge_ok_sys; try done.
  - eapply sys_ok_step; [by apply bridge_sys_ok|]. by apply network_step.
  - by eapply ttn_env_le.
  - cbn. by rewrite Htx, (bok_tx _ Hok).
Qed.
End Simulation.

(** ** Every step of the program *)

Section BridgeSteps.
Context `{HostZone} `{MathExp}.

Lemma pub_act_mono (P P' : RXPacketBytes → Prop) (Q Q' : GatewayStatsPacket → Prop) K act new :
  (∀ rx, P rx → P' rx) → (∀ st, Q st → Q' st) → pub_act P Q K act new → pub_act P' Q' K act new.
Proof.
  intros HP HQ [|mac|mac|rx ? ?|st ? ?];
    [apply pa_skip|apply pa_new|apply pa_rate|apply pa_uplink|apply pa_status]; auto.
Qed.

(** The next action of a publishing goroutine: it succeeds, and the goroutine
    goes on as it should. *)
Lemma publisher_step b i act k :
  bridge_ok b → br_publishers b !! i = Some (TStep act k) →
  ∃ w', act (sys_clock (br_sys b)) (sys_world (br_sys b)) = Ok w' ∧ network (sys_world (br_sys b)) w' ∧
    ttn_ok (λ rx, rx ∈ sys_rx (br_sys b)) (λ st, st ∈ sys_stats (br_sys b)) w' ∧
    ttn_tx w' = ttn_tx (sys_world (br_sys b)) ∧
    publisher_ok (set_sys b (set_world (br_sys b) w')) (k (sys_world (br_sys b))).
Proof.
  intros Hok Hi. pose proof (bok_publishers _ Hok) as Hp. rewrite Forall_lookup in Hp.
  destruct (Hp i _ Hi) as (K & HK & new & Hact & Hk).
  destruct (pub_act_ok _ _ K act new (sys_clock (br_sys b)) _ (bok_ttn _ Hok) Hact HK)
    as (w' & Hw' & Hok' & Hdom).
  assert (network (sys_world (br_sys b)) w') as Hn.
  { eapply te_publish; [exact HK| |exact Hw']. by eapply pub_act_mono; [| |exact Hact]. }
  exists w'. split_and!; [done|done|done| |].
  - destruct Hact as [|mac|mac|rx _ _|st _ _].
    + by injection Hw' as <-.
    + apply (inj Ok) in Hw' as <-. unfold newGtw. by repeat case_match.
    + by apply (inj Ok) in Hw' as <-.
    + unfold uplink_send in Hw'. destruct (getGtw _ _); [|done].
      apply rbind_ok in Hw' as (c & _ & Hw'). by injection Hw' as <-.
    + unfold status_send in Hw'. destruct (getGtw _ _); [|done].
      apply rbind_ok in Hw' as (c & _ & Hw'). by injection Hw' as <-.
  - exists (K ∪ new ∪ dom (ttn_gateways (sys_world (br_sys b)))). split; [|by apply Hk].
    cbn. assert (dom (ttn_gateways (sys_world (br_sys b))) ⊆ dom (ttn_gateways w')); [|set_solver].
    intros mac Hm. apply elem_of_dom in Hm as [g Hg].
    destruct (tle_gateways _ _ (ttn_env_le _ _ _ _ Hn) mac g Hg) as (g' & ? & _). apply elem_of_dom. eauto.
Qed.

Lemma take_downlink_ok b j tx w' :
  bridge_ok b → alive b → handover j (sys_world (br_sys b)) = Some (tx, w') →
  sys_downlink (br_sys b) = PRet tt →
  rtc (step network) (br_sys b) (take_downlink (br_sys b) tx w') ∧
  bridge_ok (set_sys b (take_downlink (br_sys b) tx w')).
Proof.
  intros Hok [_ He] Hh Hd. destruct (handover_le _ _ _ _ Hh) as [Hle Htx].
  assert (step network (br_sys b) (set_world (br_sys b) w')) as H1
    by (apply network_step; [done|by eapply te_handover]).
  assert (step network (set_world (br_sys b) w') (take_downlink (br_sys b) tx w')) as H2
    by (by apply step_downlink_start).
  split; [eapply rtc_l; [done|]; by apply rtc_once|].
  apply bridge_ok_sys; try done.
  - eapply sys_ok_step; [|exact H2]. by eapply sys_ok_step; [apply bridge_sys_ok|].
  - eapply handover_ok; [|done]. apply (bok_ttn _ Hok).
  - cbn. by rewrite Htx, (bok_tx _ Hok).
Qed.

(** The uplink loops start publishing goroutines. *)
Lemma turn_ok b s' p :
  bridge_ok b → step network (br_sys b) s' → sys_world s' = sys_world (br_sys b) →
  sys_rx s' = sys_rx (br_sys b) → sys_stats s' = sys_stats (br_sys b) → sys_tx s' = sys_tx (br_sys b) →
  publisher_ok b p → bridge_ok (set_publishers (set_sys b s') (br_publishers b ++ [p])).
Proof.
  intros Hok Hs Hw Hrx Hst Htx Hp.
  assert (bridge_ok (set_sys b s')) as [? ? ? Hps ? ?].
  { apply bridge_ok_sys; rewrite ?Hw, ?Hrx, ?Hst, ?Htx; try done.
    - eapply sys_ok_step; [by apply bridge_sys_ok|done].
    - apply (bok_ttn _ Hok).
    - apply (bok_tx _ Hok). }
  split; try done. apply Forall_app_2; [exact Hps|]. constructor; [|constructor].
  eapply publisher_ok_mono; [..|exact Hp]; cbn; by rewrite ?Hw, ?Hrx, ?Hst.
Qed.

Lemma bridge_step_ok b b' :
  bridge_ok b → bridge_step b b' → rtc (step network) (br_sys b) (br_sys b') ∧ bridge_ok b'.
Proof.
  intros Hok Hs. destruct Hs as [b s' Ha Hs Htx|b w' Ha Ho|b j tx w' Ha Hh Hd|b rx Ha Hrx|b st Ha Hst
    |b i act k w' Ha Hi Hact|b i act k why Ha Hi Hact|b j why Ha Hj|b Find i mac why Ha Hi Hf].
  - split; [|by apply gateway_step_ok; [..|apply Htx]]. apply rtc_once. eapply step_env_mono; [|done]. done.
  - assert (network (sys_world (br_sys b)) w') as Hn by (by apply te_own).
    split; [apply rtc_once, network_step; [apply Ha|done]|]. apply world_step_ok; try done.
    + eapply ttn_own_ok; [apply (bok_ttn _ Hok)|done].
    + by apply ttn_own_tx.
  - by eapply take_downlink_ok.
  - assert (step network (br_sys b) (turn_rx (br_sys b))) as Ht
      by (apply step_rx_loop; [apply Ha|by eapply lookup_lt_Some]).
    split; [by apply rtc_once|]. apply turn_ok; try done. exists ∅. split; [set_solver|].
    apply tsafe_PublishGatewayRX. by eapply list_elem_of_lookup_2.
  - assert (step network (br_sys b) (turn_stats (br_sys b))) as Ht
      by (apply step_stats_loop; [apply Ha|by eapply lookup_lt_Some]).
    split; [by apply rtc_once|]. apply turn_ok; try done. exists ∅. split; [set_solver|].
    apply tsafe_PublishGatewayStats. by eapply list_elem_of_lookup_2.
  - destruct (publisher_step b i act k Hok Hi) as (w2 & Hw2 & Hn & Hw & Htx & Hp).
    rewrite Hact in Hw2. injection Hw2 as <-.
    split; [apply rtc_once, network_step; [apply Ha|done]|].
    destruct (world_step_ok b w' Hok Ha Hn Hw Htx) as [? ? ? Hps ? ?]. split; try done.
    cbn. apply Forall_insert; [|done]. exact Hps.
  - exfalso. destruct (publisher_step b i act k Hok Hi) as (w2 & Hw2 & _). congruence.
  - split; [done|]. destruct Hok as [? ? Hok ? ? ?]. split; try done. intros _.
    exact (consumer_step_ok _ _ _ _ _ Hok Hj).
  - exfalso. pose proof (fetch_conf_no_panic _ _ Find i mac _ (bok_ttn _ Hok) Hi) as Hnp. by rewrite Hf in Hnp.
Qed.
End BridgeSteps.

(** ** What holds in every state of the program *)

Section Program.
Context `{HostZone} `{MathExp}.
Context (h : host) (c : options) (now : Time) (b0 : bridge).
Hypothesis started : start h c now = Ok b0.

Lemma start_ok :
  ∃ w s0, setup h c = Ok w ∧ blank w ∧
    System.NewBackend (host_ResolveUDPAddr h (udp_bind c)) (host_ListenUDP h) onNew onDelete now w
    = Ok s0 ∧ b0 = mkBridge s0 [] None.
Proof.
  unfold start in started. apply rbind_ok in started as (w & Hw & Hs).
  apply rbind_ok in Hs as (s0 & Hs0 & Hb). exists w, s0. split_and!; [done|by eapply setup_blank|done|].
  by apply (inj Ok) in Hb.
Qed.

Lemma start_bridge_ok : bridge_ok b0.
Proof.
  destruct start_ok as (w & s0 & _ & Hblank & Hs0 & ->).
  pose proof (blank_ok (λ rx, rx ∈ @nil RXPacketBytes) (λ st, st ∈ @nil GatewayStatsPacket) w Hblank)
    as [Hok Hsubs].
  assert (sys_ok onNew onDelete ttn_subs s0) as Hsys by (by eapply (sys_ok_init onNew onDelete ttn_subs)).
  unfold System.NewBackend in Hs0. apply rbind_ok in Hs0 as (addr & _ & Hs0).
  apply rbind_ok in Hs0 as (u & _ & Hs0). apply (inj Ok) in Hs0 as <-.
  split; cbn; try done; [by constructor; cbn; auto; intros []|by rewrite (blank_tx _ Hblank)].
Qed.

(** The states of the program are states of the system of [SystemLaws]. *)
Lemma bridge_simulated b :
  bridge_reachable b0 b →
  bridge_ok b ∧ reachable network (br_sys b0) (br_sys b).
Proof.
  intros Hr. induction Hr as [|b b' _ [Hok IH] Hs]; [split; [apply start_bridge_ok|constructor]|].
  destruct (bridge_step_ok b b' Hok Hs) as [Hrtc Hok']. split; [done|]. clear Hs Hok Hok'.
  induction Hrtc as [s|s s1 s2 Hs _ IHs]; [done|]. apply IHs. by eapply reachable_step.
Qed.

(** Of the callbacks only [onDelete] panics, and only while it waits for a stream
    that attempts to subscribe again. *)
Lemma cleanup_panics b why :
  bridge_ok b →
  cleanup_step (sys_clock (br_sys b)) (sys_cleaner (br_sys b)) (sys_registry (br_sys b))
    (sys_world (br_sys b)) = Some (Panic why) →
  why = reuse_panic ∧ ∃ mac rest g s,
    sys_cleaner (br_sys b) = Deleting mac rest ∧ getGtw (sys_world (br_sys b)) mac = Some g ∧
    gtw_downlink g = Some s ∧ (0 < wg_released (ds_setup s))%nat ∧ wg_counter (ds_setup s) = 1%nat.
Proof.
  intros Hok Hs. pose proof (ok_registry _ _ _ _ (bok_sys _ Hok)) as (_ & Hd & _).
  assert (∀ mac rest (a : answer ttn) c, cleanup_deleted mac rest c a = Panic why → a = Panicked why) as Ha.
  { intros mac rest [[e|] w1|w1|p] c'; cbn; intros Hc; by simplify_eq. }
  destruct (sys_cleaner (br_sys b)) as [|[|mac rest]|mac rest|err]; cbn in Hs; try done.
  - rewrite Hd in Hs. destruct (gateways_map _ !! mac); [|done]. destruct (stale _ _); [|done].
    injection Hs as Hs. apply Ha in Hs. pose proof (unsubscribe_call mac (sys_world (br_sys b))) as Hc.
    cbn in Hs. by rewrite Hs in Hc.
  - rewrite Hd in Hs. cbn in Hs. apply bind_Some in Hs as (a & Hr & Hs). injection Hs as Hs. apply Ha in Hs as ->.
    destruct (UnSubscribeGatewayTX_panics _ _ _ _ _ (bok_ttn _ Hok) Hr) as (-> & g & s & ? & ? & ? & ?).
    split; [done|]. by exists mac, rest, g, s.
Qed.

(** The message on a stream of the gateway that a downlink packet was made of. *)
Definition from_router (w : ttn) (tx : TXPacketBytes) : Prop :=
  ∃ i, from_stream w (TXInfo_MAC (TXPacket_TXInfo tx)) i tx.

(** C1: In every reachable state of the program, every datagram on the wire is the
    acknowledgement of a received PUSH_DATA or PULL_DATA, or the PULL_RESP of a
    message the router put on the gateway's stream, addressed to where a PULL_DATA
    of that gateway came from, in its protocol version. *)
Theorem downlink_end_to_end b q :
  bridge_reachable b0 b → q ∈ sys_out (br_sys b) →
  push_ack (hist (br_sys b)) q ∨ pull_ack (hist (br_sys b)) q ∨
  ∃ addr pull tx txpk,
    pulled (hist (br_sys b)) addr pull ∧ udpPacket_addr q = Some addr ∧
    PullDataPacket_GatewayMAC pull = TXInfo_MAC (TXPacket_TXInfo tx) ∧
    from_router (sys_world (br_sys b)) tx ∧ newTXPKFromTXPacket tx = Ok txpk ∧
    PullRespPacket_MarshalBinary
      (mkPullRespPacket (PullDataPacket_ProtocolVersion pull) 0 (mkPullRespPayload txpk))
    = Ok (udpPacket_data q).
Proof.
  intros Hr Hq. destruct (bridge_simulated b Hr) as [Hok _].
  pose proof (ok_out _ _ _ _ (bok_sys _ Hok)) as Hout. rewrite Forall_forall in Hout.
  apply list_elem_of_In in Hq.
  destruct (Hout q Hq) as [?|[?|(addr & pull & tx & txpk & Hp & Htx & Hm & Ha & Hn & Hd)]];
    [by left|by right; left|].
  right. right. exists addr, pull, tx, txpk. split_and!; try done.
  apply (tok_tx _ _ _ (bok_ttn _ Hok)). by rewrite <- (bok_tx _ Hok).
Qed.

(** Every message on a gateway's uplink stream to the router is the conversion of an
    rxpk with a good CRC of a PUSH_DATA the gateway sent. *)
Lemma uplink_end_to_end b mac g m :
  bridge_reachable b0 b → getGtw (sys_world (br_sys b)) mac = Some g →
  m ∈ chan_sent (gtw_uplink g) →
  ∃ t rx addr push r,
    m = convertRXPacket t rx ∧ pushed (hist (br_sys b)) addr push ∧
    PushDataPacket_GatewayMAC push = mac ∧ r ∈ PushDataPayload_RXPK (PushDataPacket_Payload push) ∧
    accepted mac r = Ok rx ∧ RXInfo_CRCStatus (RXPacket_RXInfo rx) = 1.
Proof.
  intros Hr Hg Hm. destruct (bridge_simulated b Hr) as [Hok _].
  pose proof (gok_uplink _ _ _ _ (tok_gateways _ _ _ (bok_ttn _ Hok) mac g Hg)) as Hu.
  rewrite Forall_forall in Hu. apply list_elem_of_In in Hm.
  destruct (Hu m Hm) as (t & rx & Hrx & Hmac & ->).
  pose proof (ok_rx _ _ _ _ (bok_sys _ Hok)) as Hall. rewrite Forall_forall in Hall.
  apply list_elem_of_In in Hrx. destruct (Hall rx Hrx) as (addr & push & r & Hp & Hin & Hacc).
  assert (RXInfo_MAC (RXPacket_RXInfo rx) = PushDataPacket_GatewayMAC push ∧
    RXInfo_CRCStatus (RXPacket_RXInfo rx) = 1) as [Hmac' Hcrc].
  { unfold accepted in Hacc. apply rbind_ok in Hacc as (rx' & Hnew & Hacc).
    destruct (Z.eqb_spec (RXInfo_CRCStatus (RXPacket_RXInfo rx')) 1) as [Hcrc|]; [|done].
    apply (inj Ok) in Hacc as <-. split; [|done].
    unfold newRXPacketFromRXPK in Hnew. apply rbind_ok in Hnew as (dr & _ & Hnew).
    apply rbind_ok in Hnew as (data & _ & Hnew). by apply (inj Ok) in Hnew as <-. }
  exists t, rx, addr, push, r. rewrite <- Hmac, Hmac'. done.
Qed.

(** C9: In every reachable state of the program a gateway is registered if and only
    if The Things Network backend has an unclosed downlink stream for it. *)
Theorem registered_have_open_downlink b mac :
  bridge_reachable b0 b →
  is_Some (gateways_map (sys_registry (br_sys b)) !! mac) ↔
  ∃ g, getGtw (sys_world (br_sys b)) mac = Some g ∧ downlink_open g = true.
Proof.
  intros Hr. destruct (bridge_simulated b Hr) as [Hok _].
  pose proof (ok_registry _ _ _ _ (bok_sys _ Hok)) as (_ & _ & Hdom).
  by rewrite <- elem_of_dom, Hdom, elem_of_ttn_subs.
Qed.

(** C4: Until the deferred ttn.Close the program panics only on a router message
    without gateway configuration or with an unparsable LoRa data rate; after the
    gateway backend's Close was called, on the closed channel or the wait group; or
    in a clean-up woken from its wait for a stream that subscribes again. *)
Theorem program_crashes_explained b :
  bridge_reachable b0 b →
  (br_crash b ≠ None → malformed_delivered (sys_world (br_sys b))) ∧
  ∀ why, sys_exit (br_sys b) = Some (ExPanic why) →
    sys_closed (br_sys b) = true ∧
      (why = "send on closed channel" ∧ sys_chan_closed (br_sys b) = true ∨
       why = reuse_panic ∧ sys_closer (br_sys b) = CWaiting) ∨
    why = reuse_panic ∧ ∃ mac rest g s,
      sys_cleaner (br_sys b) = Deleting mac rest ∧ getGtw (sys_world (br_sys b)) mac = Some g ∧
      gtw_downlink g = Some s ∧ (0 < wg_released (ds_setup s))%nat ∧ wg_counter (ds_setup s) = 1%nat.
Proof.
  intros Hr. destruct (bridge_simulated b Hr) as [Hok _]. split; [apply (bok_crash _ Hok)|].
  intros why He. pose proof (bok_life _ Hok) as Hlife.
  destruct (ok_panic _ _ _ _ (bok_sys _ Hok) why He) as [[-> Hc]|[[-> Hc]|Hc]].
  - left. split; [by apply (lok_chan _ Hlife)|by left].
  - left. split; [|by right]. apply (lok_chan _ Hlife), (lok_conn _ Hlife), (lok_wait _ Hlife). by left.
  - right. by apply cleanup_panics.
Qed.

Lemma stats_of_MAC addr mac stat : Stats_MAC (stats_of addr mac stat) = mac.
Proof. done. Qed.

Lemma chan_ok_buffer {A} (ch : gochan A) :
  chan_ok ch → (length (chan_buffer ch) <= DefaultBufferSize)%nat.
Proof. unfold chan_ok, chan_buffer. rewrite length_drop. lia. Qed.

(** Every status on a gateway's stream is made of the stat of a PUSH_DATA it sent. *)
Lemma status_origin b mac g m :
  bridge_reachable b0 b → getGtw (sys_world (br_sys b)) mac = Some g → m ∈ chan_sent (gtw_status g) →
  ∃ conf w addr push stat,
    pushed (hist (br_sys b)) addr push ∧ PushDataPacket_GatewayMAC push = mac ∧
    PushDataPayload_Stat (PushDataPacket_Payload push) = Some stat ∧
    m = complete_status conf (convertStatsPacket w (stats_of addr mac stat)).
Proof.
  intros Hr Hg Hm. destruct (bridge_simulated b Hr) as [Hok _].
  pose proof (gok_status _ _ _ _ (tok_gateways _ _ _ (bok_ttn _ Hok) mac g Hg)) as Hst.
  rewrite Forall_forall in Hst. apply list_elem_of_In in Hm.
  destruct (Hst m Hm) as (conf & w & st & Hin & Hmac & ->).
  pose proof (ok_stats _ _ _ _ (bok_sys _ Hok)) as Hall. rewrite Forall_forall in Hall.
  apply list_elem_of_In in Hin. destruct (Hall st Hin) as (addr & push & stat & Hp & Hstat & ->).
  rewrite stats_of_MAC in Hmac. subst mac. by exists conf, w, addr, push, stat.
Qed.

End Program.
