(* ===== verification/Unlocking.v ===== *)
(** * The registry's lock is given back

    [Gateways.cleanup] calls [onDelete] with the lock held, and [onDelete] waits for
    the router: every handler and the downlink loop then wait for the lock.  In every
    state of the program the wait can end, and the clean-up with it. *)

From Stdlib Require Import String Ascii NArith ZArith Lia.
From stdpp Require Import relations base gmap list strings numbers.
From S2P Require Import Prelude GoPrim GoSync GoNet Lorawan Payload Registry Convert Backend System.
From S2P Require Import SystemLaws Metrics TtnTypes Ttn TtnLaws TtnSystem TtnInvariant Bridge BridgeLaws.

Local Open Scope string_scope.
Local Open Scope list_scope.

(** ** Who waits for a stream *)

(** The goroutines in [s.setup.Wait()], blocked or released. *)
Definition setup_waits (s : downlinkStream) : nat :=
  wg_waiters (ds_setup s) + wg_released (ds_setup s).

(** Somebody waits for the last stream of the gateway. *)
Definition waited (w : ttn) (mac : EUI64) : Prop :=
  ∃ g s, getGtw w mac = Some g ∧ gtw_downlink g = Some s ∧ 0 < setup_waits s.

Section Waits.
Context `{MathExp}.
Implicit Types (w : ttn) (mac : EUI64) (g : gtw).

Lemma waited_gateways w w' mac : (∀ g, getGtw w mac = Some g → ∃ g', getGtw w' mac = Some g' ∧
    gtw_downlinks g' = gtw_downlinks g) → waited w mac → waited w' mac.
Proof.
  intros Hw (g & s & Hg & Hs & Hn). destruct (Hw g Hg) as (g' & Hg' & E).
  exists g', s. split_and!; [done| |done]. unfold gtw_downlink in *. by rewrite E.
Qed.

Lemma waited_update w mac m f :
  (∀ g, gtw_downlinks (f g) = gtw_downlinks g) → waited w mac → waited (update_gtw m f w) mac.
Proof.
  intros Hf. apply waited_gateways. intros g Hg. rewrite getGtw_update, Hg.
  case_bool_decide; cbn; eauto.
Qed.

Lemma waited_stream w mac m i s s' :
  Ttn.stream w m i = Some s → setup_waits s' = setup_waits s → waited w mac → waited (set_stream m i s' w) mac.
Proof.
  intros Hst E (g & t & Hg & Ht & Hn). unfold Ttn.stream in Hst. unfold set_stream, waited.
  rewrite getGtw_update, Hg. case_bool_decide as Hm; [|by exists g, t]. subst m. rewrite Hg in Hst.
  cbn in Hst. unfold gtw_downlink in *. exists (set_downlinks (<[i := s']> (gtw_downlinks g)) g).
  destruct (decide (i = pred (length (gtw_downlinks g)))) as [->|Hne].
  - exists s'. split; [done|]. cbn. rewrite length_insert. rewrite Ht in Hst. injection Hst as <-.
    rewrite list_lookup_insert_eq by (by apply lookup_lt_Some in Ht). by rewrite E.
  - exists t. split; [done|]. cbn. rewrite length_insert. by rewrite list_lookup_insert_ne by done.
Qed.

Lemma waited_new w mac m : waited w mac → waited (newGtw m w) mac.
Proof. apply waited_gateways. intros g Hg. rewrite getGtw_newGtw, Hg. eauto. Qed.

Lemma waited_consumer j w w' mac : consumer_step j w = Some (Ok w') → waited w mac → waited w' mac.
Proof.
  unfold consumer_step. intros Hs Hw. apply bind_Some in Hs as ([m c] & Hj & Hs).
  destruct c as [|i|i tx|]; try done.
  - apply bind_Some in Hs as (g & Hg & Hs). destruct (gtw_downlink g); [|done]. by injection Hs as <-.
  - apply bind_Some in Hs as (s & Hst & Hs). destruct (chan_receive (ds_chan s)) as [[x ch]|].
    + injection Hs as Hs. apply rbind_ok in Hs as (p & _ & Hs). injection Hs as <-.
      assert (waited (set_stream m i (set_ds_chan ch s) w) mac) by (by eapply waited_stream).
      by destruct p.
    + destruct (chan_closed _); [|done]. by injection Hs as <-.
Qed.

Lemma waited_own w w' mac : ttn_own w w' → waited w mac → waited w' mac.
Proof.
  intros Hs Hw. destruct Hs as [w|Find i m w w' Hi Hf|m i s x w Hs Hd|m i s w Hs Hc Ho
    |m i s y c w Hs Hd Hc Ho|m i s c w Hs Hd Ho|m g y c w Hg Hr|m g y c w Hg Hr|j w w' Hj].
  - revert Hw. apply waited_gateways. intros g Hg. unfold getGtw, tick in *. cbn.
    rewrite lookup_fmap, Hg. cbn. eauto.
  - change (waited w' mac). unfold fetch_conf in Hf. destruct (ttn_gateways w !! m); [|done].
    destruct (ttn_accountServer w); [|done]. destruct (Find _ _) as [e|st]; [by injection Hf as <-|].
    destruct (Gateway_Token st); injection Hf as <-; by apply waited_update.
  - eapply waited_stream; [done| |done]. unfold setup_waits. cbn.
    destruct (wg_counter (ds_setup s)) as [|n] eqn:En; [unfold wg_Done in Hd; by rewrite En in Hd|].
    destruct (wg_Done_counted _ _ En) as (x' & Hx & _ & E & _). congruence.
  - by eapply waited_stream.
  - by eapply waited_stream.
  - by eapply waited_stream.
  - by apply waited_update.
  - by apply waited_update.
  - by eapply waited_consumer.
Qed.

Lemma waited_publish P Q K act new now w w' mac :
  pub_act P Q K act new → act now w = Ok w' → waited w mac → waited w' mac.
Proof.
  intros [|m|m|rx _ _|st _ _] Hact Hw.
  - by injection Hact as <-.
  - apply (inj Ok) in Hact as <-. by apply waited_new.
  - apply (inj Ok) in Hact as <-. unfold rate_update. by apply waited_update.
  - unfold uplink_send in Hact. destruct (getGtw w _); [|done].
    apply rbind_ok in Hact as (c & _ & Hact). injection Hact as <-. by apply waited_update.
  - unfold status_send in Hact. destruct (getGtw w _); [|done].
    apply rbind_ok in Hact as (c & _ & Hact). injection Hact as <-. by apply waited_update.
Qed.

(** A call of [UnSubscribeGatewayTX] that waits, waits for that stream. *)
Lemma waited_call mac w w' : UnSubscribeGatewayTX_call mac w = Waits w' → waited w' mac.
Proof.
  unfold UnSubscribeGatewayTX_call. destruct (getGtw w mac) as [g|] eqn:Eg; [|done].
  destruct (gtw_downlink g) as [s|] eqn:Es; [|done]. unfold downlink_Close.
  unfold wg_Wait. destruct (wg_counter (ds_setup s)) as [|n] eqn:En; [done|]. intros [= <-].
  unfold waited, set_stream. rewrite getGtw_update, Eg, bool_decide_true by done. eexists _, _.
  split; [done|]. split.
  - unfold gtw_downlink in *. cbn. rewrite length_insert. apply list_lookup_insert_eq.
    by apply lookup_lt_Some in Es.
  - unfold setup_waits. cbn. lia.
Qed.
End Waits.

(** ** The clean-up that waits *)

Section Unlocking.
Context `{HostZone} `{MathExp}.
Implicit Types (b : bridge).

Definition lock_waits b : Prop :=
  ∀ mac rest, sys_cleaner (br_sys b) = Deleting mac rest → waited (sys_world (br_sys b)) mac.

(** Without the lock a step can only take it. *)
Lemma step_unlocked (s s' : system ttn) :
  cleaning (sys_cleaner s) = false → step (λ _ _, False) s s' →
  sys_cleaner s' = sys_cleaner s ∨ ∃ order, sys_cleaner s' = Ranging order.
Proof.
  intros Hc Hs. destruct Hs; try (by left); try (by right; eexists).
  - left. unfold goroutine_failed. by case_match.
  - left. by destruct (wg_Done _).
  - left. match goal with Hl : local _ _ _ _ |- _ => by destruct Hl end.
  - left. match goal with Hl : local _ _ _ _ |- _ => by destruct Hl end.
  - left. unfold goroutine_failed. by case_match.
  - left. unfold goroutine_failed. by case_match.
  - left. by destruct (wg_Done _).
  - destruct (sys_cleaner s); done.
  - left. by destruct r.
Qed.

(** The clean-up starts to wait in [onDelete]. *)
Lemma cleanup_waits now cl (c : gateways ttn) w mac rest c' w' :
  gateways_onDelete c = Some onDelete →
  cleanup_step now cl c w = Some (Ok (Deleting mac rest, c', w')) → waited w' mac.
Proof.
  intros Hd Hs. destruct cl as [|[|m l]|m l|err]; cbn in Hs; try done.
  - rewrite Hd in Hs. destruct (gateways_map c !! m); [|done]. destruct (stale now g); [|done].
    injection Hs as Hs. cbn in Hs.
    destruct (UnSubscribeGatewayTX_call m w) as [[e|] w1|w1|why] eqn:E; cbn in Hs; simplify_eq.
    by eapply waited_call.
  - rewrite Hd in Hs. cbn in Hs. apply bind_Some in Hs as (a & Ha & Hs). injection Hs as Hs.
    apply unsubscribe_woken in Ha. by destruct a as [[e|] w1|w1|why]; cbn in Hs; simplify_eq.
Qed.

Lemma lock_waits_step b b' : bridge_ok b → lock_waits b → bridge_step b b' → lock_waits b'.
Proof.
  intros Hok Hl Hs. destruct Hs as [b s' Ha Hs Htx|b w' Ha Ho|b j tx w' Ha Hh Hd|b rx Ha Hrx|b st Ha Hst
    |b i act k w' Ha Hi Hact|b i act k why Ha Hi Hact|b j why Ha Hj|b Find i mac why Ha Hi Hf]; try done.
  - intros mac rest Hd. cbn in Hd |- *.
    destruct (cleaning (sys_cleaner (br_sys b))) eqn:Ec.
    + destruct (step_locked _ _ _ (conj Ec Hs)) as [_ [(Er & E & Hw)|(cl & c & w & Er & E & Ew & Hcl)]].
      * rewrite E in Hd. destruct Hw as [->|[]]. by eapply Hl.
      * rewrite E in Hd. subst. eapply cleanup_waits; [|exact Hcl]. apply (ok_registry _ _ _ _ (bok_sys _ Hok)).
    + destruct (step_unlocked _ _ Ec Hs) as [E|[order E]]; rewrite E in Hd; [by rewrite Hd in Ec|done].
  - intros mac rest Hd. eapply waited_own; [exact Ho|]. by eapply Hl.
  - intros mac rest Hc. specialize (Hl mac rest Hc). unfold handover in Hh.
    apply bind_Some in Hh as ([m c] & _ & Hh). by destruct c; simplify_eq.
  - intros mac rest Hc. specialize (Hl mac rest Hc).
    pose proof (bok_publishers _ Hok) as Hp. rewrite Forall_lookup in Hp.
    destruct (Hp i _ Hi) as (K & HK & new & Hpa & _). by eapply waited_publish.
Qed.

(** *** It can end *)

Definition waits_ok b : Prop := bridge_ok b ∧ lock_waits b.

Lemma waits_ok_run b b' : waits_ok b → rtc bridge_step b b' → waits_ok b'.
Proof.
  apply rtc_preserved. intros b1 b2 [Hok Hl] Hs. split; [by eapply bridge_step_ok|by eapply lock_waits_step].
Qed.

(** Only the clean-up and the network act: the other goroutines stay where they
    are. *)
Definition others_same b b' : Prop :=
  sys_handlers (br_sys b') = sys_handlers (br_sys b) ∧ sys_downlink (br_sys b') = sys_downlink (br_sys b) ∧
  sys_out (br_sys b') = sys_out (br_sys b) ∧ br_publishers b' = br_publishers b.

#[local] Instance others_same_preorder : PreOrder others_same.
Proof. split; [done|]. intros a b c (?&?&?&?) (?&?&?&?). split_and!; congruence. Qed.

Lemma cleanup_runs b cl c w :
  alive b → cleanup_step (sys_clock (br_sys b)) (sys_cleaner (br_sys b)) (sys_registry (br_sys b))
    (sys_world (br_sys b)) = Some (Ok (cl, c, w)) →
  ∃ b', bridge_step b b' ∧ alive b' ∧ others_same b b' ∧ sys_cleaner (br_sys b') = cl.
Proof.
  intros Ha Hs. exists (set_sys b (set_cleaner (set_registry (br_sys b) c w) cl)). split; [|done].
  apply bs_gateway; [done| |done]. by apply (step_cleanup _ _ (Ok (cl, c, w))); [apply Ha|].
Qed.

(** The attempt ends: who waits for it is released. *)
Lemma attempt_ends b mac :
  bridge_ok b → alive b → waited (sys_world (br_sys b)) mac →
  ∃ b', rtc bridge_step b b' ∧ alive b' ∧ others_same b b' ∧
    sys_cleaner (br_sys b') = sys_cleaner (br_sys b) ∧
    ∃ w', UnSubscribeGatewayTX_woken mac (sys_world (br_sys b')) = Some (Returned None w').
Proof.
  intros Hok Ha (g & s & Hg & Hs & Hn).
  destruct (gok_downlinks _ _ _ _ (tok_gateways _ _ _ (bok_ttn _ Hok) mac g Hg) _ s Hs) as [[] Hb].
  - destruct (wg_turn_Done _ Hb) as (x & Hx & Hz & Hw). unfold wg_turn in Hb.
    assert (0 < wg_released x) as Hrel.
    { destruct (wg_Done_counted _ _ Hb) as (x' & Hx' & _ & E & _). unfold setup_waits in Hn.
      assert (x' = x) as -> by congruence. lia. }
    set (w' := set_stream mac (pred (length (gtw_downlinks g))) (set_ds_setup x s) (sys_world (br_sys b))).
    exists (set_sys b (set_world (br_sys b) w')). split; [|split_and!; try done].
    + apply rtc_once, bs_ttn; [done|]. eapply to_attempted; [|exact Hx]. unfold Ttn.stream. by rewrite Hg.
    + cbn. unfold UnSubscribeGatewayTX_woken, w', set_stream. rewrite getGtw_update, Hg, bool_decide_true by done.
      cbn. unfold gtw_downlink in *. cbn. rewrite length_insert, list_lookup_insert_eq by (by apply lookup_lt_Some in Hs).
      cbn. unfold downlink_Close_woken, wg_wake. cbn. destruct (wg_released x) eqn:Er; [lia|]. rewrite Hz, Hw. cbn. eauto.
  - destruct Hb as [Hz Hw]. exists b. split; [done|]. split_and!; try done.
    unfold UnSubscribeGatewayTX_woken. rewrite Hg. cbn. rewrite Hs. cbn.
    unfold downlink_Close_woken, wg_wake. unfold setup_waits in Hn. destruct (wg_released _) eqn:Er; [lia|].
    rewrite Hz, Hw. cbn. eauto.
Qed.

(** What is left of a clean-up. *)
Definition left_to_clean (cl : cleaner) : nat :=
  match cl with
  | Ranging l => 2 * length l + 1
  | Deleting _ l => 2 * length l + 2
  | Asleep | Cleaned _ => 0
  end.

Lemma cleanup_goes_on b :
  waits_ok b → alive b → cleaning (sys_cleaner (br_sys b)) = true →
  ∃ b', rtc bridge_step b b' ∧ alive b' ∧ others_same b b' ∧
    left_to_clean (sys_cleaner (br_sys b')) < left_to_clean (sys_cleaner (br_sys b)).
Proof.
  intros [Hok Hl] Ha Hc. pose proof (ok_registry _ _ _ _ (bok_sys _ Hok)) as (_ & Hd & _).
  destruct (sys_cleaner (br_sys b)) as [|[|mac rest]|mac rest|err] eqn:Ecl; try done.
  - destruct (cleanup_runs b (Cleaned None) (sys_registry (br_sys b)) (sys_world (br_sys b)) Ha)
      as (b' & Hs & Ha' & Ho & E); [by rewrite Ecl|]. exists b'. rewrite E. cbn.
    split_and!; [by apply rtc_once|done..|lia].
  - assert (∃ cl c w, cleanup_step (sys_clock (br_sys b)) (sys_cleaner (br_sys b)) (sys_registry (br_sys b))
        (sys_world (br_sys b)) = Some (Ok (cl, c, w)) ∧ left_to_clean cl <= 2 * length rest + 2)
      as (cl & c & w & Hs & Hle).
    { rewrite Ecl. cbn. rewrite Hd. destruct (gateways_map _ !! mac) as [gw|];
        [|do 3 eexists; split; [reflexivity|cbn; lia]].
      destruct (stale _ gw); [|do 3 eexists; split; [reflexivity|cbn; lia]].
      pose proof (unsubscribe_call mac (sys_world (br_sys b))) as Hu. cbn.
      destruct (UnSubscribeGatewayTX_call mac _) as [[e|] w1|w1|why]; try done;
        do 3 eexists; (split; [reflexivity|cbn; lia]). }
    destruct (cleanup_runs b cl c w Ha Hs) as (b' & Hs' & Ha' & Ho & E).
    exists b'. rewrite E. split_and!; [by apply rtc_once|done..|cbn; lia].
  - destruct (attempt_ends b mac Hok Ha) as (b1 & Hr & Ha1 & Ho1 & E1 & w1 & Hw); [by eapply Hl|].
    destruct (waits_ok_run b b1 (conj Hok Hl) Hr) as [Hok1 _].
    pose proof (ok_registry _ _ _ _ (bok_sys _ Hok1)) as (_ & Hd1 & _).
    destruct (cleanup_runs b1 (Ranging rest)
      (with_map (sys_registry (br_sys b1)) (delete mac (gateways_map (sys_registry (br_sys b1))))) w1 Ha1)
      as (b2 & Hs & Ha2 & Ho2 & E2).
    { rewrite E1, Ecl. cbn. rewrite Hd1. cbn. rewrite Hw. done. }
    exists b2. rewrite E2. split_and!; [by eapply rtc_r|done|by etrans|cbn; lia].
Qed.

Lemma cleanup_can_end n b :
  left_to_clean (sys_cleaner (br_sys b)) <= n → waits_ok b → alive b →
  ∃ b', rtc bridge_step b b' ∧ alive b' ∧ others_same b b' ∧ cleaning (sys_cleaner (br_sys b')) = false.
Proof.
  revert b. induction n as [|n IH]; intros b Hn Hok Ha.
  - exists b. split_and!; try done. destruct (sys_cleaner (br_sys b)); cbn in Hn; done || lia.
  - destruct (cleaning (sys_cleaner (br_sys b))) eqn:Ec; [|by exists b].
    destruct (cleanup_goes_on b Hok Ha Ec) as (b1 & Hr & Ha1 & Ho & Hlt).
    destruct (IH b1) as (b2 & Hr2 & Ha2 & Ho2 & Hc2); [lia|by eapply waits_ok_run|done|].
    exists b2. split_and!; [by etrans|done|by etrans|done].
Qed.

Section Program.
Context (h : host) (c : options) (now : Time) (b0 : bridge).
Hypothesis started : start h c now = Ok b0.

Lemma reachable_waits_ok b : bridge_reachable b0 b → waits_ok b.
Proof.
  intros Hr. split; [by eapply bridge_simulated|].
  assert (bridge_ok b ∧ lock_waits b) as [_ Hl]; [|done].
  induction Hr as [|b b' Hr [Hok IH] Hs].
  - split; [by eapply start_bridge_ok|]. destruct (start_ok h c now b0 started) as (w & s0 & _ & _ & Hs & ->).
    unfold System.NewBackend in Hs. apply rbind_ok in Hs as (a & _ & Hs).
    apply rbind_ok in Hs as (u & _ & Hs). apply (inj Ok) in Hs as <-. done.
  - split; [by eapply bridge_step_ok|by eapply lock_waits_step].
Qed.

(** C10: Until the deferred ttn.Close, in every reachable state in which a clean-up
    holds the registry's lock, waiting for the router or not, it can give it back by
    steps of its own and of the network backend alone, without a panic: no handler,
    downlink loop, publisher or write has to move. *)
Theorem registry_lock_released b :
  bridge_reachable b0 b → alive b →
  ∃ b', rtc bridge_step b b' ∧ alive b' ∧ cleaning (sys_cleaner (br_sys b')) = false ∧
    sys_handlers (br_sys b') = sys_handlers (br_sys b) ∧
    sys_downlink (br_sys b') = sys_downlink (br_sys b) ∧ sys_out (br_sys b') = sys_out (br_sys b) ∧
    br_publishers b' = br_publishers b.
Proof.
  intros Hr Ha.
  destruct (cleanup_can_end _ b (le_n _) (reachable_waits_ok b Hr) Ha) as (b' & Hr' & Ha' & Ho & Hc).
  exists b'. split_and!; try done; apply Ho.
Qed.
End Program.
End Unlocking.
