(* ===== verification/Wired.v ===== *)
(** * The program with its router streams

    [Bridge] sees a router stream as a buffered channel.  Here each gateway of
    the running program gets the uplink and the status stream of [Streams], which
    share their channel with it: what reaches the router, session by session, is
    what gateways sent. *)

From Stdlib Require Import String Ascii NArith ZArith Lia.
From stdpp Require Import base gmap list strings numbers relations functions.
From S2P Require Import Prelude GoPrim GoFloat Lorawan GoJsonTyped Payload Structs GoNet Registry.
From S2P Require Import Convert Backend BackendLaws System SystemLaws Metrics GoDuration TtnTypes.
From S2P Require Import Streams Ttn TtnLaws TtnSystem TtnInvariant StreamRuns Bridge BridgeLaws.

Local Open Scope string_scope.
Local Open Scope list_scope.

(** ** The program and the goroutines of its streams *)

Section Wired.
Context `{HostZone} `{MathExp}.
Implicit Types (w : ttn) (mac : EUI64) (g : gtw) (b : bridge).

(** The streams of the gateways.  Their field [st_chan] is the channel of the
    gateway: it is read there.  A gateway that does not exist yet has the stream
    it will be made with. *)
Record wired : Type := mkWired {
  wi_bridge : bridge;
  wi_uplinks : EUI64 → Streams.stream (A := UplinkMessage);
  wi_statuses : EUI64 → Streams.stream (A := Status)
}.

Definition wi_world (x : wired) : ttn := sys_world (br_sys (wi_bridge x)).

Definition wired_start b0 : wired := mkWired b0 (λ _, stream_new) (λ _, stream_new).

Definition taken_of {A} (get : gtw → gochan A) w mac : nat :=
  match getGtw w mac with Some g => chan_taken (get g) | None => 0 end.

(** Nothing was taken from the streams. *)
Definition untouched w w' : Prop :=
  ∀ mac g, getGtw w' mac = Some g →
    chan_taken (gtw_uplink g) = taken_of gtw_uplink w mac ∧
    chan_taken (gtw_status g) = taken_of gtw_status w mac.

Definition set_w b w : bridge := set_sys b (set_world (br_sys b) w).

(** A step of the program other than taking from a stream, or a step of a
    stream's goroutines. *)
Inductive wired_step : wired → wired → Prop :=
| wt_bridge x b' :
    bridge_step (wi_bridge x) b' → untouched (wi_world x) (sys_world (br_sys b')) →
    wired_step x (mkWired b' (wi_uplinks x) (wi_statuses x))
| wt_uplink x mac g u :
    alive (wi_bridge x) → getGtw (wi_world x) mac = Some g →
    stream_own (set_chan (gtw_uplink g) (wi_uplinks x mac)) u →
    wired_step x
      (mkWired (set_w (wi_bridge x) (update_gtw mac (set_uplink (st_chan u)) (wi_world x)))
         (<[mac := u]> (wi_uplinks x)) (wi_statuses x))
| wt_status x mac g u :
    alive (wi_bridge x) → getGtw (wi_world x) mac = Some g →
    stream_own (set_chan (gtw_status g) (wi_statuses x mac)) u →
    wired_step x
      (mkWired (set_w (wi_bridge x) (update_gtw mac (set_status (st_chan u)) (wi_world x)))
         (wi_uplinks x) (<[mac := u]> (wi_statuses x))).

(** ** It refines the program *)

Lemma set_w_id b : set_w b (sys_world (br_sys b)) = b.
Proof. by destruct b as [[]]. Qed.

Lemma wired_step_bridge x x' : wired_step x x' → rtc bridge_step (wi_bridge x) (wi_bridge x').
Proof.
  intros [? b' Hs _|? mac g u Ha Hg Hu|? mac g u Ha Hg Hu]; cbn; [by apply rtc_once|..];
    (destruct (stream_own_chan _ _ Hu) as [E|[m Hm]]; cbn in *;
      [rewrite update_gtw_id; [by rewrite set_w_id|]; intros g' Hg'; assert (g' = g) as -> by congruence; rewrite E; by destruct g
      |apply rtc_once, bs_ttn; [done|]]).
  - by eapply to_uplink_session.
  - by eapply to_status_session.
Qed.

Lemma wired_bridge b0 x :
  rtc wired_step (wired_start b0) x → bridge_reachable b0 (wi_bridge x).
Proof.
  apply (rtc_preserved _ (λ x, bridge_reachable b0 (wi_bridge x))); [|apply br_init].
  intros x1 x2 Hx Hs. eapply (rtc_preserved _ (bridge_reachable b0)); [|exact Hx|by apply wired_step_bridge].
  intros b b'. apply br_step.
Qed.

(** ** The streams are in order *)

(** Each gateway's stream, with the gateway's channel, is in order. *)
Definition served {A} (get : gtw → gochan A) w (us : EUI64 → Streams.stream (A := A)) : Prop :=
  ∀ mac, match getGtw w mac with
         | Some g => stream_ok (set_chan (get g) (us mac))
         | None => us mac = stream_new
         end.

Lemma stream_ok_chan {A} (u : Streams.stream (A := A)) c c' :
  stream_ok (set_chan c u) → chan_ok c' → chan_sent c `prefix_of` chan_sent c' →
  chan_taken c' = chan_taken c → chan_closed c' = chan_closed c → stream_ok (set_chan c' u).
Proof.
  intros [Hc Hm Hx Hu Hg Hcl] Hc' [l Hl] Ht Hclo. split; try done; [|cbn in *; congruence].
  unfold taken in *. cbn in *. rewrite Ht, Hl, take_app_le; [done|]. unfold chan_ok in Hc. lia.
Qed.

Lemma stream_new_chan {A} (c : gochan A) :
  chan_ok c → chan_taken c = 0 → chan_closed c = false → stream_ok (set_chan c stream_new).
Proof.
  intros Hc Ht Hcl. split; try done. unfold taken. cbn. by rewrite Ht.
Qed.

(** A step that only adds to the channels. *)
Lemma served_grow {A} (get : gtw → gochan A) w w' us :
  served get w us →
  (∀ mac g, getGtw w mac = Some g → chan_closed (get g) = false ∧
    ∃ g', getGtw w' mac = Some g' ∧ chan_sent (get g) `prefix_of` chan_sent (get g')) →
  (∀ mac g', getGtw w' mac = Some g' →
    chan_ok (get g') ∧ chan_closed (get g') = false ∧ chan_taken (get g') = taken_of get w mac) →
  served get w' us.
Proof.
  intros Hs Hle Hok mac. specialize (Hs mac). specialize (Hok mac). unfold taken_of in Hok.
  destruct (getGtw w mac) as [g|] eqn:Eg.
  - destruct (Hle mac g Eg) as (Hcl & g' & Hg' & Hpre). rewrite Hg'.
    destruct (Hok g' Hg') as (? & ? & ?). eapply stream_ok_chan; try done. congruence.
  - destruct (getGtw w' mac) as [g'|]; [|done]. destruct (Hok g' eq_refl) as (? & ? & ?).
    rewrite Hs. by apply stream_new_chan.
Qed.

Lemma stream_own_ok {A} (s s' : Streams.stream (A := A)) : stream_ok s → stream_own s s' → stream_ok s'.
Proof.
  intros Hok [Hs|(i & x & x' & Hat & Hs & ->)].
  - destruct (monitor_step_ok _ _ Hok Hs) as (? & [= <-] & ?). done.
  - apply session_step_messages in Hs as [??]. by eapply stream_ok_session.
Qed.

Lemma set_chan_eta {A} (s : Streams.stream (A := A)) : set_chan (st_chan s) s = s.
Proof. by destruct s. Qed.

(** A step of the goroutines of one stream. *)
Lemma served_own {A} (get : gtw → gochan A) (set : gochan A → gtw → gtw) w mac g us u :
  (∀ c g, get (set c g) = c) → served get w us → getGtw w mac = Some g →
  stream_own (set_chan (get g) (us mac)) u →
  served get (update_gtw mac (set (st_chan u)) w) (<[mac := u]> us).
Proof.
  intros Hgs Hs Hg Hu m. rewrite getGtw_update. specialize (Hs m). case_bool_decide as Hm.
  - subst m. rewrite Hg in Hs |- *. cbn. rewrite fn_lookup_insert, Hgs, set_chan_eta.
    by eapply stream_own_ok.
  - rewrite fn_lookup_insert_ne by done. done.
Qed.

(** The other streams do not notice. *)
Lemma served_other {A} (get : gtw → gochan A) f w mac us :
  (∀ g, get (f g) = get g) → served get w us → served get (update_gtw mac f w) us.
Proof.
  intros Hf Hs m. rewrite getGtw_update. specialize (Hs m).
  case_bool_decide; [|done]. destruct (getGtw w m); [|done]. cbn. by rewrite Hf.
Qed.

Definition wired_ok x : Prop :=
  served gtw_uplink (wi_world x) (wi_uplinks x) ∧ served gtw_status (wi_world x) (wi_statuses x).

(** A step of the program lets the gateways grow. *)
Lemma bridge_step_le b b' :
  bridge_ok b → bridge_step b b' → ttn_le (sys_world (br_sys b)) (sys_world (br_sys b')).
Proof.
  intros Hok Hs. destruct Hs as [b s' Ha Hs Htx|b w' Ha Ho|b j tx w' Ha Hh Hd|b rx Ha Hrx|b st Ha Hst
    |b i act k w' Ha Hi Hact|b i act k why Ha Hi Hact|b j why Ha Hj|b Find i mac why Ha Hi Hf]; try done.
  - pose proof (ok_registry _ _ _ _ (bok_sys _ Hok)) as (Hn & Hd & _).
    apply (step_world (ttn_le (sys_world (br_sys b))) onNew onDelete (br_sys b)); try done.
    + intros mac w Hw. etrans; [exact Hw|apply subscribe_le].
    + intros mac w a Ha' Hw. eapply unsubscribe_leaves; [exact Ha'|]. intros w' Hu.
      etrans; [exact Hw|by eapply unsubscribed_le].
  - by apply ttn_own_le.
  - by apply handover_le in Hh as [Hle _].
  - destruct (publisher_step b i act k Hok Hi) as (w2 & Hw2 & Hn & _). rewrite Hact in Hw2.
    injection Hw2 as <-. by eapply ttn_env_le.
Qed.

Lemma wired_step_ok x x' :
  bridge_ok (wi_bridge x) → bridge_ok (wi_bridge x') → wired_ok x → wired_step x x' → wired_ok x'.
Proof.
  intros Hb Hb' [Hu Hst] Hs. destruct Hs as [x b' Hs Hun|x mac g u Ha Hg Ho|x mac g u Ha Hg Ho].
  - pose proof (bridge_step_le _ _ Hb Hs) as Hle. cbn in Hb'.
    pose proof (tok_gateways _ _ _ (bok_ttn _ Hb)) as Hg. pose proof (tok_gateways _ _ _ (bok_ttn _ Hb')) as Hg'.
    split; (eapply served_grow; [done|intros mac g Em|intros mac g' Em]).
    + destruct (tle_gateways _ _ Hle mac g Em) as (g' & ? & []). split; [by apply (Hg mac)|eauto].
    + destruct (Hg' mac g' Em). by destruct (Hun mac g' Em).
    + destruct (tle_gateways _ _ Hle mac g Em) as (g' & ? & []). split; [by apply (Hg mac)|eauto].
    + destruct (Hg' mac g' Em). by destruct (Hun mac g' Em).
  - split; [by eapply served_own|by apply served_other].
  - split; [by apply served_other|by eapply served_own].
Qed.

(** ** No step of the program is left out *)

(** A gateway whose streams were not read. *)
Definition unread (g g' : gtw) : Prop :=
  chan_taken (gtw_uplink g') = chan_taken (gtw_uplink g) ∧
  chan_taken (gtw_status g') = chan_taken (gtw_status g).

Lemma untouched_gateways w w' fs cs tx : untouched w w' → untouched w (set_goroutines w' fs cs tx).
Proof. done. Qed.

Lemma untouched_update w w' mac f :
  untouched w w' → (∀ g, getGtw w' mac = Some g → unread g (f g)) → untouched w (update_gtw mac f w').
Proof.
  intros Hw Hf m g. rewrite getGtw_update. case_bool_decide as Hm; [|apply Hw]. subst m.
  destruct (getGtw w' mac) as [g'|] eqn:E; [|done]. cbn. intros [= <-].
  destruct (Hf g' eq_refl) as [-> ->]. by apply Hw.
Qed.

Lemma untouched_refl w : untouched w w.
Proof. intros mac g Hg. unfold taken_of. by rewrite Hg. Qed.

Lemma untouched_none w w' mac :
  untouched w w' → getGtw w' mac = None →
  (∀ g, getGtw w mac = Some g → ∃ g', getGtw w' mac = Some g') →
  taken_of gtw_uplink w mac = 0 ∧ taken_of gtw_status w mac = 0.
Proof.
  intros _ Hn Hle. unfold taken_of. destruct (getGtw w mac) as [g|]; [|done].
  destruct (Hle g eq_refl) as (g' & ?). congruence.
Qed.

Lemma untouched_new w w' mac :
  ttn_le w w' → untouched w w' → untouched w (newGtw mac w').
Proof.
  intros [Hle _] Hw m g. rewrite getGtw_newGtw. destruct (getGtw w' m) as [g'|] eqn:E.
  - intros [= <-]. by apply Hw.
  - case_bool_decide; [|done]. intros [= <-]. subst.
    destruct (untouched_none w w' mac Hw E) as [-> ->]; [|done].
    intros g Hg. destruct (Hle mac g Hg) as (g' & ? & _). eauto.
Qed.

Lemma untouched_subscribe w w' mac :
  ttn_le w w' → untouched w w' → untouched w (SubscribeGatewayTX mac w').2.
Proof.
  intros Hle Hw. unfold SubscribeGatewayTX. apply untouched_gateways, untouched_update; [|by intros g _].
  unfold ensure_gtw. destruct (getGtw w' mac); [done|by apply untouched_new].
Qed.

Lemma untouched_unsubscribe w w' w2 mac :
  untouched w w' → unsubscribed mac w' w2 → untouched w w2.
Proof.
  intros Hw [->|(g & s & s' & _ & _ & -> & _)]; [done|]. by apply untouched_update.
Qed.

Lemma untouched_send w w' now act new K P Q :
  pub_act P Q K act new → act now w = Ok w' → untouched w w'.
Proof.
  intros [|mac|mac|rx _ _|st _ _] Hact.
  - injection Hact as <-. apply untouched_refl.
  - apply (inj Ok) in Hact as <-. apply untouched_new; [reflexivity|apply untouched_refl].
  - apply (inj Ok) in Hact as <-. unfold rate_update. apply untouched_update; [apply untouched_refl|].
    intros g _. split; reflexivity.
  - unfold uplink_send in Hact. destruct (getGtw w _) as [g|] eqn:Eg; [|done].
    apply rbind_ok in Hact as (c & Hc & Hact). injection Hact as <-.
    apply chan_offer_prefix in Hc as (_ & _ & Ht & _).
    apply untouched_update; [apply untouched_refl|]. intros g' Hg'. by simplify_eq.
  - unfold status_send in Hact. destruct (getGtw w _) as [g|] eqn:Eg; [|done].
    apply rbind_ok in Hact as (c & Hc & Hact). injection Hact as <-.
    apply chan_offer_prefix in Hc as (_ & _ & Ht & _).
    apply untouched_update; [apply untouched_refl|]. intros g' Hg'. by simplify_eq.
Qed.

(** A stream is read. *)
Definition read w w' : Prop :=
  ∃ mac g, getGtw w mac = Some g ∧
    ((∃ m c, chan_receive (gtw_uplink g) = Some (m, c) ∧ w' = update_gtw mac (set_uplink c) w) ∨
     (∃ m c, chan_receive (gtw_status g) = Some (m, c) ∧ w' = update_gtw mac (set_status c) w)).

Lemma untouched_consumer j w w' : consumer_step j w = Some (Ok w') → untouched w w'.
Proof.
  unfold consumer_step. intros Hs. apply bind_Some in Hs as ([mac c] & Hj & Hs).
  destruct c as [|i|i tx|]; try done.
  - apply bind_Some in Hs as (g & Hg & Hs). destruct (gtw_downlink g); [|done].
    injection Hs as <-. apply untouched_gateways, untouched_refl.
  - apply bind_Some in Hs as (s & Hst & Hs).
    destruct (chan_receive (ds_chan s)) as [[m ch]|].
    + injection Hs as Hs. apply rbind_ok in Hs as (p & _ & Hs). injection Hs as <-.
      destruct p; [apply untouched_gateways|]; (apply untouched_update; [apply untouched_refl|done]).
    + destruct (chan_closed (ds_chan s)); [|done]. injection Hs as <-.
      apply untouched_gateways, untouched_refl.
Qed.

Lemma untouched_own w w' : ttn_own w w' → untouched w w' ∨ read w w'.
Proof.
  intros Hs. destruct Hs as [w|Find i mac w w' Hi Hf|mac i s g w Hs Hd|mac i s w Hs Hc Ho
    |mac i s m c w Hs Hd Hc Ho|mac i s c w Hs Hd Ho|mac g m c w Hg Hr|mac g m c w Hg Hr|j w w' Hj].
  - left. intros mac g. unfold getGtw, tick, taken_of, getGtw. cbn. rewrite lookup_fmap.
    intros Hg. apply fmap_Some in Hg as (g0 & Hg & ->). by rewrite Hg.
  - left. apply untouched_gateways. unfold fetch_conf in Hf.
    destruct (ttn_gateways w !! mac); [|done]. destruct (ttn_accountServer w); [|done].
    destruct (Find _ _) as [e|st]; [injection Hf as <-; apply untouched_refl|].
    destruct (Gateway_Token st); injection Hf as <-;
      (apply untouched_update; [apply untouched_refl|done]).
  - left. apply untouched_update; [apply untouched_refl|done].
  - left. apply untouched_update; [apply untouched_refl|done].
  - left. apply untouched_update; [apply untouched_refl|done].
  - left. apply untouched_update; [apply untouched_refl|done].
  - right. exists mac, g. split; [done|]. left. eauto.
  - right. exists mac, g. split; [done|]. right. eauto.
  - left. by eapply untouched_consumer.
Qed.

(** A step of the program reads one stream, or none. *)
Lemma bridge_step_reads b b' :
  bridge_ok b → bridge_step b b' →
  untouched (sys_world (br_sys b)) (sys_world (br_sys b')) ∨
  ∃ w', b' = set_w b w' ∧ read (sys_world (br_sys b)) w'.
Proof.
  intros Hok Hs. destruct Hs as [b s' Ha Hs Htx|b w' Ha Ho|b j tx w' Ha Hh Hd|b rx Ha Hrx|b st Ha Hst
    |b i act k w' Ha Hi Hact|b i act k why Ha Hi Hact|b j why Ha Hj|b Find i mac why Ha Hi Hf];
    try (left; apply untouched_refl).
  - left. pose proof (ok_registry _ _ _ _ (bok_sys _ Hok)) as (Hn & Hd & _).
    apply (step_world (λ w, ttn_le (sys_world (br_sys b)) w ∧ untouched (sys_world (br_sys b)) w)
      onNew onDelete (br_sys b)); try done.
    + intros mac w [Hle Hw]. split; [etrans; [exact Hle|apply subscribe_le]|by apply untouched_subscribe].
    + intros mac w a Ha' [Hle Hw]. eapply unsubscribe_leaves; [exact Ha'|]. intros w' Hu.
      split; [etrans; [exact Hle|by eapply unsubscribed_le]|by eapply untouched_unsubscribe].
    + split; [done|apply untouched_refl].
  - destruct (untouched_own _ _ Ho) as [|Hr]; [by left|]. right. by exists w'.
  - left. unfold handover in Hh. apply bind_Some in Hh as ([mac c] & _ & Hh).
    destruct c; try done. injection Hh as <- <-. apply untouched_gateways, untouched_gateways, untouched_refl.
  - left. pose proof (bok_publishers _ Hok) as Hp. rewrite Forall_lookup in Hp.
    destruct (Hp i _ Hi) as (K & HK & new & Hpa & _). by eapply untouched_send.
Qed.
End Wired.

(** ** From the gateways to the router *)

Section EndToEnd.
Context `{HostZone} `{MathExp}.
Context (h : host) (c : options) (now : Time) (b0 : bridge).
Hypothesis started : start h c now = Ok b0.

(** A message for the router about a frame of a gateway, and about its statistics. *)
Definition frame_message (s : system ttn) (mac : EUI64) (m : UplinkMessage) : Prop :=
  ∃ t rx addr push r,
    m = convertRXPacket t rx ∧ pushed (hist s) addr push ∧
    PushDataPacket_GatewayMAC push = mac ∧ r ∈ PushDataPayload_RXPK (PushDataPacket_Payload push) ∧
    accepted mac r = Ok rx ∧ RXInfo_CRCStatus (RXPacket_RXInfo rx) = 1%Z.
Definition status_message (s : system ttn) (mac : EUI64) (m : Status) : Prop :=
  ∃ conf w addr push stat,
    pushed (hist s) addr push ∧ PushDataPacket_GatewayMAC push = mac ∧
    PushDataPayload_Stat (PushDataPacket_Payload push) = Some stat ∧
    m = complete_status conf (convertStatsPacket w (stats_of addr mac stat)).

Lemma wired_start_ok : wired_ok (wired_start b0).
Proof.
  destruct (start_ok h c now b0 started) as (w & s0 & _ & Hblank & Hs0 & ->).
  unfold System.NewBackend in Hs0. apply rbind_ok in Hs0 as (addr & _ & Hs0).
  apply rbind_ok in Hs0 as (u & _ & Hs0). apply (inj Ok) in Hs0 as <-.
  split; intros mac; unfold wi_world, getGtw; cbn; by rewrite (blank_gateways _ Hblank), lookup_empty.
Qed.

Lemma wired_reachable_ok x :
  rtc wired_step (wired_start b0) x →
  bridge_reachable b0 (wi_bridge x) ∧ bridge_ok (wi_bridge x) ∧ wired_ok x.
Proof.
  intros Hr. assert (bridge_reachable b0 (wi_bridge x) ∧ wired_ok x) as [Hb Hw].
  { revert Hr. apply (rtc_preserved _ (λ x, bridge_reachable b0 (wi_bridge x) ∧ wired_ok x));
      [|split; [apply br_init|apply wired_start_ok]].
    intros x1 x2 [Hb Hw] Hs.
    assert (bridge_reachable b0 (wi_bridge x2)) as Hb2.
    { eapply (rtc_preserved _ (bridge_reachable b0)); [|exact Hb|by apply wired_step_bridge].
      intros b b'. apply br_step. }
    split; [done|]. eapply wired_step_ok; [| |exact Hw|exact Hs]; by eapply bridge_simulated. }
  split_and!; [done| |done]. by eapply bridge_simulated.
Qed.

(** What a stream's sessions were given is on the stream's channel. *)
Lemma served_sent {A} (get : gtw → gochan A) w us mac s m :
  served get w us → s ∈ st_sessions (us mac) → m ∈ ss_wire s →
  ∃ g, getGtw w mac = Some g ∧ m ∈ chan_sent (get g).
Proof.
  intros Hs Hin Hm. specialize (Hs mac). destruct (getGtw w mac) as [g|].
  - exists g. split; [done|]. destruct Hs as [_ Hmsg _ _ _ _]. unfold taken in Hmsg. cbn in Hmsg.
    rewrite <- (take_drop (chan_taken (get g)) (chan_sent (get g))). apply elem_of_app. left.
    rewrite Hmsg. apply elem_of_app. left. unfold delivered. cbn. apply list_elem_of_In, in_concat.
    exists (session_messages s). split; [by apply list_elem_of_In, list_elem_of_fmap_2|].
    apply list_elem_of_In, elem_of_app. by left.
  - rewrite Hs in Hin. by apply not_elem_of_nil in Hin.
Qed.

(** C2: In every state of the program with its streams' goroutines, every message
    the router got in any session is, in order, the conversion of an rxpk with a
    good CRC of a PUSH_DATA of the gateway, and every status is made of the stat of
    one. *)
Theorem wire_end_to_end x mac :
  rtc wired_step (wired_start b0) x →
  (∀ s m, s ∈ st_sessions (wi_uplinks x mac) → m ∈ ss_wire s →
    frame_message (br_sys (wi_bridge x)) mac m) ∧
  (∀ s m, s ∈ st_sessions (wi_statuses x mac) → m ∈ ss_wire s →
    status_message (br_sys (wi_bridge x)) mac m) ∧
  (∀ g, getGtw (wi_world x) mac = Some g →
    chan_sent (gtw_uplink g) =
      concat (session_messages <$> st_sessions (wi_uplinks x mac)) ++
      forwarding (wi_uplinks x mac) ++ chan_buffer (gtw_uplink g)).
Proof.
  intros Hr. destruct (wired_reachable_ok x Hr) as (Hb & _ & Hu & Hst). split_and!.
  - intros s m Hs Hm. destruct (served_sent _ _ _ _ _ _ Hu Hs Hm) as (g & Hg & Hin).
    by eapply uplink_end_to_end.
  - intros s m Hs Hm. destruct (served_sent _ _ _ _ _ _ Hst Hs Hm) as (g & Hg & Hin).
    by eapply status_origin.
  - intros g Hg. specialize (Hu mac). rewrite Hg in Hu. destruct Hu as [_ Hmsg _ _ _ _].
    rewrite app_assoc. unfold taken, delivered, forwarding in *. cbn in *. rewrite <- Hmsg.
    symmetry. apply take_drop.
Qed.

(** The program with its streams does what the program does: its states are states
    of the program, and a step of the program that is not a step of a stream's
    goroutines is a step of it. *)
Theorem wired_program x :
  rtc wired_step (wired_start b0) x →
  bridge_reachable b0 (wi_bridge x) ∧
  ∀ b', bridge_step (wi_bridge x) b' →
    (∃ x', wired_step x x' ∧ wi_bridge x' = b') ∨
    ∃ w', b' = set_w (wi_bridge x) w' ∧ read (wi_world x) w'.
Proof.
  intros Hr. destruct (wired_reachable_ok x Hr) as (Hb & Hok & _). split; [done|].
  intros b' Hs. destruct (bridge_step_reads _ _ Hok Hs) as [Hun|]; [left|by right].
  eexists. split; [by eapply wt_bridge|done].
Qed.
End EndToEnd.
