(* ===== verification/BridgeRuns.v ===== *)
(** * Concrete runs of the bridge

    An executable scheduler for the steps of [Bridge], runs of the program from
    a gateway's datagrams to the router's streams and back, and the theorems on
    The Things Network backend and on the program at concrete inputs. *)

From Stdlib Require Import String Ascii NArith ZArith Lia SpecFloat.
From stdpp Require Import base gmap list strings numbers relations.
From S2P Require Import Prelude GoPrim GoStrconv GoTime GoFloat GoFloatText GoFloatRound GoNet.
From S2P Require Import Lorawan GoJsonTyped GoJsonLaws Payload PayloadLaws Structs Registry.
From S2P Require Import Convert Backend BackendLaws System SystemLaws SystemRuns Metrics.
From S2P Require Import GoDuration TtnTypes Ttn TtnLaws TtnSystem TtnInvariant Bridge.
From S2P Require Import GoSync Typing BridgeLaws Unlocking.

Local Open Scope string_scope.
Local Open Scope list_scope.
Local Open Scope Z_scope.

(** ** The scheduler *)

Inductive baction : Type :=
| BGateway (a : action)
| BTick
| BAttempted (mac : EUI64) (i : nat)
| BAgain (mac : EUI64) (i : nat)
| BDeliver (mac : EUI64) (i : nat) (m : DownlinkMessage)
| BConsumer (j : nat)
| BTake (j : nat)
| BRx
| BStats
| BPublish (i : nat).

Section Scheduler.
Context `{HostZone} `{MathExp}.

Definition is_alive (b : bridge) : bool :=
  match br_crash b, sys_exit (br_sys b) with None, None => true | _, _ => false end.

#[local] Instance no_loop_dec s s' : Decision (no_loop s s').
Proof. unfold no_loop. apply _. Defined.

Definition run_baction (b : bridge) (a : baction) : option bridge :=
  let w := sys_world (br_sys b) in
  if is_alive b then
    match a with
    | BGateway a =>
        s' ← run_action (br_sys b) a;
        if decide (no_loop (br_sys b) s') then Some (set_sys b s') else None
    | BTick => Some (set_sys b (set_world (br_sys b) (tick w)))
    | BAttempted mac i =>
        s ← stream w mac i;
        match wg_Done (ds_setup s) with
        | Ok x => Some (set_sys b (set_world (br_sys b) (set_stream mac i (set_ds_setup x s) w)))
        | _ => None
        end
    | BAgain mac i =>
        s ← stream w mac i;
        if chan_closed (ds_chan s) || negb (wg_counter (ds_setup s) =? 0)%nat then None else
        Some (set_sys b (set_world (br_sys b)
          (set_stream mac i (set_ds_setup (wg_Add (ds_setup s)) s) w)))
    | BDeliver mac i m =>
        s ← stream w mac i;
        if chan_closed (ds_chan s) || negb (wg_counter (ds_setup s) =? 0)%nat then None else
        match chan_offer m (ds_chan s) with
        | Ok c => Some (set_sys b (set_world (br_sys b) (set_stream mac i (set_ds_chan c s) w)))
        | _ => None
        end
    | BConsumer j =>
        match consumer_step j w with
        | Some (Ok w') => Some (set_sys b (set_world (br_sys b) w'))
        | Some (Panic why) => Some (crash b why)
        | _ => None
        end
    | BTake j =>
        '(tx, w') ← handover j w;
        match sys_downlink (br_sys b) with
        | PRet tt => Some (set_sys b (take_downlink (br_sys b) tx w'))
        | _ => None
        end
    | BRx =>
        rx ← sys_rx (br_sys b) !! sys_rx_taken (br_sys b);
        Some (set_publishers (set_sys b (turn_rx (br_sys b))) (br_publishers b ++ [publish_rx rx]))
    | BStats =>
        st ← sys_stats (br_sys b) !! sys_stats_taken (br_sys b);
        Some (set_publishers (set_sys b (turn_stats (br_sys b))) (br_publishers b ++ [publish_stats st]))
    | BPublish i =>
        match br_publishers b !! i with
        | Some (TStep act k) =>
            match act (sys_clock (br_sys b)) w with
            | Ok w' => Some (set_publishers (set_sys b (set_world (br_sys b) w'))
                         (<[i := k w]> (br_publishers b)))
            | Panic why => Some (crash b why)
            | Err _ => None
            end
        | _ => None
        end
    end
  else None.

Fixpoint run_bactions (b : bridge) (l : list baction) : option bridge :=
  match l with
  | [] => Some b
  | a :: l => b' ← run_baction b a; run_bactions b' l
  end.

Lemma is_alive_spec b : is_alive b = true → alive b.
Proof. unfold is_alive. intros Ha. by repeat case_match. Qed.

Lemma stream_ready s n :
  chan_closed (ds_chan s) || negb (wg_counter (ds_setup s) =? n)%nat = false →
  chan_closed (ds_chan s) = false ∧ wg_counter (ds_setup s) = n.
Proof. intros [Hc Hn%negb_false_iff%Nat.eqb_eq]%orb_false_iff. done. Qed.

Lemma run_baction_step b a b' : run_baction b a = Some b' → bridge_step b b'.
Proof.
  unfold run_baction. destruct (is_alive b) eqn:Ha; [|done]. apply is_alive_spec in Ha.
  intros Hr. destruct a as [a| |mac i|mac i|mac i m|j|j| | |i].
  - apply bind_Some in Hr as (s' & Hs & Hr). case_decide; simplify_eq.
    apply bs_gateway; [done|by eapply run_action_step|done].
  - injection Hr as <-. apply bs_ttn; [done|]. apply to_tick.
  - apply bind_Some in Hr as (s & Hs & Hr). destruct (wg_Done (ds_setup s)) as [x| |] eqn:Ed; [|done..].
    injection Hr as <-. apply bs_ttn; [done|]. by eapply to_attempted.
  - apply bind_Some in Hr as (s & Hs & Hr). destruct (_ || _) eqn:Ec; [done|].
    apply stream_ready in Ec as [??]. injection Hr as <-. apply bs_ttn; [done|]. by apply to_again.
  - apply bind_Some in Hr as (s & Hs & Hr). destruct (_ || _) eqn:Ec; [done|].
    apply stream_ready in Ec as [??]. destruct (chan_offer m (ds_chan s)) as [c| |] eqn:Eo; simplify_eq.
    apply bs_ttn; [done|]. by eapply to_deliver.
  - destruct (consumer_step j _) as [[w'| |why]|] eqn:Ec; simplify_eq.
    + apply bs_ttn; [done|]. by eapply to_consumer.
    + by eapply bs_consumer_panic.
  - apply bind_Some in Hr as ([tx w'] & Hh & Hr).
    destruct (sys_downlink (br_sys b)) as [[]| | | | | | | |] eqn:Ed; simplify_eq.
    by eapply bs_downlink.
  - apply bind_Some in Hr as (rx & Hx & Hr). injection Hr as <-. by apply bs_rx.
  - apply bind_Some in Hr as (st & Hx & Hr). injection Hr as <-. by apply bs_stats.
  - destruct (br_publishers b !! i) as [[|act k]|] eqn:Ep; try done.
    destruct (act _ _) as [w'| |why] eqn:Ea; simplify_eq; [by eapply bs_publish|by eapply bs_publish_panic].
Qed.

Lemma run_bactions_reachable b0 b l b' :
  bridge_reachable b0 b → run_bactions b l = Some b' → bridge_reachable b0 b'.
Proof.
  revert b. induction l as [|a l IH]; intros b Hb Hr; simpl in Hr; [by simplify_eq|].
  apply bind_Some in Hr as (b1 & Ha & Hr). apply (IH b1); [|done].
  eapply br_step; [done|]. by apply run_baction_step in Ha.
Qed.
End Scheduler.

(** ** A program and its network *)

#[local] Existing Instance utc_host.

(** [exp(-1/12)], to two decimals. *)
Definition demo_exp : MathExp := λ _, dec 92 (-2).
#[local] Existing Instance demo_exp.

Definition demo_host : host :=
  mkHost (λ _, Ok []) (Ok "bridge") (Ok "host") (λ _ _, Ok tt) (λ _ _, Ok "router:1901") (λ _, Ok tt)
    (λ _ _, inr account_Gateway_zero) (λ _, Ok demo_addr) (λ _, Ok tt).

Definition demo_options : options :=
  mkOptions (udp_bind default_options) (ttn_account_server default_options) "" ""
    (ttn_discovery_server default_options) "" (ttn_router default_options)
    (EUI64_String demo_mac) "my-gateway" "my-key" "" "demo-bridge" "eu" 25 4.

Definition demo_bridge : bridge :=
  match start demo_host demo_options 1364746877000000000 with
  | Ok b => b
  | _ => mkBridge (mkSystem (mkGateways ∅ None None) (mkTtn None f64_zero ∅ ∅ Status_zero [] [] [])
           0 Asleep [] (PRet tt) WGone SGone wg_zero CIdle true true true None [] [] [] [] [] 0 0) [] None
  end.

Lemma demo_bridge_started : start demo_host demo_options 1364746877000000000 = Ok demo_bridge.
Proof.
  assert (is_ok (start demo_host demo_options 1364746877000000000) = true) as Hok
    by (vm_compute; reflexivity).
  unfold demo_bridge. by destruct (start _ _ _).
Qed.

Definition demo_lora : LorawanMetadata := mkLorawanMetadata Modulation_LORA "SF7BW125" 0 "4/5".
Definition demo_config : TxConfiguration := mkTxConfiguration 1000000 0 868100000 14 true 0.
Definition demo_message : DownlinkMessage :=
  mkDownlinkMessage (map byte_of_Z [1; 2; 3; 4]) (Some demo_lora) (Some demo_config).

Definition repeated (n : nat) (a : baction) : list baction := replicate n a.

(** The gateway pulls; the router sends a message; a PULL_RESP goes out. *)
Definition demo_down : list baction :=
  [BGateway AStartReader; BGateway AStartSender; BGateway (AReceive demo_addr demo_pull)] ++ repeated 4 (BGateway (AHandler 0))
  ++ [BGateway AWrite; BConsumer 0; BAttempted demo_mac 0; BDeliver demo_mac 0 demo_message; BConsumer 0; BTake 0]
  ++ repeated 2 (BGateway ADownlinkStep) ++ [BGateway AWrite].

(** The gateway pushes a frame and statistics; both reach the router's streams. *)
Definition demo_up : list baction :=
  demo_down ++ [BGateway (AReceive demo_addr sample_push_data)]
  ++ repeated 10 (BGateway (AHandler 1)) ++ [BRx; BStats]
  ++ repeated 4 (BPublish 0) ++ repeated 2 (BPublish 1).

(** A LoRa message whose data rate the bridge cannot parse. *)
Definition demo_crash : list baction :=
  [BGateway AStartReader; BGateway AStartSender; BGateway (AReceive demo_addr demo_pull)]
  ++ repeated 4 (BGateway (AHandler 0))
  ++ [BConsumer 0; BAttempted demo_mac 0; BDeliver demo_mac 0
        (mkDownlinkMessage [] (Some (mkLorawanMetadata Modulation_LORA "" 0 "4/5")) (Some demo_config));
      BConsumer 0].

(** The gateway goes silent during an attempt to subscribe: the clean-up waits for
    the attempt.  When the router refuses it, the clean-up can be woken during the
    next one. *)
Definition demo_wait : list baction :=
  [BGateway AStartReader; BGateway AStartSender; BGateway (AReceive demo_addr demo_pull)]
  ++ repeated 4 (BGateway (AHandler 0))
  ++ [BGateway (AClock 1364747000000000000); BGateway (ACleanupLock [demo_mac]); BGateway ACleanup;
      BGateway (AReceive demo_addr demo_pull); BGateway (AHandler 1)].
Definition demo_reuse : list baction :=
  demo_wait ++ [BAttempted demo_mac 0; BAgain demo_mac 0; BGateway ACleanup].

Definition bridge_check (l : list baction) (f : bridge → bool) : bool :=
  match run_bactions demo_bridge l with Some b => f b | None => false end.

Lemma bridge_check_reachable l f :
  bridge_check l f = true → ∃ b, bridge_reachable demo_bridge b ∧ f b = true.
Proof.
  unfold bridge_check. destruct (run_bactions demo_bridge l) as [b|] eqn:E; [|done].
  intros Hf. exists b. split; [|done]. eapply run_bactions_reachable; [apply br_init|exact E].
Qed.

Definition sent_types (b : bridge) : list (option UDPAddr * result PacketType) :=
  map (λ p, (udpPacket_addr p, GetPacketType (udpPacket_data p))) (sys_out (br_sys b)).

Definition uplinks (b : bridge) (mac : EUI64) : list UplinkMessage :=
  match getGtw (sys_world (br_sys b)) mac with Some g => chan_sent (gtw_uplink g) | None => [] end.

Definition statuses (b : bridge) (mac : EUI64) : list Status :=
  match getGtw (sys_world (br_sys b)) mac with Some g => chan_sent (gtw_status g) | None => [] end.

Example demo_down_sent :
  bridge_check demo_down (λ b,
    bool_decide (sent_types b = [(Some demo_addr, Ok PullACK); (Some demo_addr, Ok PullResp)])) = true.
Proof. vm_compute. reflexivity. Qed.

Example demo_up_sent :
  bridge_check demo_up (λ b,
    bool_decide (map Uplink_Payload (uplinks b demo_mac) = [map byte_of_Z [1; 2; 3; 4]])
    && bool_decide (map Status_Region (statuses b demo_mac) = ["eu"])
    && bool_decide (map (λ s, Rx_Frequency (Uplink_GatewayMetadata s)) (uplinks b demo_mac)
                    = [868100000])) = true.
Proof. vm_compute. reflexivity. Qed.

Example demo_crash_crashes :
  bridge_check demo_crash (λ b, bool_decide (br_crash b = Some nil_pointer)) = true.
Proof. vm_compute. reflexivity. Qed.

(** ** The theorems on the network backend *)

Definition demo_ttn : ttn := SetRxRateLimit (f64_of_Z 10) (mkTtn None f64_zero ∅ ∅ Status_zero [] [] []).

Definition demo_rx : RXPacketBytes :=
  mkRXPacketBytes (mkRXInfo demo_mac 1364746877528002000 3512348611 868100000 2 0 1 "4/6" (-35)
    (dec 51 (-1)) 4 (mkDataRate LoRaModulation 7 125 0)) (map byte_of_Z [1; 2; 3; 4]).

Lemma demo_config_wf : TxConfiguration_wf demo_config.
Proof. by split; cbn; try lia. Qed.

Lemma demo_lora_rate : lora_rate demo_lora (mkDataRate LoRaModulation 7 125 0).
Proof. left. split; [done|]. exists 7, 125. split; [vm_compute|]; reflexivity. Qed.

Lemma downlink_packet_spec_witness :
  ∃ tx, downlink_packet demo_mac demo_message = Ok (Some tx) ∧ TXPacket_wf tx ∧
    TXInfo_Frequency (TXPacket_TXInfo tx) = 868100000.
Proof.
  destruct (downlink_packet_spec demo_mac demo_message demo_lora demo_config _
    eq_refl eq_refl demo_config_wf demo_lora_rate) as (tx & H1 & H2 & _ & _ & _ & H3 & _);
    [vm_compute; reflexivity|].
  exists tx. split; [exact H1|]. split; [exact H2|exact H3].
Defined.

(** Fifty-one packets before the first tick of the meter. *)
Definition busy_gtw : gtw :=
  mkGtw "g" None (mkRouterClient "g" "token" false) chan_make chan_make []
    (EWMA_Tick (EWMA_marks 51 NewEWMA1)).

Lemma rate_limit_is_per_second_witness : rate_exceeded demo_ttn busy_gtw = true.
Proof.
  rewrite (rate_limit_is_per_second demo_ttn busy_gtw 51); [reflexivity|reflexivity|lia|reflexivity].
Defined.

Lemma PublishGatewayRX_spec_witness :
  ∃ w, trun 1364746877000000000 (PublishGatewayRX demo_mac demo_rx) demo_ttn = Ok (None, w).
Proof.
  destruct (PublishGatewayRX_spec 1364746877000000000 demo_mac demo_rx demo_ttn) as (up & Hrun & _);
    [vm_compute; reflexivity|].
  eexists. exact Hrun.
Defined.

(** A registration with a position and a brand. *)
Definition demo_settings : account_Gateway :=
  mkAccountGateway None (Some (mkLocation (dec 49 (-1)) (dec 5237 (-2)))) (dec 12 0)
    (mkGatewayAttributes (Some "Kerlink") (Some "iBTS") (Some "roof")).

Definition demo_stats : GatewayStatsPacket :=
  mkGatewayStatsPacket demo_mac 1389514350000000000 f64_zero f64_zero f64_zero 2 2 0 ∅.

Lemma status_sent_spec_witness :
  let s := complete_status (Some (mkGtwConf "g" "" "" demo_settings))
             (convertStatsPacket demo_ttn demo_stats) in
  Status_Description s = "roof" ∧ Status_Platform s = "Kerlink iBTS" ∧ Status_RxIn s = 2.
Proof.
  destruct (status_sent_spec demo_ttn (Some (mkGtwConf "g" "" "" demo_settings)) demo_stats eq_refl)
    as (_ & Hd & Hp & _ & _ & _ & Hr & _).
  split; [rewrite Hd; reflexivity|]. split; [rewrite Hp; reflexivity|]. apply Hr. cbn. lia.
Defined.

Lemma AddGateway_spec_witness :
  ∃ w' settings, AddGateway (λ _ _, inr demo_settings) (EUI64_String demo_mac) "g" "k" "" demo_ttn
            = Ok (None, w') ∧
    ttn_gatewayConf w' = <[demo_mac := mkGtwConf "g" "k" (effective_token "" settings) settings]>
                           (ttn_gatewayConf demo_ttn).
Proof.
  destruct (AddGateway (λ _ _, inr demo_settings) (EUI64_String demo_mac) "g" "k" "" demo_ttn)
    as [[[e|] w']| |] eqn:E; try (exfalso; vm_compute in E; discriminate).
  pose proof (AddGateway_spec _ demo_mac "g" "k" "" demo_ttn None w' E) as [(settings & Hc & _) _].
  exists w', settings. split; [reflexivity|exact Hc].
Defined.

(** The account server answers according to the credentials. *)
Definition keyed_account (a : Account) (_ : string) : error + account_Gateway :=
  if bool_decide (Account_auth a = AuthPublic) then inr demo_settings else inl (ErrMsg "forbidden").

Definition other_mac : EUI64 := mkEUI64 "009" "009" "009" "009" "009" "009" "009" "009".

Definition account_ttn : ttn := SetAccount "https://account" "" "" demo_ttn.

Lemma AddGateway_credentials_stay_witness :
  ∃ w', AddGateway (λ _ _, inr demo_settings) (EUI64_String demo_mac) "g" "k" "" account_ttn
        = Ok (None, w') ∧
    fetch_conf keyed_account other_mac (newGtw other_mac w')
    = fetch_conf (λ _ _, inl (ErrMsg "forbidden")) other_mac (newGtw other_mac w').
Proof.
  assert (∃ w', AddGateway (λ _ _, inr demo_settings) (EUI64_String demo_mac) "g" "k" "" account_ttn
    = Ok (None, w')) as [w' Hadd] by (eexists; reflexivity).
  assert (getGtw w' other_mac = None ∧ ttn_gatewayConf w' !! other_mac = None) as [Hg Hc].
  { apply (inj Ok) in Hadd. apply (inj2 pair) in Hadd as [_ <-]. split; vm_compute; reflexivity. }
  assert ("k" ≠ "" ∨ "" ≠ "") as Hcred by (left; discriminate).
  assert (ttn_accountServer account_ttn = Some (account_New "https://account")) as Hacc by reflexivity.
  exists w'. split; [exact Hadd|].
  destruct (AddGateway_credentials_stay _ _ _ _ _ _ _ _ _ other_mac Hacc Hcred Hadd Hg Hc) as [_ Hf].
  apply Hf. unfold keyed_account. rewrite bool_decide_false by discriminate. reflexivity.
Defined.

Lemma gateways_survive_witness :
  ∃ g, getGtw (tick (newGtw demo_mac demo_ttn)) demo_mac = Some g ∧
    gtw_id g = "eui-0102030405060708".
Proof.
  destruct (getGtw (newGtw demo_mac demo_ttn) demo_mac) as [g|] eqn:E;
    [|exfalso; vm_compute in E; discriminate].
  assert (gtw_id g = "eui-0102030405060708") as Hid.
  { assert (gtw_id <$> getGtw (newGtw demo_mac demo_ttn) demo_mac = Some "eui-0102030405060708") as Hi
      by (vm_compute; reflexivity). rewrite E in Hi. by injection Hi. }
  destruct (gateways_survive (λ _, True) (λ _, True) _ (tick (newGtw demo_mac demo_ttn)) demo_mac g
    (rtc_once _ _ (ts_env _ _ _ _ (te_own _ _ _ _ (to_tick _)))) E) as (g' & Hg' & Hi & _).
  exists g'. split; [exact Hg'|]. by rewrite Hi.
Defined.

(** ** The theorems on types *)

Lemma decoded_packets_typed_witness :
  ∃ q, PushDataPacket_UnmarshalBinary sample_push_data PushDataPacket_zero = Ok q ∧
    PushDataPacket_typed q.
Proof.
  assert (is_ok (PushDataPacket_UnmarshalBinary sample_push_data PushDataPacket_zero) = true) as Hok
    by (vm_compute; reflexivity).
  destruct (PushDataPacket_UnmarshalBinary sample_push_data PushDataPacket_zero) as [q| |] eqn:E;
    [|discriminate..].
  exists q. split; [reflexivity|].
  apply (proj1 (decoded_packets_typed sample_push_data) PushDataPacket_zero); [|exact E].
  split; [apply List.Forall_nil|exact I].
Defined.

Lemma downlinks_typed_witness :
  ∃ tx, downlink_packet demo_mac demo_message = Ok (Some tx) ∧ TXPacket_typed tx.
Proof.
  eexists. split; [vm_compute; reflexivity|].
  eapply (downlinks_typed demo_mac demo_message); [|vm_compute; reflexivity].
  split; intros ? [= <-]; repeat split; reflexivity.
Defined.

Lemma published_packets_typed_witness :
  ∃ s, reachable quiet demo_start s ∧ length (sys_rx s) = 1%nat ∧
    Forall (λ rx, rx_ok (hist s) rx ∧ RXInfo_CRCStatus (RXPacket_RXInfo rx) = 1 ∧ RXPacket_typed rx)
      (sys_rx s).
Proof.
  destruct (demo_check_reachable demo_uplink (λ s, bool_decide (length (sys_rx s) = 1%nat)))
    as (s & Hs & Hl); [vm_compute; reflexivity|]. apply bool_decide_eq_true_1 in Hl.
  exists s. split; [done|]. split; [done|].
  apply (published_packets_typed set_onNew set_onDelete id quiet quiet_subs _ _ _ _ _ s
    eq_refl demo_started Hs).
Defined.

(** ** The theorems on the program *)


Lemma downlink_end_to_end_witness :
  ∃ b q, bridge_reachable demo_bridge b ∧ sys_out (br_sys b) !! 1%nat = Some q ∧
    GetPacketType (udpPacket_data q) = Ok PullResp ∧
    (push_ack (hist (br_sys b)) q ∨ pull_ack (hist (br_sys b)) q ∨
     ∃ addr pull tx txpk,
       pulled (hist (br_sys b)) addr pull ∧ udpPacket_addr q = Some addr ∧
       PullDataPacket_GatewayMAC pull = TXInfo_MAC (TXPacket_TXInfo tx) ∧
       from_router (sys_world (br_sys b)) tx ∧ newTXPKFromTXPacket tx = Ok txpk ∧
       PullRespPacket_MarshalBinary
         (mkPullRespPacket (PullDataPacket_ProtocolVersion pull) 0 (mkPullRespPayload txpk))
       = Ok (udpPacket_data q)).
Proof.
  destruct (bridge_check_reachable demo_down (λ b,
    match sys_out (br_sys b) !! 1%nat with
    | Some q => bool_decide (GetPacketType (udpPacket_data q) = Ok PullResp)
    | None => false
    end)) as (b & Hb & Hq); [vm_compute; reflexivity|].
  destruct (sys_out (br_sys b) !! 1%nat) as [q|] eqn:Eq; [|discriminate].
  exists b, q. split; [exact Hb|]. split; [exact Eq|]. split; [by apply bool_decide_eq_true_1 in Hq|].
  apply (downlink_end_to_end demo_host demo_options _ _ demo_bridge_started b q Hb).
  by apply list_elem_of_lookup_2 in Eq.
Defined.

Lemma uplink_end_to_end_witness :
  ∃ b m, bridge_reachable demo_bridge b ∧ m ∈ uplinks b demo_mac ∧
    ∃ t rx, m = convertRXPacket t rx ∧ RXInfo_CRCStatus (RXPacket_RXInfo rx) = 1.
Proof.
  destruct (bridge_check_reachable demo_up (λ b,
    match getGtw (sys_world (br_sys b)) demo_mac with
    | Some g => match chan_sent (gtw_uplink g) with _ :: _ => true | [] => false end
    | None => false
    end)) as (b & Hb & Hq); [vm_compute; reflexivity|].
  destruct (getGtw (sys_world (br_sys b)) demo_mac) as [g|] eqn:Eg; [|discriminate].
  destruct (chan_sent (gtw_uplink g)) as [|m l] eqn:Em; [discriminate|].
  exists b, m. split; [exact Hb|]. split; [unfold uplinks; rewrite Eg, Em; by left|].
  destruct (uplink_end_to_end demo_host demo_options _ _ demo_bridge_started b demo_mac g m Hb Eg)
    as (t & rx & _ & _ & _ & Hm & _ & _ & _ & _ & Hcrc); [rewrite Em; by left|].
  exists t, rx. split; [exact Hm|exact Hcrc].
Defined.

Lemma registered_have_open_downlink_witness :
  ∃ b g, bridge_reachable demo_bridge b ∧ getGtw (sys_world (br_sys b)) demo_mac = Some g ∧
    downlink_open g = true.
Proof.
  destruct (bridge_check_reachable demo_down (λ b,
    match gateways_map (sys_registry (br_sys b)) !! demo_mac with Some _ => true | None => false end))
    as (b & Hb & Hq); [vm_compute; reflexivity|].
  destruct (gateways_map (sys_registry (br_sys b)) !! demo_mac) as [gw|] eqn:Eg; [|discriminate].
  destruct (proj1 (registered_have_open_downlink demo_host demo_options _ _ demo_bridge_started b
    demo_mac Hb)) as (g & Hg & Ho); [by exists gw|].
  exists b, g. split; [exact Hb|]. split; [exact Hg|exact Ho].
Defined.

Lemma program_crashes_explained_witness :
  (∃ b, bridge_reachable demo_bridge b ∧ br_crash b = Some nil_pointer ∧
    malformed_delivered (sys_world (br_sys b))) ∧
  ∃ b, bridge_reachable demo_bridge b ∧ sys_exit (br_sys b) = Some (ExPanic reuse_panic) ∧
    sys_closed (br_sys b) = false ∧ ∃ mac rest, sys_cleaner (br_sys b) = Deleting mac rest.
Proof.
  split.
  - destruct (bridge_check_reachable demo_crash (λ b, bool_decide (br_crash b = Some nil_pointer)))
      as (b & Hb & Hq); [vm_compute; reflexivity|]. apply bool_decide_eq_true_1 in Hq.
    exists b. split; [exact Hb|]. split; [exact Hq|].
    apply (program_crashes_explained demo_host demo_options _ _ demo_bridge_started b Hb).
    rewrite Hq. discriminate.
  - destruct (bridge_check_reachable demo_reuse (λ b, negb (sys_closed (br_sys b)) &&
      match sys_exit (br_sys b) with
      | Some (ExPanic why) => bool_decide (why = reuse_panic)
      | _ => false
      end)) as (b & Hb & Hq); [vm_compute; reflexivity|].
    apply andb_true_iff in Hq as [Hcl%negb_true_iff Hq].
    destruct (sys_exit (br_sys b)) as [[|why]|] eqn:He; [discriminate| |discriminate].
    apply bool_decide_eq_true_1 in Hq. subst why.
    exists b. split; [exact Hb|]. split; [exact He|]. split; [exact Hcl|].
    destruct (program_crashes_explained demo_host demo_options _ _ demo_bridge_started b Hb) as [_ Hp].
    destruct (Hp _ He) as [[Hc _]|(_ & mac & rest & g & s & Hd & _)]; [congruence|].
    exists mac, rest. exact Hd.
Defined.

(** A handler needs the lock while the clean-up waits for the router. *)
Lemma registry_lock_released_witness :
  ∃ b b', bridge_reachable demo_bridge b ∧ rtc bridge_step b b' ∧
    sys_cleaner (br_sys b) = Deleting demo_mac [] ∧ cleaning (sys_cleaner (br_sys b')) = false.
Proof.
  destruct (bridge_check_reachable demo_wait (λ b,
    is_alive b && bool_decide (sys_cleaner (br_sys b) = Deleting demo_mac [])))
    as (b & Hb & Hq); [vm_compute; reflexivity|].
  apply andb_true_iff in Hq as [Ha%is_alive_spec Hc%bool_decide_eq_true_1].
  destruct (registry_lock_released demo_host demo_options _ _ demo_bridge_started b Hb Ha)
    as (b' & Hr & _ & Hf & _).
  exists b, b'. split; [exact Hb|]. split; [exact Hr|]. split; [exact Hc|exact Hf].
Defined.
