(* ===== verification/WiredRuns.v ===== *)
(** * Runs of the program with its router streams

    An executable scheduler for [Wired], and a run in which a gateway's frame
    reaches the router. *)

From Stdlib Require Import String Ascii NArith ZArith Lia.
From stdpp Require Import base gmap list strings numbers relations functions.
From S2P Require Import Prelude GoPrim GoFloat Lorawan GoJsonTyped Payload Structs GoNet Registry.
From S2P Require Import Convert Backend BackendLaws System SystemLaws SystemRuns Metrics TtnTypes.
From S2P Require Import Streams Ttn TtnSystem StreamRuns Bridge BridgeLaws BridgeRuns Wired.

Local Open Scope string_scope.
Local Open Scope list_scope.

Section Scheduler.
Context `{HostZone} `{MathExp}.

Inductive waction : Type :=
| WBridge (a : baction)
| WUplink (mac : EUI64) (ev : event UplinkMessage)
| WStatus (mac : EUI64) (ev : event Status).

Definition untouchedb (w w' : ttn) : bool :=
  forallb (λ '(mac, g),
    (chan_taken (gtw_uplink g) =? taken_of gtw_uplink w mac)%nat &&
    (chan_taken (gtw_status g) =? taken_of gtw_status w mac)%nat)
    (map_to_list (ttn_gateways w')).

Lemma untouchedb_spec w w' : untouchedb w w' = true → untouched w w'.
Proof.
  unfold untouchedb. rewrite forallb_forall. intros Hall mac g Hg.
  specialize (Hall (mac, g)). rewrite <- list_elem_of_In, elem_of_map_to_list in Hall.
  apply Hall, andb_true_iff in Hg as [Hu%Nat.eqb_eq Hs%Nat.eqb_eq]. done.
Qed.

Definition run_waction (x : wired) (a : waction) : option wired :=
  let b := wi_bridge x in
  match a with
  | WBridge a =>
      b' ← run_baction b a;
      if untouchedb (wi_world x) (sys_world (br_sys b'))
      then Some (mkWired b' (wi_uplinks x) (wi_statuses x)) else None
  | WUplink mac ev =>
      g ← getGtw (wi_world x) mac;
      match is_alive b, exec_own ev (set_chan (gtw_uplink g) (wi_uplinks x mac)) with
      | true, Some (Ok u) =>
          Some (mkWired (set_w b (update_gtw mac (set_uplink (st_chan u)) (wi_world x)))
                  (<[mac := u]> (wi_uplinks x)) (wi_statuses x))
      | _, _ => None
      end
  | WStatus mac ev =>
      g ← getGtw (wi_world x) mac;
      match is_alive b, exec_own ev (set_chan (gtw_status g) (wi_statuses x mac)) with
      | true, Some (Ok u) =>
          Some (mkWired (set_w b (update_gtw mac (set_status (st_chan u)) (wi_world x)))
                  (wi_uplinks x) (<[mac := u]> (wi_statuses x)))
      | _, _ => None
      end
  end.

Lemma run_waction_step x a x' : run_waction x a = Some x' → wired_step x x'.
Proof.
  destruct a as [a|mac ev|mac ev]; cbn; intros Hr.
  - apply bind_Some in Hr as (b' & Hb & Hr). destruct (untouchedb _ _) eqn:Eu; [|done].
    injection Hr as <-. apply wt_bridge; [by eapply run_baction_step|by apply untouchedb_spec].
  - apply bind_Some in Hr as (g & Hg & Hr). destruct (is_alive _) eqn:Ea; [|done].
    destruct (exec_own _ _) as [[u| |]|] eqn:Eo; try done. injection Hr as <-.
    eapply wt_uplink; [by apply is_alive_spec|done|by eapply exec_own_stream].
  - apply bind_Some in Hr as (g & Hg & Hr). destruct (is_alive _) eqn:Ea; [|done].
    destruct (exec_own _ _) as [[u| |]|] eqn:Eo; try done. injection Hr as <-.
    eapply wt_status; [by apply is_alive_spec|done|by eapply exec_own_stream].
Qed.

Fixpoint run_wactions (x : wired) (l : list waction) : option wired :=
  match l with
  | [] => Some x
  | a :: l => x' ← run_waction x a; run_wactions x' l
  end.

Lemma run_wactions_rtc x l x' : run_wactions x l = Some x' → rtc wired_step x x'.
Proof.
  revert x. induction l as [|a l IH]; intros x Hr; cbn in Hr; [by simplify_eq|].
  apply bind_Some in Hr as (x1 & Ha & Hr). eapply rtc_l; [by eapply run_waction_step|auto].
Qed.
End Scheduler.

#[local] Existing Instance utc_host.
#[local] Existing Instance demo_exp.

Definition wired_check (l : list waction) (f : wired → bool) : bool :=
  match run_wactions (wired_start demo_bridge) l with Some x => f x | None => false end.

Lemma wired_check_reachable l f :
  wired_check l f = true → ∃ x, rtc wired_step (wired_start demo_bridge) x ∧ f x = true.
Proof.
  unfold wired_check. destruct (run_wactions _ l) as [x|] eqn:E; [|done].
  intros Hf. exists x. split; [|done]. by eapply run_wactions_rtc.
Qed.

(** The gateway pushes a frame; its stream connects, takes the message and sends
    it. *)
Definition demo_wire : list waction :=
  (WBridge <$> demo_up) ++ (WUplink demo_mac <$> [EvConnected; EvNext; EvNext; EvSent 0]).

Definition uplink_wires (x : wired) (mac : EUI64) : list UplinkMessage :=
  concat (ss_wire <$> st_sessions (wi_uplinks x mac)).

Lemma wire_end_to_end_witness :
  ∃ x m, rtc wired_step (wired_start demo_bridge) x ∧ m ∈ uplink_wires x demo_mac ∧
    frame_message (br_sys (wi_bridge x)) demo_mac m.
Proof.
  destruct (wired_check_reachable demo_wire (λ x,
    match st_sessions (wi_uplinks x demo_mac) with
    | s :: _ => match ss_wire s with _ :: _ => true | [] => false end
    | [] => false
    end)) as (x & Hx & Hw); [vm_compute; reflexivity|].
  destruct (st_sessions (wi_uplinks x demo_mac)) as [|s l] eqn:Es; [discriminate|].
  destruct (ss_wire s) as [|m k] eqn:Ew; [discriminate|].
  exists x, m. split; [exact Hx|].
  split; [unfold uplink_wires; rewrite Es; cbn; rewrite Ew; by left|].
  apply (wire_end_to_end demo_host demo_options _ _ demo_bridge_started x demo_mac Hx) with (s := s);
    [rewrite Es; by left|rewrite Ew; by left].
Defined.
