(* ===== verification/Shutdown.v ===== *)
(** * Shutting down

    [Close] of The Things Network backend, the last deferred call of [run]: the main
    goroutine closes the three streams and the client of every gateway, in the order
    in which it ranges over the map, and waits in each [Close] of a stream for the
    attempt that stream may be at; the goroutines of the streams, the publishing
    goroutines and a clean-up that still waits go on meanwhile.  The lock of the
    backend is held all along: no gateway is added. *)

From Stdlib Require Import String Ascii NArith ZArith Lia.
From stdpp Require Import relations base gmap list strings numbers.
From S2P Require Import Prelude GoPrim GoSync GoFloat GoNet Lorawan Payload Registry System.
From S2P Require Import Metrics TtnTypes.
From S2P Require Import Streams Ttn Downstream TtnLaws TtnSystem TtnInvariant StreamRuns Bridge.
From S2P Require Import BridgeLaws Unlocking Wired Backend SystemRuns BridgeRuns WiredRuns.

Local Open Scope string_scope.
Local Open Scope list_scope.

(** ** State *)

(** The calls in [func (g *gtw) Close()], in their order. *)
Inductive call : Type := CallUplink | CallDownlink | CallStatus | CallClient.

#[export] Instance call_eq_dec : EqDecision call.
Proof. solve_decision. Defined.







(** ** Steps *)








(** ** What the streams keep *)

Section Streams.
Context {A : Type}.
Implicit Types (u : Streams.stream (A := A)).







End Streams.








(** ** The invariant *)


















(** ** [Close] can return *)







(** ** From the running program *)

Section Program.
Context `{HostZone} `{MathExp}.
Context (h : host) (c : options) (now : Time) (b0 : bridge).
Hypothesis started : start h c now = Ok b0.











End Program.

(** ** A gateway that is closed before its streams are connected *)

#[local] Existing Instance utc_host.
#[local] Existing Instance demo_exp.




