(* ===== verification/GwJson.v ===== *)
(** * The JSON form of the [gw] packets

    The packets the MQTT backend receives ([gw.TXPacketBytes]), as
    [encoding/json] reads and writes them. *)

From Stdlib Require Import String Ascii NArith ZArith Lia SpecFloat.
From stdpp Require Import base gmap list strings numbers.
From S2P Require Import Prelude GoPrim GoStrconv GoBase64 GoUtf8 GoFloat Lorawan GoJson.
From S2P Require Import GoNumText GoFloatText GoJsonTyped GoJsonLaws Payload PayloadLaws.
From S2P Require Import Convert.

Local Open Scope string_scope.
Local Open Scope list_scope.
Local Open Scope Z_scope.

(** ** Texts and byte slices *)

(** A value with an [UnmarshalText] method gets the contents of a string, and
    nothing else. *)
Definition decode_text {A} (f : bytes → result A) : decoder A := λ j _,
  match j with
  | JStr _ s => f s
  | _ => Err json_error
  end.

(** A [[]byte]: a string in base64, or an array of numbers. *)
Definition decode_bytes : decoder bytes := λ j prior,
  match j with
  | JNull => Ok []
  | JStr _ s => b64_decode s
  | JArr _ _ =>
      let* l := decode_slice 0 (decode_uint 8) j (map Z_of_byte prior) in
      Ok (map byte_of_Z l)
  | _ => Err json_error
  end.

(** A slice that is not nil is written in base64. *)
Definition encode_bytes (b : bytes) : result json := Ok (mk_str (b64_encode b)).

Definition encode_EUI64 (e : EUI64) : result json := Ok (encode_string (EUI64_String e)).

(** ** Packets *)

Definition DataRate_fields : list (field DataRate) := [
  lens "modulation" decode_string Modulation (λ '(mkDataRate _ b c d) x, mkDataRate x b c d);
  lens "spreadFactor" (decode_int 64) SpreadFactor (λ '(mkDataRate a _ c d) x, mkDataRate a x c d);
  lens "bandwidth" (decode_int 64) Bandwidth (λ '(mkDataRate a b _ d) x, mkDataRate a b x d);
  lens "bitRate" (decode_int 64) BitRate (λ '(mkDataRate a b c _) x, mkDataRate a b c x)
].

Definition TXInfo_fields : list (field TXInfo) := [
  lens "mac" (decode_text EUI64_UnmarshalText) TXInfo_MAC
    (λ '(mkTXInfo _ b c d e f g h) x, mkTXInfo x b c d e f g h);
  lens "immediately" decode_bool TXInfo_Immediately
    (λ '(mkTXInfo a _ c d e f g h) x, mkTXInfo a x c d e f g h);
  lens "timestamp" (decode_uint 32) TXInfo_Timestamp
    (λ '(mkTXInfo a b _ d e f g h) x, mkTXInfo a b x d e f g h);
  lens "frequency" (decode_int 64) TXInfo_Frequency
    (λ '(mkTXInfo a b c _ e f g h) x, mkTXInfo a b c x e f g h);
  lens "power" (decode_int 64) TXInfo_Power
    (λ '(mkTXInfo a b c d _ f g h) x, mkTXInfo a b c d x f g h);
  lens "dataRate" (decode_struct DataRate_fields) TXInfo_DataRate
    (λ '(mkTXInfo a b c d e _ g h) x, mkTXInfo a b c d e x g h);
  lens "codeRate" decode_string TXInfo_CodeRate
    (λ '(mkTXInfo a b c d e f _ h) x, mkTXInfo a b c d e f x h);
  lens "iPol" (decode_ptr false decode_bool) TXInfo_IPol
    (λ '(mkTXInfo a b c d e f g _) x, mkTXInfo a b c d e f g x)
].

Definition TXPacketBytes_fields : list (field TXPacketBytes) := [
  lens "txInfo" (decode_struct TXInfo_fields) TXPacket_TXInfo
    (λ '(mkTXPacketBytes _ b) x, mkTXPacketBytes x b);
  lens "phyPayload" decode_bytes TXPacket_PHYPayload
    (λ '(mkTXPacketBytes a _) x, mkTXPacketBytes a x)
].

Definition TXInfo_zero : TXInfo := mkTXInfo eui_zero false 0 0 0 DataRate_zero "" None.
Definition TXPacketBytes_zero : TXPacketBytes := mkTXPacketBytes TXInfo_zero [].

Definition encode_DataRate (d : DataRate) : result json :=
  encode_struct [
    ("modulation", false, encode_str (Modulation d));
    ("spreadFactor", SpreadFactor d =? 0, Ok (encode_int (SpreadFactor d)));
    ("bandwidth", Bandwidth d =? 0, Ok (encode_int (Bandwidth d)));
    ("bitRate", BitRate d =? 0, Ok (encode_int (BitRate d)))
  ].

Definition encode_TXInfo (i : TXInfo) : result json :=
  encode_struct [
    ("mac", false, encode_EUI64 (TXInfo_MAC i));
    ("immediately", false, Ok (JBool (TXInfo_Immediately i)));
    ("timestamp", false, Ok (encode_uint (TXInfo_Timestamp i)));
    ("frequency", false, Ok (encode_int (TXInfo_Frequency i)));
    ("power", false, Ok (encode_int (TXInfo_Power i)));
    ("dataRate", false, encode_DataRate (TXInfo_DataRate i));
    ("codeRate", false, encode_str (TXInfo_CodeRate i));
    ("iPol", false, Ok (match TXInfo_IPol i with Some b => JBool b | None => JNull end))
  ].

Definition encode_TXPacketBytes (p : TXPacketBytes) : result json :=
  encode_struct [
    ("txInfo", false, encode_TXInfo (TXPacket_TXInfo p));
    ("phyPayload", false, encode_bytes (TXPacket_PHYPayload p))
  ].

#[export] Instance TXPacketBytes_codec : JsonCodec TXPacketBytes := {
  json_Marshal p := json_encode (encode_TXPacketBytes p);
  json_Unmarshal := json_decode (decode_struct TXPacketBytes_fields)
}.

(** ** Round trip *)

Record TXPacket_json (p : TXPacketBytes) : Prop := mkTXPacketJson {
  txj_timestamp : in_u 32 (TXInfo_Timestamp (TXPacket_TXInfo p)) = true;
  txj_frequency : in_s 64 (TXInfo_Frequency (TXPacket_TXInfo p)) = true;
  txj_power : in_s 64 (TXInfo_Power (TXPacket_TXInfo p)) = true;
  txj_modulation : str_ok (Modulation (TXInfo_DataRate (TXPacket_TXInfo p)));
  txj_spread : in_s 64 (SpreadFactor (TXInfo_DataRate (TXPacket_TXInfo p))) = true;
  txj_bandwidth : in_s 64 (Bandwidth (TXInfo_DataRate (TXPacket_TXInfo p))) = true;
  txj_bitrate : in_s 64 (BitRate (TXInfo_DataRate (TXPacket_TXInfo p))) = true;
  txj_coderate : str_ok (TXInfo_CodeRate (TXPacket_TXInfo p))
}.

Lemma hex_digit_json z : 0 ≤ z < 16 → plain (hex_digit z) = true.
Proof.
  intros Hz. apply (zrange_check_spec (λ z, plain (hex_digit z)) 16 0); [vm_compute; reflexivity|lia].
Qed.

Lemma hex_encode_plain b : plain_text (hex_encode b).
Proof.
  induction b as [|c b IH]; [constructor|]. simpl. pose proof (Z_of_byte_range c).
  apply List.Forall_cons; [|apply List.Forall_cons; [|done]]; apply hex_digit_json.
  - rewrite Z.shiftr_div_pow2 by lia. change (2 ^ 4) with 16.
    split; [apply Z.div_pos; lia|apply Z.div_lt_upper_bound; lia].
  - change 15 with (Z.ones 4). rewrite Z.land_ones by lia. by apply Z.mod_pos_bound.
Qed.

Lemma codec_EUI64 e :
  codec encode_EUI64 (decode_text EUI64_UnmarshalText) eui_zero e (encode_string (EUI64_String e)).
Proof.
  constructor; [done| |done|apply EUI64_UnmarshalText_String].
  constructor. apply plain_utf8. unfold EUI64_String. rewrite to_bytes_of_string. apply hex_encode_plain.
Qed.

Lemma codec_bytes b : codec encode_bytes decode_bytes [] b (mk_str (b64_encode b)).
Proof.
  constructor; [done| |done|apply b64_decode_encode]. constructor. apply plain_utf8, b64_encode_plain.
Qed.

Ltac run_omit_int H := run_omit (codec_int _ _ H ltac:(done)) ltac:(intros ->%Z.eqb_eq; reflexivity).

Lemma DataRate_codec d :
  str_ok (Modulation d) → in_s 64 (SpreadFactor d) = true → in_s 64 (Bandwidth d) = true →
  in_s 64 (BitRate d) = true →
  ∃ j, codec encode_DataRate (decode_struct DataRate_fields) DataRate_zero d j.
Proof.
  intros H1 H2 H3 H4. eapply struct_codec; [reflexivity|].
  run_member (codec_str _ H1). run_omit_int H2. run_omit_int H3. run_omit_int H4.
  destruct d. constructor.
Qed.

Lemma TXPacketBytes_codec_ok p :
  TXPacket_json p →
  ∃ j, codec encode_TXPacketBytes (decode_struct TXPacketBytes_fields) TXPacketBytes_zero p j.
Proof.
  intros [H1 H2 H3 H4 H5 H6 H7 H8].
  assert (∃ j, codec encode_TXInfo (decode_struct TXInfo_fields) TXInfo_zero (TXPacket_TXInfo p) j)
    as Hinfo.
  { eapply struct_codec; [reflexivity|].
    run_member (codec_EUI64 (TXInfo_MAC (TXPacket_TXInfo p))).
    run_member (codec_bool (TXInfo_Immediately (TXPacket_TXInfo p))).
    run_uint H1. run_int H2. run_int H3. run_ex (DataRate_codec _ H4 H5 H6 H7).
    run_member (codec_str _ H8).
    eapply run_cons.
    { eapply member_lens with (b := TXInfo_IPol (TXPacket_TXInfo p)); [reflexivity|reflexivity| |done].
      intros _. eexists. split; [reflexivity|].
      destruct (TXInfo_IPol (TXPacket_TXInfo p)) as [b|]; split; try done; constructor. }
    destruct p as [[] ?]. constructor. }
  eapply struct_codec; [reflexivity|]. run_ex Hinfo.
  run_member (codec_bytes (TXPacket_PHYPayload p)). destruct p. constructor.
Qed.

#[export] Instance TXPacketBytes_roundtrip :
  JsonRoundTrip TXPacketBytes TXPacket_json (λ p, p = TXPacketBytes_zero).
Proof.
  constructor. intros p prior Hp ->. by apply json_encode_decode, TXPacketBytes_codec_ok.
Qed.

(** ** No text makes the decoder panic *)

Lemma dec_safe_text {A} (f : bytes → result A) : (∀ b, no_panic (f b)) → dec_safe (decode_text f).
Proof. intros Hf j prior. destruct j; try exact I. apply Hf. Qed.

Lemma dec_safe_bytes : dec_safe decode_bytes.
Proof.
  intros j prior. destruct j as [| | |raw s|raw l|]; try exact I; [cbn; auto with go_db|].
  apply rbind_no_panic; [|done]. apply dec_safe_slice, dec_safe_uint.
Qed.

Lemma TXPacketBytes_Unmarshal_no_panic data prior :
  no_panic (json_Unmarshal (A := TXPacketBytes) data prior).
Proof.
  apply json_decode_no_panic. pose proof dec_safe_bytes.
  assert (dec_safe (decode_text EUI64_UnmarshalText)) by apply dec_safe_text, EUI64_UnmarshalText_no_panic.
  assert (dec_safe (decode_struct DataRate_fields)) by
    (apply dec_safe_struct; repeat (apply List.Forall_cons || apply List.Forall_nil);
     apply dec_safe_lens; auto 8 with go_db).
  assert (dec_safe (decode_struct TXInfo_fields)) by
    (apply dec_safe_struct; repeat (apply List.Forall_cons || apply List.Forall_nil);
     apply dec_safe_lens; auto 8 with go_db).
  apply dec_safe_struct; repeat (apply List.Forall_cons || apply List.Forall_nil);
    apply dec_safe_lens; auto 8 with go_db.
Qed.
