(* ===== verification/GwPublish.v ===== *)
(** * The JSON of what the bridge publishes

    [gw.RXPacketBytes] and [gw.GatewayStatsPacket] as [encoding/json] writes
    them for the MQTT broker, and as its reader, which shares the types, reads
    them.  A packet carries a [time.Time]: the offset [off] of the location of
    that time is an argument of the encoders. *)

From Stdlib Require Import String Ascii NArith ZArith Lia SpecFloat.
From stdpp Require Import base gmap sorting list strings numbers.
From S2P Require Import Prelude GoPrim GoStrconv GoTime GoTimeZone GoUtf8 GoFloat Lorawan GoJson.
From S2P Require Import GoNumText GoFloatText GoJsonTyped GoJsonLaws Payload PayloadLaws GwJson.
From S2P Require Import Convert Typing.

Local Open Scope string_scope.
Local Open Scope list_scope.
Local Open Scope Z_scope.

(** ** Encoding *)

Definition encode_Time (off : Z) (t : Time) : result json := encode_marshaler (Time_MarshalJSON off t).

Definition encode_RXInfo (off : Z) (i : RXInfo) : result json :=
  encode_struct [
    ("mac", false, encode_EUI64 (RXInfo_MAC i));
    ("time", false, encode_Time off (RXInfo_Time i));
    ("timestamp", false, Ok (encode_uint (RXInfo_Timestamp i)));
    ("frequency", false, Ok (encode_int (RXInfo_Frequency i)));
    ("channel", false, Ok (encode_int (RXInfo_Channel i)));
    ("rfChain", false, Ok (encode_int (RXInfo_RFChain i)));
    ("crcStatus", false, Ok (encode_int (RXInfo_CRCStatus i)));
    ("codeRate", false, encode_str (RXInfo_CodeRate i));
    ("rssi", false, Ok (encode_int (RXInfo_RSSI i)));
    ("loRaSNR", false, encode_float (RXInfo_LoRaSNR i));
    ("size", false, Ok (encode_int (RXInfo_Size i)));
    ("dataRate", false, encode_DataRate (RXInfo_DataRate i))
  ].

Definition encode_RXPacketBytes (off : Z) (p : RXPacketBytes) : result json :=
  encode_struct [
    ("rxInfo", false, encode_RXInfo off (RXPacket_RXInfo p));
    ("phyPayload", false, encode_bytes (RXPacket_PHYPayload p))
  ].

(** A [map[string]interface{}] is written in the order of its keys; [other] is
    what [encoding/json] makes of a dynamic type the sources do not store. *)
Section Map.
Context (other : result json).

Definition encode_iface (v : iface) : result json :=
  match v with
  | IString s => encode_str s
  | IStrings l => encode_slice encode_str l
  | IOther => other
  end.

Definition key_le (x y : string * iface) : Prop := String.leb x.1 y.1 = true.
#[export] Instance key_le_dec x y : Decision (key_le x y) := decide (String.leb x.1 y.1 = true).

Definition sorted_members (m : gmap string iface) : list (string * iface) :=
  merge_sort key_le (map_to_list m).

Definition encode_map (m : gmap string iface) : result json :=
  encode_struct ((λ x, (x.1, false, encode_iface x.2)) <$> sorted_members m).

Definition encode_GatewayStatsPacket (off : Z) (s : GatewayStatsPacket) : result json :=
  encode_struct [
    ("mac", false, encode_EUI64 (Stats_MAC s));
    ("time", false, encode_Time off (Stats_Time s));
    ("latitude", false, encode_float (Stats_Latitude s));
    ("longitude", false, encode_float (Stats_Longitude s));
    ("altitude", false, encode_float (Stats_Altitude s));
    ("rxPacketsReceived", false, Ok (encode_int (Stats_RXPacketsReceived s)));
    ("rxPacketsReceivedOK", false, Ok (encode_int (Stats_RXPacketsReceivedOK s)));
    ("txPacketsEmitted", false, Ok (encode_int (Stats_TXPacketsEmitted s)));
    ("customData", false, encode_map (Stats_CustomData s))
  ].
End Map.

(** ** Decoding *)

Definition decode_Time : decoder Time := decode_unmarshaler Time_UnmarshalJSON.

Definition RXInfo_fields : list (field RXInfo) := [
  lens "mac" (decode_text EUI64_UnmarshalText) RXInfo_MAC
    (λ '(mkRXInfo _ b c d e f g h i j k l) x, mkRXInfo x b c d e f g h i j k l);
  lens "time" decode_Time RXInfo_Time
    (λ '(mkRXInfo a _ c d e f g h i j k l) x, mkRXInfo a x c d e f g h i j k l);
  lens "timestamp" (decode_uint 32) RXInfo_Timestamp
    (λ '(mkRXInfo a b _ d e f g h i j k l) x, mkRXInfo a b x d e f g h i j k l);
  lens "frequency" (decode_int 64) RXInfo_Frequency
    (λ '(mkRXInfo a b c _ e f g h i j k l) x, mkRXInfo a b c x e f g h i j k l);
  lens "channel" (decode_int 64) RXInfo_Channel
    (λ '(mkRXInfo a b c d _ f g h i j k l) x, mkRXInfo a b c d x f g h i j k l);
  lens "rfChain" (decode_int 64) RXInfo_RFChain
    (λ '(mkRXInfo a b c d e _ g h i j k l) x, mkRXInfo a b c d e x g h i j k l);
  lens "crcStatus" (decode_int 64) RXInfo_CRCStatus
    (λ '(mkRXInfo a b c d e f _ h i j k l) x, mkRXInfo a b c d e f x h i j k l);
  lens "codeRate" decode_string RXInfo_CodeRate
    (λ '(mkRXInfo a b c d e f g _ i j k l) x, mkRXInfo a b c d e f g x i j k l);
  lens "rssi" (decode_int 64) RXInfo_RSSI
    (λ '(mkRXInfo a b c d e f g h _ j k l) x, mkRXInfo a b c d e f g h x j k l);
  lens "loRaSNR" decode_float RXInfo_LoRaSNR
    (λ '(mkRXInfo a b c d e f g h i _ k l) x, mkRXInfo a b c d e f g h i x k l);
  lens "size" (decode_int 64) RXInfo_Size
    (λ '(mkRXInfo a b c d e f g h i j _ l) x, mkRXInfo a b c d e f g h i j x l);
  lens "dataRate" (decode_struct DataRate_fields) RXInfo_DataRate
    (λ '(mkRXInfo a b c d e f g h i j k _) x, mkRXInfo a b c d e f g h i j k x)
].

Definition RXPacketBytes_fields : list (field RXPacketBytes) := [
  lens "rxInfo" (decode_struct RXInfo_fields) RXPacket_RXInfo
    (λ '(mkRXPacketBytes _ b) x, mkRXPacketBytes x b);
  lens "phyPayload" decode_bytes RXPacket_PHYPayload
    (λ '(mkRXPacketBytes a _) x, mkRXPacketBytes a x)
].

Definition RXInfo_zero : RXInfo :=
  mkRXInfo eui_zero Time_zero 0 0 0 0 0 "" 0 f64_zero 0 DataRate_zero.
Definition RXPacketBytes_zero : RXPacketBytes := mkRXPacketBytes RXInfo_zero [].

(** Into an [interface{}], a string gets the type [string]; no value gets the
    type [[]string]. *)
Definition decode_iface (j : json) : iface :=
  match j with JStr _ s => IString (to_string s) | _ => IOther end.

Definition decode_map : decoder (gmap string iface) := λ j prior,
  match j with
  | JNull => Ok ∅
  | JObj _ l => Ok (foldl (λ m x, <[to_string x.1 := decode_iface x.2]> m) prior l)
  | _ => Err json_error
  end.

Definition GatewayStatsPacket_fields : list (field GatewayStatsPacket) := [
  lens "mac" (decode_text EUI64_UnmarshalText) Stats_MAC
    (λ '(mkGatewayStatsPacket _ b c d e f g h i) x, mkGatewayStatsPacket x b c d e f g h i);
  lens "time" decode_Time Stats_Time
    (λ '(mkGatewayStatsPacket a _ c d e f g h i) x, mkGatewayStatsPacket a x c d e f g h i);
  lens "latitude" decode_float Stats_Latitude
    (λ '(mkGatewayStatsPacket a b _ d e f g h i) x, mkGatewayStatsPacket a b x d e f g h i);
  lens "longitude" decode_float Stats_Longitude
    (λ '(mkGatewayStatsPacket a b c _ e f g h i) x, mkGatewayStatsPacket a b c x e f g h i);
  lens "altitude" decode_float Stats_Altitude
    (λ '(mkGatewayStatsPacket a b c d _ f g h i) x, mkGatewayStatsPacket a b c d x f g h i);
  lens "rxPacketsReceived" (decode_int 64) Stats_RXPacketsReceived
    (λ '(mkGatewayStatsPacket a b c d e _ g h i) x, mkGatewayStatsPacket a b c d e x g h i);
  lens "rxPacketsReceivedOK" (decode_int 64) Stats_RXPacketsReceivedOK
    (λ '(mkGatewayStatsPacket a b c d e f _ h i) x, mkGatewayStatsPacket a b c d e f x h i);
  lens "txPacketsEmitted" (decode_int 64) Stats_TXPacketsEmitted
    (λ '(mkGatewayStatsPacket a b c d e f g _ i) x, mkGatewayStatsPacket a b c d e f g x i);
  lens "customData" decode_map Stats_CustomData
    (λ '(mkGatewayStatsPacket a b c d e f g h _) x, mkGatewayStatsPacket a b c d e f g h x)
].

(** ** Reading back received packets *)

Lemma zone_text_plain off : plain_text (zone_text off).
Proof.
  unfold zone_text. destruct (off =? 0); [by constructor|].
  destruct (off ÷ 60 <? 0); apply List.Forall_cons; try reflexivity;
    (apply Forall_app_2; [|apply List.Forall_cons; [reflexivity|]]); apply append_int_plain.
Qed.

Lemma FormatRFC3339Nano_in_quoted off t :
  ∃ s, FormatRFC3339Nano_in off t = dquote :: s ++ [dquote] ∧ plain_text s.
Proof.
  unfold FormatRFC3339Nano_in.
  destruct (civil (local_clock off t)) as [[[y m] d] [[[hh mm] ss] ns]].
  exists (append_int y 4 ++ "-"%char :: append_int m 2 ++ "-"%char :: append_int d 2
    ++ "T"%char :: append_int hh 2 ++ ":"%char :: append_int mm 2 ++ ":"%char :: append_int ss 2
    ++ append_nano ns ++ zone_text off). split.
  - f_equal. by repeat (rewrite <- app_assoc || rewrite <- app_comm_cons).
  - repeat first [ apply Forall_app_2 | apply append_int_plain | apply append_nano_plain
                 | apply zone_text_plain | apply List.Forall_cons; [reflexivity|] ].
Qed.

Lemma codec_Time off t :
  four_digit_year (local_clock off t) → zone_ok off →
  ∃ j, codec (encode_Time off) decode_Time Time_zero t j.
Proof.
  intros Ht Hz. destruct (FormatRFC3339Nano_in_quoted off t) as (s & Hs & Hp).
  destruct (encode_marshaler_quoted s Hp) as [He Hj]. exists (mk_str s).
  constructor; [|done|done|].
  - unfold encode_Time. destruct (Time_MarshalJSON_spec off t) as [[_ ->]|[? _]]; [by rewrite Hs|done].
  - unfold decode_Time, decode_unmarshaler. simpl.
    by rewrite plain_quote, <- Hs, Time_UnmarshalJSON_MarshalJSON.
Qed.

Lemma RXPacketBytes_codec_ok off p :
  RXPacket_typed p → zone_ok off →
  four_digit_year (local_clock off (RXInfo_Time (RXPacket_RXInfo p))) →
  ∃ j, codec (encode_RXPacketBytes off) (decode_struct RXPacketBytes_fields) RXPacketBytes_zero p j.
Proof.
  intros [H1 H2 H3 H4 H5 H7 H8 H9 H6 [H11 H12 H13 H10]] Hz Ht.
  assert (∃ j, codec (encode_RXInfo off) (decode_struct RXInfo_fields) RXInfo_zero (RXPacket_RXInfo p) j)
    as Hinfo.
  { eapply struct_codec; [reflexivity|].
    run_member (codec_EUI64 (RXInfo_MAC (RXPacket_RXInfo p))). run_ex (codec_Time off _ Ht Hz).
    run_uint H1. run_int H2. run_int H3. run_int H4. run_int H5. run_member (codec_str _ H6).
    run_int H7. run_ex (codec_float _ H8). run_int H9. run_ex (DataRate_codec _ H10 H11 H12 H13).
    destruct p as [[] ?]. constructor. }
  eapply struct_codec; [reflexivity|]. run_ex Hinfo.
  run_member (codec_bytes (RXPacket_PHYPayload p)). destruct p. constructor.
Qed.

(** A year that the text cannot show is an error, whatever else the packet is. *)
Lemma encode_Time_err off t :
  ¬ four_digit_year (local_clock off t) → encode_Time off t = Err time_error.
Proof.
  intros Ht. unfold encode_Time. by destruct (Time_MarshalJSON_spec off t) as [[? _]|[_ ->]].
Qed.

Lemma RXPacketBytes_year_err off p :
  ¬ four_digit_year (local_clock off (RXInfo_Time (RXPacket_RXInfo p))) →
  json_encode (encode_RXPacketBytes off p) = Err time_error.
Proof.
  intros Ht. unfold json_encode, encode_RXPacketBytes, encode_RXInfo, encode_struct.
  cbn [encode_members]. by rewrite encode_Time_err.
Qed.

(** ** Reading back statistics *)

(** What a reader has of a member of [CustomData]. *)
Definition received (v : iface) : iface := match v with IString s => IString s | _ => IOther end.

Lemma encode_iface_typed other k v :
  custom_typed k v →
  ∃ j, encode_iface other v = Ok j ∧ printable j ∧ decode_iface j = received v.
Proof.
  intros [_ Hv]. destruct v as [s|l|]; [| |done]; cbn [encode_iface].
  - pose proof (codec_str s Hv) as Hc. eexists.
    split_and!; [apply (codec_enc Hc)|apply (codec_printable Hc)|]. cbn. by rewrite to_string_of_bytes.
  - destruct (codec_slice encode_str decode_string EmptyString l) as [j Hj].
    { eapply List.Forall_impl; [|exact Hv]. intros s Hs. eexists. by apply codec_str. }
    exists j. split_and!; [apply (codec_enc Hj)|apply (codec_printable Hj)|].
    pose proof (codec_enc Hj) as He. unfold encode_slice in He.
    apply rbind_ok in He as (js & _ & [= <-]). done.
Qed.

Lemma encode_members_map other (l : list (string * iface)) :
  Forall (λ x, custom_typed x.1 x.2) l →
  ∃ ms, encode_members ((λ x, (x.1, false, encode_iface other x.2)) <$> l) = Ok ms ∧
    Forall (λ m, utf8_valid m.1 = true) ms ∧ Forall (λ m, printable m.2) ms ∧
    (λ x, (to_string x.1, decode_iface x.2)) <$> ms = prod_map id received <$> l.
Proof.
  induction 1 as [|[k v] l Hx _ (ms & He & Hu & Hp & Hd)]; [by exists []|].
  destruct (encode_iface_typed other k v Hx) as (j & Hj & Hpj & Hdj). cbn in Hx.
  exists ((to_bytes k, j) :: ms). cbn. rewrite Hj. cbn. rewrite He. cbn. split_and!; [done|..].
  - constructor; [apply Hx|done].
  - by constructor.
  - by rewrite Hdj, to_string_of_bytes, Hd.
Qed.

Lemma foldl_insert {A} (m : gmap string A) l :
  NoDup l.*1 → foldl (λ m x, <[x.1 := x.2]> m) m l = list_to_map l ∪ m.
Proof.
  revert m. induction l as [|[k v] l IH]; intros m Hl; cbn; [by rewrite left_id_L by apply _|].
  inversion_clear Hl as [|? ? Hk Hl']. rewrite IH by done.
  rewrite <- insert_union_r, <- insert_union_l; [done|by apply not_elem_of_list_to_map_1].
Qed.

Lemma map_json other m :
  map_Forall custom_typed m →
  ∃ j, encode_map other m = Ok j ∧ printable j ∧ decode_map j ∅ = Ok (received <$> m).
Proof.
  intros Hm. unfold encode_map. pose proof (merge_sort_Permutation key_le (map_to_list m)) as Hperm.
  fold (sorted_members m) in Hperm.
  destruct (encode_members_map other (sorted_members m)) as (ms & He & Hu & Hp & Hd).
  { rewrite Hperm. apply map_Forall_to_list in Hm. eapply List.Forall_impl; [|exact Hm]. by intros []. }
  exists (mk_obj ms). split_and!; [unfold encode_struct; by rewrite He|by constructor|].
  cbn. f_equal.
  assert (∀ m0 : gmap string iface, foldl (λ m x, <[to_string x.1 := decode_iface x.2]> m) m0 ms
    = foldl (λ m x, <[x.1 := x.2]> m) m0 ((λ x, (to_string x.1, decode_iface x.2)) <$> ms)) as ->.
  { clear. induction ms as [|x ms IH]; intros m0; [done|]. apply IH. }
  assert ((prod_map id received <$> sorted_members m).*1 = (sorted_members m).*1) as Hk.
  { rewrite <- list_fmap_compose. by apply list_fmap_ext. }
  assert (NoDup (sorted_members m).*1) as Hnd by (rewrite Hperm; apply NoDup_fst_map_to_list).
  rewrite Hd, foldl_insert by by rewrite Hk. rewrite right_id_L by apply _.
  rewrite list_to_map_fmap. f_equal. rewrite <- (list_to_map_to_list m) at 2.
  by apply list_to_map_proper.
Qed.

Definition GatewayStatsPacket_zero : GatewayStatsPacket :=
  mkGatewayStatsPacket eui_zero Time_zero f64_zero f64_zero f64_zero 0 0 0 ∅.

(** The statistics as their reader has them. *)
Definition stats_received (s : GatewayStatsPacket) : GatewayStatsPacket :=
  with_CustomData s (received <$> Stats_CustomData s).

Lemma GatewayStatsPacket_json other off s :
  GatewayStats_typed s → zone_ok off → four_digit_year (local_clock off (Stats_Time s)) →
  ∃ j, encode_GatewayStatsPacket other off s = Ok j ∧ printable j ∧
    decode_struct GatewayStatsPacket_fields j GatewayStatsPacket_zero = Ok (stats_received s).
Proof.
  intros [H1 H2 H3 H4 H5 H6 H7] Hz Ht.
  assert (members_run GatewayStatsPacket_fields [
    ("mac", false, encode_EUI64 (Stats_MAC s));
    ("time", false, encode_Time off (Stats_Time s));
    ("latitude", false, encode_float (Stats_Latitude s));
    ("longitude", false, encode_float (Stats_Longitude s));
    ("altitude", false, encode_float (Stats_Altitude s));
    ("rxPacketsReceived", false, Ok (encode_int (Stats_RXPacketsReceived s)));
    ("rxPacketsReceivedOK", false, Ok (encode_int (Stats_RXPacketsReceivedOK s)));
    ("txPacketsEmitted", false, Ok (encode_int (Stats_TXPacketsEmitted s)));
    ("customData", false, encode_map other (Stats_CustomData s))
  ] GatewayStatsPacket_zero (stats_received s)) as Hrun.
  { run_member (codec_EUI64 (Stats_MAC s)). run_ex (codec_Time off _ Ht Hz).
    run_ex (codec_float _ H1). run_ex (codec_float _ H2). run_ex (codec_float _ H3).
    run_int H4. run_int H5. run_int H6.
    eapply run_cons.
    { eapply member_lens with (b := received <$> Stats_CustomData s); [reflexivity|reflexivity| |done].
      intros _. by apply map_json. }
    destruct s. constructor. }
  destruct (members_run_codec _ _ _ _ Hrun) as (j & He & Hp & _ & Hd). by exists j.
Qed.

Lemma GatewayStatsPacket_year_err other off s :
  ¬ four_digit_year (local_clock off (Stats_Time s)) →
  json_encode (encode_GatewayStatsPacket other off s) = Err time_error.
Proof.
  intros Ht. unfold json_encode, encode_GatewayStatsPacket, encode_struct.
  cbn [encode_members]. by rewrite encode_Time_err.
Qed.

(** ** [json.Marshal], and what its reader gets *)

Definition Marshal_rx (off : Z) (p : RXPacketBytes) : result bytes :=
  json_encode (encode_RXPacketBytes off p).
Definition Unmarshal_rx (data : bytes) : result RXPacketBytes :=
  json_decode (decode_struct RXPacketBytes_fields) data RXPacketBytes_zero.
Definition Marshal_stats (other : result json) (off : Z) (s : GatewayStatsPacket) : result bytes :=
  json_encode (encode_GatewayStatsPacket other off s).
Definition Unmarshal_stats (data : bytes) : result GatewayStatsPacket :=
  json_decode (decode_struct GatewayStatsPacket_fields) data GatewayStatsPacket_zero.

Definition year_ok (off : Z) (t : Time) : bool :=
  (-62167219200 * 1000000000 <=? local_clock off t) && (local_clock off t <? 253402300800 * 1000000000).

Lemma year_ok_spec off t : reflect (four_digit_year (local_clock off t)) (year_ok off t).
Proof.
  apply iff_reflect. unfold year_ok, four_digit_year. by rewrite andb_true_iff, Z.leb_le, Z.ltb_lt.
Qed.

Lemma Marshal_rx_spec off p :
  RXPacket_typed p → zone_ok off →
  if year_ok off (RXInfo_Time (RXPacket_RXInfo p)) then
    ∃ payload, Marshal_rx off p = Ok payload ∧ Unmarshal_rx payload = Ok p
  else Marshal_rx off p = Err time_error.
Proof.
  intros Hp Hz. destruct (year_ok_spec off (RXInfo_Time (RXPacket_RXInfo p))) as [Ht|Ht].
  - destruct (json_encode_decode _ _ _ _ (RXPacketBytes_codec_ok off p Hp Hz Ht)) as (b & Hb & _ & Hd).
    by exists b.
  - by apply RXPacketBytes_year_err.
Qed.

Lemma Marshal_stats_spec other off s :
  GatewayStats_typed s → zone_ok off →
  if year_ok off (Stats_Time s) then
    ∃ payload, Marshal_stats other off s = Ok payload ∧ Unmarshal_stats payload = Ok (stats_received s)
  else Marshal_stats other off s = Err time_error.
Proof.
  intros Hs Hz. destruct (year_ok_spec off (Stats_Time s)) as [Ht|Ht].
  - destruct (GatewayStatsPacket_json other off s Hs Hz Ht) as (j & He & Hp & Hd).
    exists (json_raw j). unfold Marshal_stats, Unmarshal_stats, json_encode, json_decode.
    rewrite He. split; [done|]. by rewrite parse_json_raw.
  - by apply GatewayStatsPacket_year_err.
Qed.
