(* ===== verification/Mqtt.v ===== *)
(** * The MQTT backend

    [backend/mqttpubsub/backend.go]: gateways are subscribed to by topic, and
    re-subscribed whenever the client library reports a connection.  The client
    library is an interface ([MqttClient]); the backend's theorems are proved
    against its laws, in which a token without error only says that the broker
    answered: it may have refused a topic. *)

From Stdlib Require Import String Ascii NArith ZArith Lia.
From stdpp Require Import base gmap sets list strings numbers fin_sets.
From S2P Require Import Prelude GoPrim GoJson GoJsonTyped Lorawan Registry GwJson GwPublish.

Local Open Scope string_scope.
Local Open Scope list_scope.
Local Open Scope Z_scope.

(** ** The client library *)

(** The calls the backend makes, each with the error of its token, on the state
    of the client.  [mqtt_topics] is what the broker has the client subscribed
    to. *)
Class MqttClient (C : Type) := {
  mqtt_Connect : C → option error * C;
  mqtt_Disconnect : C → C;
  mqtt_Subscribe : string → C → option error * C;
  mqtt_SubscribeMultiple : list string → C → option error * C;
  mqtt_Unsubscribe : string → C → option error * C;
  mqtt_Publish : string → bytes → C → option error * C;
  mqtt_topics : C → gset string
}.

(** What the library and the protocol promise.  A token without an error means that
    the broker has answered; it may have refused some of the topics: the return codes
    are in the token's [Result()], which is not its error.  A token with an error
    means that nothing was sent.  An answered [Unsubscribe] has no codes. *)
Class MqttLaws (C : Type) `{MqttClient C} : Prop := {
  Subscribe_ok t c c' :
    mqtt_Subscribe t c = (None, c') → mqtt_topics c ⊆ mqtt_topics c' ⊆ {[t]} ∪ mqtt_topics c;
  Subscribe_err t c e c' : mqtt_Subscribe t c = (Some e, c') → mqtt_topics c' = mqtt_topics c;
  SubscribeMultiple_ok ts c c' :
    mqtt_SubscribeMultiple ts c = (None, c') →
    mqtt_topics c ⊆ mqtt_topics c' ⊆ list_to_set ts ∪ mqtt_topics c;
  SubscribeMultiple_err ts c e c' :
    mqtt_SubscribeMultiple ts c = (Some e, c') → mqtt_topics c' = mqtt_topics c;
  Unsubscribe_ok t c c' : mqtt_Unsubscribe t c = (None, c') → mqtt_topics c' = mqtt_topics c ∖ {[t]};
  Unsubscribe_err t c e c' : mqtt_Unsubscribe t c = (Some e, c') → mqtt_topics c' = mqtt_topics c;
  Publish_topics t b c e c' : mqtt_Publish t b c = (e, c') → mqtt_topics c' = mqtt_topics c
}.

(** A broker that refuses nothing. *)
Definition grants_all (C : Type) `{MqttClient C} : Prop :=
  (∀ t c c', mqtt_Subscribe t c = (None, c') → t ∈ mqtt_topics c') ∧
  (∀ ts c c', mqtt_SubscribeMultiple ts c = (None, c') → list_to_set ts ⊆ mqtt_topics c').

Section Backend.
Context {C : Type} `{MqttClient C}.
(** What [json.Marshal] makes of a custom value of a type the sources do not store. *)
Context (other : result json).

(** ** State *)

(** [type Backend struct]; [mq_tx] is what was sent on [txPacketChan]. *)
Record mqtt : Type := mkMqtt {
  mq_conn : C;
  mq_gateways : gset EUI64;
  mq_tx : list TXPacketBytes
}.

Definition set_conn (b : mqtt) (c : C) : mqtt := mkMqtt c (mq_gateways b) (mq_tx b).

(** ** Operations *)

(** [func NewBackend(server, username, password)], with the client the library
    makes of the options. *)
Definition NewBackend (client : C) : result mqtt :=
  match mqtt_Connect client with
  | (None, c) => Ok (mkMqtt c ∅ [])
  | (Some e, _) => Err e
  end.

(** [func (b *Backend) Close()] *)
Definition Close (b : mqtt) : mqtt := set_conn b (mqtt_Disconnect (mq_conn b)).

(** [fmt.Sprintf("gateway/%s/tx", mac.String())] and its likes *)
Definition topic (mac : EUI64) (what : string) : string :=
  "gateway/" +:+ EUI64_String mac +:+ "/" +:+ what.

(** [func (b *Backend) SubscribeGatewayTX(mac) error] *)
Definition SubscribeGatewayTX (mac : EUI64) (b : mqtt) : option error * mqtt :=
  match mqtt_Subscribe (topic mac "tx") (mq_conn b) with
  | (Some e, c) => (Some e, set_conn b c)
  | (None, c) => (None, mkMqtt c ({[mac]} ∪ mq_gateways b) (mq_tx b))
  end.

(** [func (b *Backend) UnSubscribeGatewayTX(mac) error] *)
Definition UnSubscribeGatewayTX (mac : EUI64) (b : mqtt) : option error * mqtt :=
  match mqtt_Unsubscribe (topic mac "tx") (mq_conn b) with
  | (Some e, c) => (Some e, set_conn b c)
  | (None, c) => (None, mkMqtt c (mq_gateways b ∖ {[mac]}) (mq_tx b))
  end.

(** [func (b *Backend) publish(topic, v) error] *)
Definition publish (t : string) (v : result bytes) (b : mqtt) : result (option error * mqtt) :=
  match v with
  | Ok data => let '(e, c) := mqtt_Publish t data (mq_conn b) in Ok (e, set_conn b c)
  | Err e => Ok (Some e, b)
  | Panic p => Panic p
  end.

(** [func (b *Backend) PublishGatewayRX(mac, rxPacket) error]; [off] is the offset
    of the location of the packet's time. *)
Definition PublishGatewayRX (mac : EUI64) (off : Z) (rxPacket : RXPacketBytes) (b : mqtt)
  : result (option error * mqtt) := publish (topic mac "rx") (Marshal_rx off rxPacket) b.

(** [func (b *Backend) PublishGatewayStats(mac, stats) error] *)
Definition PublishGatewayStats (mac : EUI64) (off : Z) (stats : GatewayStatsPacket) (b : mqtt)
  : result (option error * mqtt) := publish (topic mac "stats") (Marshal_stats other off stats) b.

(** [func (b *Backend) txPacketHandler(c, msg)]: a payload that does not decode
    is logged and dropped. *)
Definition txPacketHandler (payload : bytes) (b : mqtt) : result mqtt :=
  match json_Unmarshal payload TXPacketBytes_zero with
  | Ok txPacket => Ok (mkMqtt (mq_conn b) (mq_gateways b) (mq_tx b ++ [txPacket]))
  | Err _ => Ok b
  | Panic p => Panic p
  end.

(** The topics of one attempt of [onConnected]. *)
Definition topics (b : mqtt) : list string := (λ mac, topic mac "tx") <$> elements (mq_gateways b).

(** [func (b *Backend) onConnected(c)]: the loop that retries every second, for
    at most [fuel] attempts; [None] when none of them succeeded. *)
Fixpoint onConnected_loop (fuel : nat) (b : mqtt) : option mqtt :=
  match fuel with
  | O => None
  | S fuel =>
      match mqtt_SubscribeMultiple (topics b) (mq_conn b) with
      | (Some _, c) => onConnected_loop fuel (set_conn b c)
      | (None, c) => Some (set_conn b c)
      end
  end.

Definition onConnected (fuel : nat) (b : mqtt) : option mqtt :=
  if decide (mq_gateways b = ∅) then Some b else onConnected_loop fuel b.
End Backend.
Arguments mqtt : clear implicits.

(** ** Topics *)

Lemma string_app_inj_r s t u : s +:+ t = s +:+ u → t = u.
Proof. induction s as [|a s IH]; [done|]. intros [= E]. by apply IH. Qed.

Lemma to_bytes_inj s t : to_bytes s = to_bytes t → s = t.
Proof. intros E. by rewrite <- (to_string_of_bytes s), E, to_string_of_bytes. Qed.

Lemma topic_inj mac what mac' what' :
  topic mac what = topic mac' what' → mac = mac' ∧ what = what'.
Proof.
  unfold topic. intros E. apply string_app_inj_r, (f_equal to_bytes) in E.
  rewrite !to_bytes_app in E.
  apply app_inj_1 in E as [E1 E2].
  - apply to_bytes_inj in E1. split; [by apply EUI64_String_inj|].
    injection E2 as E2. by apply to_bytes_inj.
  - unfold EUI64_String. by rewrite !to_bytes_of_string, !length_hex_encode, !length_eui_bytes.
Qed.

(** ** The contract with the gateway registry *)

Section Laws.
Context {C : Type} `{!MqttClient C} `{!MqttLaws C}.
Implicit Types (b : mqtt C) (mac : EUI64).

(** [onDelete] made of [UnSubscribeGatewayTX], which answers in one go. *)
Definition mqtt_onDelete : waiting_callback (mqtt C) :=
  mkWaitingCallback (λ mac b, let '(e, b) := UnSubscribeGatewayTX mac b in Returned e b) (λ _ _, None).

#[export] Instance mqtt_subscriber : Subscriber (SubscribeGatewayTX (C := C)) mqtt_onDelete mq_gateways.
Proof.
  constructor; intros mac b; [intros b' Hs|intros e b' Hs|cbn|done].
  - unfold SubscribeGatewayTX in Hs. case_match; case_match; by simplify_eq.
  - unfold SubscribeGatewayTX in Hs. case_match; case_match; by simplify_eq.
  - unfold UnSubscribeGatewayTX. by destruct (mqtt_Unsubscribe _ _) as [[e|] c].
Qed.

(** The topics of the registered gateways. *)
Definition tx_topics (G : gset EUI64) : gset string := set_map (λ mac, topic mac "tx") G.

Lemma elem_of_tx_topics G t : t ∈ tx_topics G ↔ ∃ mac, t = topic mac "tx" ∧ mac ∈ G.
Proof. unfold tx_topics. by rewrite elem_of_map. Qed.

Lemma elem_of_tx_topics_topic G mac : topic mac "tx" ∈ tx_topics G ↔ mac ∈ G.
Proof.
  rewrite elem_of_tx_topics. split; [|by exists mac].
  intros (m & E & Hm). by apply topic_inj in E as [-> _].
Qed.

Lemma topics_set b : list_to_set (topics b) = tx_topics (mq_gateways b).
Proof.
  apply set_eq. intros t. rewrite elem_of_list_to_set, elem_of_tx_topics. unfold topics.
  rewrite list_elem_of_fmap. setoid_rewrite elem_of_elements. naive_solver.
Qed.

(** The loop ends with the first attempt that is answered: more fuel makes no
    difference, and [n] failed attempts need [n + 1]. *)
Lemma onConnected_loop_mono fuel fuel' b b' :
  (fuel ≤ fuel')%nat → onConnected_loop fuel b = Some b' → onConnected_loop fuel' b = Some b'.
Proof.
  revert fuel' b. induction fuel as [|fuel IH]; intros [|fuel'] b Hle Hl; [done..|lia|].
  cbn [onConnected_loop] in Hl |- *. destruct (mqtt_SubscribeMultiple _ _) as [[e|] c]; [|done].
  apply IH; [lia|done].
Qed.

Lemma onConnected_loop_answered n b cs :
  length cs = S n →
  (∀ i c c', (i < n)%nat → (mq_conn b :: cs) !! i = Some c → cs !! i = Some c' →
     ∃ e, mqtt_SubscribeMultiple (topics b) c = (Some e, c')) →
  (∀ c c', (mq_conn b :: cs) !! n = Some c → cs !! n = Some c' →
     mqtt_SubscribeMultiple (topics b) c = (None, c')) →
  ∃ c', cs !! n = Some c' ∧ onConnected_loop (S n) b = Some (set_conn b c').
Proof.
  revert b cs. induction n as [|n IH]; intros b [|c cs] [= Hlen] Hfail Hok.
  - exists c. split; [done|]. cbn [onConnected_loop]. by rewrite (Hok (mq_conn b) c eq_refl eq_refl).
  - destruct (Hfail 0%nat (mq_conn b) c ltac:(lia) eq_refl eq_refl) as [e He].
    destruct (IH (set_conn b c) cs Hlen) as (c' & Hc' & Hl).
    { intros i x x' Hi Hx Hx'. apply (Hfail (S i) x x'); [lia|done..]. }
    { intros x x' Hx Hx'. by apply (Hok x x'). }
    exists c'. split; [done|]. remember (S n) as fuel. cbn [onConnected_loop]. by rewrite He.
Qed.

(** An attempt that the broker answers ends the loop, whatever the answer is. *)
Lemma onConnected_loop_spec fuel b b' :
  onConnected_loop fuel b = Some b' →
  mq_gateways b' = mq_gateways b ∧ mq_tx b' = mq_tx b ∧
  mqtt_topics (mq_conn b) ⊆ mqtt_topics (mq_conn b') ⊆ tx_topics (mq_gateways b) ∪ mqtt_topics (mq_conn b) ∧
  (grants_all C → tx_topics (mq_gateways b) ⊆ mqtt_topics (mq_conn b')).
Proof.
  revert b. induction fuel as [|fuel IH]; intros b Hl; [done|]. cbn [onConnected_loop] in Hl.
  destruct (mqtt_SubscribeMultiple _ _) as [[e|] c] eqn:E.
  - apply IH in Hl as (? & ? & Ht & Hg). apply SubscribeMultiple_err in E. cbn in *. by rewrite E in Ht.
  - injection Hl as <-. pose proof (SubscribeMultiple_ok _ _ _ E) as Ht. cbn. rewrite topics_set in Ht.
    split_and!; [done..|apply Ht|apply Ht|]. intros [_ Hm]. apply Hm in E. by rewrite topics_set in E.
Qed.

(** ** The broker's subscriptions follow the registry's *)

(** The backend with a flag: the library has yet to report the connection. *)
Inductive mqtt_step : mqtt C * bool → mqtt C * bool → Prop :=
| ms_subscribe b p mac : mqtt_step (b, p) ((SubscribeGatewayTX mac b).2, p)
| ms_unsubscribe b p mac : mqtt_step (b, p) ((UnSubscribeGatewayTX mac b).2, p)
| ms_publish b p t data e c :
    mqtt_Publish t data (mq_conn b) = (e, c) → mqtt_step (b, p) (set_conn b c, p)
| ms_message b p payload b' : txPacketHandler payload b = Ok b' → mqtt_step (b, p) (b', p)
| ms_lost b p c : mqtt_topics c = ∅ → mqtt_step (b, p) (set_conn b c, true)
| ms_connected b p fuel b' : onConnected fuel b = Some b' → mqtt_step (b, p) (b', false).

Definition topics_ok (s : mqtt C * bool) : Prop :=
  mqtt_topics (mq_conn s.1) ⊆ tx_topics (mq_gateways s.1) ∧
  (grants_all C → s.2 = false → mqtt_topics (mq_conn s.1) = tx_topics (mq_gateways s.1)).

Lemma tx_topics_union G mac : tx_topics ({[mac]} ∪ G) = {[topic mac "tx"]} ∪ tx_topics G.
Proof. unfold tx_topics. by rewrite set_map_union_L, set_map_singleton_L. Qed.

Lemma tx_topics_difference G mac : tx_topics (G ∖ {[mac]}) = tx_topics G ∖ {[topic mac "tx"]}.
Proof.
  apply set_eq. intros t. rewrite elem_of_difference, elem_of_singleton, !elem_of_tx_topics.
  setoid_rewrite elem_of_difference. setoid_rewrite elem_of_singleton. split.
  - intros (m & -> & Hm & Hne). split; [eauto|]. by intros [-> _]%topic_inj.
  - intros [(m & -> & Hm) Hne]. exists m. naive_solver.
Qed.

Lemma topics_ok_step s s' : topics_ok s → mqtt_step s s' → topics_ok s'.
Proof.
  intros [Hsub Heq] Hs.
  destruct Hs as [b p mac|b p mac|b p t data e c Hp|b p payload b' Hm|b p c Hc|b p fuel b' Hc];
    unfold topics_ok in *; cbn [fst snd] in *.
  - unfold SubscribeGatewayTX. destruct (mqtt_Subscribe _ _) as [[e|] c] eqn:E; cbn.
    + apply Subscribe_err in E. by rewrite E.
    + pose proof (Subscribe_ok _ _ _ E) as [Hge Hle]. rewrite tx_topics_union. split; [set_solver|].
      intros Hall Hp. specialize (Heq Hall Hp). apply Hall in E. set_solver.
  - unfold UnSubscribeGatewayTX. destruct (mqtt_Unsubscribe _ _) as [[e|] c] eqn:E; cbn.
    + apply Unsubscribe_err in E. by rewrite E.
    + apply Unsubscribe_ok in E. rewrite E, tx_topics_difference. split; [set_solver|].
      by intros Hall ->%(Heq Hall).
  - apply Publish_topics in Hp. cbn. by rewrite Hp.
  - unfold txPacketHandler in Hm. case_match; by simplify_eq.
  - cbn. rewrite Hc. split; [set_solver|done].
  - unfold onConnected in Hc. destruct (decide (mq_gateways b = ∅)) as [Hg|Hg].
    + injection Hc as <-. rewrite Hg in *. unfold tx_topics in *. rewrite set_map_empty in *. set_solver.
    + apply onConnected_loop_spec in Hc as (Hg' & _ & [Hge Hle] & Hall). rewrite Hg'.
      split; [set_solver|]. intros Hgr _. specialize (Hall Hgr). set_solver.
Qed.

(** C37: Between the calls of the MQTT backend the broker never has it subscribed to
    the topic of a gateway it does not know; if the broker refuses no topic, after
    each completed reconnection it is subscribed to exactly those of its gateways.
    *)
Theorem broker_follows_registry client b s :
  (∀ e c, mqtt_Connect client = (e, c) → mqtt_topics c = ∅) →
  NewBackend client = Ok b → rtc mqtt_step (b, true) s →
  mqtt_topics (mq_conn s.1) ⊆ tx_topics (mq_gateways s.1) ∧
  (grants_all C → s.2 = false →
   ∀ mac, topic mac "tx" ∈ mqtt_topics (mq_conn s.1) ↔ mac ∈ mq_gateways s.1).
Proof.
  intros Hconn Hb Hr. assert (topics_ok (b, true)) as Hok.
  { unfold NewBackend in Hb. destruct (mqtt_Connect client) as [[e|] c] eqn:E; [done|].
    apply (inj Ok) in Hb as <-. pose proof (Hconn _ _ eq_refl). split; cbn; [set_solver|done]. }
  assert (topics_ok s) as [Hsub Heq].
  { clear Hb. remember (b, true) as s0 eqn:E0. clear E0.
    induction Hr as [|s1 s2 s3 Hs _ IH]; [done|]. apply IH. by eapply topics_ok_step. }
  split; [done|]. intros Hall Hp mac. rewrite (Heq Hall Hp). apply elem_of_tx_topics_topic.
Qed.

(** C39: Every well-formed packet, encoded as JSON the way the network server
    encodes it and published to the gateway's topic, is put on the packet channel
    unchanged. *)
Theorem txPacketHandler_delivers p b :
  TXPacket_json p →
  ∃ payload, json_Marshal p = Ok payload ∧
    txPacketHandler payload b = Ok (mkMqtt (mq_conn b) (mq_gateways b) (mq_tx b ++ [p])).
Proof.
  intros Hp. destruct (json_roundtrip (json_fresh := λ p, p = TXPacketBytes_zero) p TXPacketBytes_zero Hp eq_refl) as (payload & Hm & _ & Hu).
  exists payload. split; [done|]. unfold txPacketHandler. by rewrite Hu.
Qed.

(** A message that is not a packet changes nothing, and none crashes the backend. *)
Lemma txPacketHandler_no_panic payload b : no_panic (txPacketHandler payload b).
Proof.
  unfold txPacketHandler. pose proof (TXPacketBytes_Unmarshal_no_panic payload TXPacketBytes_zero) as Hn.
  by destruct (json_Unmarshal _ _).
Qed.
End Laws.

(** ** A broker *)

(** It answers every request, and grants it or refuses the topics. *)
Record broker : Type := mkBroker { broker_topics : gset string; broker_grants : bool }.

#[export] Instance broker_client : MqttClient broker := {
  mqtt_Connect c := (None, mkBroker ∅ (broker_grants c));
  mqtt_Disconnect c := mkBroker ∅ (broker_grants c);
  mqtt_Subscribe t c :=
    (None, mkBroker (if broker_grants c then {[t]} ∪ broker_topics c else broker_topics c) (broker_grants c));
  mqtt_SubscribeMultiple ts c :=
    (None, mkBroker (if broker_grants c then list_to_set ts ∪ broker_topics c else broker_topics c)
             (broker_grants c));
  mqtt_Unsubscribe t c := (None, mkBroker (broker_topics c ∖ {[t]}) (broker_grants c));
  mqtt_Publish t b c := (None, c);
  mqtt_topics := broker_topics
}.

#[export] Instance broker_laws : MqttLaws broker.
Proof.
  constructor; cbn; intros; simplify_eq/=; try done; destruct (broker_grants c); set_solver.
Qed.

Definition demo_eui : EUI64 := mkEUI64 "001" "002" "003" "004" "005" "006" "007" "008".

(** A registered gateway, at a broker. *)
Definition demo_mqtt : mqtt broker := mkMqtt (mkBroker ∅ true) {[demo_eui]} [].

(** At a broker that refuses, the backend knows a gateway it will never hear of. *)
Lemma broker_follows_registry_witness :
  ∃ b b' : mqtt broker, NewBackend (mkBroker ∅ false) = Ok b ∧
    onConnected 1 (SubscribeGatewayTX demo_eui b).2 = Some b' ∧ mq_gateways b' = {[demo_eui]} ∧
    mqtt_topics (mq_conn b') = ∅ ∧ mqtt_topics (mq_conn b') ⊆ tx_topics (mq_gateways b').
Proof.
  assert (∃ b : mqtt broker, NewBackend (mkBroker ∅ false) = Ok b ∧ mq_conn b = mkBroker ∅ false ∧ mq_gateways b = ∅)
    as (b & Hb & Hc & Hg) by (eexists; split; [reflexivity|split; reflexivity]).
  assert (∃ b', onConnected 1 (SubscribeGatewayTX demo_eui b).2 = Some b' ∧
    mq_gateways b' = {[demo_eui]} ∧ mqtt_topics (mq_conn b') = ∅) as (b' & Hb' & Hg' & Ht).
  { unfold onConnected. rewrite decide_False.
    - eexists. split; [reflexivity|]. cbn. rewrite Hc, Hg. cbn. split; [apply union_empty_r_L|reflexivity].
    - cbn. rewrite Hg, union_empty_r_L. apply non_empty_singleton_L. }
  exists b, b'. split; [exact Hb|]. split; [exact Hb'|]. split; [exact Hg'|]. split; [exact Ht|].
  apply (broker_follows_registry (mkBroker ∅ false) b (b', false)).
  - intros e c [= <- <-]. reflexivity.
  - exact Hb.
  - eapply rtc_l; [apply ms_subscribe|]. eapply rtc_once, ms_connected. exact Hb'.
Defined.

(** [{"txInfo": ...}] of a LoRa downlink. *)
Definition demo_packet : TXPacketBytes :=
  mkTXPacketBytes (mkTXInfo demo_eui true 0 868100000 14 (mkDataRate LoRaModulation 7 125 0) "4/5" None)
    (map byte_of_Z [1; 2; 3; 4]).

Lemma txPacketHandler_delivers_witness :
  ∃ payload, json_Marshal demo_packet = Ok payload ∧
    txPacketHandler payload demo_mqtt
    = Ok (mkMqtt (mkBroker ∅ true) {[demo_eui]} [demo_packet]).
Proof.
  apply (txPacketHandler_delivers demo_packet demo_mqtt).
  constructor; vm_compute; reflexivity.
Defined.
