(* ===== verification/MqttPublish.v ===== *)
(** * The bridge over the MQTT broker

    The packet-forwarder backend with the MQTT backend as its network: what it
    hands over is published, and what the subscribers of the broker make of the
    published text. *)

From Stdlib Require Import String Ascii NArith ZArith Lia.
From stdpp Require Import base gmap list strings numbers relations.
From S2P Require Import Prelude GoPrim GoStrconv GoTime GoTimeZone GoFloat GoNet Lorawan GoJson.
From S2P Require Import GoJsonTyped Payload Structs Registry Convert Backend BackendLaws System.
From S2P Require Import GoSync SystemLaws SystemRuns Typing GwPublish Mqtt.

Local Open Scope string_scope.
Local Open Scope list_scope.
Local Open Scope Z_scope.

Section Publish.
Context `{HostZone} {C : Type} `{!MqttClient C} `{!MqttLaws C} (other : result json).
Implicit Types (b : mqtt C).

(** The steps of the MQTT backend that the callbacks do not make. *)
Definition mqtt_environment b b' : Prop :=
  ∃ p p', mqtt_step (b, p) (b', p') ∧ mq_gateways b' = mq_gateways b.

Lemma mqtt_environment_gateways b b' : mqtt_environment b b' → mq_gateways b' = mq_gateways b.
Proof. by intros (p & p' & _ & ?). Qed.

(** A value is published, and its reader gets [v'] from the payload; or it has a
    time that JSON cannot show, and nothing is published. *)
Definition delivered {A} (ok : bool) (t : string) (call : result (option error * mqtt C))
  (read : bytes → result A) (v' : A) b : Prop :=
  if ok then ∃ payload, call = publish t (Ok payload) b ∧ read payload = Ok v'
  else call = Ok (Some time_error, b).

Lemma delivered_spec {A} (ok : bool) t (m : result bytes) (read : bytes → result A) v' b :
  (if ok then ∃ payload, m = Ok payload ∧ read payload = Ok v' else m = Err time_error) →
  delivered ok t (publish t m b) read v' b.
Proof.
  unfold delivered. destruct ok; [|by intros ->]. intros (payload & -> & Hr). by exists payload.
Qed.

(** C23: Over the MQTT backend, whatever the gateways send, each packet and
    statistic handed over is published on its gateway's topic as JSON that decodes
    to it (custom lists untyped), in a zone with a whole-minute offset, unless its
    year there is not of four digits: then an error and nothing published. *)
Theorem published_json_decodes client resolved listen now b0 s0 s off b :
  Mqtt.NewBackend client = Ok b0 →
  System.NewBackend resolved listen SubscribeGatewayTX mqtt_onDelete now b0 = Ok s0 →
  reachable mqtt_environment s0 s → zone_ok off →
  Forall (λ rx, let mac := RXInfo_MAC (RXPacket_RXInfo rx) in
    delivered (year_ok off (RXInfo_Time (RXPacket_RXInfo rx))) (topic mac "rx")
      (PublishGatewayRX mac off rx b) Unmarshal_rx rx b) (sys_rx s) ∧
  Forall (λ st, delivered (year_ok off (Stats_Time st)) (topic (Stats_MAC st) "stats")
      (PublishGatewayStats other (Stats_MAC st) off st b) Unmarshal_stats (stats_received st) b)
    (sys_stats s).
Proof.
  intros Hb Hn Hr Hz.
  assert (mq_gateways b0 = ∅) as H0.
  { unfold Mqtt.NewBackend in Hb. destruct (mqtt_Connect client) as [[e|] c]; [done|].
    by apply (inj Ok) in Hb as <-. }
  destruct (published_packets_genuine SubscribeGatewayTX mqtt_onDelete mq_gateways
    mqtt_environment mqtt_environment_gateways _ _ _ _ _ H0 Hn s Hr) as [Hrx Hst].
  split; (eapply List.Forall_impl; [|exact Hrx || exact Hst]).
  - intros rx [Hx _]. by apply delivered_spec, Marshal_rx_spec; [eapply rx_ok_typed|].
  - intros st Hx. by apply delivered_spec, Marshal_stats_spec; [eapply stats_ok_typed|].
Qed.
End Publish.

(** ** A run *)

#[local] Existing Instance utc_host.

Definition mqtt_backend : mqtt broker := mkMqtt (mkBroker ∅ true) ∅ [].

Definition mqtt_system : system (mqtt broker) :=
  mkSystem (mkGateways ∅ (Some SubscribeGatewayTX) (Some mqtt_onDelete)) mqtt_backend 0 Asleep []
    (PRet tt) WNew SNew wg_zero CIdle false false false None [] [] [] [] [] 0 0.

Lemma demo_connected : Mqtt.NewBackend (mkBroker ∅ true) = Ok mqtt_backend.
Proof. reflexivity. Qed.

Lemma mqtt_system_started :
  System.NewBackend (Ok demo_addr) (λ _, Ok tt) SubscribeGatewayTX mqtt_onDelete 0 mqtt_backend
  = Ok mqtt_system.
Proof. reflexivity. Qed.

(** A frame and statistics are handed over, the gateway's topic is subscribed. *)
Definition demo_handed (s : system (mqtt broker)) : bool :=
  bool_decide (length (sys_rx s) = 1%nat) && bool_decide (length (sys_stats s) = 1%nat)
  && bool_decide (mq_gateways (sys_world s) = {[demo_mac]}).

Lemma published_json_decodes_witness :
  ∃ s rx payload, reachable mqtt_environment mqtt_system s ∧ sys_rx s = [rx] ∧
    PublishGatewayRX demo_mac 3600 rx mqtt_backend
      = publish (topic demo_mac "rx") (Ok payload) mqtt_backend ∧
    Unmarshal_rx payload = Ok rx.
Proof.
  assert (match run_actions mqtt_system demo_uplink with Some s => demo_handed s
    | None => false end = true) as Hd by (vm_compute; reflexivity).
  assert (match run_actions mqtt_system demo_uplink with
    | Some s => forallb (λ rx, year_ok 3600 (RXInfo_Time (RXPacket_RXInfo rx))
                  && bool_decide (RXInfo_MAC (RXPacket_RXInfo rx) = demo_mac)) (sys_rx s)
    | None => false end = true) as Hy by (vm_compute; reflexivity).
  destruct (run_actions mqtt_system demo_uplink) as [s|] eqn:Er; [|discriminate].
  assert (reachable mqtt_environment mqtt_system s) as Hr
    by (eapply run_actions_reachable; [apply reachable_init|exact Er]).
  destruct (published_json_decodes (Err json_error) (mkBroker ∅ true) (Ok demo_addr) (λ _, Ok tt) 0
    mqtt_backend mqtt_system s 3600 mqtt_backend demo_connected mqtt_system_started Hr ltac:(split; [done|lia])) as [Hrx _].
  apply andb_true_iff in Hd as [[H1%bool_decide_eq_true_1 _]%andb_true_iff _].
  destruct (sys_rx s) as [|rx [|]] eqn:Erx; try discriminate H1. cbn [forallb] in Hy.
  apply andb_true_iff in Hy as [[Hy Hm%bool_decide_eq_true_1]%andb_true_iff _].
  apply List.Forall_inv in Hrx. cbv zeta in Hrx. unfold delivered in Hrx. rewrite Hy, Hm in Hrx.
  destruct Hrx as (payload & Hp & Hu). exists s, rx, payload.
  split; [exact Hr|]. split; [exact Erx|]. split; [exact Hp|exact Hu].
Defined.

(** The text of a received packet, one hour east of UTC. *)
Example published_text :
  match Marshal_rx 3600 (mkRXPacketBytes
    (mkRXInfo demo_mac 1364746877528002000 3512348611 866349812 2 0 1 "4/6" (-35) (dec 51 (-1)) 4
      (mkDataRate LoRaModulation 7 125 0)) (map byte_of_Z [1; 2; 3; 4])) with
  | Ok b => bool_decide (b = quoted "{'rxInfo':{'mac':'0102030405060708','time':'2013-03-31T17:21:17.528002+01:00','timestamp':3512348611,'frequency':866349812,'channel':2,'rfChain':0,'crcStatus':1,'codeRate':'4/6','rssi':-35,'loRaSNR':5.1,'size':4,'dataRate':{'modulation':'LORA','spreadFactor':7,'bandwidth':125}},'phyPayload':'AQIDBA=='}")
  | _ => false
  end = true.
Proof. vm_compute. reflexivity. Qed.
