(* ===== verification/Gitter.v ===== *)
(** * The chat widget of the documentation

    [docs/static/js/gitter.js]: three nested assignments to properties of the
    page's global object.  JavaScript objects are references into a store, so
    the model is an evaluator over a store of objects, and the script an
    expression of it. *)

From Stdlib Require Import String Ascii NArith ZArith Lia.
From stdpp Require Import base gmap list strings numbers.
From S2P Require Import Prelude.

Local Open Scope string_scope.
Local Open Scope list_scope.

(** ** Objects *)

Abbreviation ref := nat.

Inductive value : Type :=
| VUndefined
| VString (s : string)
| VObject (r : ref).

#[export] Instance value_eq_dec : EqDecision value.
Proof. solve_decision. Defined.

Abbreviation object := (gmap string value).

(** The store: the objects in the order of their creation. *)
Abbreviation store := (list object).

Inductive expr : Type :=
| EVar (x : string)
| EString (s : string)
| EObject (props : list (string * string))
| EMember (e : expr) (p : string)
| EAssign (e : expr) (p : string) (rhs : expr).

Definition get (st : store) (r : ref) (p : string) : option value :=
  o ← st !! r; Some (default VUndefined (o !! p)).

Definition put (st : store) (r : ref) (p : string) (v : value) : store := alter (<[p := v]>) r st.

(** Reading or writing a property of something that is not an object ends the
    script ([None]).  In [e.p = rhs] the object [e] is evaluated before [rhs],
    and the value of the expression is that of [rhs]. *)
Fixpoint eval (env : string → value) (e : expr) (st : store) : option (value * store) :=
  match e with
  | EVar x => Some (env x, st)
  | EString s => Some (VString s, st)
  | EObject props =>
      Some (VObject (length st),
            st ++ [list_to_map ((λ '(p, s), (p, VString s)) <$> props)])
  | EMember e p =>
      '(v, st) ← eval env e st;
      match v with
      | VObject r => v ← get st r p; Some (v, st)
      | _ => None
      end
  | EAssign e p rhs =>
      '(v, st) ← eval env e st;
      match v with
      | VObject r =>
          '(x, st) ← eval env rhs st;
          Some (x, put st r p x)
      | _ => None
      end
  end.

(** ** The script *)

(** [((window.gitter = {}).chat = {}).options = { room: '...' }] *)
Definition gitter_script : expr :=
  EAssign
    (EAssign (EAssign (EVar "window") "gitter" (EObject [])) "chat" (EObject []))
    "options" (EObject [("room", "loraserver/lora-gateway-bridge")]).

Definition browser (window : ref) : string → value :=
  λ x, if bool_decide (x = "window") then VObject window else VUndefined.

(** The path the widget reads. *)
Definition gitter_room : expr :=
  EMember (EMember (EMember (EMember (EVar "window") "gitter") "chat") "options") "room".

Lemma put_old st l r p v : (r < length st)%nat → put (st ++ l) r p v = put st r p v ++ l.
Proof. apply alter_app_l. Qed.

Lemma put_new st l r p v : put (st ++ l) (length st + r) p v = st ++ put l r p v.
Proof. apply alter_app_r. Qed.

Lemma length_put st r p v : length (put st r p v) = length st.
Proof. apply length_alter. Qed.

(** The store the script leaves: three new objects, and [window] pointing to
    the first of them. *)
Definition gitter_objects (n : ref) : store :=
  [ <["chat" := VObject (S n)]> ∅;
    <["options" := VObject (S (S n))]> ∅;
    <["room" := VString "loraserver/lora-gateway-bridge"]> ∅ ].

Lemma gitter_script_eval st window :
  (window < length st)%nat →
  eval (browser window) gitter_script st
  = Some (VObject (S (S (length st))),
          put st window "gitter" (VObject (length st)) ++ gitter_objects (length st)).
Proof.
  intros Hlt. unfold gitter_script, browser. cbn [eval].
  rewrite bool_decide_true by done. cbn [mbind option_bind fmap list_fmap list_to_map foldr].
  rewrite (put_old st) by done. set (st1 := put st window "gitter" (VObject (length st))).
  assert (length st = length st1) as Hl by (symmetry; apply length_put). rewrite Hl.
  set (n := length st1). rewrite <- app_assoc. cbn [app].
  assert (∀ l k p v, put (st1 ++ l) (n + k) p v = st1 ++ put l k p v) as Hput by (intros; apply put_new).
  assert (∀ l, length (st1 ++ l) = (n + length l)%nat) as Hlen by (intros; apply length_app).
  assert (∀ v, put (st1 ++ [∅; ∅]) n "chat" v = st1 ++ [<["chat" := v]> ∅; ∅]) as ->.
  { intros v. by rewrite <- (Nat.add_0_r n), Hput. }
  rewrite !Hlen, <- app_assoc, Hput. cbn [length].
  replace (n + 2)%nat with (S (S n)) by lia. by replace (n + 1)%nat with (S n) by lia.
Qed.

(** The objects that were there, and what they hold besides. *)
Lemma put_lookup st r p v i :
  put st r p v !! i = if decide (i = r) then (λ o : object, <[p := v]> o) <$> st !! i else st !! i.
Proof.
  unfold put. case_decide; subst; [by rewrite list_lookup_alter_eq|by rewrite list_lookup_alter_ne].
Qed.

(** C40: On every page the script gives window.gitter.chat.options.room its value,
    creating three objects and changing nothing but the property gitter of window.
    *)
Theorem gitter_script_sets_room st window w :
  st !! window = Some w →
  ∃ x st', eval (browser window) gitter_script st = Some (x, st') ∧
    eval (browser window) gitter_room st' = Some (VString "loraserver/lora-gateway-bridge", st') ∧
    (∀ i o, i ≠ window → st !! i = Some o → st' !! i = Some o) ∧
    (∃ w', st' !! window = Some w' ∧ ∀ p, p ≠ "gitter" → w' !! p = w !! p) ∧
    length st' = (length st + 3)%nat.
Proof.
  intros Hw. pose proof (lookup_lt_Some _ _ _ Hw) as Hlt.
  rewrite (gitter_script_eval st window Hlt). do 2 eexists. split; [reflexivity|].
  set (st1 := put st window "gitter" (VObject (length st))).
  assert (length st1 = length st) as Hl by apply length_put.
  assert (st1 !! window = Some (<["gitter" := VObject (length st)]> w)) as Hw1.
  { unfold st1. by rewrite put_lookup, decide_True, Hw by done. }
  assert (∀ k, (st1 ++ gitter_objects (length st)) !! (length st + k)%nat = gitter_objects (length st) !! k)
    as Hnew by (intros k; rewrite lookup_app_r by lia; f_equal; lia).
  split_and!.
  - set (st' := st1 ++ gitter_objects (length st)).
    assert (∀ r o p v, st' !! r = Some o → o !! p = Some v → get st' r p = Some v) as Hget
      by (intros r o p v Hr Hp; unfold get; by rewrite Hr; cbn; rewrite Hp).
    assert (∀ env e p v r, eval env e st' = Some (VObject r, st') → get st' r p = Some v →
      eval env (EMember e p) st' = Some (v, st')) as Hmember
      by (intros env e p v r He Hv; cbn [eval]; rewrite He; cbn [mbind option_bind]; by rewrite Hv).
    assert (∀ k i o, (length st + k)%nat = i → gitter_objects (length st) !! k = Some o →
      st' !! i = Some o) as Hnew' by (intros k i o <- Hk; unfold st'; by rewrite Hnew).
    unfold gitter_room.
    eapply Hmember; [eapply Hmember; [eapply Hmember; [eapply Hmember; [reflexivity|]|]|]|].
    + eapply Hget; [unfold st'; rewrite lookup_app_l by lia; exact Hw1|apply lookup_insert_eq].
    + eapply Hget; [exact (Hnew' 0%nat _ _ (Nat.add_0_r _) eq_refl)|apply lookup_insert_eq].
    + eapply Hget; [exact (Hnew' 1%nat _ _ (Nat.add_1_r _) eq_refl)|apply lookup_insert_eq].
    + eapply Hget; [exact (Hnew' 2%nat _ _ (Nat.add_comm _ 2) eq_refl)|apply lookup_insert_eq].
  - intros i o Hne Hi. rewrite lookup_app_l by (rewrite Hl; by apply lookup_lt_Some in Hi).
    unfold st1. by rewrite put_lookup, decide_False.
  - eexists. split; [by rewrite lookup_app_l, Hw1 by lia|]. intros p Hp. by rewrite lookup_insert_ne.
  - rewrite length_app, Hl. done.
Qed.

(** A page whose [window] is the only object. *)
Lemma gitter_script_sets_room_witness :
  ∃ x st', eval (browser 0) gitter_script [∅] = Some (x, st') ∧
    eval (browser 0) gitter_room st' = Some (VString "loraserver/lora-gateway-bridge", st').
Proof.
  destruct (gitter_script_sets_room [∅] 0%nat ∅ eq_refl) as (x & st' & H1 & H2 & _).
  exists x, st'. split; [exact H1|exact H2].
Defined.
